(** * PyPSA 0.1: network tables, power flow and linear optimal power flow

    A shallow embedding of [components.py], [pf.py] and [opf.py].

    - Python floats are the carrier of an [Arith] structure, so that every
      function is written once and can be run on IEEE binary64 numbers
      ([float_arith]) and reasoned about in exact arithmetic ([R_arith]).
    - pandas DataFrames are ordered tables of named rows; the per-snapshot
      DataFrames attached to them ([setattr(df,k,series_df)]) are total maps.
    - Python exceptions are the [Raise] results of an error monad.
    - What lives outside the three source files (scipy, numpy, networkx,
      pyomo's solver, the defaults of [descriptors.py]) is an [Externals]
      structure. *)

From Stdlib Require Import List String ZArith Lia Bool.
From Stdlib Require Floats Reals Lra DecimalString.
Import ListNotations.
Open Scope string_scope.
Open Scope Z_scope.
Open Scope list_scope.

Set Implicit Arguments.
Set Warnings "-register-all".

(** ** Numbers *)

(** The operations of Python/numpy floats that the sources use. *)
Class Arith : Type := {
  num : Type;
  of_Z : Z -> num;                 (* integer literals, int -> float *)
  nan : num;                       (* np.nan *)
  fadd : num -> num -> num;
  fsub : num -> num -> num;
  fmul : num -> num -> num;
  fdiv : num -> num -> num;
  fopp : num -> num;
  fabs : num -> num;               (* abs *)
  feqb : num -> num -> bool;        (* == *)
  fltb : num -> num -> bool;        (* <  *)
  fleb : num -> num -> bool;        (* <= *)
  isnull : num -> bool             (* pd.isnull *)
}.

(** [a > b] and [a != b] as Python evaluates them. *)
Definition gtb {A : Arith} (a b : num) : bool := fltb b a.
Definition neqb {A : Arith} (a b : num) : bool := negb (feqb a b).

(** numpy evaluates [x**2] on an array as [x*x]. *)
Definition square {A : Arith} (x : num) : num := fmul x x.

(** The builtin [sum]: left to right, starting from the integer 0. *)
Definition pysum {A : Arith} (xs : list num) : num :=
  fold_left fadd xs (of_Z 0).

(** [-sum(xs)]: the sum of no element is the integer 0, whose negation is
    again 0; otherwise the float sum is negated. *)
Definition neg_pysum {A : Arith} (xs : list num) : num :=
  match xs with
  | [] => of_Z 0
  | _ => fopp (pysum xs)
  end.

(** IEEE binary64, the numbers the program runs on. *)
Definition float_of_Z (z : Z) : PrimFloat.float :=
  match z with
  | Z0 => PrimFloat.zero
  | Zpos _ => PrimFloat.of_uint63 (Uint63.of_Z z)
  | Zneg p => PrimFloat.opp (PrimFloat.of_uint63 (Uint63.of_Z (Zpos p)))
  end.

Definition float_arith : Arith := {|
  num := PrimFloat.float;
  of_Z := float_of_Z;
  nan := PrimFloat.nan;
  fadd := PrimFloat.add;
  fsub := PrimFloat.sub;
  fmul := PrimFloat.mul;
  fdiv := PrimFloat.div;
  fopp := PrimFloat.opp;
  fabs := PrimFloat.abs;
  feqb := PrimFloat.eqb;
  fltb := PrimFloat.ltb;
  fleb := PrimFloat.leb;
  isnull := PrimFloat.is_nan
|}.

(** Exact real arithmetic.  It has no NaN: a missing value reads as 0 and
    [pd.isnull] never holds. *)
Definition R_arith : Arith := {|
  num := Rdefinitions.R;
  of_Z := Rdefinitions.IZR;
  nan := Rdefinitions.IZR 0;
  fadd := Rdefinitions.Rplus;
  fsub := Rdefinitions.Rminus;
  fmul := Rdefinitions.Rmult;
  fdiv := Rdefinitions.Rdiv;
  fopp := Rdefinitions.Ropp;
  fabs := Rbasic_fun.Rabs;
  feqb := fun a b => if RIneq.Req_dec_T a b then true else false;
  fltb := fun a b => if RIneq.Rlt_dec a b then true else false;
  fleb := fun a b => if RIneq.Rle_dec a b then true else false;
  isnull := fun _ => false
|}.

(** numpy's complex128 is a pair of floats (real part, imaginary part). *)
Definition cnum {A : Arith} : Type := (num * num)%type.

(** Complex operations that numpy computes with algorithms of its own. *)
Class ComplexOps (A : Arith) : Type := {
  cmul : cnum -> cnum -> cnum;
  cdiv : cnum -> cnum -> cnum;
  cexp : cnum -> cnum;           (* np.exp *)
  cabs : cnum -> num;            (* abs *)
  np_pi : num                    (* np.pi *)
}.

(** The componentwise ones. *)
Definition of_real {A : Arith} (x : num) : cnum := (x, of_Z 0).
Definition cI {A : Arith} : cnum := (of_Z 0, of_Z 1).
Definition re {A : Arith} (z : cnum) : num := fst z.
Definition im {A : Arith} (z : cnum) : num := snd z.
Definition cadd {A : Arith} (a b : cnum) : cnum := (fadd (re a) (re b), fadd (im a) (im b)).
Definition csub {A : Arith} (a b : cnum) : cnum := (fsub (re a) (re b), fsub (im a) (im b)).
Definition copp {A : Arith} (a : cnum) : cnum := (fopp (re a), fopp (im a)).
Definition conj {A : Arith} (a : cnum) : cnum := (re a, fopp (im a)).

(** Exact complex arithmetic over the reals. *)
Definition R_cinv (z : @cnum R_arith) : @cnum R_arith :=
  let n := Rdefinitions.Rplus (Rdefinitions.Rmult (fst z) (fst z)) (Rdefinitions.Rmult (snd z) (snd z)) in
  (Rdefinitions.Rdiv (fst z) n, Rdefinitions.Rdiv (Rdefinitions.Ropp (snd z)) n).

Definition R_cmul (a b : @cnum R_arith) : @cnum R_arith :=
  (Rdefinitions.Rminus (Rdefinitions.Rmult (fst a) (fst b)) (Rdefinitions.Rmult (snd a) (snd b)),
   Rdefinitions.Rplus (Rdefinitions.Rmult (fst a) (snd b)) (Rdefinitions.Rmult (snd a) (fst b))).

Definition R_complex : ComplexOps R_arith := {|
  cmul := R_cmul;
  cdiv := fun a b => R_cmul a (R_cinv b);
  cexp := fun z : @cnum R_arith => (Rdefinitions.Rmult (Rtrigo_def.exp (fst z)) (Rtrigo_def.cos (snd z)),
                    Rdefinitions.Rmult (Rtrigo_def.exp (fst z)) (Rtrigo_def.sin (snd z)));
  cabs := fun z : @cnum R_arith => R_sqrt.sqrt (Rdefinitions.Rplus (Rdefinitions.Rmult (fst z) (fst z))
                                                   (Rdefinitions.Rmult (snd z) (snd z)));
  np_pi := Rtrigo1.PI
|}.

(** ** Exceptions *)

Inductive exn : Type :=
| AttributeError (what : string)
| KeyError (what : string)
| IndexError
| ValueError
| NameError (what : string)
| NotImplementedError (what : string).

Inductive result (T : Type) : Type :=
| Ok (x : T)
| Raise (e : exn).
Arguments Ok {T} x.
Arguments Raise {T} e.

Definition bind {T U : Type} (c : result T) (k : T -> result U) : result U :=
  match c with
  | Ok x => k x
  | Raise e => Raise e
  end.

Notation "x <- c ;; k" := (bind c (fun x => k))
  (at level 61, c at next level, right associativity).

(** A loop whose body may raise. *)
Fixpoint for_each {S T : Type} (body : S -> T -> result S) (xs : list T) (s : S)
  : result S :=
  match xs with
  | [] => Ok s
  | x :: rest => s' <- body s x ;; for_each body rest s'
  end.

(** ** Association lists with string keys *)

Section Assoc.
Variable V : Type.

Fixpoint assoc (k : string) (l : list (string * V)) : option V :=
  match l with
  | [] => None
  | (k', v) :: rest => if String.eqb k k' then Some v else assoc k rest
  end.

(** Overwrite the binding of [k] where it stands, or add it at the end. *)
Fixpoint assoc_set (k : string) (v : V) (l : list (string * V))
  : list (string * V) :=
  match l with
  | [] => [(k, v)]
  | (k', v') :: rest =>
      if String.eqb k k' then (k, v) :: rest
      else (k', v') :: assoc_set k v rest
  end.

Definition assoc_del (k : string) (l : list (string * V)) : list (string * V) :=
  filter (fun kv => negb (String.eqb k (fst kv))) l.

End Assoc.

Definition mem (k : string) (ks : list string) : bool :=
  existsb (String.eqb k) ks.

(** ** Component classes *)

(** The classes for which [Network.build_dataframes] creates a table. *)
Inductive component_class : Type :=
| Load | ShuntImpedance | SubNetwork | Generator | Line | Bus
| StorageUnit | TransportLink | Transformer | Source | Converter.

Definition class_eq_dec (a b : component_class) : {a = b} + {a <> b}.
Proof. decide equality. Defined.

Definition class_eqb (a b : component_class) : bool :=
  if class_eq_dec a b then true else false.

Definition component_classes : list component_class :=
  [Load; ShuntImpedance; SubNetwork; Generator; Line; Bus;
   StorageUnit; TransportLink; Transformer; Source; Converter].

(** [cls.__name__] *)
Definition class_name (c : component_class) : string :=
  match c with
  | Load => "Load" | ShuntImpedance => "ShuntImpedance"
  | SubNetwork => "SubNetwork" | Generator => "Generator" | Line => "Line"
  | Bus => "Bus" | StorageUnit => "StorageUnit"
  | TransportLink => "TransportLink" | Transformer => "Transformer"
  | Source => "Source" | Converter => "Converter"
  end.

(** [cls.list_name] *)
Definition list_name (c : component_class) : string :=
  match c with
  | Load => "loads" | ShuntImpedance => "shunt_impedances"
  | SubNetwork => "sub_networks" | Generator => "generators"
  | Line => "lines" | Bus => "buses" | StorageUnit => "storage_units"
  | TransportLink => "transport_links" | Transformer => "transformers"
  | Source => "sources" | Converter => "converters"
  end.

(** What a name of the module [components.py] is bound to, as far as
    [Network.add] tells the difference. *)
Inductive module_global : Type :=
| TableClass (c : component_class)   (* a class that owns a table *)
| BranchClass                        (* Branch: its list_name is the property Network.branches *)
| NoListName.                        (* any other class, module, function or string *)

(** The other names bound at module level: the classes without table, the
    imports, the assignments and what every module has. *)
Definition other_globals : list string :=
  ["Basic"; "Common"; "SubStation"; "Region"; "OnePort"; "ThreePort";
   "ThreeTransformer"; "LineType"; "Network";
   "print_function"; "division"; "StrictVersion"; "nx"; "np"; "pd"; "chain";
   "itemgetter"; "Float"; "String"; "Series"; "GraphDesc"; "OrderedGraph";
   "Integer"; "Boolean"; "get_simple_descriptors"; "get_series_descriptors";
   "export_to_csv_folder"; "import_from_csv_folder"; "import_from_pypower_ppc";
   "inspect"; "sys"; "__version__"; "__author__"; "__copyright__";
   "__name__"; "__doc__"; "__file__"; "__package__"; "__builtins__"].

(** [globals()[class_name]]; [None] is the KeyError of a name that the
    module does not bind. *)
Definition lookup_class (name : string) : option module_global :=
  match find (fun c => String.eqb name (class_name c)) component_classes with
  | Some c => Some (TableClass c)
  | None =>
      if String.eqb name "Branch" then Some BranchClass
      else if existsb (String.eqb name) other_globals then Some NoListName
      else None
  end.

(** [str(i)] for a non-negative integer. *)
Definition str_of_nat (i : nat) : string :=
  DecimalString.NilEmpty.string_of_uint (Nat.to_uint i).

(** * The data model *)

Section Embedding.
Context {A : Arith}.

(** ** Values of table cells *)

Inductive pyval : Type :=
| VFloat (x : num)
| VStr (s : string)
| VBool (b : bool)
| VObj (c : component_class) (name : string)   (* the "obj" column *)
| VNone.

(** A missing cell is [np.nan] in pandas. *)
Definition NaN : pyval := VFloat nan.

(** [==] on cells, as a boolean mask computes it. *)
Definition pyval_eqb (a b : pyval) : bool :=
  match a, b with
  | VFloat x, VFloat y => feqb x y
  | VStr s, VStr t => String.eqb s t
  | VBool x, VBool y => Bool.eqb x y
  | VObj c n, VObj c' n' => class_eqb c c' && String.eqb n n'
  | VNone, VNone => true
  | _, _ => false
  end.

Definition as_num (v : pyval) : num :=
  match v with
  | VFloat x => x
  | _ => nan
  end.

Definition as_str (v : pyval) : string :=
  match v with
  | VStr s => s
  | _ => ""
  end.

Definition as_bool (v : pyval) : bool :=
  match v with
  | VBool b => b
  | _ => false
  end.

(** ** DataFrames *)

(** A row maps column names to cells. *)
Definition row : Type := list (string * pyval).

Definition row_get (r : row) (col : string) : pyval :=
  match assoc col r with
  | Some v => v
  | None => NaN
  end.

(** A component table: its columns, its rows in index order, and the
    per-snapshot tables attached to it, [series attr snapshot name]. *)
Record DataFrame : Type := {
  columns : list string;
  rows : list (string * row);
  series : string -> string -> string -> num
}.

Definition index (df : DataFrame) : list string := map fst (rows df).

(** [df.loc[name, col]] *)
Definition cell (df : DataFrame) (name col : string) : pyval :=
  match assoc name (rows df) with
  | Some r => row_get r col
  | None => NaN
  end.

Definition with_rows (rs : list (string * row)) (df : DataFrame) : DataFrame :=
  {| columns := columns df; rows := rs; series := series df |}.

Definition with_columns (cs : list string) (df : DataFrame) : DataFrame :=
  {| columns := cs; rows := rows df; series := series df |}.

Definition add_column (col : string) (cs : list string) : list string :=
  if mem col cs then cs else cs ++ [col].

(** [df.loc[name, col] = v]: every row labelled [name] is written; a label
    that is not in the index is appended, its other cells missing. *)
Definition set_loc (df : DataFrame) (name col : string) (v : pyval) : DataFrame :=
  let rs :=
    if mem name (index df)
    then map (fun nr => (fst nr, if String.eqb name (fst nr)
                                 then assoc_set col v (snd nr) else snd nr)) (rows df)
    else rows df ++ [(name, [(col, v)])] in
  {| columns := add_column col (columns df); rows := rs; series := series df |}.

(** [df[col] = f(row)], row by row. *)
Definition set_column (df : DataFrame) (col : string) (f : string -> row -> pyval)
  : DataFrame :=
  {| columns := add_column col (columns df);
     rows := map (fun nr => (fst nr, assoc_set col (f (fst nr) (snd nr)) (snd nr))) (rows df);
     series := series df |}.

(** [df.drop([col], axis=1, inplace=True)] *)
Definition drop_column (df : DataFrame) (col : string) : DataFrame :=
  {| columns := filter (fun c => negb (String.eqb col c)) (columns df);
     rows := map (fun nr => (fst nr, assoc_del col (snd nr))) (rows df);
     series := series df |}.

(** [df.drop([name], inplace=True)] *)
Definition drop_row (df : DataFrame) (name : string) : DataFrame :=
  with_rows (assoc_del name (rows df)) df.

(** [df[mask]] *)
Definition select (p : string -> row -> bool) (rs : list (string * row))
  : list (string * row) :=
  filter (fun nr => p (fst nr) (snd nr)) rs.

(** [df.attr.loc[snapshot, name] = v] *)
Definition set_series (df : DataFrame) (attr snapshot name : string) (v : num)
  : DataFrame :=
  {| columns := columns df; rows := rows df;
     series := fun a t n =>
       if String.eqb a attr && String.eqb t snapshot && String.eqb n name
       then v else series df a t n |}.

(** [getattr(df,attr)[name] = v]: the whole column of [name]. *)
Definition set_series_column (df : DataFrame) (attr name : string) (v : num)
  : DataFrame :=
  {| columns := columns df; rows := rows df;
     series := fun a t n =>
       if String.eqb a attr && String.eqb n name then v else series df a t n |}.

(** [df.attr.loc[snapshot] = f]: the row of one snapshot, column by column. *)
Definition set_series_row (df : DataFrame) (attr snapshot : string)
  (f : string -> num) : DataFrame :=
  {| columns := columns df; rows := rows df;
     series := fun a t n =>
       if String.eqb a attr && String.eqb t snapshot
       then f n else series df a t n |}.

(** ** Sparse and dense matrices *)

(** [csr_matrix((data,(i,j)))]: entries given more than once add up. *)
Definition matrix (T : Type) : Type := list (nat * nat * T).

Definition csr_matrix {T : Type} (data : list T) (ij : list nat * list nat)
  : matrix T :=
  combine (combine (fst ij) (snd ij)) data.

Definition transpose {T : Type} (M : matrix T) : matrix T :=
  map (fun e => (snd (fst e), fst (fst e), snd e)) M.

Definition mat_map {T U : Type} (f : T -> U) (M : matrix T) : matrix U :=
  map (fun e => (fst e, f (snd e))) M.

(** The product of two sparse matrices. *)
Definition mat_mul {T : Type} (mul : T -> T -> T) (P Q : matrix T) : matrix T :=
  flat_map (fun e =>
    flat_map (fun e' =>
      if Nat.eqb (snd (fst e)) (fst (fst e'))
      then [(fst (fst e), snd (fst e'), mul (snd e) (snd e'))] else []) Q) P.

(** The sum of two sparse matrices. *)
Definition mat_add {T : Type} (P Q : matrix T) : matrix T := P ++ Q.

(** The values stored at place [(i,j)]. *)
Definition at_place {T : Type} (M : matrix T) (i j : nat) : list T :=
  map snd (filter (fun e => Nat.eqb (fst (fst e)) i && Nat.eqb (snd (fst e)) j) M).

(** [M[r:, c:]] *)
Definition slice_from {T : Type} (r c : nat) (M : matrix T) : matrix T :=
  map (fun e => ((fst (fst e) - r)%nat, (snd (fst e) - c)%nat, snd e))
      (filter (fun e => Nat.leb r (fst (fst e)) && Nat.leb c (snd (fst e))) M).

(** A sparse matrix with the rows and columns moved down and right. *)
Definition shift {T : Type} (r c : nat) (M : matrix T) : matrix T :=
  map (fun e => ((fst (fst e) + r)%nat, (snd (fst e) + c)%nat, snd e)) M.

(** The number of rows scipy infers when no shape is given. *)
Definition n_rows {T : Type} (M : matrix T) : nat :=
  fold_left (fun m e => Nat.max m (S (fst (fst e)))) M O.

(** [M.dot(v)] and [M * D] for a dense [D], row by row. *)
Definition mat_vec (M : matrix num) (rows : nat) (v : list num) : list num :=
  map (fun i =>
         pysum (map (fun e => fmul (snd e) (nth (snd (fst e)) v (of_Z 0)))
                    (filter (fun e => Nat.eqb (fst (fst e)) i) M)))
      (seq 0 rows).

Definition mat_dense (M : matrix num) (D : list (list num)) : list (list num) :=
  map (fun i =>
         map (fun j =>
                pysum (map (fun e => fmul (snd e)
                                       (nth j (nth (snd (fst e)) D []) (of_Z 0)))
                           (filter (fun e => Nat.eqb (fst (fst e)) i) M)))
             (seq 0 (List.length (hd [] D))))
      (seq 0 (n_rows M)).

Definition diagonal {T : Type} (d : list T) : matrix T :=
  csr_matrix d (seq 0 (List.length d), seq 0 (List.length d)).

(** ** The linear program handed to pyomo *)

(** Expressions over the components of the model: [Ref c idx] is
    [model.c[idx]], a variable or a named expression. *)
Inductive expr : Type :=
| Num (x : num)
| Ref (component : string) (idx : list string)
| Add (a b : expr)
| Sub (a b : expr)
| Mul (a b : expr)
| Div (a b : expr)
| Pow (a b : expr)
| Neg (a : expr)
| Sum (terms : list expr).

Inductive relation : Type :=
| EqC (l r : expr)          (* l == r *)
| LeC (l r : expr)          (* l <= r *)
| GeC (l r : expr)          (* l >= r *)
| Feasible.                 (* Constraint.Feasible: no constraint *)

Inductive domain : Type := Reals | NonNegativeReals.

Definition bounds : Type := (option num * option num)%type.

Inductive component : Type :=
| VarC (d : domain) (b : list (list string * bounds))
| ConstraintC (body : list (list string * relation))
| ExpressionC (body : list (list string * expr))
| ObjectiveC (e : expr)
| SuffixC.

(** [ConcreteModel]: the components by attribute name. *)
Definition ConcreteModel : Type := list (string * component).

(** What the solver reports and loads back into the model. *)
Record SolverResults : Type := {
  status : string;                  (* results["Solver"][0]["Status"].key *)
  termination_condition : string;
  lower_bound : num;                (* results["Problem"][0]["Lower bound"] *)
  value : string -> list string -> num;   (* model.c[idx].value *)
  dual : string -> list string -> num     (* model.dual[model.c[idx]] *)
}.

(** ** The network *)

(** An edge of the graph: its two buses and the branch that is its key. *)
Definition edge : Type := (string * string * (component_class * string))%type.

(** Plain attributes of a [SubNetwork] object (not descriptors). *)
Record SubNetworkAttrs : Type := {
  slack_generator : string;
  pvs : list (string * row);
  pqs : list (string * row);
  pvpqs : list (string * row);
  buses_o : list (string * row);
  B : matrix num;
  H : matrix num;
  PTDF : list (list num);
  (* the three admittance matrices, once calculate_Y has stored them *)
  Y : option (matrix cnum * matrix cnum * matrix cnum);
  sn_graph : list string * list edge
}.

Record Network : Type := {
  now : string;
  snapshots : list string;
  snapshot_weightings : string -> num;
  co2_limit : option num;
  nr_x_tol : num;
  dc_opf_formulation : string;
  topology_determined : bool;
  dependent_values_calculated : bool;
  (* attributes set on the instance that the class does not declare *)
  instance_attributes : list (string * pyval);
  graph : list edge;
  frames : component_class -> DataFrame;
  sub_network_attrs : string -> SubNetworkAttrs;
  (* branch._flow[snapshot], by class, name and snapshot *)
  branch_flow : list (list string * expr);
  model : ConcreteModel;
  results : option SolverResults;
  objective : option num
}.

(** Attribute assignment on the network object. *)
Definition set_frames (f : component_class -> DataFrame) (n : Network) : Network :=
  {| now := now n; snapshots := snapshots n;
     snapshot_weightings := snapshot_weightings n; co2_limit := co2_limit n;
     nr_x_tol := nr_x_tol n; dc_opf_formulation := dc_opf_formulation n;
     topology_determined := topology_determined n;
     dependent_values_calculated := dependent_values_calculated n;
     instance_attributes := instance_attributes n; graph := graph n;
     frames := f; sub_network_attrs := sub_network_attrs n;
     branch_flow := branch_flow n;
     model := model n; results := results n; objective := objective n |}.

Definition set_topology_determined (b : bool) (n : Network) : Network :=
  {| now := now n; snapshots := snapshots n;
     snapshot_weightings := snapshot_weightings n; co2_limit := co2_limit n;
     nr_x_tol := nr_x_tol n; dc_opf_formulation := dc_opf_formulation n;
     topology_determined := b;
     dependent_values_calculated := dependent_values_calculated n;
     instance_attributes := instance_attributes n; graph := graph n;
     frames := frames n; sub_network_attrs := sub_network_attrs n;
     branch_flow := branch_flow n;
     model := model n; results := results n; objective := objective n |}.

Definition set_dependent_values_calculated (b : bool) (n : Network) : Network :=
  {| now := now n; snapshots := snapshots n;
     snapshot_weightings := snapshot_weightings n; co2_limit := co2_limit n;
     nr_x_tol := nr_x_tol n; dc_opf_formulation := dc_opf_formulation n;
     topology_determined := topology_determined n;
     dependent_values_calculated := b;
     instance_attributes := instance_attributes n; graph := graph n;
     frames := frames n; sub_network_attrs := sub_network_attrs n;
     branch_flow := branch_flow n;
     model := model n; results := results n; objective := objective n |}.

Definition set_graph (g : list edge) (n : Network) : Network :=
  {| now := now n; snapshots := snapshots n;
     snapshot_weightings := snapshot_weightings n; co2_limit := co2_limit n;
     nr_x_tol := nr_x_tol n; dc_opf_formulation := dc_opf_formulation n;
     topology_determined := topology_determined n;
     dependent_values_calculated := dependent_values_calculated n;
     instance_attributes := instance_attributes n; graph := g;
     frames := frames n; sub_network_attrs := sub_network_attrs n;
     branch_flow := branch_flow n;
     model := model n; results := results n; objective := objective n |}.

Definition set_sub_network_attrs (f : string -> SubNetworkAttrs) (n : Network)
  : Network :=
  {| now := now n; snapshots := snapshots n;
     snapshot_weightings := snapshot_weightings n; co2_limit := co2_limit n;
     nr_x_tol := nr_x_tol n; dc_opf_formulation := dc_opf_formulation n;
     topology_determined := topology_determined n;
     dependent_values_calculated := dependent_values_calculated n;
     instance_attributes := instance_attributes n; graph := graph n;
     frames := frames n; sub_network_attrs := f;
     branch_flow := branch_flow n;
     model := model n; results := results n; objective := objective n |}.

Definition set_model (m : ConcreteModel) (n : Network) : Network :=
  {| now := now n; snapshots := snapshots n;
     snapshot_weightings := snapshot_weightings n; co2_limit := co2_limit n;
     nr_x_tol := nr_x_tol n; dc_opf_formulation := dc_opf_formulation n;
     topology_determined := topology_determined n;
     dependent_values_calculated := dependent_values_calculated n;
     instance_attributes := instance_attributes n; graph := graph n;
     frames := frames n; sub_network_attrs := sub_network_attrs n;
     branch_flow := branch_flow n;
     model := m; results := results n; objective := objective n |}.

Definition set_results (r : option SolverResults) (n : Network) : Network :=
  {| now := now n; snapshots := snapshots n;
     snapshot_weightings := snapshot_weightings n; co2_limit := co2_limit n;
     nr_x_tol := nr_x_tol n; dc_opf_formulation := dc_opf_formulation n;
     topology_determined := topology_determined n;
     dependent_values_calculated := dependent_values_calculated n;
     instance_attributes := instance_attributes n; graph := graph n;
     frames := frames n; sub_network_attrs := sub_network_attrs n;
     branch_flow := branch_flow n;
     model := model n; results := r; objective := objective n |}.

Definition set_objective (o : option num) (n : Network) : Network :=
  {| now := now n; snapshots := snapshots n;
     snapshot_weightings := snapshot_weightings n; co2_limit := co2_limit n;
     nr_x_tol := nr_x_tol n; dc_opf_formulation := dc_opf_formulation n;
     topology_determined := topology_determined n;
     dependent_values_calculated := dependent_values_calculated n;
     instance_attributes := instance_attributes n; graph := graph n;
     frames := frames n; sub_network_attrs := sub_network_attrs n;
     branch_flow := branch_flow n;
     model := model n; results := results n; objective := o |}.

Definition set_branch_flow (f : list (list string * expr)) (n : Network) : Network :=
  {| now := now n; snapshots := snapshots n;
     snapshot_weightings := snapshot_weightings n; co2_limit := co2_limit n;
     nr_x_tol := nr_x_tol n; dc_opf_formulation := dc_opf_formulation n;
     topology_determined := topology_determined n;
     dependent_values_calculated := dependent_values_calculated n;
     instance_attributes := instance_attributes n; graph := graph n;
     frames := frames n; sub_network_attrs := sub_network_attrs n;
     branch_flow := f;
     model := model n; results := results n; objective := objective n |}.

(** [setattr(network, cls.list_name, df)] *)
Definition set_frame (c : component_class) (df : DataFrame) (n : Network) : Network :=
  set_frames (fun c' => if class_eqb c' c then df else frames n c') n.

(** [getattr(network, name)] for a name the class does not declare: the
    instance dictionary decides, and a missing name is an AttributeError. *)
Definition getattr (n : Network) (name : string) : result pyval :=
  match assoc name (instance_attributes n) with
  | Some v => Ok v
  | None => Raise (AttributeError name)
  end.

(** Descriptor access on a component object: [obj.attr] reads the cell of
    the object's row, [obj.attr = v] writes it; [obj.attr[snapshot]] goes to
    the per-snapshot table of the attribute. *)
Definition get_attr (n : Network) (c : component_class) (name attr : string) : pyval :=
  cell (frames n c) name attr.

Definition set_attr (c : component_class) (name attr : string) (v : pyval)
  (n : Network) : Network :=
  set_frame c (set_loc (frames n c) name attr v) n.

Definition get_at (n : Network) (c : component_class) (attr snapshot name : string) : num :=
  series (frames n c) attr snapshot name.

Definition set_at (c : component_class) (attr snapshot name : string) (v : num)
  (n : Network) : Network :=
  set_frame c (set_series (frames n c) attr snapshot name v) n.

(** Whether a row holds an object in its [obj] column; a row that
    [df.loc[name, col] = v] has appended holds nan there. *)
Definition holds_obj (r : row) : bool :=
  match row_get r "obj" with
  | VObj _ _ => true
  | _ => false
  end.

(** The [obj] column, in index order.  [Network.add] stores every object in
    the row of its own name, so that the object of a row is known by the
    label of the row; [None] is the nan of a row without object. *)
Definition objs (df : DataFrame) : list (option string) :=
  map (fun nr => if holds_obj (snd nr) then Some (fst nr) else None) (rows df).

(** ** What the three source files import *)

Class Externals : Type := {
  (* descriptors.py: the defaults of Float(), String() and Series() *)
  Float_default : num;
  String_default : string;
  Series_default : num;
  (* networkx.connected_component_subgraphs, on nodes and edges *)
  connected_component_subgraphs :
    list string -> list edge -> list (list string * list edge);
  (* scipy.sparse.linalg.spsolve with a vector and with the identity *)
  spsolve : matrix num -> list num -> list num;
  spsolve_identity : matrix num -> nat -> list (list num);
  (* numpy.linalg.norm(F, np.Inf) *)
  norm_inf : list num -> num;
  (* SolverFactory(solver_name).solve(model, ...) *)
  solve : string -> ConcreteModel -> SolverResults;
  (* pandas: what DataFrame.drop raises for a label that is not in the
     index (a ValueError in the pandas of 2015, a KeyError since) *)
  drop_missing : string -> exn
}.

Context {X : Externals}.

(** ** Mutation and exceptions *)

(** A Python call on the network: it leaves a network behind whether it
    returns or raises. *)
Definition action (T : Type) : Type := Network -> result T * Network.

Definition ret {T : Type} (x : T) : action T := fun n => (Ok x, n).

Definition raise {T : Type} (e : exn) : action T := fun n => (Raise e, n).

Definition abind {T U : Type} (c : action T) (k : T -> action U) : action U :=
  fun n =>
    match c n with
    | (Ok x, n') => k x n'
    | (Raise e, n') => (Raise e, n')
    end.

Definition get : action Network := fun n => (Ok n, n).

Definition modify (f : Network -> Network) : action unit := fun n => (Ok tt, f n).

Definition lift {T : Type} (r : result T) : action T := fun n => (r, n).

Notation "x <~ c ;; k" := (abind c (fun x => k))
  (at level 61, c at next level, right associativity).
Notation "c ;;; k" := (abind c (fun _ => k))
  (at level 61, right associativity).

Definition when (b : bool) (c : action unit) : action unit :=
  if b then c else ret tt.

(** [for x in xs: body(x)] *)
Fixpoint for_ {T : Type} (xs : list T) (body : T -> action unit) : action unit :=
  match xs with
  | [] => ret tt
  | x :: rest => body x ;;; for_ rest body
  end.

(** [for o in df.obj: body(o)]: on the nan of a row without object the
    first attribute that the body reads, [attr], is an AttributeError. *)
Definition for_objs (df : DataFrame) (attr : string) (body : string -> action unit)
  : action unit :=
  for_ (objs df)
       (fun o => match o with
                 | Some name => body name
                 | None => raise (AttributeError attr)
                 end).

(** The network a call leaves behind. *)
Definition exec {T : Type} (c : action T) (n : Network) : Network := snd (c n).

(** * components.py *)

(** ** Descriptors *)

(** The attribute declarations of the component classes: [Float(d)],
    [String(d)], [Boolean(d)]; [None] is a declaration without argument. *)
Inductive descriptor : Type :=
| DFloat (default : option num)
| DString (default : option string)
| DBoolean (default : bool).

(** Modelled from the spec: [descriptors.py] is not among the sources; the
    default of a descriptor declared without argument is the one of its
    type there. *)
Definition default_of (d : descriptor) : pyval :=
  match d with
  | DFloat (Some x) => VFloat x
  | DFloat None => VFloat Float_default
  | DString (Some s) => VStr s
  | DString None => VStr String_default
  | DBoolean b => VBool b
  end.

Definition series_default_of (d : option num) : num :=
  match d with
  | Some x => x
  | None => Series_default
  end.

(** A subclass overrides the declarations it repeats. *)
Definition inherit {T : Type} (base own : list (string * T)) : list (string * T) :=
  fold_left (fun l kv => assoc_set (fst kv) (snd kv) l) own base.

Definition OnePort_simple : list (string * descriptor) :=
  [("bus", DString None); ("sign", DFloat (Some (of_Z 1)))].

Definition OnePort_series : list (string * option num) :=
  [("p", None); ("q", None)].

Definition Generator_simple : list (string * descriptor) :=
  inherit OnePort_simple
    [("dispatch", DString (Some "flexible")); ("control", DString (Some "PQ"));
     ("source", DString None); ("p_nom", DFloat None);
     ("p_nom_extendable", DBoolean false); ("p_nom_max", DFloat (Some nan));
     ("p_nom_min", DFloat None); ("capital_cost", DFloat None);
     ("marginal_cost", DFloat None); ("p_max_pu_fixed", DFloat (Some (of_Z 1)));
     ("p_min_pu_fixed", DFloat None); ("efficiency", DFloat (Some (of_Z 1)))].

Definition Generator_series : list (string * option num) :=
  inherit OnePort_series
    [("p_max_pu", None); ("p_min_pu", None); ("p_set", None); ("q_set", None)].

Definition Branch_simple : list (string * descriptor) :=
  [("bus0", DString None); ("bus1", DString None); ("capital_cost", DFloat None);
   ("s_nom", DFloat None); ("s_nom_extendable", DBoolean false);
   ("s_nom_max", DFloat (Some nan)); ("s_nom_min", DFloat None)].

Definition Branch_series : list (string * option num) :=
  [("p0", None); ("p1", None); ("q0", None); ("q1", None)].

Definition simple_descriptors (c : component_class) : list (string * descriptor) :=
  match c with
  | Source =>
      [("co2_emissions", DFloat None); ("efficiency", DFloat (Some (of_Z 1)));
       ("capital_cost", DFloat None); ("marginal_cost", DFloat None)]
  | Bus =>
      [("v_nom", DFloat (Some (of_Z 1))); ("control", DString (Some "PQ"));
       ("x", DFloat None); ("y", DFloat None); ("v_mag_min", DFloat None);
       ("v_mag_max", DFloat (Some nan)); ("current_type", DString (Some "AC"));
       ("sub_network", DString None)]
  | Generator => Generator_simple
  | StorageUnit =>
      inherit Generator_simple
        [("state_of_charge_initial", DFloat None); ("max_hours", DFloat (Some (of_Z 1)));
         ("efficiency_store", DFloat (Some (of_Z 1)));
         ("efficiency_dispatch", DFloat (Some (of_Z 1)));
         ("standing_loss", DFloat None)]
  | Load => inherit OnePort_simple [("sign", DFloat (Some (of_Z (-1))))]
  | ShuntImpedance =>
      inherit OnePort_simple
        [("sign", DFloat (Some (of_Z (-1)))); ("g", DFloat None); ("b", DFloat None);
         ("g_pu", DFloat None); ("b_pu", DFloat None)]
  | Line =>
      inherit Branch_simple
        [("r", DFloat None); ("x", DFloat None); ("g", DFloat None); ("b", DFloat None);
         ("x_pu", DFloat None); ("r_pu", DFloat None); ("g_pu", DFloat None);
         ("b_pu", DFloat None); ("v_ang_min", DFloat (Some nan));
         ("v_ang_max", DFloat (Some nan)); ("length", DFloat (Some (of_Z 1)));
         ("terrain_factor", DFloat (Some (of_Z 1))); ("sub_network", DString None)]
  | Transformer =>
      inherit Branch_simple
        [("x", DFloat None); ("r", DFloat None); ("g", DFloat None); ("b", DFloat None);
         ("x_pu", DFloat None); ("r_pu", DFloat None); ("g_pu", DFloat None);
         ("b_pu", DFloat None); ("v_ang_min", DFloat (Some nan));
         ("v_ang_max", DFloat (Some nan)); ("tap_ratio", DFloat (Some (of_Z 1)));
         ("phase_shift", DFloat None); ("sub_network", DString None)]
  | Converter | TransportLink =>
      inherit Branch_simple [("p_min", DFloat None); ("p_max", DFloat None)]
  | SubNetwork =>
      [("current_type", DString (Some "AC")); ("frequency", DFloat (Some (of_Z 50)));
       ("num_phases", DFloat (Some (of_Z 3))); ("slack_bus", DString None)]
  end.

Definition series_descriptors (c : component_class) : list (string * option num) :=
  match c with
  | Source | SubNetwork => []
  | Bus =>
      [("p", None); ("q", None); ("v_mag", Some (of_Z 1)); ("v_ang", None);
       ("v_mag_set", Some (of_Z 1)); ("marginal_price", None)]
  | Generator => Generator_series
  | StorageUnit =>
      inherit Generator_series [("state_of_charge", Some nan); ("inflow", None)]
  | Load => inherit OnePort_series [("p_set", None); ("q_set", None)]
  | ShuntImpedance => OnePort_series
  | Line | Transformer => Branch_series
  | Converter | TransportLink => inherit Branch_series [("p_set", None)]
  end.

(** Modelled from the spec: [descriptors.py] is not among the sources;
    [setattr(obj, key, value)] on a declared attribute writes the cell of the
    object's row, on a per-snapshot attribute the object's column of that
    table, and otherwise an attribute of the object that no table holds. *)
Definition setattr (c : component_class) (name key : string) (value : pyval)
  (n : Network) : Network :=
  if mem key (map fst (simple_descriptors c)) then set_attr c name key value n
  else if mem key (map fst (series_descriptors c))
       then set_frame c (set_series_column (frames n c) key name (as_num value)) n
       else n.

(** ** Network.add and Network.remove *)

(** The handle of a component object: its class and its name. *)
Definition obj : Type := (component_class * string)%type.

(** The defaults of the declared columns, written one by one; a column
    that no descriptor declares is a KeyError, which leaves the table as far
    as it has been written. *)
Fixpoint set_defaults (c : component_class) (name : string) (cols : list string)
  (df : DataFrame) : result unit * DataFrame :=
  match cols with
  | [] => (Ok tt, df)
  | col :: rest =>
      if String.eqb col "obj" then set_defaults c name rest df
      else match assoc col (simple_descriptors c) with
           | Some d => set_defaults c name rest (set_loc df name col (default_of d))
           | None => (Raise (KeyError col), df)
           end
  end.

Definition set_series_defaults (c : component_class) (name : string) (df : DataFrame)
  : DataFrame :=
  fold_left (fun d kv => set_series_column d (fst kv) name (series_default_of (snd kv)))
            (series_descriptors c) df.

(** Plain attributes of the [SubNetwork] object of a name. *)
Definition update_sub_network (name : string)
  (f : SubNetworkAttrs -> SubNetworkAttrs) (n : Network) : Network :=
  set_sub_network_attrs
    (fun s => if String.eqb s name then f (sub_network_attrs n s)
              else sub_network_attrs n s) n.

(** A [SubNetwork] object on which nothing has been calculated. *)
Definition no_attrs : SubNetworkAttrs :=
  {| slack_generator := ""; pvs := []; pqs := []; pvpqs := []; buses_o := [];
     B := []; H := []; PTDF := []; Y := None; sn_graph := ([], []) |}.

(** [cls(self, str(name))]: a new object has none of the plain attributes
    that an older object of its name may have had. *)
Definition new_object (c : component_class) (name : string) (n : Network) : Network :=
  match c with
  | SubNetwork => update_sub_network name (fun _ => no_attrs) n
  | _ => n
  end.

(** [pd.concat] of the four branch tables: its columns, and the classes
    that have a row (the first level of its index). *)
Definition branch_classes : list component_class :=
  [Line; Transformer; Converter; TransportLink].

Definition concat_columns (n : Network) : list string :=
  fold_left (fun cs c => fold_left (fun cs col => add_column col cs) (columns (frames n c)) cs)
            branch_classes [].

Definition concat_keys (n : Network) : list string :=
  map class_name
      (filter (fun c => match rows (frames n c) with [] => false | _ => true end)
              branch_classes).

(** The first column, other than ["obj"], that the descriptors do not
    declare. *)
Definition first_undeclared_in (declared : list (string * descriptor))
  (cols : list string) : option string :=
  find (fun col => negb (String.eqb col "obj") && negb (mem col (map fst declared))) cols.

Definition add (class_name name : string) (kwargs : list (string * pyval))
  : action (option obj) :=
  match lookup_class class_name with
  | None => ret None                                   (* "not found" *)
  | Some NoListName => raise (AttributeError "list_name")
  | Some BranchClass =>
      (* cls_df is the concatenated table, built anew by the property *)
      network <~ get ;;
      if mem name (concat_keys network) then ret None  (* "Failed to add" *)
      else match first_undeclared_in Branch_simple (concat_columns network) with
           | Some col => raise (KeyError col)
           | None => raise (AttributeError "p0")
           end
  | Some (TableClass cls) =>
      network <~ get ;;
      let cls_df := frames network cls in
      if mem name (index cls_df) then ret None         (* "Failed to add" *)
      else
        modify (new_object cls name) ;;;
        let cls_df := set_loc cls_df name "obj" (VObj cls name) in
        let written := set_defaults cls name (columns cls_df) cls_df in
        modify (set_frame cls (snd written)) ;;;
        match fst written with
        | Raise e => raise e
        | Ok _ =>
            modify (set_frame cls (set_series_defaults cls name (snd written))) ;;;
            for_ kwargs (fun kv => modify (setattr cls name (fst kv) (snd kv))) ;;;
            ret (Some (cls, name))
        end
  end.

Definition remove (o : obj) : action unit :=
  network <~ get ;;
  let cls_df := frames network (fst o) in
  if mem (snd o) (index cls_df) then
    modify (set_frame (fst o) (drop_row cls_df (snd o))) ;;;
    modify (set_topology_determined false)
  else raise (drop_missing (snd o)).

(** ** Concatenated branch tables *)

(** A row of [pd.concat(..., keys=...)]: class, name and cells. *)
Definition branch_row : Type := (component_class * string * row)%type.

Definition keyed (n : Network) (c : component_class) : list branch_row :=
  map (fun nr => (c, fst nr, snd nr)) (rows (frames n c)).

Definition branches (n : Network) : list branch_row :=
  keyed n Line ++ keyed n Transformer ++ keyed n Converter ++ keyed n TransportLink.

Definition passive_branches (n : Network) : list branch_row :=
  keyed n Line ++ keyed n Transformer.

Definition controllable_branches (n : Network) : list branch_row :=
  keyed n Converter ++ keyed n TransportLink.

Definition br_class (b : branch_row) : component_class := fst (fst b).
Definition br_name (b : branch_row) : string := snd (fst b).
Definition br_get (b : branch_row) (col : string) : pyval := row_get (snd b) col.

(** ** Topology *)

Definition build_graph (n : Network) : Network :=
  set_graph
    (map (fun b => (as_str (br_get b "bus0"), as_str (br_get b "bus1"),
                    (br_class b, br_name b))) (branches n)) n.

Definition is_controllable (c : component_class) : bool :=
  match c with
  | Converter | TransportLink => true
  | _ => false
  end.

(** The nodes of a graph built from edges only, in order of appearance. *)
Fixpoint nodes_of (es : list edge) (seen : list string) : list string :=
  match es with
  | [] => seen
  | (u, v, _) :: rest =>
      let seen := if mem u seen then seen else seen ++ [u] in
      let seen := if mem v seen then seen else seen ++ [v] in
      nodes_of rest seen
  end.

Definition set_sn_graph (g : list string * list edge) (a : SubNetworkAttrs)
  : SubNetworkAttrs :=
  {| slack_generator := slack_generator a; pvs := pvs a; pqs := pqs a;
     pvpqs := pvpqs a; buses_o := buses_o a; B := B a; H := H a; PTDF := PTDF a;
     Y := Y a; sn_graph := g |}.

Definition determine_network_topology : action unit :=
  network <~ get ;;
  let graph' := filter (fun e => negb (is_controllable (fst (snd e)))) (graph network) in
  let sub_graphs :=
    connected_component_subgraphs (nodes_of (graph network) []) graph' in
  for_objs (frames network SubNetwork) "list_name"
           (fun s => remove (SubNetwork, s)) ;;;
  for_ (combine (seq 0 (List.length sub_graphs)) sub_graphs)
       (fun isg =>
          let sub_graph := snd isg in
          o <~ add "SubNetwork" (str_of_nat (fst isg)) [] ;;
          match o with
          | None => raise (AttributeError "current_type")
          | Some (_, name) =>
              modify (update_sub_network name (set_sn_graph sub_graph)) ;;;
              network <~ get ;;
              (* grab data from first bus *)
              match fst sub_graph with
              | [] => raise IndexError
              | first :: _ =>
                  if mem first (index (frames network Bus)) then
                    modify (set_attr SubNetwork name "current_type"
                              (cell (frames network Bus) first "current_type"))
                  else raise (KeyError first)
              end ;;;
              for_ (fst sub_graph)
                   (fun bus => modify (set_attr Bus bus "sub_network" (VStr name))) ;;;
              for_ (snd sub_graph)
                   (fun e => modify (set_attr (fst (snd e)) (snd (snd e))
                                              "sub_network" (VStr name)))
          end) ;;;
  modify (set_topology_determined true).

(** ** Properties of Bus and SubNetwork objects *)

(** [network.<list>[network.<list>.bus == bus.name]] *)
Definition at_bus (n : Network) (c : component_class) (bus : string)
  : list (string * row) :=
  select (fun _ r => pyval_eqb (row_get r "bus") (VStr bus)) (rows (frames n c)).

(** [SubNetwork.buses] *)
Definition sn_buses (n : Network) (sn : string) : list (string * row) :=
  select (fun _ r => pyval_eqb (row_get r "sub_network") (VStr sn))
         (rows (frames n Bus)).

(** [SubNetwork.branches] *)
Definition sn_branches (n : Network) (sn : string) : list branch_row :=
  filter (fun b => pyval_eqb (br_get b "sub_network") (VStr sn)) (branches n).

(** [pd.merge(left, right, how="left", left_on=key, right_index=True,
    suffixes=("", suffix))]: every left row, followed by the cells of the
    right row its key names, or by missing cells. *)
Definition merge_left (left : list (string * row)) (key : string)
  (right : list (string * row)) (right_columns : list string) (suffix : string)
  : list (string * row) :=
  map (fun nr =>
         let r := snd nr in
         let rename c := if mem c (map fst r) then String.append c suffix else c in
         let joined :=
           match assoc (as_str (row_get r key)) right with
           | Some rr => map (fun c => (rename c, row_get rr c)) right_columns
           | None => map (fun c => (rename c, NaN)) right_columns
           end in
         (fst nr, r ++ joined)) left.

(** [SubNetwork.generators], [.loads], [.shunt_impedances] *)
Definition sn_one_ports (n : Network) (c : component_class) (sn : string)
  : list (string * row) :=
  select (fun _ r => pyval_eqb (row_get r "sub_network") (VStr sn))
         (merge_left (rows (frames n c)) "bus" (sn_buses n sn)
                     (columns (frames n Bus)) "_bus").

Definition sn_generators (n : Network) (sn : string) : list (string * row) :=
  sn_one_ports n Generator sn.

(** * pf.py *)

Definition set_slack_generator (g : string) (a : SubNetworkAttrs) : SubNetworkAttrs :=
  {| slack_generator := g; pvs := pvs a; pqs := pqs a;
     pvpqs := pvpqs a; buses_o := buses_o a; B := B a; H := H a; PTDF := PTDF a;
     Y := Y a; sn_graph := sn_graph a |}.

Definition set_bus_tables (pv pq pvpq bo : list (string * row)) (a : SubNetworkAttrs)
  : SubNetworkAttrs :=
  {| slack_generator := slack_generator a; pvs := pv; pqs := pq;
     pvpqs := pvpq; buses_o := bo; B := B a; H := H a; PTDF := PTDF a;
     Y := Y a; sn_graph := sn_graph a |}.

Definition set_B_H (b h : matrix num) (a : SubNetworkAttrs) : SubNetworkAttrs :=
  {| slack_generator := slack_generator a; pvs := pvs a; pqs := pqs a;
     pvpqs := pvpqs a; buses_o := buses_o a; B := b; H := h; PTDF := PTDF a;
     Y := Y a; sn_graph := sn_graph a |}.

Definition set_PTDF (m : list (list num)) (a : SubNetworkAttrs) : SubNetworkAttrs :=
  {| slack_generator := slack_generator a; pvs := pvs a; pqs := pqs a;
     pvpqs := pvpqs a; buses_o := buses_o a; B := B a; H := H a; PTDF := m;
     Y := Y a; sn_graph := sn_graph a |}.

Definition set_Y (y y0 y1 : matrix cnum) (a : SubNetworkAttrs) : SubNetworkAttrs :=
  {| slack_generator := slack_generator a; pvs := pvs a; pqs := pqs a;
     pvpqs := pvpqs a; buses_o := buses_o a; B := B a; H := H a; PTDF := PTDF a;
     Y := Some (y, y0, y1); sn_graph := sn_graph a |}.

(** [sub_network.slack_bus], a declared attribute. *)
Definition slack_bus (n : Network) (sn : string) : string :=
  as_str (get_attr n SubNetwork sn "slack_bus").

(** [sub_network.current_type] *)
Definition current_type (n : Network) (sn : string) : string :=
  as_str (get_attr n SubNetwork sn "current_type").

(** ** Slack bus and bus controls *)

Definition is_control (c : string) (r : row) : bool :=
  pyval_eqb (row_get r "control") (VStr c).

Definition find_slack_bus (sub_network : string) : action unit :=
  network <~ get ;;
  let gens := sn_generators network sub_network in
  match gens with
  | [] =>
      modify (update_sub_network sub_network (set_slack_generator "")) ;;;
      match map fst (sn_buses network sub_network) with
      | [] => raise IndexError
      | first :: _ => modify (set_attr SubNetwork sub_network "slack_bus" (VStr first))
      end
  | (first, _) :: _ =>
      let slacks := select (fun _ r => is_control "Slack" r) gens in
      (match map fst slacks with
       | [] =>
           modify (update_sub_network sub_network (set_slack_generator first)) ;;;
           modify (set_attr Generator first "control" (VStr "Slack"))
       | [s] =>
           modify (update_sub_network sub_network (set_slack_generator s))
       | s :: others =>
           modify (update_sub_network sub_network (set_slack_generator s)) ;;;
           for_ others (fun g => modify (set_attr Generator g "control" (VStr "PV")))
       end) ;;;
      network <~ get ;;
      let slack_generator := slack_generator (sub_network_attrs network sub_network) in
      modify (set_attr SubNetwork sub_network "slack_bus"
                (match assoc slack_generator gens with
                 | Some r => row_get r "bus"
                 | None => NaN
                 end))
  end.

(** [df.drop_duplicates("bus")]: the first row of every bus. *)
Fixpoint drop_duplicates_bus (rs : list (string * row)) (seen : list string)
  : list (string * row) :=
  match rs with
  | [] => []
  | (g, r) :: rest =>
      let b := as_str (row_get r "bus") in
      if mem b seen then drop_duplicates_bus rest seen
      else (g, r) :: drop_duplicates_bus rest (b :: seen)
  end.

(** [buses_o["i"] = range(len(buses_o))] *)
Definition number_rows (rs : list (string * row)) : list (string * row) :=
  map (fun inr => (fst (snd inr),
                   assoc_set "i" (VFloat (of_Z (Z.of_nat (fst inr)))) (snd (snd inr))))
      (combine (seq 0 (List.length rs)) rs).

Definition find_bus_controls (sub_network : string) : action unit :=
  find_slack_bus sub_network ;;;
  network <~ get ;;
  let gens := sn_generators network sub_network in
  let buses := sn_buses network sub_network in
  for_ (map fst buses) (fun b => modify (set_attr Bus b "control" (VStr "PQ"))) ;;;
  let pvs := drop_duplicates_bus (select (fun _ r => is_control "PV" r) gens) [] in
  for_ pvs (fun gr =>
    modify (set_attr Bus (as_str (row_get (snd gr) "bus")) "control" (VStr "PV"))) ;;;
  for_ pvs (fun gr =>
    modify (set_attr Bus (as_str (row_get (snd gr) "bus")) "generator" (VStr (fst gr)))) ;;;
  network <~ get ;;
  let slack := slack_bus network sub_network in
  modify (set_attr Bus slack "control" (VStr "Slack")) ;;;
  modify (set_attr Bus slack "generator"
            (VStr (slack_generator (sub_network_attrs network sub_network)))) ;;;
  network <~ get ;;
  let buses := sn_buses network sub_network in
  let pvs := select (fun _ r => is_control "PV" r) buses in
  let pqs := select (fun _ r => is_control "PQ" r) buses in
  let pvpqs := pvs ++ pqs in
  let slack_row := match assoc slack buses with
                   | Some r => (slack, r)
                   | None => (slack, [])
                   end in
  modify (update_sub_network sub_network
            (set_bus_tables pvs pqs pvpqs (number_rows (slack_row :: pvpqs)))).

(** ** Per-unit values *)

(** The [v_nom] of the bus a row is attached to, as the left join finds it. *)
Definition joined_v_nom (n : Network) (bus_attr : string) (r : row) : pyval :=
  match assoc (as_str (row_get r bus_attr)) (rows (frames n Bus)) with
  | Some b => row_get b "v_nom"
  | None => NaN
  end.

Definition append_voltage (c : component_class) (bus_attr : string) (n : Network)
  : Network :=
  let df := frames n c in
  let df := if mem "v_nom" (columns df) then drop_column df "v_nom" else df in
  set_frame c (set_column df "v_nom" (fun _ r => joined_v_nom n bus_attr r)) n.

(** [network.<c>[col] = f(network.<c>.a, network.<c>.b)] *)
Definition set_pu (c : component_class) (col : string) (f : num -> num -> num)
  (a b : string) (n : Network) : Network :=
  set_frame c (set_column (frames n c) col
                 (fun _ r => VFloat (f (as_num (row_get r a)) (as_num (row_get r b))))) n.

Definition per_square (x v : num) : num := fdiv x (square v).
Definition times_square (x v : num) : num := fmul x (square v).

Definition calculate_dependent_values (network : Network) : Network :=
  let network := append_voltage Line "bus0" network in
  let network := append_voltage ShuntImpedance "bus" network in
  let network := set_pu Line "x_pu" per_square "x" "v_nom" network in
  let network := set_pu Line "r_pu" per_square "r" "v_nom" network in
  let network := set_pu Line "b_pu" times_square "b" "v_nom" network in
  let network := set_pu Line "g_pu" times_square "g" "v_nom" network in
  let network := set_pu Transformer "x_pu" fdiv "x" "s_nom" network in
  let network := set_pu Transformer "r_pu" fdiv "r" "s_nom" network in
  let network := set_pu Transformer "b_pu" fmul "b" "s_nom" network in
  let network := set_pu Transformer "g_pu" fmul "g" "s_nom" network in
  let network := set_pu ShuntImpedance "b_pu" times_square "b" "v_nom" network in
  let network := set_pu ShuntImpedance "g_pu" times_square "g" "v_nom" network in
  set_dependent_values_calculated true network.

(** ** B, H and PTDF *)

Fixpoint position (x : string) (l : list string) : option nat :=
  match l with
  | [] => None
  | y :: rest => if String.eqb x y then Some O
                 else option_map S (position x rest)
  end.

(** [[buses["i"][bus] for bus in names]] *)
Fixpoint bus_numbers (buses : list (string * row)) (names : list string)
  : result (list nat) :=
  match names with
  | [] => Ok []
  | b :: rest =>
      match position b (map fst buses) with
      | None => Raise (KeyError b)
      | Some i => ns <- bus_numbers buses rest ;; Ok (i :: ns)
      end
  end.

Definition bus0 (b : branch_row) : string := as_str (br_get b "bus0").
Definition bus1 (b : branch_row) : string := as_str (br_get b "bus1").

Definition ones (k : nat) : list num := repeat (of_Z 1) k.

Definition calculate_B_H (sub_network : string) : action unit :=
  network <~ get ;;
  let branches := sn_branches network sub_network in
  let buses := buses_o (sub_network_attrs network sub_network) in
  let num_branches := List.length branches in
  let index := seq 0 num_branches ++ seq 0 num_branches in
  attribute <~ (if String.eqb (current_type network sub_network) "DC" then ret "r_pu"
                else if String.eqb (current_type network sub_network) "AC" then ret "x_pu"
                else raise (NameError "attribute")) ;;
  let b := map (fun br => fdiv (of_Z 1) (as_num (br_get br attribute))) branches in
  from_bus <~ lift (bus_numbers buses (map bus0 branches)) ;;
  to_bus <~ lift (bus_numbers buses (map bus1 branches)) ;;
  let H := csr_matrix (b ++ map fopp b) (index, from_bus ++ to_bus) in
  let incidence := csr_matrix (ones num_branches ++ map fopp (ones num_branches))
                              (index, from_bus ++ to_bus) in
  modify (update_sub_network sub_network
            (set_B_H (mat_mul fmul (transpose incidence) H) H)).

Definition calculate_PTDF (sub_network : string) : action unit :=
  network <~ get ;;
  let a := sub_network_attrs network sub_network in
  let n_pvpq := List.length (pvpqs a) in
  let B_inverse := spsolve_identity (slice_from 1 1 (B a)) n_pvpq in
  let B_inverse := map (fun r => of_Z 0 :: r) B_inverse in
  let B_inverse := repeat (of_Z 0) (S n_pvpq) :: B_inverse in
  modify (update_sub_network sub_network (set_PTDF (mat_dense (H a) B_inverse))).

(** ** Newton-Raphson *)

(** [a - b] on arrays. *)
Definition vsub (a b : list num) : list num :=
  map (fun xy => fsub (fst xy) (snd xy)) (combine a b).

(** The state of the loop: guess, n_iter, F, diff. *)
Definition nr_state : Type := (list num * Z * list num * num)%type.

(** The [while] loop, unrolled at most [fuel] times. *)
Fixpoint nr_loop (f : list num -> list num) (dfdx : list num -> matrix num)
  (x_tol : num) (lim_iter : Z) (fuel : nat) (st : nr_state) : nr_state :=
  match fuel with
  | O => st
  | S fuel' =>
      let '(guess, n_iter, F, diff) := st in
      if gtb diff x_tol && (n_iter <? lim_iter) then
        let n_iter := n_iter + 1 in
        let guess := vsub guess (spsolve (dfdx guess) F) in
        let F := f guess in
        let diff := norm_inf F in
        nr_loop f dfdx x_tol lim_iter fuel' (guess, n_iter, F, diff)
      else st
  end.

(** The loop condition. *)
Definition nr_continue (x_tol : num) (lim_iter : Z) (st : nr_state) : bool :=
  let '(_, n_iter, _, diff) := st in
  gtb diff x_tol && (n_iter <? lim_iter).

Definition newton_raphson_sparse (f : list num -> list num) (guess : list num)
  (dfdx : list num -> matrix num) (x_tol : num) (lim_iter : Z)
  : list num * Z * num :=
  let n_iter := 0 in
  let F := f guess in
  let diff := norm_inf F in
  let '(guess, n_iter, _, diff) :=
    nr_loop f dfdx x_tol lim_iter (Z.to_nat lim_iter) (guess, n_iter, F, diff) in
  (guess, n_iter, diff).

(** The defaults [x_tol=1e-10] and [lim_iter=100]. *)
Definition default_x_tol : num := fdiv (of_Z 1) (of_Z 10000000000).
Definition default_lim_iter : Z := 100.

(** ** Linear power flow *)

(** [len(l) > 0] *)
Definition nonempty {T : Type} (l : list T) : bool :=
  match l with
  | [] => false
  | _ => true
  end.

(** [sum(o.sign*o.p_set[now] for o in bus.<list>.obj)] *)
Definition injection (n : Network) (c : component_class) (attr bus now : string) : num :=
  pysum (map (fun o => fmul (as_num (row_get (snd o) "sign"))
                            (get_at n c attr now (fst o)))
             (at_bus n c bus)).

(** [sum(sh.sign*sh.g_pu for sh in bus.shunt_impedances.obj)] *)
Definition shunt_injection (n : Network) (bus : string) : num :=
  pysum (map (fun sh => fmul (as_num (row_get (snd sh) "sign"))
                             (as_num (row_get (snd sh) "g_pu")))
             (at_bus n ShuntImpedance bus)).

(** [x.loc[now, name] -= d] and [+= d] on a per-snapshot table. *)
Definition decrease (c : component_class) (attr now name : string) (d : num)
  (n : Network) : Network :=
  set_at c attr now name (fsub (get_at n c attr now name) d) n.

Definition increase (c : component_class) (attr now name : string) (d : num)
  (n : Network) : Network :=
  set_at c attr now name (fadd (get_at n c attr now name) d) n.

(** The controllable branches take their flows out of the buses of the
    sub-network they end in. *)
Definition withdraw_controllable (buses : list string) (now : string)
  (t : branch_row) : action unit :=
  when (mem (bus0 t) buses)
       (network <~ get ;;
        modify (decrease Bus "p" now (bus0 t)
                  (get_at network (br_class t) "p0" now (br_name t)))) ;;;
  when (mem (bus1 t) buses)
       (network <~ get ;;
        modify (decrease Bus "p" now (bus1 t)
                  (get_at network (br_class t) "p1" now (br_name t)))).

(** [chain(network.transport_links.obj, network.converters.obj)] *)
Definition links_then_converters (n : Network) : list branch_row :=
  keyed n TransportLink ++ keyed n Converter.

(** [network.<c>.attr.loc[now, names] = values], place by place. *)
Definition assign (c : component_class) (attr now : string)
  (names : list string) (values : list num) : action unit :=
  for_ (combine names values)
       (fun nv => modify (set_at c attr now (fst nv) (snd nv))).

(** [network.<c>.attr.loc[now, names] = network.<c>.src.loc[now, names]] *)
Definition dispatch_as_set (c : component_class) (attr src now : string)
  (names : list string) : action unit :=
  network <~ get ;;
  assign c attr now names (map (get_at network c src now) names).

Definition of_class (c : component_class) (bf : branch_row * num) : bool :=
  class_eqb (br_class (fst bf)) c.

Definition or_now (given : option string) (n : Network) : string :=
  match given with
  | Some t => t
  | None => now n
  end.

Definition sub_network_lpf (sub_network : string) (now : option string)
  : action unit :=
  network <~ get ;;
  let now := or_now now network in
  when (negb (dependent_values_calculated network))
       (modify calculate_dependent_values) ;;;
  find_bus_controls sub_network ;;;
  network <~ get ;;
  when (nonempty (sn_branches network sub_network)) (calculate_B_H sub_network) ;;;
  network <~ get ;;
  let branches := sn_branches network sub_network in
  let buses := buses_o (sub_network_attrs network sub_network) in
  (* set the power injection at each node *)
  for_ (map fst buses)
       (fun bus =>
          network <~ get ;;
          modify (set_at Bus "p" now bus
                    (fadd (fadd (injection network Generator "p_set" bus now)
                                (injection network Load "p_set" bus now))
                          (shunt_injection network bus)))) ;;;
  (* power injection should include transport links and converters *)
  network <~ get ;;
  for_ (links_then_converters network)
       (withdraw_controllable (map fst buses) now) ;;;
  network <~ get ;;
  let p := map (get_at network Bus "p" now) (map fst buses) in
  let num_buses := List.length buses in
  let v_diff := repeat (of_Z 0) num_buses in
  v_diff <~
    (if nonempty branches then
       let a := sub_network_attrs network sub_network in
       let v_diff := hd (of_Z 0) v_diff :: spsolve (slice_from 1 1 (B a)) (tl p) in
       let flows := combine branches (mat_vec (H a) (n_rows (H a)) v_diff) in
       let lines := filter (of_class Line) flows in
       let trafos := filter (of_class Transformer) flows in
       assign Line "p1" now (map (fun bf => br_name (fst bf)) lines)
              (map (fun bf => fopp (snd bf)) lines) ;;;
       assign Line "p0" now (map (fun bf => br_name (fst bf)) lines)
              (map snd lines) ;;;
       assign Transformer "p1" now (map (fun bf => br_name (fst bf)) trafos)
              (map (fun bf => fopp (snd bf)) trafos) ;;;
       assign Transformer "p0" now (map (fun bf => br_name (fst bf)) trafos)
              (map snd trafos) ;;;
       ret v_diff
     else ret v_diff) ;;
  (* set slack bus power to pick up remained *)
  modify (set_at Bus "p" now (slack_bus network sub_network) (neg_pysum (tl p))) ;;;
  (if String.eqb (current_type network sub_network) "AC" then
     assign Bus "v_ang" now (map fst buses) v_diff
   else if String.eqb (current_type network sub_network) "DC" then
     assign Bus "v_mag" now (map fst buses)
            (map (fun bv => fadd (as_num (row_get (snd (fst bv)) "v_nom"))
                                 (fmul (snd bv) (as_num (row_get (snd (fst bv)) "v_nom"))))
                 (combine buses v_diff))
   else ret tt) ;;;
  (* allow all loads, shunts and generators to dispatch as set *)
  dispatch_as_set Load "p" "p_set" now
                  (map fst (sn_one_ports network Load sub_network)) ;;;
  assign ShuntImpedance "p" now
         (map fst (sn_one_ports network ShuntImpedance sub_network))
         (map (fun sh => as_num (cell (frames network ShuntImpedance) (fst sh) "g_pu"))
              (sn_one_ports network ShuntImpedance sub_network)) ;;;
  dispatch_as_set Generator "p" "p_set" now
                  (map fst (sn_generators network sub_network)) ;;;
  (* let slack generator take up the slack *)
  let slack_generator := slack_generator (sub_network_attrs network sub_network) in
  when (negb (String.eqb slack_generator ""))
       (network <~ get ;;
        modify (increase Generator "p" now slack_generator
                  (fsub (get_at network Bus "p" now (slack_bus network sub_network))
                        (hd (of_Z 0) p)))).

(** [x.p0.loc[now] = x.p_set.loc[now]; x.p1.loc[now] = -x.p_set.loc[now]] *)
Definition follow_p_set (c : component_class) (now : string) (n : Network) : Network :=
  let n := set_frame c (set_series_row (frames n c) "p0" now
                          (fun b => get_at n c "p_set" now b)) n in
  set_frame c (set_series_row (frames n c) "p1" now
                 (fun b => fopp (get_at n c "p_set" now b))) n.

(** The lines that open both [network_pf] and [network_lpf]. *)
Definition prepare (now : option string) : action string :=
  network <~ get ;;
  when (negb (topology_determined network))
       (modify build_graph ;;; determine_network_topology) ;;;
  network <~ get ;;
  when (negb (dependent_values_calculated network))
       (modify calculate_dependent_values) ;;;
  network <~ get ;;
  let now := or_now now network in
  (* deal with transport links and converters *)
  modify (follow_p_set Converter now) ;;;
  modify (follow_p_set TransportLink now) ;;;
  ret now.

Definition network_lpf (now : option string) : action unit :=
  now <~ prepare now ;;
  network <~ get ;;
  for_objs (frames network SubNetwork) "current_type"
           (fun sub_network => sub_network_lpf sub_network (Some now)).

(** ** The bus admittance matrix *)

Context {C : ComplexOps A}.

(** The builtin [sum] of complex numbers. *)
Definition csum (xs : list cnum) : cnum := fold_left cadd xs (of_real (of_Z 0)).

(** [series.fillna(d)] *)
Definition fillna (d x : num) : num := if isnull x then d else x.

Definition half : num := fdiv (of_Z 1) (of_Z 2).

(** [a + 1.j*b] for two float columns. *)
Definition rect (a b : num) : cnum := cadd (of_real a) (cmul cI (of_real b)).

Definition y_se (b : branch_row) : cnum :=
  cdiv (of_real (of_Z 1))
       (rect (as_num (br_get b "r_pu")) (as_num (br_get b "x_pu"))).

Definition y_sh (b : branch_row) : cnum :=
  rect (as_num (br_get b "g_pu")) (as_num (br_get b "b_pu")).

(** [tau = tap_ratio.fillna(1.); tau[tau==0] = 1.] *)
Definition tau (b : branch_row) : num :=
  let t := fillna (of_Z 1) (as_num (br_get b "tap_ratio")) in
  if feqb t (of_Z 0) then of_Z 1 else t.

(** [np.exp(1.j*phase_shift.fillna(0.)*np.pi/180.)] *)
Definition phase_shift (b : branch_row) : cnum :=
  cexp (cdiv (cmul (cmul cI (of_real (fillna (of_Z 0) (as_num (br_get b "phase_shift")))))
                   (of_real np_pi))
             (of_real (of_Z 180))).

Definition Y11 (b : branch_row) : cnum :=
  cadd (y_se b) (cmul (of_real half) (y_sh b)).

Definition Y01 (b : branch_row) : cnum :=
  cdiv (cdiv (copp (y_se b)) (of_real (tau b))) (phase_shift b).

Definition Y10 (b : branch_row) : cnum :=
  cdiv (cdiv (copp (y_se b)) (of_real (tau b))) (conj (phase_shift b)).

Definition Y00 (b : branch_row) : cnum :=
  cdiv (Y11 b) (of_real (square (tau b))).

(** [sum(sh.g_pu+1.j*sh.b_pu for sh in bus.shunt_impedances.obj)] *)
Definition bus_shunt (n : Network) (bus : string) : cnum :=
  csum (map (fun sh => rect (as_num (row_get (snd sh) "g_pu"))
                            (as_num (row_get (snd sh) "b_pu")))
            (at_bus n ShuntImpedance bus)).

(** [[sum(...) for bus in buses.obj]]: the nan of a bus row without object
    has no attribute [shunt_impedances]. *)
Definition bus_shunts (n : Network) (buses : list (string * row)) : result (list cnum) :=
  if forallb (fun bus => holds_obj (snd bus)) buses
  then Ok (map (fun bus => bus_shunt n (fst bus)) buses)
  else Raise (AttributeError "shunt_impedances").

(** The column [i] of the buses a branch column names; scipy refuses the
    missing index a left join leaves. *)
Definition joined_numbers (buses : list (string * row)) (names : list string)
  : result (list nat) :=
  match bus_numbers buses names with
  | Ok l => Ok l
  | Raise _ => Raise ValueError
  end.

(** The connection matrix of one branch end, as scipy multiplies it with a
    complex matrix. *)
Definition connection (num_branches : nat) (bus : list nat) : matrix cnum :=
  csr_matrix (map of_real (ones num_branches)) (seq 0 num_branches, bus).

Definition calculate_Y (sub_network : string) : action unit :=
  network <~ get ;;
  if String.eqb (current_type network sub_network) "DC" then
    ret tt                                  (* "DC networks not supported for Y!" *)
  else
    let branches := sn_branches network sub_network in
    let buses := buses_o (sub_network_attrs network sub_network) in
    let num_branches := List.length branches in
    (* bus shunt impedances *)
    Y_sh <~ lift (bus_shunts network buses) ;;
    (* get bus indices *)
    bus0 <~ lift (joined_numbers buses (map bus0 branches)) ;;
    bus1 <~ lift (joined_numbers buses (map bus1 branches)) ;;
    (* connection matrices *)
    let C0 := connection num_branches bus0 in
    let C1 := connection num_branches bus1 in
    let i := seq 0 num_branches ++ seq 0 num_branches in
    let Y0 := csr_matrix (map Y00 branches ++ map Y01 branches) (i, bus0 ++ bus1) in
    let Y1 := csr_matrix (map Y10 branches ++ map Y11 branches) (i, bus0 ++ bus1) in
    (* now build bus admittance matrix *)
    let Y := mat_add (mat_add (mat_mul cmul (transpose C0) Y0)
                              (mat_mul cmul (transpose C1) Y1))
                     (diagonal Y_sh) in
    modify (update_sub_network sub_network (set_Y Y Y0 Y1)).

(** ** Non-linear power flow *)

(** [M * v] for a sparse complex matrix and a vector. *)
Definition cmat_vec (M : matrix cnum) (rows : nat) (v : list cnum) : list cnum :=
  map (fun i =>
         csum (map (fun e => cmul (snd e) (nth (snd (fst e)) v (of_real (of_Z 0))))
                   (filter (fun e => Nat.eqb (fst (fst e)) i) M)))
      (seq 0 rows).

(** [v_mag*np.exp(1j*v_ang)] *)
Definition polar (v_mag v_ang : num) : cnum :=
  cmul (of_real v_mag) (cexp (cmul cI (of_real v_ang))).

Definition voltages (n : Network) (now : string) (buses : list string) : list cnum :=
  map (fun b => polar (get_at n Bus "v_mag" now b) (get_at n Bus "v_ang" now b)) buses.

(** [V*np.conj(Y*V)] *)
Definition injected (Ym : matrix cnum) (V : list cnum) : list cnum :=
  map (fun vi => cmul (fst vi) (conj (snd vi)))
      (combine V (cmat_vec Ym (List.length V) V)).

(** The two assignments that open [f] and [dfdx] and follow the solution:
    angles of the PV and PQ buses, magnitudes of the PQ buses. *)
Definition write_guess (sub_network now : string) (guess : list num) (n : Network)
  : Network :=
  let a := sub_network_attrs n sub_network in
  let k := List.length (pvpqs a) in
  exec (assign Bus "v_ang" now (map fst (pvpqs a)) (firstn k guess) ;;;
        assign Bus "v_mag" now (map fst (pqs a)) (skipn k guess)) n.

Definition mismatch_f (n : Network) (sub_network now : string) (Ym : matrix cnum)
  (s : list cnum) (guess : list num) : list num :=
  let n := write_guess sub_network now guess n in
  let a := sub_network_attrs n sub_network in
  let V := voltages n now (map fst (buses_o a)) in
  let mismatch := map (fun ms => csub (fst ms) (snd ms)) (combine (injected Ym V) s) in
  map re (tl mismatch) ++ map im (skipn (1 + List.length (pvs a)) mismatch).

Definition mat_sub (P Q : matrix cnum) : matrix cnum := P ++ mat_map copp Q.

Definition jacobian (n : Network) (sub_network now : string) (Ym : matrix cnum)
  (guess : list num) : matrix num :=
  let n := write_guess sub_network now guess n in
  let a := sub_network_attrs n sub_network in
  let V := voltages n now (map fst (buses_o a)) in
  let npv := List.length (pvs a) in
  let nb := List.length (buses_o a) in
  (* make sparse diagonal matrices *)
  let V_diag := diagonal V in
  let V_norm_diag := diagonal (map (fun v => cdiv v (of_real (cabs v))) V) in
  let I_diag := diagonal (cmat_vec Ym nb V) in
  let dS_dVa :=
    mat_mul cmul (mat_map (cmul cI) V_diag)
            (mat_map conj (mat_sub I_diag (mat_mul cmul Ym V_diag))) in
  let dS_dVm :=
    mat_add (mat_mul cmul V_norm_diag (mat_map conj I_diag))
            (mat_mul cmul V_diag (mat_map conj (mat_mul cmul Ym V_norm_diag))) in
  let J00 := mat_map re (slice_from 1 1 dS_dVa) in
  let J01 := mat_map re (slice_from 1 (1 + npv) dS_dVm) in
  let J10 := mat_map im (slice_from (1 + npv) 1 dS_dVa) in
  let J11 := mat_map im (slice_from (1 + npv) (1 + npv) dS_dVm) in
  (J00 ++ shift 0 (nb - 1) J01) ++ shift (nb - 1) 0 J10 ++ shift (nb - 1) (nb - 1) J11.

(** [series[name]] for a series over the buses of [names]. *)
Definition by_name {T : Type} (names : list string) (values : list T) (d : T)
  (name : string) : T :=
  match position name names with
  | Some i => nth i values d
  | None => d
  end.

Definition sub_network_pf (sub_network : string) (now : option string)
  : action unit :=
  network <~ get ;;
  let now := or_now now network in
  when (negb (dependent_values_calculated network))
       (modify calculate_dependent_values) ;;;
  find_bus_controls sub_network ;;;
  network <~ get ;;
  when (nonempty (sn_branches network sub_network)) (calculate_Y sub_network) ;;;
  network <~ get ;;
  let branches := sn_branches network sub_network in
  let a := sub_network_attrs network sub_network in
  let buses := map fst (buses_o a) in
  (* set the power injection at each node *)
  for_ buses
       (fun bus =>
          network <~ get ;;
          modify (set_at Bus "p" now bus
                    (fadd (injection network Generator "p_set" bus now)
                          (injection network Load "p_set" bus now))) ;;;
          modify (set_at Bus "q" now bus
                    (fadd (injection network Generator "q_set" bus now)
                          (injection network Load "q_set" bus now)))) ;;;
  (* power injection should include transport links and converters *)
  network <~ get ;;
  for_ (links_then_converters network) (withdraw_controllable buses now) ;;;
  network <~ get ;;
  let p := map (get_at network Bus "p" now) buses in
  let q := map (get_at network Bus "q" now) buses in
  let s := map (fun pq => rect (fst pq) (snd pq)) (combine p q) in
  (* Set what we know: slack V and V_mag for PV buses *)
  dispatch_as_set Bus "v_mag" "v_mag_set" now (map fst (pvs a)) ;;;
  dispatch_as_set Bus "v_mag" "v_mag_set" now [slack_bus network sub_network] ;;;
  modify (set_at Bus "v_ang" now (slack_bus network sub_network) (of_Z 0)) ;;;
  (* Make a guess for what we don't know *)
  let guess := repeat (of_Z 0) (List.length (pvpqs a)) ++ ones (List.length (pqs a)) in
  network <~ get ;;
  match Y a with
  | None => modify (write_guess sub_network now guess) ;;; raise (AttributeError "Y")
  | Some (Ym, Ym0, Ym1) =>
      (* Now try and solve *)
      let '(roots, n_iter, diff) :=
        newton_raphson_sparse (mismatch_f network sub_network now Ym s) guess
                              (jacobian network sub_network now Ym)
                              (nr_x_tol network) default_lim_iter in
      (* now set everything *)
      modify (write_guess sub_network now roots) ;;;
      network <~ get ;;
      let V := voltages network now buses in
      (* add voltages to branches *)
      let v0 := map (fun b => by_name buses V (of_real nan) (bus0 b)) branches in
      let v1 := map (fun b => by_name buses V (of_real nan) (bus1 b)) branches in
      let i0 := cmat_vec Ym0 (List.length branches) V in
      let i1 := cmat_vec Ym1 (List.length branches) V in
      let s0 := map (fun vi => cmul (fst vi) (conj (snd vi))) (combine v0 i0) in
      let s1 := map (fun vi => cmul (fst vi) (conj (snd vi))) (combine v1 i1) in
      for_ [Line; Transformer]
           (fun cls =>
              let df := filter (fun bs => class_eqb (br_class (fst bs)) cls)
                               (combine branches (combine s0 s1)) in
              let names := map (fun bs => br_name (fst bs)) df in
              assign cls "p0" now names (map (fun bs => re (fst (snd bs))) df) ;;;
              assign cls "q0" now names (map (fun bs => im (fst (snd bs))) df) ;;;
              assign cls "p1" now names (map (fun bs => re (snd (snd bs))) df) ;;;
              assign cls "q1" now names (map (fun bs => im (snd (snd bs))) df)) ;;;
      let s_calc := injected Ym V in
      let slack := slack_bus network sub_network in
      let zero := of_real (of_Z 0) in
      modify (set_at Bus "p" now slack (re (by_name buses s_calc zero slack))) ;;;
      modify (set_at Bus "q" now slack (im (by_name buses s_calc zero slack))) ;;;
      assign Bus "q" now (map fst (pvs a))
             (map (fun b => im (by_name buses s_calc zero (fst b))) (pvs a)) ;;;
      (* allow all loads, shunts and generators to dispatch as set *)
      let loads := map fst (sn_one_ports network Load sub_network) in
      dispatch_as_set Load "p" "p_set" now loads ;;;
      dispatch_as_set Load "q" "q_set" now loads ;;;
      let shunt_impedances := sn_one_ports network ShuntImpedance sub_network in
      assign ShuntImpedance "p" now (map fst shunt_impedances)
             (map (fun sh => as_num (cell (frames network ShuntImpedance) (fst sh) "g_pu"))
                  shunt_impedances) ;;;
      assign ShuntImpedance "q" now (map fst shunt_impedances)
             (map (fun sh => as_num (cell (frames network ShuntImpedance) (fst sh) "b_pu"))
                  shunt_impedances) ;;;
      let generators := map fst (sn_generators network sub_network) in
      dispatch_as_set Generator "p" "p_set" now generators ;;;
      dispatch_as_set Generator "q" "q_set" now generators ;;;
      (* let slack generator take up the slack *)
      let slack_generator := slack_generator a in
      if negb (mem slack_generator (index (frames network Generator)))
      then raise (KeyError slack_generator)
      else
        network <~ get ;;
        modify (increase Generator "p" now slack_generator
                  (fsub (get_at network Bus "p" now slack)
                        (re (by_name buses s zero slack)))) ;;;
        modify (increase Generator "q" now slack_generator
                  (fsub (get_at network Bus "q" now slack)
                        (im (by_name buses s zero slack)))) ;;;
        (* set the Q of the PV generators *)
        for_ (pvs a)
             (fun b =>
                network <~ get ;;
                modify (increase Generator "q" now (as_str (row_get (snd b) "generator"))
                          (fsub (get_at network Bus "q" now (fst b))
                                (im (by_name buses s zero (fst b))))))
  end.

Definition network_pf (now : option string) : action unit :=
  now <~ prepare now ;;
  network <~ get ;;
  for_objs (frames network SubNetwork) "current_type"
       (fun sub_network =>
          network <~ get ;;
          if String.eqb (current_type network sub_network) "DC" then
            raise (NotImplementedError
                     "Non-linear power flow for DC networks not supported yet.")
          else sub_network_pf sub_network (Some now)).

(** * opf.py *)

(** The container the caller passes as [snapshots]: [soc_constraint] tells
    a list from a pandas Index and knows no other. *)
Inductive sequence_type : Type := PyList | PdIndex | OtherSequence.

Record sequence : Type := {
  seq_type : sequence_type;
  items : list string
}.

(** this function is necessary because pyomo doesn't deal with NaNs gracefully *)
Definition replace_nan_with_none (val : num) : option num :=
  if isnull val then None else Some val.

(** ** The model object *)

Fixpoint idx_eqb (a b : list string) : bool :=
  match a, b with
  | [], [] => true
  | x :: a', y :: b' => String.eqb x y && idx_eqb a' b'
  | _, _ => false
  end.

Definition has_index (c : component) (idx : list string) : bool :=
  match c with
  | VarC _ b => existsb (fun e => idx_eqb idx (fst e)) b
  | ConstraintC b => existsb (fun e => idx_eqb idx (fst e)) b
  | ExpressionC b => existsb (fun e => idx_eqb idx (fst e)) b
  | ObjectiveC _ | SuffixC => false
  end.

(** [model.name[idx]]: the component has to exist and to hold the index. *)
Definition ref (n : Network) (name : string) (idx : list string) : result expr :=
  match assoc name (model n) with
  | None => Raise (AttributeError name)
  | Some c => if has_index c idx then Ok (Ref name idx) else Raise (KeyError name)
  end.

(** [network.model.name = component] *)
Definition declare (name : string) (c : component) : action unit :=
  modify (fun n => set_model (assoc_set name c (model n)) n).

(** A rule, called on every member of an index set. *)
Fixpoint each {K T : Type} (key : K -> list string) (rule : K -> result T)
  (ks : list K) : result (list (list string * T)) :=
  match ks with
  | [] => Ok []
  | k :: rest =>
      x <- rule k ;;
      xs <- each key rule rest ;;
      Ok ((key k, x) :: xs)
  end.

Definition key1 (k : string) : list string := [k].
Definition key2 (k : string * string) : list string := [fst k; snd k].
Definition key3 (k : string * string * string) : list string :=
  [fst (fst k); snd (fst k); snd k].

(** The entries built before the rule raises. *)
Fixpoint each_before {K T : Type} (key : K -> list string) (rule : K -> result T)
  (ks : list K) : list (list string * T) :=
  match ks with
  | [] => []
  | k :: rest =>
      match rule k with
      | Ok x => (key k, x) :: each_before key rule rest
      | Raise _ => []
      end
  end.

(** [network.model.name = Var(index, domain=d, bounds=rule)] and the like:
    pyomo attaches the component to the model and then builds its entries,
    so that a rule that raises leaves the component on the model, with the
    entries built before. *)
Definition Var {K : Type} (name : string) (key : K -> list string) (ks : list K)
  (d : domain) (rule : Network -> K -> result bounds) : action unit :=
  network <~ get ;;
  match each key (rule network) ks with
  | Ok b => declare name (VarC d b)
  | Raise e => declare name (VarC d (each_before key (rule network) ks)) ;;; raise e
  end.

Definition Constraint {K : Type} (name : string) (key : K -> list string)
  (ks : list K) (rule : Network -> K -> result relation) : action unit :=
  network <~ get ;;
  match each key (rule network) ks with
  | Ok b => declare name (ConstraintC b)
  | Raise e => declare name (ConstraintC (each_before key (rule network) ks)) ;;; raise e
  end.

Definition Expression {K : Type} (name : string) (key : K -> list string)
  (ks : list K) (rule : Network -> K -> result expr) : action unit :=
  network <~ get ;;
  match each key (rule network) ks with
  | Ok b => declare name (ExpressionC b)
  | Raise e => declare name (ExpressionC (each_before key (rule network) ks)) ;;; raise e
  end.

(** [sum(term(x) for x in xs)] over model expressions. *)
Fixpoint sum_of {T : Type} (term : T -> result expr) (xs : list T)
  : result (list expr) :=
  match xs with
  | [] => Ok []
  | x :: rest =>
      e <- term x ;;
      es <- sum_of term rest ;;
      Ok (e :: es)
  end.

Definition num_attr (n : Network) (c : component_class) (name attr : string) : num :=
  as_num (get_attr n c name attr).

Definition str_attr (n : Network) (c : component_class) (name attr : string) : string :=
  as_str (get_attr n c name attr).

Definition bool_attr (n : Network) (c : component_class) (name attr : string) : bool :=
  as_bool (get_attr n c name attr).

(** [df[df.col]] for a boolean column. *)
Definition extendable (col : string) (rs : list (string * row)) : list (string * row) :=
  select (fun _ r => as_bool (row_get r col)) rs.

(** [network.snapshot_weightings[snapshot]] and [obj.attr[snapshot]]: a
    label that is no snapshot of the network is a KeyError. *)
Definition at_snapshot (n : Network) (snapshot : string) : result unit :=
  if mem snapshot (snapshots n) then Ok tt else Raise (KeyError snapshot).

(** ** Generators *)

Definition gen_p_bounds (n : Network) (k : string * string) : result bounds :=
  let '(gen_name, snapshot) := k in
  let gen := num_attr n Generator gen_name in
  if bool_attr n Generator gen_name "p_nom_extendable" then Ok (None, None)
  else if String.eqb (str_attr n Generator gen_name "dispatch") "flexible" then
    Ok (Some (fmul (gen "p_nom") (gen "p_min_pu_fixed")),
        Some (fmul (gen "p_nom") (gen "p_max_pu_fixed")))
  else if String.eqb (str_attr n Generator gen_name "dispatch") "variable" then
    _ <- at_snapshot n snapshot ;;
    Ok (Some (fmul (gen "p_nom") (get_at n Generator "p_min_pu" snapshot gen_name)),
        Some (fmul (gen "p_nom") (get_at n Generator "p_max_pu" snapshot gen_name)))
  else Raise (NotImplementedError
                (String.append "Dispatch type "
                   (String.append (str_attr n Generator gen_name "dispatch")
                                  " is not supported yet."))).

Definition p_nom_bounds (c : component_class) (n : Network) (name : string)
  : result bounds :=
  Ok (replace_nan_with_none (num_attr n c name "p_nom_min"),
      replace_nan_with_none (num_attr n c name "p_nom_max")).

(** [gen_p_lower] and [gen_p_upper] *)
Definition gen_p_limit (rel : expr -> expr -> relation) (fixed series : string)
  (n : Network) (k : string * string) : result relation :=
  let '(gen_name, snapshot) := k in
  if String.eqb (str_attr n Generator gen_name "dispatch") "flexible" then
    p <- ref n "generator_p" [gen_name; snapshot] ;;
    p_nom <- ref n "generator_p_nom" [gen_name] ;;
    Ok (rel p (Mul p_nom (Num (num_attr n Generator gen_name fixed))))
  else if String.eqb (str_attr n Generator gen_name "dispatch") "variable" then
    p <- ref n "generator_p" [gen_name; snapshot] ;;
    p_nom <- ref n "generator_p_nom" [gen_name] ;;
    _ <- at_snapshot n snapshot ;;
    Ok (rel p (Mul p_nom (Num (get_at n Generator series snapshot gen_name))))
  else Raise (NotImplementedError
                (String.append "Dispatch type "
                   (String.append (str_attr n Generator gen_name "dispatch")
                                  " is not supported yet for extendability."))).

Definition define_generator_variables_constraints (snapshots : sequence)
  : action unit :=
  network <~ get ;;
  let generators := index (frames network Generator) in
  Var "generator_p" key2 (list_prod generators (items snapshots)) Reals gen_p_bounds ;;;
  let extendable_generators :=
    map fst (extendable "p_nom_extendable" (rows (frames network Generator))) in
  Var "generator_p_nom" key1 extendable_generators NonNegativeReals
      (p_nom_bounds Generator) ;;;
  Constraint "generator_p_lower" key2
             (list_prod extendable_generators (items snapshots))
             (gen_p_limit GeC "p_min_pu_fixed" "p_min_pu") ;;;
  Constraint "generator_p_upper" key2
             (list_prod extendable_generators (items snapshots))
             (gen_p_limit LeC "p_max_pu_fixed" "p_max_pu").

(** ** Storage units *)

Definition su_p_dispatch_bounds (n : Network) (k : string * string) : result bounds :=
  let su := num_attr n StorageUnit (fst k) in
  if bool_attr n StorageUnit (fst k) "p_nom_extendable" then Ok (Some (of_Z 0), None)
  else Ok (Some (of_Z 0), Some (fmul (su "p_nom") (su "p_max_pu_fixed"))).

Definition su_p_store_bounds (n : Network) (k : string * string) : result bounds :=
  let su := num_attr n StorageUnit (fst k) in
  if bool_attr n StorageUnit (fst k) "p_nom_extendable" then Ok (Some (of_Z 0), None)
  else Ok (Some (of_Z 0), Some (fmul (fopp (su "p_nom")) (su "p_min_pu_fixed"))).

Definition su_p_upper (n : Network) (k : string * string) : result relation :=
  let '(su_name, snapshot) := k in
  dispatch <- ref n "storage_p_dispatch" [su_name; snapshot] ;;
  p_nom <- ref n "storage_p_nom" [su_name] ;;
  Ok (LeC dispatch (Mul p_nom (Num (num_attr n StorageUnit su_name "p_max_pu_fixed")))).

Definition su_p_lower (n : Network) (k : string * string) : result relation :=
  let '(su_name, snapshot) := k in
  store <- ref n "storage_p_store" [su_name; snapshot] ;;
  p_nom <- ref n "storage_p_nom" [su_name] ;;
  Ok (LeC store (Mul (Neg p_nom) (Num (num_attr n StorageUnit su_name "p_min_pu_fixed")))).

Definition soc_upper (n : Network) (k : string * string) : result relation :=
  let '(su_name, snapshot) := k in
  let su := num_attr n StorageUnit su_name in
  soc <- ref n "state_of_charge" [su_name; snapshot] ;;
  if bool_attr n StorageUnit su_name "p_nom_extendable" then
    p_nom <- ref n "storage_p_nom" [su_name] ;;
    Ok (LeC (Sub soc (Mul (Num (su "max_hours")) p_nom)) (Num (of_Z 0)))
  else
    Ok (LeC (Sub soc (Num (fmul (su "max_hours") (su "p_nom")))) (Num (of_Z 0))).

(** [snapshots.index(snapshot)] or [snapshots.get_loc(snapshot)]; with any
    other container [i] is never bound. *)
Definition snapshot_position (snapshots : sequence) (snapshot : string) : result nat :=
  match seq_type snapshots with
  | PyList | PdIndex =>
      match position snapshot (items snapshots) with
      | Some i => Ok i
      | None => Raise ValueError
      end
  | OtherSequence => Raise (NameError "i")
  end.

Definition soc_constraint (snapshots : sequence) (n : Network) (k : string * string)
  : result relation :=
  let '(su_name, snapshot) := k in
  let su := num_attr n StorageUnit su_name in
  i <- snapshot_position snapshots snapshot ;;
  previous_state_of_charge <-
    (match i with
     | O => Ok (Num (su "state_of_charge_initial"))
     | S j => ref n "state_of_charge" [su_name; nth j (items snapshots) ""]
     end) ;;
  _ <- at_snapshot n snapshot ;;
  let elapsed_hours := snapshot_weightings n snapshot in
  state_of_charge <-
    (if isnull (get_at n StorageUnit "state_of_charge" snapshot su_name)
     then ref n "state_of_charge" [su_name; snapshot]
     else Ok (Num (get_at n StorageUnit "state_of_charge" snapshot su_name))) ;;
  store <- ref n "storage_p_store" [su_name; snapshot] ;;
  dispatch <- ref n "storage_p_dispatch" [su_name; snapshot] ;;
  Ok (EqC
        (Sub
           (Add
              (Sub
                 (Add
                    (Mul (Pow (Num (fsub (of_Z 1) (su "standing_loss")))
                              (Num elapsed_hours))
                         previous_state_of_charge)
                    (Mul (Mul (Num (su "efficiency_store")) store)
                         (Num elapsed_hours)))
                 (Mul (Mul (Num (fdiv (of_Z 1) (su "efficiency_dispatch"))) dispatch)
                      (Num elapsed_hours)))
              (Num (fmul (get_at n StorageUnit "inflow" snapshot su_name)
                         elapsed_hours)))
           state_of_charge)
        (Num (of_Z 0))).

Definition soc_constraint_fixed (n : Network) (k : string * string)
  : result relation :=
  let '(su_name, snapshot) := k in
  _ <- at_snapshot n snapshot ;;
  if isnull (get_at n StorageUnit "state_of_charge" snapshot su_name)
  then Ok Feasible
  else
    soc <- ref n "state_of_charge" [su_name; snapshot] ;;
    Ok (EqC soc (Num (get_at n StorageUnit "state_of_charge" snapshot su_name))).

Definition define_storage_variables_constraints (snapshots : sequence)
  : action unit :=
  network <~ get ;;
  let storage_units := index (frames network StorageUnit) in
  let all := list_prod storage_units (items snapshots) in
  Var "storage_p_dispatch" key2 all NonNegativeReals su_p_dispatch_bounds ;;;
  Var "storage_p_store" key2 all NonNegativeReals su_p_store_bounds ;;;
  let extendable_storage_units :=
    map fst (extendable "p_nom_extendable" (rows (frames network StorageUnit))) in
  Var "storage_p_nom" key1 extendable_storage_units NonNegativeReals
      (p_nom_bounds StorageUnit) ;;;
  Constraint "storage_p_upper" key2
             (list_prod extendable_storage_units (items snapshots)) su_p_upper ;;;
  Constraint "storage_p_lower" key2
             (list_prod extendable_storage_units (items snapshots)) su_p_lower ;;;
  Var "state_of_charge" key2 all NonNegativeReals
      (fun _ _ => Ok (Some (of_Z 0), None)) ;;;
  Constraint "state_of_charge_upper" key2 all soc_upper ;;;
  Constraint "state_of_charge_constraint" key2 all (soc_constraint snapshots) ;;;
  Constraint "state_of_charge_constraint_fixed" key2 all soc_constraint_fixed.

(** ** Branches *)

(** The index of a concatenated branch table: class name and name. *)
Definition br_key (b : branch_row) : string * string :=
  (class_name (br_class b), br_name b).

Definition extendable_branches (bs : list branch_row) : list branch_row :=
  filter (fun b => as_bool (br_get b "s_nom_extendable")) bs.

(** The branch object a key of the concatenated table names. *)
Definition branch_of (bs : list branch_row) (k : string * string) : result branch_row :=
  match find (fun b => String.eqb (fst k) (fst (br_key b))
                       && String.eqb (snd k) (snd (br_key b))) bs with
  | Some b => Ok b
  | None => Raise (KeyError (snd k))
  end.

Definition branch_s_nom_bounds (n : Network) (k : string * string) : result bounds :=
  branch <- branch_of (extendable_branches (branches n)) k ;;
  Ok (replace_nan_with_none (as_num (br_get branch "s_nom_min")),
      replace_nan_with_none (as_num (br_get branch "s_nom_max"))).

Definition define_branch_extension_variables (snapshots : sequence) : action unit :=
  network <~ get ;;
  Var "branch_s_nom" key2 (map br_key (extendable_branches (branches network)))
      NonNegativeReals branch_s_nom_bounds.

Definition cb_p_bounds (n : Network) (k : string * string * string) : result bounds :=
  cb <- branch_of (controllable_branches n) (fst k) ;;
  if as_bool (br_get cb "s_nom_extendable") then Ok (None, None)
  else Ok (Some (as_num (br_get cb "p_min")), Some (as_num (br_get cb "p_max"))).

Definition cb_p_upper (n : Network) (k : string * string * string) : result relation :=
  p <- ref n "controllable_branch_p" (key3 k) ;;
  s_nom <- ref n "branch_s_nom" (key2 (fst k)) ;;
  Ok (LeC p s_nom).

Definition cb_p_lower (n : Network) (k : string * string * string) : result relation :=
  p <- ref n "controllable_branch_p" (key3 k) ;;
  s_nom <- ref n "branch_s_nom" (key2 (fst k)) ;;
  Ok (GeC p (Neg s_nom)).

Definition define_controllable_branch_flows (snapshots : sequence) : action unit :=
  network <~ get ;;
  let controllable := map br_key (controllable_branches network) in
  let extendable :=
    map br_key (extendable_branches (controllable_branches network)) in
  Var "controllable_branch_p" key3 (list_prod controllable (items snapshots))
      Reals cb_p_bounds ;;;
  Constraint "controllable_branch_p_upper" key3
             (list_prod extendable (items snapshots)) cb_p_upper ;;;
  Constraint "controllable_branch_p_lower" key3
             (list_prod extendable (items snapshots)) cb_p_lower.

(** ** Nodal balances *)

(** The dictionary of inflow branches at each bus: minus one at [bus0], plus
    one at [bus1]; a branch end that is no bus of the network is a KeyError. *)
Definition inflow_dict : Type := list (string * list ((string * string) * Z)).

Definition append_inflow (bus : string) (x : (string * string) * Z) (d : inflow_dict)
  : result inflow_dict :=
  match assoc bus d with
  | Some l => Ok (assoc_set bus (l ++ [x]) d)
  | None => Raise (KeyError bus)
  end.

Fixpoint add_inflows (bs : list branch_row) (d : inflow_dict) : result inflow_dict :=
  match bs with
  | [] => Ok d
  | b :: rest =>
      d <- append_inflow (bus0 b) (br_key b, -1) d ;;
      d <- append_inflow (bus1 b) (br_key b, 1) d ;;
      add_inflows rest d
  end.

Definition inflows_of (n : Network) (bs : list branch_row) : result inflow_dict :=
  add_inflows bs (map (fun bus_name => (bus_name, [])) (index (frames n Bus))).

Definition inflows_at (d : inflow_dict) (bus : string)
  : result (list ((string * string) * Z)) :=
  match assoc bus d with
  | Some l => Ok l
  | None => Raise (KeyError bus)
  end.

(** [sum(o.sign*model.var[o.name,snapshot] for o in bus.<list>.obj)] *)
Definition signed_sum (n : Network) (c : component_class) (var bus snapshot : string)
  : result expr :=
  es <- sum_of (fun o => v <- ref n var [fst o; snapshot] ;;
                         Ok (Mul (Num (as_num (row_get (snd o) "sign"))) v))
               (at_bus n c bus) ;;
  Ok (Sum es).

(** [sum(coeff*model.var[t,b,snapshot] for (t,b),coeff in inflows[bus_name])] *)
Definition inflow_sum (n : Network) (var : string) (d : inflow_dict)
  (bus snapshot : string) : result expr :=
  l <- inflows_at d bus ;;
  es <- sum_of (fun x => v <- ref n var [fst (fst x); snd (fst x); snapshot] ;;
                         Ok (Mul (Num (of_Z (snd x))) v)) l ;;
  Ok (Sum es).

Definition p_balance (d : inflow_dict) (n : Network) (k : string * string)
  : result expr :=
  let '(bus_name, snapshot) := k in
  p <- signed_sum n Generator "generator_p" bus_name snapshot ;;
  dispatch <- signed_sum n StorageUnit "storage_p_dispatch" bus_name snapshot ;;
  store <- signed_sum n StorageUnit "storage_p_store" bus_name snapshot ;;
  cb <- inflow_sum n "controllable_branch_p" d bus_name snapshot ;;
  Ok (Add (Add (Sub (Add p dispatch) store)
               (Num (injection n Load "p_set" bus_name snapshot)))
          cb).

Definition define_nodal_balances (snapshots : sequence) : action unit :=
  network <~ get ;;
  inflows <~ lift (inflows_of network (controllable_branches network)) ;;
  Expression "power_balance" key2
             (list_prod (index (frames network Bus)) (items snapshots))
             (p_balance inflows).

(** ** Passive branch flows *)

(** ["x_pu" if network.sub_networks.current_type[branch.sub_network] == "AC"
    else "r_pu"] *)
Definition flow_attribute (n : Network) (branch : branch_row) : result string :=
  let sn := as_str (br_get branch "sub_network") in
  if mem sn (index (frames n SubNetwork)) then
    Ok (if String.eqb (current_type n sn) "AC" then "x_pu" else "r_pu")
  else Raise (KeyError sn).

Definition slack (n : Network) (k : string * string) : result relation :=
  let '(sn_name, snapshot) := k in
  angle <- ref n "voltage_angles" [slack_bus n sn_name; snapshot] ;;
  Ok (EqC angle (Num (of_Z 0))).

Definition angle_flow (n : Network) (k : string * string * string) : result expr :=
  branch <- branch_of (passive_branches n) (fst k) ;;
  attribute <- flow_attribute n branch ;;
  angle0 <- ref n "voltage_angles" [bus0 branch; snd k] ;;
  angle1 <- ref n "voltage_angles" [bus1 branch; snd k] ;;
  Ok (Mul (Num (fdiv (of_Z 1) (as_num (br_get branch attribute))))
          (Sub angle0 angle1)).

Definition define_passive_branch_flows (snapshots : sequence) : action unit :=
  network <~ get ;;
  Var "voltage_angles" key2
      (list_prod (index (frames network Bus)) (items snapshots)) Reals
      (fun _ _ => Ok (None, None)) ;;;
  Constraint "slack_angle" key2
             (list_prod (index (frames network SubNetwork)) (items snapshots))
             slack ;;;
  Expression "flow" key3
             (list_prod (map br_key (passive_branches network)) (items snapshots))
             angle_flow.

(** [sub_network.PTDF[abs(sub_network.PTDF) < network.ptdf_tolerance] = 0] *)
Definition kill_small (tolerance : num) (m : list (list num)) : list (list num) :=
  map (map (fun x => if fltb (fabs x) tolerance then of_Z 0 else x)) m.

(** [sum(PTDF[i,j]*power_balance[bus_name,snapshot] for j,bus_name in
    enumerate(buses_o.index) if PTDF[i,j] != 0)] *)
Definition ptdf_flow (n : Network) (sub_network : string) (i : nat) (snapshot : string)
  : result expr :=
  let a := sub_network_attrs n sub_network in
  es <- sum_of (fun jb =>
                  balance <- ref n "power_balance" [snd jb; snapshot] ;;
                  Ok (Mul (Num (nth (fst jb) (nth i (PTDF a) []) (of_Z 0))) balance))
               (filter (fun jb => neqb (nth (fst jb) (nth i (PTDF a) []) (of_Z 0)) (of_Z 0))
                       (combine (seq 0 (List.length (buses_o a)))
                                (map fst (buses_o a)))) ;;
  Ok (Sum es).

Definition stored_flow (n : Network) (k : string * string * string) : result expr :=
  branch <- branch_of (passive_branches n) (fst k) ;;
  match find (fun e => idx_eqb (key3 k) (fst e)) (branch_flow n) with
  | Some e => Ok (snd e)
  | None => Raise (AttributeError "_flow")
  end.

Definition define_passive_branch_flows_with_PTDF (snapshots : sequence)
  : action unit :=
  network <~ get ;;
  for_objs (frames network SubNetwork) "network"
       (fun sub_network =>
          find_bus_controls sub_network ;;;
          network <~ get ;;
          when (nonempty (sn_branches network sub_network))
               (calculate_B_H sub_network ;;;
                calculate_PTDF sub_network ;;;
                (* kill small PTDF values *)
                network <~ get ;;
                tolerance <~ lift (getattr network "ptdf_tolerance") ;;
                modify (update_sub_network sub_network
                          (fun a => set_PTDF (kill_small (as_num tolerance) (PTDF a)) a))) ;;;
          network <~ get ;;
          for_ (combine (seq 0 (List.length (sn_branches network sub_network)))
                        (sn_branches network sub_network))
               (fun ib =>
                  modify (fun n =>
                    set_branch_flow
                      (filter (fun e =>
                                 negb (String.eqb (fst (br_key (snd ib))) (nth 0 (fst e) "")
                                       && String.eqb (snd (br_key (snd ib))) (nth 1 (fst e) "")))
                              (branch_flow n)) n) ;;;
                  for_ (items snapshots)
                       (fun snapshot =>
                          network <~ get ;;
                          e <~ lift (ptdf_flow network sub_network (fst ib) snapshot) ;;
                          modify (set_branch_flow
                                    (branch_flow network ++
                                     [(key3 (br_key (snd ib), snapshot), e)]))))) ;;;
  network <~ get ;;
  Expression "flow" key3
             (list_prod (map br_key (passive_branches network)) (items snapshots))
             stored_flow.

Definition flow_limit (upper : bool) (n : Network) (k : string * string * string)
  : result relation :=
  branch <- branch_of (passive_branches n) (fst k) ;;
  if as_bool (br_get branch "s_nom_extendable") then
    flow <- ref n "flow" (key3 k) ;;
    s_nom <- ref n "branch_s_nom" (key2 (fst k)) ;;
    Ok (if upper then LeC flow s_nom else GeC flow (Neg s_nom))
  else
    flow <- ref n "flow" (key3 k) ;;
    Ok (if upper then LeC flow (Num (as_num (br_get branch "s_nom")))
        else GeC flow (Num (fopp (as_num (br_get branch "s_nom"))))).

Definition define_passive_branch_constraints (snapshots : sequence) : action unit :=
  network <~ get ;;
  let all := list_prod (map br_key (passive_branches network)) (items snapshots) in
  Constraint "flow_upper" key3 all (flow_limit true) ;;;
  Constraint "flow_lower" key3 all (flow_limit false).

Definition nodal_p_balance (d : inflow_dict) (n : Network) (k : string * string)
  : result relation :=
  let '(bus_name, snapshot) := k in
  p <- ref n "power_balance" [bus_name; snapshot] ;;
  flows <- inflow_sum n "flow" d bus_name snapshot ;;
  Ok (EqC (Add p flows) (Num (of_Z 0))).

Definition define_nodal_balance_constraints (snapshots : sequence) : action unit :=
  network <~ get ;;
  inflows <~ lift (inflows_of network (passive_branches network)) ;;
  Constraint "power_balance_constraint" key2
             (list_prod (index (frames network Bus)) (items snapshots))
             (nodal_p_balance inflows).

Definition sn_balance (n : Network) (k : string * string) : result relation :=
  let '(sn_name, snapshot) := k in
  es <- sum_of (fun bus_name => ref n "power_balance" [bus_name; snapshot])
               (map fst (buses_o (sub_network_attrs n sn_name))) ;;
  Ok (EqC (Sum es) (Num (of_Z 0))).

Definition define_sub_network_balance_constraints (snapshots : sequence)
  : action unit :=
  network <~ get ;;
  Constraint "sub_network_balance_constraint" key2
             (list_prod (index (frames network SubNetwork)) (items snapshots))
             sn_balance.

(** ** Emissions, objective, results *)

Definition co2_term (n : Network) (k : string * string) : result expr :=
  let '(gen, snapshot) := k in
  let source := str_attr n Generator gen "source" in
  if mem source (index (frames n Source)) then
    p <- ref n "generator_p" [gen; snapshot] ;;
    Ok (Mul (Mul (Num (fmul (num_attr n Source source "co2_emissions")
                            (fdiv (of_Z 1) (num_attr n Generator gen "efficiency"))))
                 p)
            (Num (snapshot_weightings n snapshot)))
  else Raise (KeyError source).

Definition define_co2_constraint (snapshots : sequence) (limit : num) : action unit :=
  network <~ get ;;
  es <~ lift (sum_of (co2_term network)
                     (list_prod (index (frames network Generator)) (items snapshots))) ;;
  declare "co2_constraint" (ConstraintC [([], LeC (Sum es) (Num limit))]).

(** [cost*model.var[name,snapshot]*network.snapshot_weightings[snapshot]] *)
Definition marginal_term (c : component_class) (var : string) (n : Network)
  (k : string * string) : result expr :=
  p <- ref n var [fst k; snd k] ;;
  Ok (Mul (Mul (Num (num_attr n c (fst k) "marginal_cost")) p)
          (Num (snapshot_weightings n (snd k)))).

(** [capital_cost*(model.var[name] - nominal)] *)
Definition capital_term (var : string) (key : list string) (capital_cost nominal : num)
  (n : Network) : result expr :=
  v <- ref n var key ;;
  Ok (Mul (Num capital_cost) (Sub v (Num nominal))).

Definition define_linear_objective (snapshots : sequence) : action unit :=
  network <~ get ;;
  let extendable_generators :=
    extendable "p_nom_extendable" (rows (frames network Generator)) in
  let extendable_storage_units :=
    extendable "p_nom_extendable" (rows (frames network StorageUnit)) in
  let extendable_branches := extendable_branches (branches network) in
  gen <~ lift (sum_of (marginal_term Generator "generator_p" network)
                 (list_prod (index (frames network Generator)) (items snapshots))) ;;
  su <~ lift (sum_of (marginal_term StorageUnit "storage_p_dispatch" network)
                (list_prod (index (frames network StorageUnit)) (items snapshots))) ;;
  gen_nom <~ lift (sum_of (fun g =>
                       capital_term "generator_p_nom" [fst g]
                         (as_num (row_get (snd g) "capital_cost"))
                         (as_num (row_get (snd g) "p_nom")) network)
                     extendable_generators) ;;
  su_nom <~ lift (sum_of (fun s =>
                      capital_term "storage_p_nom" [fst s]
                        (as_num (row_get (snd s) "capital_cost"))
                        (as_num (row_get (snd s) "p_nom")) network)
                    extendable_storage_units) ;;
  br_nom <~ lift (sum_of (fun b =>
                      capital_term "branch_s_nom" (key2 (br_key b))
                        (as_num (br_get b "capital_cost"))
                        (as_num (br_get b "s_nom")) network)
                    extendable_branches) ;;
  declare "objective"
          (ObjectiveC (Add (Add (Add (Add (Sum gen) (Sum su)) (Sum gen_nom)) (Sum su_nom))
                           (Sum br_nom))).

(** [network.lopf_formulation == name] *)
Definition lopf_formulation_is (name : string) : action bool :=
  network <~ get ;;
  v <~ lift (getattr network "lopf_formulation") ;;
  ret (pyval_eqb v (VStr name)).

(** [sum(asset.sign*asset.p[snapshot] for asset in chain(bus.generators.obj,
    bus.loads.obj, bus.storage_units.obj))] *)
Definition asset_sum (n : Network) (bus snapshot : string) : num :=
  pysum (flat_map (fun c =>
                     map (fun o => fmul (as_num (row_get (snd o) "sign"))
                                        (get_at n c "p" snapshot (fst o)))
                         (at_bus n c bus))
                  [Generator; Load; StorageUnit]).

Definition extract_optimisation_results (r : SolverResults) (snapshots : sequence)
  : action unit :=
  (* get value of objective function *)
  modify (set_objective (Some (lower_bound r))) ;;;
  for_ (items snapshots)
       (fun snapshot =>
          network <~ get ;;
          for_objs (frames network Generator) "name"
               (fun generator =>
                  modify (set_at Generator "p" snapshot generator
                            (value r "generator_p" [generator; snapshot]))) ;;;
          for_objs (frames network StorageUnit) "name"
               (fun su =>
                  modify (set_at StorageUnit "p" snapshot su
                            (fsub (value r "storage_p_dispatch" [su; snapshot])
                                  (value r "storage_p_store" [su; snapshot]))) ;;;
                  modify (set_at StorageUnit "state_of_charge" snapshot su
                            (value r "state_of_charge" [su; snapshot]))) ;;;
          for_objs (frames network Load) "p_set"
               (fun load =>
                  network <~ get ;;
                  modify (set_at Load "p" snapshot load
                            (get_at network Load "p_set" snapshot load))) ;;;
          for_objs (frames network Bus) "generators"
               (fun bus =>
                  network <~ get ;;
                  modify (set_at Bus "p" snapshot bus (asset_sum network bus snapshot)) ;;;
                  angles <~ lopf_formulation_is "angles" ;;
                  when angles
                       (modify (set_at Bus "v_ang" snapshot bus
                                  (value r "voltage_angles" [bus; snapshot])) ;;;
                        modify (set_at Bus "marginal_price" snapshot bus
                                  (dual r "power_balance_constraint" [bus; snapshot])))) ;;;
          network <~ get ;;
          for_ (controllable_branches network)
               (fun cb =>
                  modify (set_at (br_class cb) "p0" snapshot (br_name cb)
                            (value r "controllable_branch_p"
                                   (key3 (br_key cb, snapshot)))) ;;;
                  network <~ get ;;
                  modify (set_at (br_class cb) "p1" snapshot (br_name cb)
                            (fopp (get_at network (br_class cb) "p0" snapshot (br_name cb)))) ;;;
                  network <~ get ;;
                  modify (decrease Bus "p" snapshot (bus0 cb)
                            (get_at network (br_class cb) "p0" snapshot (br_name cb))) ;;;
                  modify (decrease Bus "p" snapshot (bus1 cb)
                            (get_at network (br_class cb) "p1" snapshot (br_name cb)))) ;;;
          ptdf <~ lopf_formulation_is "ptdf" ;;
          when ptdf
               (network <~ get ;;
                for_objs (frames network SubNetwork) "slack_bus"
                     (fun sn =>
                        network <~ get ;;
                        let a := sub_network_attrs network sn in
                        modify (set_at Bus "v_ang" snapshot (slack_bus network sn) (of_Z 0)) ;;;
                        when (nonempty (pvpqs a))
                             (network <~ get ;;
                              assign Bus "v_ang" snapshot (map fst (pvpqs a))
                                     (spsolve (slice_from 1 1 (B a))
                                              (map (get_at network Bus "p" snapshot)
                                                   (map fst (pvpqs a))))))) ;;;
          network <~ get ;;
          for_ (passive_branches network)
               (fun branch =>
                  network <~ get ;;
                  attribute <~ lift (flow_attribute network branch) ;;
                  modify (set_at (br_class branch) "p0" snapshot (br_name branch)
                            (fmul (fdiv (of_Z 1) (as_num (br_get branch attribute)))
                                  (fsub (get_at network Bus "v_ang" snapshot (bus0 branch))
                                        (get_at network Bus "v_ang" snapshot (bus1 branch))))) ;;;
                  network <~ get ;;
                  modify (set_at (br_class branch) "p1" snapshot (br_name branch)
                            (fopp (get_at network (br_class branch) "p0" snapshot
                                          (br_name branch)))))) ;;;
  network <~ get ;;
  for_ (extendable "p_nom_extendable" (rows (frames network Generator)))
       (fun generator =>
          modify (set_attr Generator (fst generator) "p_nom"
                    (VFloat (value r "generator_p_nom" [fst generator])))) ;;;
  network <~ get ;;
  for_ (extendable "p_nom_extendable" (rows (frames network StorageUnit)))
       (fun su =>
          modify (set_attr StorageUnit (fst su) "p_nom"
                    (VFloat (value r "storage_p_nom" [fst su])))) ;;;
  network <~ get ;;
  for_ (extendable_branches (branches network))
       (fun branch =>
          modify (set_attr (br_class branch) (br_name branch) "s_nom"
                    (VFloat (value r "branch_s_nom" (key2 (br_key branch)))))).

(** ** network_lopf *)

Definition network_lopf (snapshots : option sequence) (solver_name : string)
  : action unit :=
  network <~ get ;;
  when (negb (topology_determined network))
       (modify build_graph ;;; determine_network_topology) ;;;
  network <~ get ;;
  when (negb (dependent_values_calculated network))
       (modify calculate_dependent_values) ;;;
  network <~ get ;;
  let snapshots :=
    match snapshots with
    | Some s => s
    | None => {| seq_type := PyList; items := [now network] |}
    end in
  for_objs (frames network SubNetwork) "generators" find_slack_bus ;;;
  modify (set_model []) ;;;
  define_generator_variables_constraints snapshots ;;;
  define_storage_variables_constraints snapshots ;;;
  define_branch_extension_variables snapshots ;;;
  define_controllable_branch_flows snapshots ;;;
  define_nodal_balances snapshots ;;;
  angles <~ lopf_formulation_is "angles" ;;
  (if angles then define_passive_branch_flows snapshots
   else
     ptdf <~ lopf_formulation_is "ptdf" ;;
     when ptdf (define_passive_branch_flows_with_PTDF snapshots)) ;;;
  define_passive_branch_constraints snapshots ;;;
  angles <~ lopf_formulation_is "angles" ;;
  when angles (define_nodal_balance_constraints snapshots) ;;;
  ptdf <~ lopf_formulation_is "ptdf" ;;
  when ptdf (define_sub_network_balance_constraints snapshots) ;;;
  network <~ get ;;
  match co2_limit network with
  | Some limit => define_co2_constraint snapshots limit
  | None => ret tt
  end ;;;
  define_linear_objective snapshots ;;;
  (* force solver to also give us the dual prices *)
  declare "dual" SuffixC ;;;
  network <~ get ;;
  let r := solve solver_name (model network) in
  modify (set_results (Some r)) ;;;
  if String.eqb (status r) "ok" && String.eqb (termination_condition r) "optimal"
  then extract_optimisation_results r snapshots
  else ret tt.      (* "Optimisation failed with status ... " *)

End Embedding.

Notation "x <~ c ;; k" := (abind c (fun x => k))
  (at level 61, c at next level, right associativity).
Notation "c ;;; k" := (abind c (fun _ => k))
  (at level 61, right associativity).

(** * components.py: a new network *)

Section Construction.
Context {A : Arith}.

(** [Network.build_dataframes]: for every class an empty table whose
    columns are the declared attributes followed by ["obj"], and
    per-snapshot tables without a column, where every entry is missing. *)
Definition build_dataframes (c : component_class) : DataFrame :=
  {| columns := map fst (simple_descriptors c) ++ ["obj"];
     rows := [];
     series := fun _ _ _ => nan |}.

(** [Network()]: the class attributes, one snapshot ["now"] of weight 1,
    and the empty tables. *)
Definition Network_init : Network :=
  {| now := "now";
     snapshots := ["now"];
     snapshot_weightings := fun _ => of_Z 1;
     co2_limit := None;
     nr_x_tol := fdiv (of_Z 1) (of_Z 1000000);
     dc_opf_formulation := "ptdf";
     topology_determined := false;
     dependent_values_calculated := false;
     instance_attributes := [];
     graph := [];
     frames := build_dataframes;
     sub_network_attrs := fun _ => no_attrs;
     branch_flow := [];
     model := [];
     results := None;
     objective := None |}.

(** [network.name = value] for a name the class does not declare. *)
Definition set_instance_attribute (name : string) (value : pyval) (n : Network)
  : Network :=
  {| now := now n; snapshots := snapshots n;
     snapshot_weightings := snapshot_weightings n; co2_limit := co2_limit n;
     nr_x_tol := nr_x_tol n; dc_opf_formulation := dc_opf_formulation n;
     topology_determined := topology_determined n;
     dependent_values_calculated := dependent_values_calculated n;
     instance_attributes := assoc_set name value (instance_attributes n);
     graph := graph n;
     frames := frames n; sub_network_attrs := sub_network_attrs n;
     branch_flow := branch_flow n;
     model := model n; results := results n; objective := objective n |}.
End Construction.

(** * Stand-ins for the imported routines

    networkx, scipy, numpy and the solver are no part of the three source
    files.  To run the model on examples they are replaced by small
    routines of the same contract: connected components by breadth-first
    growth, a dense Gauss-Jordan elimination, the largest absolute value,
    and a solver that is handed over as a function. *)

Section StandIns.
Context {A : Arith}.

Definition neighbours (es : list edge) (seen : list string) : list string :=
  fold_left (fun s e =>
               let u := fst (fst e) in
               let v := snd (fst e) in
               let s := if mem u s && negb (mem v s) then s ++ [v] else s in
               if mem v s && negb (mem u s) then s ++ [u] else s)
            es seen.

Fixpoint grow (fuel : nat) (es : list edge) (seen : list string) : list string :=
  match fuel with
  | O => seen
  | S fuel' => grow fuel' es (neighbours es seen)
  end.

Fixpoint components (nodes : list string) (es : list edge) (done : list string)
  : list (list string * list edge) :=
  match nodes with
  | [] => []
  | x :: rest =>
      if mem x done then components rest es done
      else
        let c := grow (List.length es) es [x] in
        (c, filter (fun e => mem (fst (fst e)) c) es) :: components rest es (done ++ c)
  end.

Definition dense (k : nat) (M : matrix num) : list (list num) :=
  map (fun i => map (fun j => pysum (at_place M i j)) (seq 0 k)) (seq 0 k).

Definition eliminate (rows : list (list num)) (k : nat) : list (list num) :=
  let pivot_row := nth k rows [] in
  let pivot := nth k pivot_row (of_Z 1) in
  let pivot_row := map (fun x => fdiv x pivot) pivot_row in
  map (fun ir =>
         if Nat.eqb (fst ir) k then pivot_row
         else map (fun xy => fsub (fst xy) (fmul (nth k (snd ir) (of_Z 0)) (snd xy)))
                  (combine (snd ir) pivot_row))
      (combine (seq 0 (List.length rows)) rows).

Definition gauss_jordan (M : matrix num) (b : list num) : list num :=
  let k := List.length b in
  let augmented := map (fun rb => fst rb ++ [snd rb]) (combine (dense k M) b) in
  map (fun r => last r (of_Z 0)) (fold_left eliminate (seq 0 k) augmented).

Definition unit_vector (k i : nat) : list num :=
  map (fun j => if Nat.eqb i j then of_Z 1 else of_Z 0) (seq 0 k).

Definition inverse (M : matrix num) (k : nat) : list (list num) :=
  let columns := map (fun j => gauss_jordan M (unit_vector k j)) (seq 0 k) in
  map (fun i => map (fun c => nth i c (of_Z 0)) columns) (seq 0 k).

Definition largest_absolute_value (xs : list num) : num :=
  fold_left (fun m x => if fltb m (fabs x) then fabs x else m) xs (of_Z 0).

Definition stand_ins (solver : string -> ConcreteModel -> SolverResults) : Externals :=
  {| Float_default := of_Z 0;
     String_default := "";
     Series_default := of_Z 0;
     connected_component_subgraphs := fun nodes es => components nodes es [];
     spsolve := gauss_jordan;
     spsolve_identity := inverse;
     norm_inf := largest_absolute_value;
     solve := solver;
     drop_missing := KeyError |}.

(** A solver that reports the problem infeasible, and one that reports an
    optimum in which every variable is zero. *)
Definition infeasible_solver (_ : string) (_ : ConcreteModel) : SolverResults :=
  {| status := "warning"; termination_condition := "infeasible";
     lower_bound := nan; value := fun _ _ => nan; dual := fun _ _ => nan |}.

Definition zero_solver (_ : string) (_ : ConcreteModel) : SolverResults :=
  {| status := "ok"; termination_condition := "optimal";
     lower_bound := of_Z 0; value := fun _ _ => of_Z 0; dual := fun _ _ => of_Z 0 |}.
End StandIns.

(** * Example networks *)

Section Examples.
Context {A : Arith} {X : Externals}.

(** Four buses in a row, a generator at the first two, a load at each of
    the others, two storage units, and a converter to a fifth bus. *)
Definition tenth (k : Z) : num := fdiv (of_Z k) (of_Z 10).

Definition example_network : Network :=
  exec (add "Bus" "bus0" [] ;;;
        add "Bus" "bus1" [] ;;;
        add "Bus" "bus2" [] ;;;
        add "Bus" "bus3" [] ;;;
        add "Bus" "bus4" [] ;;;
        add "Line" "line01" [("bus0", VStr "bus0"); ("bus1", VStr "bus1");
                             ("x", VFloat (of_Z 1)); ("s_nom", VFloat (of_Z 10))] ;;;
        add "Line" "line12" [("bus0", VStr "bus1"); ("bus1", VStr "bus2");
                             ("x", VFloat (of_Z 1)); ("s_nom", VFloat (of_Z 10))] ;;;
        add "Line" "line23" [("bus0", VStr "bus2"); ("bus1", VStr "bus3");
                             ("x", VFloat (of_Z 1)); ("s_nom", VFloat (of_Z 10))] ;;;
        add "Generator" "gen" [("bus", VStr "bus0"); ("p_nom", VFloat (of_Z 10))] ;;;
        add "Generator" "spare" [("bus", VStr "bus1"); ("control", VStr "PV")] ;;;
        add "Load" "load1" [("bus", VStr "bus1"); ("p_set", VFloat (tenth 1))] ;;;
        add "Load" "load2" [("bus", VStr "bus2"); ("p_set", VFloat (tenth 2))] ;;;
        add "Load" "load3" [("bus", VStr "bus3"); ("p_set", VFloat (tenth 3))] ;;;
        add "StorageUnit" "battery" [("bus", VStr "bus2");
                                     ("state_of_charge", VFloat (of_Z 5))] ;;;
        add "StorageUnit" "reservoir" [("bus", VStr "bus3")] ;;;
        add "Converter" "link" [("bus0", VStr "bus0"); ("bus1", VStr "bus4");
                                ("p_set", VFloat (of_Z 2))])
       Network_init.
End Examples.

(** ** A stand-in for numpy's complex numbers on IEEE binary64

    Products and quotients by parts, the exponential by 24 terms of its
    power series. *)
Section ComplexStandIn.
Context {A : Arith}.

Definition cmul_parts (a b : cnum) : cnum :=
  (fsub (fmul (re a) (re b)) (fmul (im a) (im b)),
   fadd (fmul (re a) (im b)) (fmul (im a) (re b))).

Definition cdiv_parts (a b : cnum) : cnum :=
  let d := fadd (fmul (re b) (re b)) (fmul (im b) (im b)) in
  (fdiv (fadd (fmul (re a) (re b)) (fmul (im a) (im b))) d,
   fdiv (fsub (fmul (im a) (re b)) (fmul (re a) (im b))) d).

Fixpoint exp_series (fuel : nat) (k : Z) (term acc z : cnum) : cnum :=
  match fuel with
  | O => acc
  | S fuel' =>
      let term := cmul_parts term z in
      let term := (fdiv (re term) (of_Z k), fdiv (im term) (of_Z k)) in
      exp_series fuel' (k + 1)%Z term (cadd acc term) z
  end.
End ComplexStandIn.

Definition float_complex : ComplexOps float_arith :=
  {| cmul := cmul_parts;
     cdiv := cdiv_parts;
     cexp := fun z => exp_series 24 1 (of_real (of_Z 1)) (of_real (of_Z 1)) z;
     cabs := fun z : @cnum float_arith =>
               PrimFloat.sqrt (PrimFloat.add (PrimFloat.mul (fst z) (fst z))
                                             (PrimFloat.mul (snd z) (snd z)));
     np_pi := PrimFloat.div (float_of_Z 884279719003555) (float_of_Z 281474976710656) |}.

(** * Verification *)

(** * Facts about tables *)

Section TableFacts.
Context {A : Arith}.

Lemma eqb_neq_false (a b : string) : a <> b -> String.eqb a b = false.
Proof. intro H. apply String.eqb_neq. exact H. Qed.

Lemma assoc_set_same (V : Type) (k : string) (v : V) l :
  assoc k (assoc_set k v l) = Some v.
Proof.
  induction l as [|[k' v'] l IH]; simpl.
  - now rewrite String.eqb_refl.
  - destruct (String.eqb k k') eqn:E; simpl.
    + now rewrite String.eqb_refl.
    + now rewrite E.
Qed.

Lemma assoc_set_other (V : Type) (k k' : string) (v : V) l :
  k' <> k -> assoc k' (assoc_set k v l) = assoc k' l.
Proof.
  intro Hne. induction l as [|[k0 v0] l IH]; simpl.
  - now rewrite (eqb_neq_false Hne).
  - destruct (String.eqb k k0) eqn:E; simpl.
    + apply String.eqb_eq in E. subst k0.
      now rewrite (eqb_neq_false Hne).
    + now rewrite IH.
Qed.

Lemma assoc_del_same (V : Type) (k : string) (l : list (string * V)) :
  assoc k (assoc_del k l) = None.
Proof.
  unfold assoc_del. induction l as [|[k0 v0] l IH]; simpl; [reflexivity|].
  destruct (String.eqb k k0) eqn:E; simpl; [exact IH|].
  now rewrite E.
Qed.

Lemma assoc_del_other (V : Type) (k k' : string) (l : list (string * V)) :
  k' <> k -> assoc k' (assoc_del k l) = assoc k' l.
Proof.
  intro Hne. unfold assoc_del. induction l as [|[k0 v0] l IH]; simpl; [reflexivity|].
  destruct (String.eqb k k0) eqn:E; simpl.
  - apply String.eqb_eq in E. subst k0. now rewrite (eqb_neq_false Hne).
  - now rewrite IH.
Qed.

Lemma assoc_app_none (V : Type) (k : string) (l l' : list (string * V)) :
  assoc k l = None -> assoc k (l ++ l') = assoc k l'.
Proof.
  induction l as [|[k0 v0] l IH]; simpl; [reflexivity|].
  destruct (String.eqb k k0); [discriminate | exact IH].
Qed.

Lemma assoc_app_some (V : Type) (k : string) (v : V) (l l' : list (string * V)) :
  assoc k l = Some v -> assoc k (l ++ l') = Some v.
Proof.
  induction l as [|[k0 v0] l IH]; simpl; [discriminate|].
  destruct (String.eqb k k0); [trivial | exact IH].
Qed.

Lemma mem_In (k : string) (ks : list string) : mem k ks = true <-> In k ks.
Proof.
  unfold mem. rewrite existsb_exists. split.
  - intros [x [Hin Hx]]. apply String.eqb_eq in Hx. now subst.
  - intro H. exists k. split; [exact H | apply String.eqb_refl].
Qed.

Lemma mem_assoc (V : Type) (k : string) (l : list (string * V)) :
  mem k (map fst l) = false <-> assoc k l = None.
Proof.
  induction l as [|[k0 v0] l IH]; simpl; [tauto|].
  unfold mem in *. simpl.
  destruct (String.eqb k k0); simpl; [split; discriminate | exact IH].
Qed.

Lemma row_get_set (r : row) (col col' : string) (v : pyval) :
  row_get (assoc_set col v r) col' = if String.eqb col' col then v else row_get r col'.
Proof.
  unfold row_get. destruct (String.eqb col' col) eqn:E.
  - apply String.eqb_eq in E. subst. now rewrite assoc_set_same.
  - apply String.eqb_neq in E. now rewrite assoc_set_other.
Qed.

Lemma row_get_del (r : row) (col col' : string) :
  row_get (assoc_del col r) col' = if String.eqb col' col then NaN else row_get r col'.
Proof.
  unfold row_get. destruct (String.eqb col' col) eqn:E.
  - apply String.eqb_eq in E. subst. now rewrite assoc_del_same.
  - apply String.eqb_neq in E. now rewrite assoc_del_other.
Qed.

(** Rewriting the rows one by one. *)
Lemma assoc_map_rows (f : string -> row -> row) (rs : list (string * row)) (name : string) :
  assoc name (map (fun nr => (fst nr, f (fst nr) (snd nr))) rs)
  = option_map (f name) (assoc name rs).
Proof.
  induction rs as [|[k r] rs IH]; simpl; [reflexivity|].
  destruct (String.eqb name k) eqn:E; [|exact IH].
  apply String.eqb_eq in E. now subst.
Qed.

Lemma index_map_rows (f : string -> row -> row) (rs : list (string * row)) :
  map fst (map (fun nr => (fst nr, f (fst nr) (snd nr))) rs) = map fst rs.
Proof. rewrite map_map. reflexivity. Qed.

Lemma cell_set_loc (df : DataFrame) (name col : string) (v : pyval) (name' col' : string) :
  cell (set_loc df name col v) name' col'
  = if String.eqb name' name && String.eqb col' col then v else cell df name' col'.
Proof.
  unfold cell, set_loc, index. simpl.
  destruct (mem name (map fst (rows df))) eqn:M.
  - rewrite (assoc_map_rows
               (fun k r => if String.eqb name k then assoc_set col v r else r)).
    + destruct (assoc name' (rows df)) as [r|] eqn:E; simpl.
      * destruct (String.eqb name' name) eqn:EN; simpl.
        -- rewrite String.eqb_sym, EN. apply row_get_set.
        -- rewrite String.eqb_sym, EN. reflexivity.
      * destruct (String.eqb name' name) eqn:EN; simpl; [|reflexivity].
        apply String.eqb_eq in EN. subst.
        apply mem_assoc in E. congruence.
  - apply mem_assoc in M.
    destruct (String.eqb name' name) eqn:EN; simpl.
    + apply String.eqb_eq in EN. subst.
      rewrite assoc_app_none by exact M. simpl. rewrite String.eqb_refl.
      unfold row_get. simpl.
      destruct (String.eqb col' col) eqn:EC; [reflexivity|].
      now rewrite M.
    + destruct (assoc name' (rows df)) as [r|] eqn:E.
      * rewrite assoc_app_some with (v := r) by exact E. reflexivity.
      * rewrite assoc_app_none by exact E. simpl. now rewrite EN.
Qed.
End TableFacts.

Section NetworkFacts.
Context {A : Arith} {X : Externals}.

Lemma class_eqb_refl (c : component_class) : class_eqb c c = true.
Proof. unfold class_eqb. destruct (class_eq_dec c c); congruence. Qed.

Lemma class_eqb_neq (c c' : component_class) : c <> c' -> class_eqb c c' = false.
Proof. unfold class_eqb. destruct (class_eq_dec c c'); congruence. Qed.

Lemma frames_set_frame_same (c : component_class) (df : DataFrame) (n : Network) :
  frames (set_frame c df n) c = df.
Proof. simpl. now rewrite class_eqb_refl. Qed.

Lemma frames_set_frame_other (c c' : component_class) (df : DataFrame) (n : Network) :
  c' <> c -> frames (set_frame c df n) c' = frames n c'.
Proof. intro H. simpl. now rewrite class_eqb_neq. Qed.

Lemma lookup_class_name (c : component_class) : lookup_class (class_name c) = Some (TableClass c).
Proof. destruct c; reflexivity. Qed.

(** A new object changes no table. *)
Lemma frames_new_object (c : component_class) (name : string) (n : Network) :
  frames (new_object c name n) = frames n.
Proof. now destruct c. Qed.

Lemma index_set_loc (df : DataFrame) (name col : string) (v : pyval) :
  index (set_loc df name col v)
  = if mem name (index df) then index df else index df ++ [name].
Proof.
  unfold set_loc, index. simpl.
  destruct (mem name (map fst (rows df))).
  - now rewrite map_map.
  - now rewrite map_app.
Qed.

(** A loop of plain assignments is a fold. *)
Lemma for_modify (T : Type) (f : T -> Network -> Network) (xs : list T) (n : Network) :
  for_ xs (fun x => modify (f x)) n = (Ok tt, fold_left (fun m x => f x m) xs n).
Proof.
  revert n. induction xs as [|x xs IH]; intro n; simpl; [reflexivity|].
  unfold abind, modify at 1. simpl. apply IH.
Qed.

Lemma obj_not_declared (c : component_class) : assoc "obj" (simple_descriptors c) = None.
Proof. destruct c; reflexivity. Qed.

(** What [set_defaults] leaves in the row of [name]. *)
Lemma set_defaults_cells (c : component_class) (name : string) (cols : list string) :
  forall df df', set_defaults c name cols df = (Ok tt, df') ->
    (forall col d, assoc col (simple_descriptors c) = Some d ->
       In col cols \/ cell df name col = default_of d ->
       cell df' name col = default_of d)
    /\ (forall col, assoc col (simple_descriptors c) = None ->
          cell df' name col = cell df name col)
    /\ (forall other col, other <> name -> cell df' other col = cell df other col)
    /\ (mem name (index df) = true -> index df' = index df)
    /\ series df' = series df.
Proof.
  induction cols as [|col0 cols IH]; intros df df' H; simpl in H.
  - inversion H; subst. repeat split; auto. intros col d _ [[]|E]; exact E.
  - destruct (String.eqb col0 "obj") eqn:EO.
    + apply String.eqb_eq in EO. subst col0.
      destruct (IH _ _ H) as (H1 & H2 & H3 & H4 & H5). repeat split; auto.
      intros col d Hd [[Hc|Hc]|Hc].
      * subst col. rewrite obj_not_declared in Hd. discriminate.
      * apply (H1 col d Hd). now left.
      * apply (H1 col d Hd). now right.
    + destruct (assoc col0 (simple_descriptors c)) as [d0|] eqn:E0; [|discriminate].
      destruct (IH _ _ H) as (H1 & H2 & H3 & H4 & H5). repeat split.
      * intros col d Hd Hc. apply (H1 col d Hd).
        destruct (String.eqb col col0) eqn:EC.
        -- apply String.eqb_eq in EC. subst col0. right.
           rewrite cell_set_loc, !String.eqb_refl. simpl. congruence.
        -- destruct Hc as [[Hc|Hc]|Hc].
           ++ subst col0. rewrite String.eqb_refl in EC. discriminate.
           ++ now left.
           ++ right. rewrite cell_set_loc, EC, andb_false_r. exact Hc.
      * intros col Hn. rewrite (H2 col Hn), cell_set_loc.
        destruct (String.eqb col col0) eqn:EC; [|now rewrite andb_false_r].
        apply String.eqb_eq in EC. subst col0. congruence.
      * intros other col Hne. rewrite (H3 other col Hne), cell_set_loc.
        now rewrite (eqb_neq_false Hne).
      * intro Hm. rewrite H4; rewrite index_set_loc, Hm; trivial.
      * rewrite H5. reflexivity.
Qed.

(** The loop of the defaults keeps the index of a table that has the row,
    whether it ends or stops at an undeclared column. *)
Lemma index_set_defaults (c : component_class) (name : string) (cols : list string) :
  forall df, mem name (index df) = true ->
    index (snd (set_defaults c name cols df)) = index df.
Proof.
  induction cols as [|col cols IH]; intros df M; cbn [set_defaults]; [reflexivity|].
  destruct (String.eqb col "obj"); [now apply IH|].
  destruct (assoc col (simple_descriptors c)) as [d|]; [|reflexivity].
  rewrite IH; rewrite index_set_loc, M; trivial.
Qed.

(** With declared columns only the loop of the defaults ends. *)
Lemma set_defaults_returns (c : component_class) (name : string) (cols : list string) :
  (forall col, In col cols ->
     col = "obj" \/ exists d, assoc col (simple_descriptors c) = Some d) ->
  forall df, fst (set_defaults c name cols df) = Ok tt.
Proof.
  induction cols as [|col cols IH]; intros H df; cbn [set_defaults]; [reflexivity|].
  destruct (String.eqb col "obj") eqn:E.
  - apply IH. intros c0 H0. apply H. now right.
  - destruct (H col (or_introl eq_refl)) as [->|[d Hd]]; [discriminate|].
    rewrite Hd. apply IH. intros c0 H0. apply H. now right.
Qed.

(** [setattr] on an object of the table keeps the index. *)
Lemma index_setattr (c c' : component_class) (name key : string) (value : pyval)
  (n : Network) :
  mem name (index (frames n c)) = true ->
  index (frames (setattr c name key value n) c') = index (frames n c').
Proof.
  intro M. unfold setattr.
  destruct (mem key (map fst (simple_descriptors c))).
  - unfold set_attr. destruct (class_eq_dec c' c) as [->|Hne].
    + rewrite frames_set_frame_same, index_set_loc, M. reflexivity.
    + now rewrite frames_set_frame_other.
  - destruct (mem key (map fst (series_descriptors c))); [|reflexivity].
    destruct (class_eq_dec c' c) as [->|Hne].
    + now rewrite frames_set_frame_same.
    + now rewrite frames_set_frame_other.
Qed.

Lemma index_fold_setattr (c c' : component_class) (name : string)
  (kwargs : list (string * pyval)) :
  forall n, mem name (index (frames n c)) = true ->
    index (frames (fold_left (fun m kv => setattr c name (fst kv) (snd kv) m) kwargs n) c')
    = index (frames n c').
Proof.
  induction kwargs as [|kv kwargs IH]; intros n M; cbn [fold_left]; [reflexivity|].
  rewrite IH.
  - now apply index_setattr.
  - now rewrite index_setattr.
Qed.

Lemma series_set_series_defaults (c : component_class) (name : string) (df : DataFrame) :
  forall attr d t, assoc attr (series_descriptors c) = Some d ->
    series (set_series_defaults c name df) attr t name = series_default_of d.
Proof.
  intros attr d t H. unfold set_series_defaults.
  destruct c; simpl in H |- *;
    repeat match type of H with
      | context [String.eqb attr ?s] =>
          destruct (String.eqb_spec attr s);
          [ subst attr; inversion H; subst; simpl; rewrite ?String.eqb_refl; reflexivity | ]
      end; try discriminate.
Qed.

Lemma rows_set_series_defaults (c : component_class) (name : string) (df : DataFrame) :
  rows (set_series_defaults c name df) = rows df.
Proof.
  unfold set_series_defaults. generalize (series_descriptors c).
  intro l. revert df. induction l as [|kv l IH]; intro df; simpl; [reflexivity|].
  rewrite IH. reflexivity.
Qed.
End NetworkFacts.

Section AddFacts.
Context {A : Arith} {X : Externals}.

(** [add], one case after the other. *)
Lemma add_cases (n : Network) (cls : component_class) (name : string)
  (kwargs : list (string * pyval)) :
  add (class_name cls) name kwargs n =
  if mem name (index (frames n cls)) then (Ok None, n)
  else
    let df1 := set_loc (frames n cls) name "obj" (VObj cls name) in
    let written := set_defaults cls name (columns df1) df1 in
    let n1 := set_frame cls (snd written) (new_object cls name n) in
    match fst written with
    | Ok _ =>
        (Ok (Some (cls, name)),
         fold_left (fun m kv => setattr cls name (fst kv) (snd kv) m) kwargs
                   (set_frame cls (set_series_defaults cls name (snd written)) n1))
    | Raise e => (Raise e, n1)
    end.
Proof.
  unfold add. rewrite lookup_class_name. unfold abind at 1, get.
  destruct (mem name (index (frames n cls))); [reflexivity|].
  unfold abind at 1, modify at 1. cbv zeta.
  unfold abind at 1, modify at 1.
  destruct (fst (set_defaults cls name _ _)) as [u|e]; [|reflexivity].
  unfold abind at 1, modify at 1. unfold abind at 1.
  rewrite for_modify. reflexivity.
Qed.

(** C10. [Network.add] with a name already in the class's table creates no
    object and returns the network as it was.  With a fresh name the table
    has one more row, named last in the index, whatever the call then does;
    when every column of the table is declared by the class the call returns
    the new object; and whenever it returns an object the name was fresh,
    the new row holds the declared defaults (cells and per-snapshot
    columns), all other rows and tables are as before, and the keyword
    attributes are applied on top, in order. *)
Theorem add_only_fresh_names (n : Network) (cls : component_class) (name : string)
  (kwargs : list (string * pyval)) :
  let df := frames n cls in
  (In name (index df) -> add (class_name cls) name kwargs n = (Ok None, n))
  /\ (~ In name (index df) ->
        index (frames (exec (add (class_name cls) name kwargs) n) cls)
        = index df ++ [name])
  /\ (~ In name (index df) ->
        (forall col, In col (columns df) ->
           col = "obj" \/ exists d, assoc col (simple_descriptors cls) = Some d) ->
        exists n', add (class_name cls) name kwargs n = (Ok (Some (cls, name)), n'))
  /\ (forall o n', add (class_name cls) name kwargs n = (Ok (Some o), n') ->
        ~ In name (index df)
        /\ o = (cls, name)
        /\ exists n0,
             n' = fold_left (fun m kv => setattr cls name (fst kv) (snd kv) m) kwargs n0
             /\ index (frames n0 cls) = index df ++ [name]
             /\ cell (frames n0 cls) name "obj" = VObj cls name
             /\ (forall col d, In col (columns df) ->
                   assoc col (simple_descriptors cls) = Some d ->
                   cell (frames n0 cls) name col = default_of d)
             /\ (forall attr d t, assoc attr (series_descriptors cls) = Some d ->
                   series (frames n0 cls) attr t name = series_default_of d)
             /\ (forall other col, other <> name ->
                   cell (frames n0 cls) other col = cell df other col)
             /\ (forall c', c' <> cls -> frames n0 c' = frames n c')).
Proof.
  intro df. unfold exec. rewrite add_cases. fold df.
  assert (Fresh : ~ In name (index df) -> mem name (index df) = false).
  { intro Hn. destruct (mem name (index df)) eqn:M; [|reflexivity].
    apply mem_In in M. contradiction. }
  assert (M1 : mem name (index df) = false ->
               mem name (index (set_loc df name "obj" (VObj cls name))) = true).
  { intro M. rewrite index_set_loc, M. apply mem_In, in_or_app. right. now left. }
  split; [|split; [|split]].
  - intro Hin. apply mem_In in Hin. now rewrite Hin.
  - intro Hn. pose proof (Fresh Hn) as M. rewrite M. cbv zeta.
    set (df1 := set_loc df name "obj" (VObj cls name)) in *.
    assert (I2 : index (snd (set_defaults cls name (columns df1) df1)) = index df ++ [name]).
    { rewrite index_set_defaults by (apply M1, M). unfold df1.
      now rewrite index_set_loc, M. }
    destruct (fst (set_defaults cls name (columns df1) df1)) as [u|e]; cbn [snd].
    + rewrite index_fold_setattr.
      * rewrite frames_set_frame_same. unfold index at 1.
        rewrite rows_set_series_defaults. exact I2.
      * rewrite frames_set_frame_same. unfold index.
        rewrite rows_set_series_defaults.
        fold (index (snd (set_defaults cls name (columns df1) df1))).
        rewrite I2. apply mem_In, in_or_app. right. now left.
    + now rewrite frames_set_frame_same.
  - intros Hn Hcols. rewrite (Fresh Hn). cbv zeta.
    rewrite set_defaults_returns.
    + eexists. reflexivity.
    + intros col Hc. unfold set_loc, add_column in Hc. cbn [columns] in Hc.
      destruct (mem "obj" (columns df)).
      * now apply Hcols.
      * apply in_app_or in Hc. destruct Hc as [Hc|[<-|[]]]; [now apply Hcols|now left].
  - intros o n' H.
    destruct (mem name (index df)) eqn:M; [discriminate|].
    assert (Hfresh : ~ In name (index df)).
    { intro Hin. apply mem_In in Hin. congruence. }
    split; [exact Hfresh|].
    cbv zeta in H.
    set (df1 := set_loc df name "obj" (VObj cls name)) in *.
    destruct (set_defaults cls name (columns df1) df1) as [[[]|e] df2] eqn:D;
      cbn [fst snd] in H; [|discriminate].
    inversion H; subst o n'; clear H.
    split; [reflexivity|].
    destruct (set_defaults_cells _ _ _ _ D) as (H1 & H2 & H3 & H4 & H5).
    eexists. split; [reflexivity|].
    rewrite !frames_set_frame_same. unfold index at 1.
    rewrite rows_set_series_defaults. fold (index df2).
    repeat split.
    + rewrite (H4 (M1 eq_refl)). unfold df1. now rewrite index_set_loc, M.
    + unfold cell. rewrite rows_set_series_defaults. fold (cell df2 name "obj").
      rewrite (H2 "obj" (obj_not_declared cls)). unfold df1.
      now rewrite cell_set_loc, !String.eqb_refl.
    + intros col d Hin Hd. unfold cell. rewrite rows_set_series_defaults.
      fold (cell df2 name col). apply (H1 col d Hd). left.
      unfold df1, set_loc, add_column. simpl.
      destruct (mem "obj" (columns df)); [exact Hin|].
      apply in_or_app. now left.
    + intros attr d t Hd. now apply series_set_series_defaults.
    + intros other col Hne. unfold cell. rewrite rows_set_series_defaults.
      fold (cell df2 other col). rewrite (H3 other col Hne). unfold df1.
      now rewrite cell_set_loc, (eqb_neq_false Hne).
    + intros c' Hne. rewrite !frames_set_frame_other by exact Hne.
      now rewrite frames_new_object.
Qed.
End AddFacts.

Section SlackFacts.
Context {A : Arith}.

Lemma get_attr_set_attr (c c' : component_class) (name name' col col' : string)
  (v : pyval) (n : Network) :
  get_attr (set_attr c name col v n) c' name' col'
  = if class_eqb c' c && (String.eqb name' name && String.eqb col' col)
    then v else get_attr n c' name' col'.
Proof.
  unfold get_attr, set_attr. simpl.
  destruct (class_eqb c' c) eqn:E; simpl; [|reflexivity].
  unfold class_eqb in E. destruct (class_eq_dec c' c); [subst|discriminate].
  apply cell_set_loc.
Qed.

Lemma get_attr_fold_set_attr (c : component_class) (col : string) (v : pyval)
  (names : list string) :
  forall (n : Network) (g : string),
    get_attr (fold_left (fun m x => set_attr c x col v m) names n) c g col
    = if mem g names then v else get_attr n c g col.
Proof.
  induction names as [|x names IH]; intros n g; simpl; [reflexivity|].
  rewrite IH, get_attr_set_attr, class_eqb_refl, String.eqb_refl. simpl.
  rewrite andb_true_r. unfold mem. simpl. fold (mem g names).
  destruct (mem g names); [now rewrite orb_true_r|].
  rewrite orb_false_r. reflexivity.
Qed.

Lemma In_assoc (V : Type) (k : string) (l : list (string * V)) :
  In k (map fst l) -> exists v, assoc k l = Some v.
Proof.
  intro H. destruct (assoc k l) as [v|] eqn:E; [now exists v|].
  apply mem_assoc in E. apply mem_In in H. congruence.
Qed.

Lemma NoDup_map_fst_filter (V : Type) (p : string * V -> bool) (l : list (string * V)) :
  NoDup (map fst l) -> NoDup (map fst (filter p l)).
Proof.
  induction l as [|x l IH]; simpl; intro H; [constructor|].
  inversion H as [|? ? Hn Hd]; subst.
  destruct (p x); simpl; [|now apply IH].
  constructor; [|now apply IH].
  intro Hin. apply Hn. apply in_map_iff in Hin. destruct Hin as [y [Hy Hin]].
  apply filter_In in Hin. apply in_map_iff. exists y. tauto.
Qed.

Lemma incl_map_fst_filter (V : Type) (p : string * V -> bool) (l : list (string * V)) k :
  In k (map fst (filter p l)) -> In k (map fst l).
Proof.
  intro Hin. apply in_map_iff in Hin. destruct Hin as [y [Hy Hin]].
  apply filter_In in Hin. apply in_map_iff. exists y. tauto.
Qed.

Lemma index_merge_left (left : list (string * row)) key right cols suffix :
  map fst (merge_left left key right cols suffix) = map fst left.
Proof. unfold merge_left. rewrite map_map. reflexivity. Qed.

Lemma NoDup_sn_generators (n : Network) (sn : string) :
  NoDup (index (frames n Generator)) -> NoDup (map fst (sn_generators n sn)).
Proof.
  intro H. unfold sn_generators, sn_one_ports, select.
  apply NoDup_map_fst_filter. now rewrite index_merge_left.
Qed.

(** The network [find_slack_bus] leaves and how it ends, case by case. *)
Definition chosen_slack (n : Network) (sn : string) (first : string)
  (slacks : list string) : Network :=
  match slacks with
  | [] => set_attr Generator first "control" (VStr "Slack")
            (update_sub_network sn (set_slack_generator first) n)
  | [s] => update_sub_network sn (set_slack_generator s) n
  | s :: others =>
      fold_left (fun m g => set_attr Generator g "control" (VStr "PV") m) others
                (update_sub_network sn (set_slack_generator s) n)
  end.

Lemma find_slack_bus_cases (n : Network) (sn : string) :
  find_slack_bus sn n =
  match sn_generators n sn with
  | [] =>
      let n1 := update_sub_network sn (set_slack_generator "") n in
      match map fst (sn_buses n sn) with
      | [] => (Raise IndexError, n1)
      | first :: _ => (Ok tt, set_attr SubNetwork sn "slack_bus" (VStr first) n1)
      end
  | (first, _) :: _ =>
      let n1 := chosen_slack n sn first
                  (map fst (select (fun _ r => is_control "Slack" r)
                                   (sn_generators n sn))) in
      (Ok tt,
       set_attr SubNetwork sn "slack_bus"
         match assoc (slack_generator (sub_network_attrs n1 sn)) (sn_generators n sn) with
         | Some r => row_get r "bus"
         | None => NaN
         end n1)
  end.
Proof.
  unfold find_slack_bus. unfold abind at 1, get at 1.
  destruct (sn_generators n sn) as [|[first r0] rest] eqn:G.
  - unfold abind, modify. destruct (map fst (sn_buses n sn)); reflexivity.
  - cbv zeta. unfold chosen_slack.
    destruct (map fst (select _ _)) as [|s [|s' others]].
    + reflexivity.
    + reflexivity.
    + unfold abind at 1 2. unfold modify at 1. rewrite for_modify.
      reflexivity.
Qed.

(** C3. [find_slack_bus] on a sub-network whose generators have distinct
    names: without generators the slack generator is the empty string and
    the slack bus the first bus of the sub-network (an IndexError when it
    has no bus); otherwise the call returns, and with no generator of
    control "Slack" the first generator is chosen and its control becomes
    "Slack", with exactly one it is chosen and the generator table stays as
    it is, with several the first is chosen and kept while every other one
    becomes "PV"; the slack bus is the bus of the chosen generator. *)
Theorem find_slack_bus_selects (n : Network) (sn : string) :
  NoDup (index (frames n Generator)) ->
  let gens := sn_generators n sn in
  let slacks := map fst (select (fun _ r => is_control "Slack" r) gens) in
  let n' := exec (find_slack_bus sn) n in
  let chosen := slack_generator (sub_network_attrs n' sn) in
  match gens with
  | [] =>
      chosen = ""
      /\ match map fst (sn_buses n sn) with
         | first :: _ =>
             fst (find_slack_bus sn n) = Ok tt
             /\ get_attr n' SubNetwork sn "slack_bus" = VStr first
         | [] => fst (find_slack_bus sn n) = Raise IndexError
         end
  | (first, _) :: _ =>
      fst (find_slack_bus sn n) = Ok tt
      /\ match slacks with
         | [] =>
             chosen = first
             /\ forall g, get_attr n' Generator g "control"
                          = if String.eqb g first then VStr "Slack"
                            else get_attr n Generator g "control"
         | [s] => chosen = s /\ frames n' Generator = frames n Generator
         | s :: others =>
             chosen = s /\ ~ In s others
             /\ forall g, get_attr n' Generator g "control"
                          = if mem g others then VStr "PV"
                            else get_attr n Generator g "control"
         end
      /\ exists r, assoc chosen gens = Some r
                   /\ get_attr n' SubNetwork sn "slack_bus" = row_get r "bus"
  end.
Proof.
  intros Hnd gens slacks n' chosen.
  assert (Hg : NoDup (map fst gens)) by now apply NoDup_sn_generators.
  assert (Hs : NoDup slacks) by (unfold slacks, select; now apply NoDup_map_fst_filter).
  assert (Hincl : forall k, In k slacks -> In k (map fst gens))
    by (unfold slacks, select; apply incl_map_fst_filter).
  subst n' chosen. unfold exec. rewrite find_slack_bus_cases.
  fold gens. destruct gens as [|[first r0] rest] eqn:G.
  - cbv zeta. destruct (map fst (sn_buses n sn)) as [|b bs] eqn:B.
    + simpl. rewrite String.eqb_refl. split; reflexivity.
    + simpl. rewrite String.eqb_refl. split; [reflexivity|]. split; [reflexivity|].
      unfold get_attr. simpl. now rewrite cell_set_loc, !String.eqb_refl.
  - cbv zeta. fold slacks. simpl fst. simpl snd.
    set (n1 := chosen_slack n sn first slacks).
    assert (Hattrs : slack_generator (sub_network_attrs n1 sn)
                     = match slacks with [] => first | s :: _ => s end).
    { unfold n1, chosen_slack. destruct slacks as [|s [|s' others]].
      - simpl. now rewrite String.eqb_refl.
      - simpl. now rewrite String.eqb_refl.
      - generalize (s' :: others). intro l.
        assert (forall m, sub_network_attrs
                            (fold_left (fun m x => set_attr Generator x "control" (VStr "PV") m) l m)
                          = sub_network_attrs m) as Hf.
        { induction l as [|x l IH]; intro m; simpl; [reflexivity|]. now rewrite IH. }
        rewrite Hf. simpl. now rewrite String.eqb_refl. }
    assert (Hsame : forall v g, get_attr (set_attr SubNetwork sn "slack_bus" v n1)
                                         Generator g "control"
                                = get_attr n1 Generator g "control").
    { intros v g. now rewrite get_attr_set_attr. }
    split; [reflexivity|]. split.
    + simpl sub_network_attrs. rewrite Hattrs.
      destruct slacks as [|s [|s' others]] eqn:S.
      * split; [reflexivity|]. intro g. rewrite Hsame. unfold n1, chosen_slack.
        rewrite get_attr_set_attr, class_eqb_refl. simpl.
        now rewrite andb_true_r.
      * split; reflexivity.
      * split; [reflexivity|]. split; [inversion Hs; assumption|].
        intro g. rewrite Hsame. unfold n1, chosen_slack.
        now rewrite get_attr_fold_set_attr.
    + simpl sub_network_attrs. rewrite Hattrs.
      assert (Hin : In match slacks with [] => first | s :: _ => s end
                       (map fst ((first, r0) :: rest))).
      { destruct slacks as [|s l]; [now left|]. apply Hincl. now left. }
      destruct (In_assoc _ _ Hin) as [r Hr].
      exists r. split; [exact Hr|].
      rewrite get_attr_set_attr, class_eqb_refl, !String.eqb_refl. cbn [andb].
      simpl in Hr. now rewrite Hr.
Qed.
End SlackFacts.

Section PerUnitFacts.
Context {A : Arith}.

Lemma assoc_rows_set_column (df : DataFrame) (col : string) f (name : string) :
  assoc name (rows (set_column df col f))
  = option_map (fun r => assoc_set col (f name r) r) (assoc name (rows df)).
Proof.
  unfold set_column. simpl.
  apply (assoc_map_rows (fun k r => assoc_set col (f k r) r)).
Qed.

Lemma assoc_rows_drop_column (df : DataFrame) (col : string) (name : string) :
  assoc name (rows (drop_column df col))
  = option_map (assoc_del col) (assoc name (rows df)).
Proof.
  unfold drop_column. simpl.
  apply (assoc_map_rows (fun _ r => assoc_del col r)).
Qed.

Lemma index_set_column (df : DataFrame) (col : string) f :
  index (set_column df col f) = index df.
Proof. unfold index, set_column. simpl. now rewrite map_map. Qed.

Lemma index_drop_column (df : DataFrame) (col : string) :
  index (drop_column df col) = index df.
Proof. unfold index, drop_column. simpl. now rewrite map_map. Qed.

(** The frames of the network after one pass. *)
Lemma frames_cdv (n : Network) (c : component_class) :
  frames (calculate_dependent_values n) c =
  let voltage c attr :=
    let df := frames n c in
    set_column (if mem "v_nom" (columns df) then drop_column df "v_nom" else df)
               "v_nom" (fun _ r => joined_v_nom n attr r) in
  let pu col f a b df :=
    set_column df col
      (fun _ r => VFloat (f (as_num (row_get r a)) (as_num (row_get r b)))) in
  match c with
  | Line =>
      pu "g_pu" times_square "g" "v_nom"
        (pu "b_pu" times_square "b" "v_nom"
           (pu "r_pu" per_square "r" "v_nom"
              (pu "x_pu" per_square "x" "v_nom" (voltage Line "bus0"))))
  | Transformer =>
      pu "g_pu" fmul "g" "s_nom"
        (pu "b_pu" fmul "b" "s_nom"
           (pu "r_pu" fdiv "r" "s_nom"
              (pu "x_pu" fdiv "x" "s_nom" (frames n Transformer))))
  | ShuntImpedance =>
      pu "g_pu" times_square "g" "v_nom"
        (pu "b_pu" times_square "b" "v_nom" (voltage ShuntImpedance "bus"))
  | _ => frames n c
  end.
Proof. destruct c; reflexivity. Qed.
End PerUnitFacts.

Section IdempotenceFacts.
Context {A : Arith}.

Lemma joined_v_nom_cdv (n : Network) (attr : string) (r : row) :
  joined_v_nom (calculate_dependent_values n) attr r = joined_v_nom n attr r.
Proof. unfold joined_v_nom. now rewrite frames_cdv. Qed.

Lemma joined_v_nom_ext (n : Network) (attr : string) (r r' : row) :
  row_get r' attr = row_get r attr -> joined_v_nom n attr r' = joined_v_nom n attr r.
Proof. unfold joined_v_nom. intro H. now rewrite H. Qed.

(** The cells of a line, a transformer and a shunt impedance after one pass,
    read off the row [r] before it. *)
Definition line_cells (n : Network) (r : row) (col : string) : pyval :=
  let v := joined_v_nom n "bus0" r in
  if String.eqb col "g_pu" then VFloat (times_square (as_num (row_get r "g")) (as_num v))
  else if String.eqb col "b_pu" then VFloat (times_square (as_num (row_get r "b")) (as_num v))
  else if String.eqb col "r_pu" then VFloat (per_square (as_num (row_get r "r")) (as_num v))
  else if String.eqb col "x_pu" then VFloat (per_square (as_num (row_get r "x")) (as_num v))
  else if String.eqb col "v_nom" then v
  else row_get r col.

Definition transformer_cells (r : row) (col : string) : pyval :=
  let s := as_num (row_get r "s_nom") in
  if String.eqb col "g_pu" then VFloat (fmul (as_num (row_get r "g")) s)
  else if String.eqb col "b_pu" then VFloat (fmul (as_num (row_get r "b")) s)
  else if String.eqb col "r_pu" then VFloat (fdiv (as_num (row_get r "r")) s)
  else if String.eqb col "x_pu" then VFloat (fdiv (as_num (row_get r "x")) s)
  else row_get r col.

Definition shunt_cells (n : Network) (r : row) (col : string) : pyval :=
  let v := joined_v_nom n "bus" r in
  if String.eqb col "g_pu" then VFloat (times_square (as_num (row_get r "g")) (as_num v))
  else if String.eqb col "b_pu" then VFloat (times_square (as_num (row_get r "b")) (as_num v))
  else if String.eqb col "v_nom" then v
  else row_get r col.

Definition cells_after (n : Network) (c : component_class) (r : row) (col : string)
  : pyval :=
  match c with
  | Line => line_cells n r col
  | Transformer => transformer_cells r col
  | ShuntImpedance => shunt_cells n r col
  | _ => row_get r col
  end.

Ltac rows_norm :=
  repeat (progress (rewrite ?row_get_set, ?row_get_del;
                    cbn [String.eqb Ascii.eqb Bool.eqb])).

Ltac split_dropped :=
  repeat match goal with
    | |- context [if mem "v_nom" ?cs then _ else _] => destruct (mem "v_nom" cs)
    end.

Lemma assoc_rows_cdv (n : Network) (c : component_class) (name : string) :
  match assoc name (rows (frames (calculate_dependent_values n) c)),
        assoc name (rows (frames n c)) with
  | Some r', Some r => forall col, row_get r' col = cells_after n c r col
  | None, None => True
  | _, _ => False
  end.
Proof.
  rewrite frames_cdv. cbv beta zeta.
  destruct c; try (destruct (assoc name (rows (frames n _))); now trivial).
  all: split_dropped;
    repeat (progress rewrite ?assoc_rows_set_column, ?assoc_rows_drop_column);
    destruct (assoc name (rows (frames n _))) as [r|]; cbn [option_map]; trivial.
  all: intro col; unfold cells_after, line_cells, transformer_cells, shunt_cells;
    cbv zeta; rows_norm.
  all: rewrite ?(@joined_v_nom_ext n "bus0" r (assoc_del "v_nom" r)),
               ?(@joined_v_nom_ext n "bus" r (assoc_del "v_nom" r))
         by (rows_norm; reflexivity).
  all: repeat match goal with
         | |- context [String.eqb ?c ?s] => destruct (String.eqb c s)
         end; reflexivity.
Qed.

Lemma dependent_values_calculated_cdv (n : Network) :
  dependent_values_calculated (calculate_dependent_values n) = true.
Proof. reflexivity. Qed.

(** C6. A second call of [calculate_dependent_values] changes nothing: every
    cell of every table, so the [x_pu], [r_pu], [g_pu], [b_pu] and [v_nom]
    columns of lines, transformers and shunt impedances in particular, every
    index, every per-snapshot table and the flag are as the first call left
    them. *)
Theorem calculate_dependent_values_idempotent (n : Network) :
  let once := calculate_dependent_values n in
  let twice := calculate_dependent_values once in
  (forall c name col, cell (frames twice c) name col = cell (frames once c) name col)
  /\ (forall c, index (frames twice c) = index (frames once c))
  /\ (forall c, series (frames twice c) = series (frames once c))
  /\ dependent_values_calculated twice = dependent_values_calculated once.
Proof.
  cbv zeta. split; [|split; [|split]].
  4: now rewrite !dependent_values_calculated_cdv.
  - intros c name col. unfold cell.
    pose proof (assoc_rows_cdv (calculate_dependent_values n) c name) as H2.
    pose proof (assoc_rows_cdv n c name) as H1.
    destruct (assoc name (rows (frames (calculate_dependent_values
                                          (calculate_dependent_values n)) c))) as [r2|];
      destruct (assoc name (rows (frames (calculate_dependent_values n) c))) as [r1|];
      try contradiction; [|reflexivity].
    destruct (assoc name (rows (frames n c))) as [r|]; [|contradiction].
    rewrite H2.
    destruct c;
      unfold cells_after, line_cells, transformer_cells, shunt_cells in *; cbv zeta;
      lazymatch goal with |- ?x = ?x => reflexivity | _ => idtac end.
    + rewrite joined_v_nom_cdv.
      rewrite (@joined_v_nom_ext n "bus" r r1) by (rewrite H1; reflexivity).
      rewrite (H1 "g"), (H1 "b"), (H1 col). cbn [String.eqb Ascii.eqb Bool.eqb].
      repeat match goal with
        | |- context [String.eqb col ?s] => destruct (String.eqb_spec col s); [subst col|]
        end; rewrite ?H1; try reflexivity.
    + rewrite joined_v_nom_cdv.
      rewrite (@joined_v_nom_ext n "bus0" r r1) by (rewrite H1; reflexivity).
      rewrite (H1 "g"), (H1 "b"), (H1 "r"), (H1 "x"), (H1 col).
      cbn [String.eqb Ascii.eqb Bool.eqb].
      repeat match goal with
        | |- context [String.eqb col ?s] => destruct (String.eqb_spec col s); [subst col|]
        end; rewrite ?H1; try reflexivity.
    + rewrite (H1 "g"), (H1 "b"), (H1 "r"), (H1 "x"), (H1 "s_nom"), (H1 col).
      cbn [String.eqb Ascii.eqb Bool.eqb].
      repeat match goal with
        | |- context [String.eqb col ?s] => destruct (String.eqb_spec col s); [subst col|]
        end; rewrite ?H1; try reflexivity.
  - intro c. rewrite (frames_cdv (calculate_dependent_values n)). cbv beta zeta.
    destruct c; split_dropped;
      repeat (progress rewrite ?index_set_column, ?index_drop_column);
      lazymatch goal with |- ?x = ?x => reflexivity end.
  - intro c. rewrite (frames_cdv (calculate_dependent_values n)). cbv beta zeta.
    destruct c; split_dropped; unfold set_column, drop_column; cbn [series];
      lazymatch goal with |- ?x = ?x => reflexivity end.
Qed.
End IdempotenceFacts.

Section NewtonFacts.
Context {A : Arith} {X : Externals}.
Variable f : list num -> list num.
Variable dfdx : list num -> matrix num.
Variable x_tol : num.
Variable lim_iter : Z.

(** One Newton update, [x - spsolve(dfdx(x), f(x))]. *)
Definition newton_step (x : list num) : list num :=
  vsub x (spsolve (dfdx x) (f x)).

(** The iterate after [k] updates of [guess]. *)
Definition iterate (guess : list num) (k : nat) : list num :=
  Nat.iter k newton_step guess.

(** The loop state at the iterate [k]. *)
Definition state_at (guess : list num) (k : nat) : nr_state :=
  (iterate guess k, Z.of_nat k, f (iterate guess k), norm_inf (f (iterate guess k))).

Lemma nr_loop_runs (guess : list num) (fuel : nat) :
  forall k : nat,
    lim_iter <= Z.of_nat k + Z.of_nat fuel ->
    (forall j, (j < k)%nat -> gtb (norm_inf (f (iterate guess j))) x_tol = true) ->
    exists k' : nat,
      nr_loop f dfdx x_tol lim_iter fuel (state_at guess k) = state_at guess k'
      /\ (k <= k')%nat
      /\ (Z.of_nat k' <= Z.max lim_iter (Z.of_nat k))
      /\ nr_continue x_tol lim_iter (state_at guess k') = false
      /\ (forall j, (j < k')%nat -> gtb (norm_inf (f (iterate guess j))) x_tol = true).
Proof.
  induction fuel as [|fuel IH]; intros k Hfuel Hbefore.
  - exists k. simpl. split; [reflexivity|]. split; [lia|]. split; [lia|].
    split; [|exact Hbefore].
    unfold nr_continue, state_at.
    replace (Z.of_nat k <? lim_iter) with false by (symmetry; apply Z.ltb_ge; lia).
    apply andb_false_r.
  - simpl. unfold state_at at 1.
    destruct (gtb (norm_inf (f (iterate guess k))) x_tol && (Z.of_nat k <? lim_iter)) eqn:E.
    + apply andb_prop in E. destruct E as [Eg El]. apply Z.ltb_lt in El.
      destruct (IH (S k)) as (k' & H1 & H2 & H3 & H4 & H5).
      * lia.
      * intros j Hj. destruct (Nat.eq_dec j k) as [->|Hne]; [exact Eg|].
        apply Hbefore. lia.
      * exists k'. split.
        -- rewrite <- H1. unfold state_at, iterate. simpl Nat.iter.
           unfold newton_step at 1 3 5.
           replace (Z.of_nat k + 1) with (Z.of_nat (S k)) by lia. reflexivity.
        -- split; [lia|]. split; [lia|]. split; assumption.
    + exists k. split; [reflexivity|]. split; [lia|]. split; [lia|].
      split; [exact E | exact Hbefore].
Qed.

(** C4. With a non-negative iteration cap and numbers on which "at most"
    excludes "greater", [newton_raphson_sparse] returns after [n_iter] Newton
    updates with [0 <= n_iter <= lim_iter]; the value returned is the iterate
    after [n_iter] updates, together with [n_iter] and the infinity norm of
    [f] there; on return the norm is not greater than [x_tol] or the cap is
    reached; the norm was greater than [x_tol] at every earlier iterate, and
    the loop has stopped by the first iterate whose norm is at most
    [x_tol]. *)
Theorem newton_raphson_sparse_stops (guess : list num) :
  0 <= lim_iter ->
  (forall a b : num, fleb a b = true -> gtb a b = false) ->
  let result := newton_raphson_sparse f guess dfdx x_tol lim_iter in
  let x := fst (fst result) in
  let n_iter := snd (fst result) in
  let diff := snd result in
  0 <= n_iter <= lim_iter
  /\ x = iterate guess (Z.to_nat n_iter)
  /\ diff = norm_inf (f x)
  /\ (gtb diff x_tol = false \/ n_iter = lim_iter)
  /\ (forall k, (k < Z.to_nat n_iter)%nat ->
        gtb (norm_inf (f (iterate guess k))) x_tol = true)
  /\ (forall k, fleb (norm_inf (f (iterate guess k))) x_tol = true ->
        n_iter <= Z.of_nat k).
Proof.
  intros Hlim Hle result x n_iter diff.
  destruct (@nr_loop_runs guess (Z.to_nat lim_iter) 0%nat) as (k' & H1 & H2 & H3 & H4 & H5).
  { lia. }
  { intros j Hj. lia. }
  assert (R : result = (iterate guess k', Z.of_nat k', norm_inf (f (iterate guess k')))).
  { unfold result, newton_raphson_sparse.
    change (guess, 0, f guess, norm_inf (f guess)) with (state_at guess 0).
    rewrite H1. reflexivity. }
  subst x n_iter diff. rewrite R. simpl fst. simpl snd.
  rewrite Nat2Z.id. unfold nr_continue, state_at in H4.
  split; [lia|]. split; [reflexivity|]. split; [reflexivity|].
  split; [|split; [exact H5|]].
  - apply andb_false_iff in H4. destruct H4 as [H4|H4]; [now left|].
    right. apply Z.ltb_ge in H4. lia.
  - intros k Hk. destruct (Nat.lt_ge_cases k k') as [Hlt|Hge]; [|lia].
    specialize (H5 k Hlt). rewrite (Hle _ _ Hk) in H5. discriminate.
Qed.
End NewtonFacts.

Section ModelFacts.
Context {A : Arith}.

Lemma idx_eqb_eq (a b : list string) : idx_eqb a b = true <-> a = b.
Proof.
  revert b. induction a as [|x a IH]; intros [|y b]; simpl; split; try congruence.
  - intro H. apply andb_prop in H. destruct H as [H1 H2].
    apply String.eqb_eq in H1. apply IH in H2. congruence.
  - intro H. inversion H; subst. rewrite String.eqb_refl. now apply IH.
Qed.

(** The constraint or expression a component holds at an index. *)
Definition lookup_idx {T : Type} (idx : list string) (b : list (list string * T))
  : option T :=
  option_map snd (find (fun e => idx_eqb idx (fst e)) b).

Definition constraint_at (n : Network) (name : string) (idx : list string)
  : option relation :=
  match assoc name (model n) with
  | Some (ConstraintC b) => lookup_idx idx b
  | _ => None
  end.

(** A component of the model that holds every index of a list. *)
Definition declares (n : Network) (name : string) (idxs : list (list string)) : Prop :=
  exists c, assoc name (model n) = Some c
            /\ forall idx, In idx idxs -> has_index c idx = true.

Lemma ref_declared (n : Network) (name : string) (idxs : list (list string))
  (idx : list string) :
  declares n name idxs -> In idx idxs -> ref n name idx = Ok (Ref name idx).
Proof.
  intros [c [Hc Hi]] Hin. unfold ref. rewrite Hc. now rewrite (Hi idx Hin).
Qed.

(** What [each] builds when the rule succeeds on every key. *)
Lemma each_ok (K T : Type) (key : K -> list string) (rule : K -> result T)
  (ks : list K) :
  (forall k, In k ks -> exists x, rule k = Ok x) ->
  exists xs, each key rule ks = Ok xs
             /\ map fst xs = map key ks
             /\ (forall k, In k ks ->
                   (forall k', key k' = key k -> k' = k) ->
                   exists x, rule k = Ok x /\ lookup_idx (key k) xs = Some x).
Proof.
  induction ks as [|k0 ks IH]; intro H.
  - exists []. simpl. repeat split; auto. intros k [].
  - destruct (H k0 (or_introl eq_refl)) as [x0 Hx0].
    destruct IH as (xs & Hxs & Hfst & Hlook).
    { intros k Hk. apply H. now right. }
    exists ((key k0, x0) :: xs). simpl. rewrite Hx0. simpl. rewrite Hxs.
    split; [reflexivity|]. split; [now rewrite Hfst|].
    intros k Hk Hinj. unfold lookup_idx. simpl.
    destruct (idx_eqb (key k) (key k0)) eqn:E.
    + apply idx_eqb_eq in E. symmetry in E. apply Hinj in E. subst k0.
      exists x0. now split.
    + destruct Hk as [->|Hk].
      * assert (idx_eqb (key k) (key k) = true) by now apply idx_eqb_eq.
        congruence.
      * exact (Hlook k Hk Hinj).
Qed.

Lemma has_index_map (T : Type) (xs : list (list string * T)) (idx : list string) :
  In idx (map fst xs) -> existsb (fun e => idx_eqb idx (fst e)) xs = true.
Proof.
  intro H. apply in_map_iff in H. destruct H as [e [He Hin]].
  apply existsb_exists. exists e. split; [exact Hin|]. now apply idx_eqb_eq.
Qed.

Lemma key2_injective (k k' : string * string) : key2 k' = key2 k -> k' = k.
Proof. destruct k, k'. unfold key2. simpl. congruence. Qed.

(** Declaring a component keeps the tables and the other components. *)
Lemma declares_set_model_other (n : Network) (name name' : string) (c : component)
  (idxs : list (list string)) :
  name' <> name -> declares n name' idxs ->
  declares (set_model (assoc_set name c (model n)) n) name' idxs.
Proof.
  intros Hne [c' [Hc Hi]]. exists c'. split; [|exact Hi].
  simpl. now rewrite assoc_set_other.
Qed.

Lemma Var_ok (K : Type) (name : string) (key : K -> list string) (ks : list K)
  (d : domain) (rule : Network -> K -> result bounds) (n : Network) :
  (forall k, In k ks -> exists x, rule n k = Ok x) ->
  exists xs,
    Var name key ks d rule n = (Ok tt, set_model (assoc_set name (VarC d xs) (model n)) n)
    /\ map fst xs = map key ks.
Proof.
  intro H. destruct (each_ok key (rule n) ks H) as (xs & Hxs & Hfst & _).
  exists xs. split; [|exact Hfst].
  unfold Var, abind, get, lift, declare, modify. now rewrite Hxs.
Qed.

Lemma Constraint_ok (K : Type) (name : string) (key : K -> list string) (ks : list K)
  (rule : Network -> K -> result relation) (n : Network) :
  (forall k, In k ks -> exists x, rule n k = Ok x) ->
  exists xs,
    Constraint name key ks rule n
    = (Ok tt, set_model (assoc_set name (ConstraintC xs) (model n)) n)
    /\ map fst xs = map key ks
    /\ (forall k, In k ks -> (forall k', key k' = key k -> k' = k) ->
          exists x, rule n k = Ok x /\ lookup_idx (key k) xs = Some x).
Proof.
  intro H. destruct (each_ok key (rule n) ks H) as (xs & Hxs & Hfst & Hl).
  exists xs. split; [|split; [exact Hfst | exact Hl]].
  unfold Constraint, abind, get, lift, declare, modify. now rewrite Hxs.
Qed.

Lemma declares_new (n : Network) (name : string) (c : component)
  (idxs : list (list string)) :
  (forall idx, In idx idxs -> has_index c idx = true) ->
  declares (set_model (assoc_set name c (model n)) n) name idxs.
Proof.
  intro H. exists c. split; [|exact H]. simpl. apply assoc_set_same.
Qed.
End ModelFacts.

Section StorageFacts.
Context {A : Arith}.

Lemma abind_ok (T U : Type) (c : action T) (k : T -> action U) (n n' : Network) (x : T) :
  c n = (Ok x, n') -> abind c k n = k x n'.
Proof. intro H. unfold abind. now rewrite H. Qed.

Lemma position_In (x : string) (l : list string) :
  In x l -> exists i, position x l = Some i /\ (i < List.length l)%nat.
Proof.
  induction l as [|y l IH]; simpl; [tauto|].
  intro H. destruct (String.eqb x y) eqn:E.
  - exists 0%nat. split; [reflexivity | lia].
  - destruct H as [H|H]; [subst; rewrite String.eqb_refl in E; discriminate|].
    destruct (IH H) as [i [Hi Hl]]. exists (S i). rewrite Hi. split; [reflexivity|lia].
Qed.

(** The recurrence of one storage unit at one snapshot, around the term
    that stands for its state of charge there. *)
Definition previous_state_of_charge (n : Network) (snapshots : sequence)
  (su snapshot : string) : expr :=
  match position snapshot (items snapshots) with
  | Some (S j) => Ref "state_of_charge" [su; nth j (items snapshots) ""]
  | _ => Num (num_attr n StorageUnit su "state_of_charge_initial")
  end.

Definition soc_recurrence (n : Network) (snapshots : sequence) (su snapshot : string)
  (state_of_charge : expr) : relation :=
  let elapsed_hours := snapshot_weightings n snapshot in
  EqC
    (Sub
       (Add
          (Sub
             (Add
                (Mul (Pow (Num (fsub (of_Z 1) (num_attr n StorageUnit su "standing_loss")))
                          (Num elapsed_hours))
                     (previous_state_of_charge n snapshots su snapshot))
                (Mul (Mul (Num (num_attr n StorageUnit su "efficiency_store"))
                          (Ref "storage_p_store" [su; snapshot]))
                     (Num elapsed_hours)))
             (Mul (Mul (Num (fdiv (of_Z 1) (num_attr n StorageUnit su "efficiency_dispatch")))
                       (Ref "storage_p_dispatch" [su; snapshot]))
                  (Num elapsed_hours)))
          (Num (fmul (get_at n StorageUnit "inflow" snapshot su) elapsed_hours)))
       state_of_charge)
    (Num (of_Z 0)).

(** The term the recurrence is built around and the equality at its side. *)
Definition soc_term (n : Network) (su snapshot : string) : expr :=
  let given := get_at n StorageUnit "state_of_charge" snapshot su in
  if isnull given then Ref "state_of_charge" [su; snapshot] else Num given.

Definition soc_pin (n : Network) (su snapshot : string) : relation :=
  let given := get_at n StorageUnit "state_of_charge" snapshot su in
  if isnull given then Feasible
  else EqC (Ref "state_of_charge" [su; snapshot]) (Num given).

Definition all_pairs (n : Network) (snapshots : sequence) : list (string * string) :=
  list_prod (index (frames n StorageUnit)) (items snapshots).

Lemma in_all_pairs (n : Network) (snapshots : sequence) (su t : string) :
  In su (index (frames n StorageUnit)) -> In t (items snapshots) ->
  In (key2 (su, t)) (map key2 (all_pairs n snapshots)).
Proof. intros H1 H2. apply in_map. apply in_prod; assumption. Qed.

Lemma soc_constraint_value (snapshots : sequence) (n m : Network) (su t : string) :
  frames m = frames n -> snapshot_weightings m = snapshot_weightings n ->
  seq_type snapshots <> OtherSequence ->
  at_snapshot m t = Ok tt ->
  In su (index (frames n StorageUnit)) -> In t (items snapshots) ->
  declares m "state_of_charge" (map key2 (all_pairs n snapshots)) ->
  declares m "storage_p_store" (map key2 (all_pairs n snapshots)) ->
  declares m "storage_p_dispatch" (map key2 (all_pairs n snapshots)) ->
  soc_constraint snapshots m (su, t)
  = Ok (soc_recurrence n snapshots su t (soc_term n su t)).
Proof.
  intros Hf Hw Hty Hsnap Hsu Ht Dsoc Dstore Ddis.
  unfold soc_constraint, soc_recurrence, soc_term, previous_state_of_charge,
    snapshot_position, num_attr, get_attr, get_at.
  rewrite Hf, Hw.
  destruct (position_In t (items snapshots) Ht) as [i [Hi Hlt]]. rewrite Hi.
  assert (Hpos : (match seq_type snapshots with
                  | PyList | PdIndex => Ok i
                  | OtherSequence => Raise (NameError "i")
                  end : result nat) = Ok i).
  { destruct (seq_type snapshots); congruence. }
  rewrite Hpos. cbn [bind].
  assert (Hprev : match i with
                  | O => Ok (Num (as_num (cell (frames n StorageUnit) su "state_of_charge_initial")))
                  | S j => ref m "state_of_charge" [su; nth j (items snapshots) ""]
                  end
                  = Ok match i with
                       | S j => Ref "state_of_charge" [su; nth j (items snapshots) ""]
                       | O => Num (as_num (cell (frames n StorageUnit) su "state_of_charge_initial"))
                       end).
  { destruct i as [|j]; [reflexivity|].
    apply (ref_declared _ Dsoc).
    apply (in_all_pairs n snapshots su (nth j (items snapshots) "") Hsu).
    apply nth_In. lia. }
  rewrite Hprev. cbn [bind]. rewrite Hsnap. cbn [bind].
  assert (Hin : In [su; t] (map key2 (all_pairs n snapshots)))
    by exact (in_all_pairs n snapshots su t Hsu Ht).
  destruct (isnull (series (frames n StorageUnit) "state_of_charge" t su)).
  - rewrite (ref_declared _ Dsoc Hin). cbn [bind].
    rewrite (ref_declared _ Dstore Hin). cbn [bind].
    rewrite (ref_declared _ Ddis Hin). reflexivity.
  - cbn [bind].
    rewrite (ref_declared _ Dstore Hin). cbn [bind].
    rewrite (ref_declared _ Ddis Hin). reflexivity.
Qed.

Lemma soc_constraint_fixed_value (n m : Network) (snapshots : sequence) (su t : string) :
  frames m = frames n ->
  at_snapshot m t = Ok tt ->
  In su (index (frames n StorageUnit)) -> In t (items snapshots) ->
  declares m "state_of_charge" (map key2 (all_pairs n snapshots)) ->
  soc_constraint_fixed m (su, t) = Ok (soc_pin n su t).
Proof.
  intros Hf Hsnap Hsu Ht Dsoc. unfold soc_constraint_fixed, soc_pin, get_at.
  rewrite Hf, Hsnap. cbn [bind].
  assert (Hin : In [su; t] (map key2 (all_pairs n snapshots)))
    by exact (in_all_pairs n snapshots su t Hsu Ht).
  cbv zeta. destruct (isnull _); [reflexivity|].
  now rewrite (ref_declared _ Dsoc Hin).
Qed.
End StorageFacts.

Arguments abind_ok {A T U c} k {n n' x} _.

Section StorageModel.
Context {A : Arith}.

Lemma assoc_In (V : Type) (k : string) (v : V) (l : list (string * V)) :
  assoc k l = Some v -> In (k, v) l.
Proof.
  induction l as [|[k0 v0] l IH]; simpl; [discriminate|].
  destruct (String.eqb k k0) eqn:E.
  - apply String.eqb_eq in E. intro H. inversion H; subst. now left.
  - intro H. right. now apply IH.
Qed.

Lemma bool_attr_extendable (n : Network) (c : component_class) (name col : string) :
  bool_attr n c name col = true ->
  In name (map fst (extendable col (rows (frames n c)))).
Proof.
  unfold bool_attr, get_attr, cell, extendable, select. intro H.
  destruct (assoc name (rows (frames n c))) as [r|] eqn:E; [|discriminate].
  apply in_map_iff. exists (name, r). split; [reflexivity|].
  apply filter_In. split; [now apply assoc_In | exact H].
Qed.

Lemma extendable_index (n : Network) (c : component_class) (name col : string) :
  In name (map fst (extendable col (rows (frames n c)))) -> In name (index (frames n c)).
Proof. unfold extendable, select, index. apply incl_map_fst_filter. Qed.

(** A declaration made earlier is still there after later ones. *)
Ltac carry D :=
  first [ exact D
        | apply declares_set_model_other; [discriminate | carry D] ].

(** C7. When [snapshots] is a list or a pandas Index of snapshots of the
    network, [define_storage_variables_constraints] returns, and for every storage
    unit of the table and every snapshot the model then holds, under
    [state_of_charge_constraint], the recurrence written around the number
    the user gave for the state of charge when that number is not nan and
    around the [state_of_charge] variable when it is, and, under
    [state_of_charge_constraint_fixed], the equality of the variable and the
    number in the first case and no constraint in the second. *)
Theorem soc_fixed_value_substituted_and_pinned (snapshots : sequence) (n : Network) :
  seq_type snapshots <> OtherSequence ->
  (forall t, In t (items snapshots) -> at_snapshot n t = Ok tt) ->
  let n' := exec (define_storage_variables_constraints snapshots) n in
  fst (define_storage_variables_constraints snapshots n) = Ok tt
  /\ forall su t,
       In su (index (frames n StorageUnit)) -> In t (items snapshots) ->
       constraint_at n' "state_of_charge_constraint" [su; t]
       = Some (soc_recurrence n snapshots su t (soc_term n su t))
       /\ soc_term n su t
          = (if isnull (get_at n StorageUnit "state_of_charge" t su)
             then Ref "state_of_charge" [su; t]
             else Num (get_at n StorageUnit "state_of_charge" t su))
       /\ constraint_at n' "state_of_charge_constraint_fixed" [su; t]
          = Some (if isnull (get_at n StorageUnit "state_of_charge" t su)
                  then Feasible
                  else EqC (Ref "state_of_charge" [su; t])
                           (Num (get_at n StorageUnit "state_of_charge" t su))).
Proof.
  intros Hty Hsnap n'. subst n'. unfold exec.
  destruct (define_storage_variables_constraints snapshots n) as [r nf] eqn:E.
  unfold define_storage_variables_constraints in E.
  unfold abind at 1, get at 1 in E.
  fold (all_pairs n snapshots) in E.
  set (all := all_pairs n snapshots) in *.
  set (ext := map fst (extendable "p_nom_extendable" (rows (frames n StorageUnit)))) in *.
  (* storage_p_dispatch *)
  destruct (@Var_ok _ _ "storage_p_dispatch" key2 all NonNegativeReals
                    su_p_dispatch_bounds n) as (x1 & E1 & F1).
  { intros k _. unfold su_p_dispatch_bounds. destruct (bool_attr _ _ _ _); eauto. }
  rewrite (abind_ok _ E1) in E. set (n1 := set_model _ n) in *.
  assert (D1 : declares n1 "storage_p_dispatch" (map key2 all)).
  { apply declares_new. intros idx Hi. simpl. apply has_index_map. now rewrite F1. }
  (* storage_p_store *)
  destruct (@Var_ok _ _ "storage_p_store" key2 all NonNegativeReals
                    su_p_store_bounds n1) as (x2 & E2 & F2).
  { intros k _. unfold su_p_store_bounds. destruct (bool_attr _ _ _ _); eauto. }
  rewrite (abind_ok _ E2) in E. set (n2 := set_model _ n1) in *.
  assert (D2 : declares n2 "storage_p_store" (map key2 all)).
  { apply declares_new. intros idx Hi. simpl. apply has_index_map. now rewrite F2. }
  assert (D1' : declares n2 "storage_p_dispatch" (map key2 all)).
  { apply declares_set_model_other; [discriminate | exact D1]. }
  (* storage_p_nom *)
  destruct (@Var_ok _ _ "storage_p_nom" key1 ext NonNegativeReals
                    (p_nom_bounds StorageUnit) n2) as (x3 & E3 & F3).
  { intros k _. unfold p_nom_bounds. eauto. }
  rewrite (abind_ok _ E3) in E. set (n3 := set_model _ n2) in *.
  assert (D3 : declares n3 "storage_p_nom" (map key1 ext)).
  { apply declares_new. intros idx Hi. simpl. apply has_index_map. now rewrite F3. }
  assert (D2' : declares n3 "storage_p_store" (map key2 all)).
  { apply declares_set_model_other; [discriminate | exact D2]. }
  assert (D1'' : declares n3 "storage_p_dispatch" (map key2 all)).
  { apply declares_set_model_other; [discriminate | exact D1']. }
  assert (Hext : forall su t, In (su, t) (list_prod ext (items snapshots)) ->
                   In [su; t] (map key2 all) /\ In [su] (map key1 ext)).
  { intros su t Hk. apply in_prod_iff in Hk. destruct Hk as [Hs Ht]. split.
    - apply (in_all_pairs n snapshots su t); [|exact Ht].
      apply (@extendable_index n StorageUnit su "p_nom_extendable"). exact Hs.
    - apply (in_map key1). exact Hs. }
  (* storage_p_upper *)
  destruct (@Constraint_ok _ _ "storage_p_upper" key2 (list_prod ext (items snapshots))
                           su_p_upper n3) as (x4 & E4 & _).
  { intros [su t] Hk. destruct (Hext su t Hk) as [H1 H2]. unfold su_p_upper.
    rewrite (ref_declared _ D1'' H1). cbn [bind].
    rewrite (ref_declared _ D3 H2). cbn [bind]. eauto. }
  rewrite (abind_ok _ E4) in E. set (n4 := set_model _ n3) in *.
  (* storage_p_lower *)
  destruct (@Constraint_ok _ _ "storage_p_lower" key2 (list_prod ext (items snapshots))
                           su_p_lower n4) as (x5 & E5 & _).
  { intros [su t] Hk. destruct (Hext su t Hk) as [H1 H2]. unfold su_p_lower.
    assert (D2_4 : declares n4 "storage_p_store" (map key2 all))
      by (apply declares_set_model_other; [discriminate | exact D2']).
    assert (D3_4 : declares n4 "storage_p_nom" (map key1 ext))
      by (apply declares_set_model_other; [discriminate | exact D3]).
    rewrite (ref_declared _ D2_4 H1). cbn [bind].
    rewrite (ref_declared _ D3_4 H2). cbn [bind]. eauto. }
  rewrite (abind_ok _ E5) in E. set (n5 := set_model _ n4) in *.
  (* state_of_charge *)
  destruct (@Var_ok _ _ "state_of_charge" key2 all NonNegativeReals
                    (fun _ _ => Ok (Some (of_Z 0), None)) n5) as (x6 & E6 & F6).
  { intros k _. eauto. }
  rewrite (abind_ok _ E6) in E. set (n6 := set_model _ n5) in *.
  assert (D6 : declares n6 "state_of_charge" (map key2 all)).
  { apply declares_new. intros idx Hi. simpl. apply has_index_map. now rewrite F6. }
  assert (D3_6 : declares n6 "storage_p_nom" (map key1 ext)).
  { carry D3. }
  assert (D2_6 : declares n6 "storage_p_store" (map key2 all)).
  { carry D2'. }
  assert (D1_6 : declares n6 "storage_p_dispatch" (map key2 all)).
  { carry D1''. }
  (* state_of_charge_upper *)
  destruct (@Constraint_ok _ _ "state_of_charge_upper" key2 all soc_upper n6)
    as (x7 & E7 & _).
  { intros [su t] Hk. unfold soc_upper.
    assert (Hin : In [su; t] (map key2 all)) by exact (in_map key2 _ _ Hk).
    rewrite (ref_declared _ D6 Hin). cbn [bind].
    destruct (bool_attr n6 StorageUnit su "p_nom_extendable") eqn:B; [|eauto].
    assert (Hin1 : In [su] (map key1 ext)).
    { apply (in_map key1). apply (@bool_attr_extendable n StorageUnit). exact B. }
    rewrite (ref_declared _ D3_6 Hin1). cbn [bind]. eauto. }
  rewrite (abind_ok _ E7) in E. set (n7 := set_model _ n6) in *.
  assert (D6_7 : declares n7 "state_of_charge" (map key2 all))
    by (apply declares_set_model_other; [discriminate | exact D6]).
  assert (D2_7 : declares n7 "storage_p_store" (map key2 all))
    by (apply declares_set_model_other; [discriminate | exact D2_6]).
  assert (D1_7 : declares n7 "storage_p_dispatch" (map key2 all))
    by (apply declares_set_model_other; [discriminate | exact D1_6]).
  assert (Hpair : forall k, In k all ->
                    In (fst k) (index (frames n StorageUnit)) /\ In (snd k) (items snapshots)).
  { intros [su t] Hk. apply in_prod_iff in Hk. exact Hk. }
  (* state_of_charge_constraint *)
  destruct (@Constraint_ok _ _ "state_of_charge_constraint" key2 all
                           (soc_constraint snapshots) n7) as (x8 & E8 & _ & L8).
  { intros [su t] Hk. destruct (Hpair _ Hk) as [Hs Ht].
    rewrite (@soc_constraint_value _ snapshots n n7 su t);
      try exact (Hsnap _ Ht); eauto. }
  rewrite (abind_ok _ E8) in E. set (n8 := set_model _ n7) in *.
  assert (D6_8 : declares n8 "state_of_charge" (map key2 all))
    by (apply declares_set_model_other; [discriminate | exact D6_7]).
  (* state_of_charge_constraint_fixed *)
  destruct (@Constraint_ok _ _ "state_of_charge_constraint_fixed" key2 all
                           soc_constraint_fixed n8) as (x9 & E9 & _ & L9).
  { intros [su t] Hk. destruct (Hpair _ Hk) as [Hs Ht].
    rewrite (@soc_constraint_fixed_value _ n n8 snapshots su t);
      try exact (Hsnap _ Ht); eauto. }
  rewrite E9 in E. injection E as <- <-. simpl fst. simpl snd. split; [reflexivity|].
  intros su t Hs Ht.
  assert (Hk : In (su, t) all) by (apply in_prod; assumption).
  destruct (L8 (su, t) Hk (@key2_injective (su, t))) as (r8 & R8 & Q8).
  destruct (L9 (su, t) Hk (@key2_injective (su, t))) as (r9 & R9 & Q9).
  rewrite (@soc_constraint_value _ snapshots n n7 su t) in R8;
    try exact (Hsnap _ Ht); eauto.
  rewrite (@soc_constraint_fixed_value _ n n8 snapshots su t) in R9;
    try exact (Hsnap _ Ht); eauto.
  inversion R8; subst r8. inversion R9; subst r9.
  split; [|split].
  - unfold constraint_at. simpl model.
    rewrite assoc_set_other by discriminate. rewrite assoc_set_same. exact Q8.
  - reflexivity.
  - unfold constraint_at. simpl model. rewrite assoc_set_same. exact Q9.
Qed.
End StorageModel.

(** * What a call leaves of the network *)

Section Frames.
Context {A : Arith}.

(** A relation between the network before a call and the network the call
    leaves behind, whether it returns or raises. *)
Definition leaves {T : Type} (R : Network -> Network -> Prop) (a : action T) : Prop :=
  forall n, R n (snd (a n)).

Class Frame (R : Network -> Network -> Prop) : Prop := {
  frame_refl : forall n, R n n;
  frame_trans : forall a b c, R a b -> R b c -> R a c
}.

Context {R : Network -> Network -> Prop} {F : Frame R}.

Lemma leaves_ret (T : Type) (x : T) : leaves R (ret x).
Proof. intro n. apply frame_refl. Qed.

Lemma leaves_raise (T : Type) (e : exn) : leaves R (@raise _ T e).
Proof. intro n. apply frame_refl. Qed.

Lemma leaves_get : leaves R get.
Proof. intro n. apply frame_refl. Qed.

Lemma leaves_lift (T : Type) (r : result T) : leaves R (lift r).
Proof. intro n. apply frame_refl. Qed.

Lemma leaves_modify (f : Network -> Network) :
  (forall n, R n (f n)) -> leaves R (modify f).
Proof. intros H n. apply H. Qed.

Lemma leaves_abind (T U : Type) (c : action T) (k : T -> action U) :
  leaves R c -> (forall x, leaves R (k x)) -> leaves R (abind c k).
Proof.
  intros Hc Hk n. unfold abind. specialize (Hc n).
  destruct (c n) as [[x|e] n1]; simpl in *; [|exact Hc].
  eapply frame_trans; [exact Hc | apply Hk].
Qed.

(** The same with the network that [get] hands over. *)
Lemma leaves_get_bind (U : Type) (k : Network -> action U) :
  (forall n, R n (snd (k n n))) -> leaves R (abind get k).
Proof. intros H n. unfold abind, get. apply H. Qed.

Lemma leaves_when (b : bool) (c : action unit) : leaves R c -> leaves R (when b c).
Proof. intro H. destruct b; [exact H | apply leaves_ret]. Qed.

Lemma leaves_for (T : Type) (xs : list T) (body : T -> action unit) :
  (forall x, In x xs -> leaves R (body x)) -> leaves R (for_ xs body).
Proof.
  induction xs as [|x xs IH]; intro H; simpl.
  - apply leaves_ret.
  - apply leaves_abind; [apply H; now left|].
    intros _. apply IH. intros y Hy. apply H. now right.
Qed.

Lemma leaves_for_objs (df : DataFrame) (attr : string) (body : string -> action unit) :
  (forall x, In x (index df) -> leaves R (body x)) -> leaves R (for_objs df attr body).
Proof.
  intro H. unfold for_objs. apply leaves_for. intros [x|] Hx; [|apply leaves_raise].
  apply H. unfold objs in Hx. apply in_map_iff in Hx.
  destruct Hx as (nr & E & Hin). destruct (holds_obj (snd nr)); [|discriminate].
  injection E as <-. unfold index. now apply in_map.
Qed.

Lemma leaves_remove {X : Externals} (o : obj) :
  (forall n, R n (set_frame (fst o) (drop_row (frames n (fst o)) (snd o)) n)) ->
  (forall n, R n (set_topology_determined false n)) ->
  leaves R (remove o).
Proof.
  intros H1 H2. unfold remove. apply leaves_get_bind. intro n.
  destruct (mem (snd o) (index (frames n (fst o)))); [|apply frame_refl].
  unfold abind, modify. cbn [snd].
  eapply frame_trans; [apply H1 | apply H2].
Qed.

Lemma leaves_fold (T : Type) (f : T -> Network -> Network) (xs : list T) :
  (forall x n, In x xs -> R n (f x n)) ->
  forall n, R n (fold_left (fun m x => f x m) xs n).
Proof.
  induction xs as [|x xs IH]; intros H n; simpl; [apply frame_refl|].
  eapply frame_trans; [apply H; now left|].
  apply IH. intros y m Hy. apply H. now right.
Qed.
End Frames.

(** A loop over the [obj] column that returns has found an object in every
    row, and has run its body on the names of the index. *)
Lemma for_objs_returns {A : Arith} (df : DataFrame) (attr : string)
  (body : string -> action unit) (n n' : Network) :
  for_objs df attr body n = (Ok tt, n') ->
  for_ (index df) body n = (Ok tt, n')
  /\ forallb (fun nr => holds_obj (snd nr)) (rows df) = true.
Proof.
  unfold for_objs, objs, index. revert n.
  induction (rows df) as [|nr l IH]; intros n E; cbn [map for_ forallb] in *.
  - now split.
  - unfold abind in E |- *. destruct (holds_obj (snd nr)).
    + destruct (body (fst nr) n) as [[[]|e] n1]; [|discriminate].
      destruct (IH _ E) as [E1 E2]. now split.
    + discriminate.
Qed.

(** A weaker relation is left as well. *)
Lemma leaves_weaken {A : Arith} (T : Type) (R R' : Network -> Network -> Prop)
  (a : action T) :
  (forall n n', R n n' -> R' n n') -> leaves R a -> leaves R' a.
Proof. intros H Ha n. apply H, Ha. Qed.

(** One step through the structure of a call. *)
Ltac frame_step :=
  lazymatch goal with
  | |- leaves _ (abind _ _) => apply leaves_abind; [| intro]
  | |- leaves _ (ret _) => apply leaves_ret
  | |- leaves _ (raise _) => apply leaves_raise
  | |- leaves _ get => apply leaves_get
  | |- leaves _ (lift _) => apply leaves_lift
  | |- leaves _ (when _ _) => apply leaves_when
  | |- leaves _ (for_ _ _) => apply leaves_for; intros ? ?
  | |- leaves _ (for_objs _ _ _) => apply leaves_for_objs; intros ? ?
  | |- leaves _ (modify _) => apply leaves_modify; intro
  | |- leaves _ (if ?b then _ else _) => destruct b
  | |- leaves _ (match ?x with _ => _ end) => destruct x
  | |- leaves _ (let _ := _ in _) => cbv zeta
  end.

(** * The part of the network that the set-up of a run does not write *)

Section Quiet.
Context {A : Arith}.

(** The capacity fields. *)
Definition capacity (c : component_class) (col : string) : bool :=
  match c with
  | Generator | StorageUnit => String.eqb col "p_nom"
  | Line | Transformer | Converter | TransportLink => String.eqb col "s_nom"
  | _ => false
  end.

(** The options of the network, the per-snapshot tables of every class and
    the capacity fields are the same in both networks. *)
Record quiet (n n' : Network) : Prop := {
  quiet_now : now n' = now n;
  quiet_snapshots : snapshots n' = snapshots n;
  quiet_snapshot_weightings : snapshot_weightings n' = snapshot_weightings n;
  quiet_co2_limit : co2_limit n' = co2_limit n;
  quiet_nr_x_tol : nr_x_tol n' = nr_x_tol n;
  quiet_dc_opf_formulation : dc_opf_formulation n' = dc_opf_formulation n;
  quiet_instance_attributes : instance_attributes n' = instance_attributes n;
  quiet_series : forall c, series (frames n' c) = series (frames n c);
  quiet_capacity : forall c name col, capacity c col = true ->
                     cell (frames n' c) name col = cell (frames n c) name col
}.

#[export] Instance quiet_frame : Frame quiet.
Proof.
  split.
  - intro n. split; reflexivity.
  - intros a b c H1 H2. split.
    + now rewrite (quiet_now H2), (quiet_now H1).
    + now rewrite (quiet_snapshots H2), (quiet_snapshots H1).
    + now rewrite (quiet_snapshot_weightings H2), (quiet_snapshot_weightings H1).
    + now rewrite (quiet_co2_limit H2), (quiet_co2_limit H1).
    + now rewrite (quiet_nr_x_tol H2), (quiet_nr_x_tol H1).
    + now rewrite (quiet_dc_opf_formulation H2), (quiet_dc_opf_formulation H1).
    + now rewrite (quiet_instance_attributes H2), (quiet_instance_attributes H1).
    + intro k. now rewrite (quiet_series H2), (quiet_series H1).
    + intros k name col H.
      now rewrite (quiet_capacity H2 _ _ _ H), (quiet_capacity H1 _ _ _ H).
Qed.

Lemma quiet_set_frame (c : component_class) (df : DataFrame) (n : Network) :
  series df = series (frames n c) ->
  (forall name col, capacity c col = true ->
     cell df name col = cell (frames n c) name col) ->
  quiet n (set_frame c df n).
Proof.
  intros Hs Hc. split; try reflexivity.
  - intro k. unfold set_frame. simpl. destruct (class_eqb k c) eqn:E; [|reflexivity].
    unfold class_eqb in E. destruct (class_eq_dec k c); [subst; exact Hs | discriminate].
  - intros k name col Hk. unfold set_frame. simpl.
    destruct (class_eqb k c) eqn:E; [|reflexivity].
    unfold class_eqb in E. destruct (class_eq_dec k c); [subst; now apply Hc | discriminate].
Qed.

Lemma capacity_neq (c : component_class) (col col' : string) :
  capacity c col = false -> capacity c col' = true -> String.eqb col' col = false.
Proof.
  intros H H'. destruct (String.eqb col' col) eqn:E; [|reflexivity].
  apply String.eqb_eq in E. congruence.
Qed.

Lemma quiet_set_attr (c : component_class) (name col : string) (v : pyval) (n : Network) :
  capacity c col = false -> quiet n (set_attr c name col v n).
Proof.
  intro H. apply quiet_set_frame; [reflexivity|].
  intros name' col' H'. rewrite cell_set_loc.
  rewrite (@capacity_neq c _ _ H H'). now rewrite andb_false_r.
Qed.

Lemma cell_set_column (df : DataFrame) (col : string) f (name col' : string) :
  String.eqb col' col = false ->
  cell (set_column df col f) name col' = cell df name col'.
Proof.
  intro H. unfold cell. rewrite assoc_rows_set_column.
  destruct (assoc name (rows df)); simpl; [|reflexivity].
  rewrite row_get_set. now rewrite H.
Qed.

Lemma cell_drop_column (df : DataFrame) (col : string) (name col' : string) :
  String.eqb col' col = false ->
  cell (drop_column df col) name col' = cell df name col'.
Proof.
  intro H. unfold cell. rewrite assoc_rows_drop_column.
  destruct (assoc name (rows df)); simpl; [|reflexivity].
  rewrite row_get_del. now rewrite H.
Qed.

Lemma quiet_append_voltage (c : component_class) (bus_attr : string) (n : Network) :
  quiet n (append_voltage c bus_attr n).
Proof.
  unfold append_voltage. apply quiet_set_frame.
  - simpl. now destruct (mem "v_nom" (columns (frames n c))).
  - intros name col H.
    assert (E : String.eqb col "v_nom" = false).
    { destruct c; simpl in H; try discriminate;
        apply String.eqb_eq in H; subst; reflexivity. }
    rewrite cell_set_column by exact E.
    destruct (mem "v_nom" (columns (frames n c))); [|reflexivity].
    now rewrite cell_drop_column.
Qed.

Lemma quiet_set_pu (c : component_class) (col : string) f (a b : string) (n : Network) :
  capacity c col = false -> quiet n (set_pu c col f a b n).
Proof.
  intro H. unfold set_pu. apply quiet_set_frame; [reflexivity|].
  intros name col' H'. apply cell_set_column. exact (@capacity_neq c _ _ H H').
Qed.

Lemma quiet_set_dependent_values_calculated (b : bool) (n : Network) :
  quiet n (set_dependent_values_calculated b n).
Proof. split; reflexivity. Qed.

Lemma quiet_calculate_dependent_values (n : Network) :
  quiet n (calculate_dependent_values n).
Proof.
  unfold calculate_dependent_values. cbv zeta.
  eapply frame_trans; [|apply quiet_set_dependent_values_calculated].
  repeat (eapply frame_trans; [|apply quiet_set_pu; reflexivity]).
  eapply frame_trans; apply quiet_append_voltage.
Qed.

Lemma quiet_update_sub_network (name : string) f (n : Network) :
  quiet n (update_sub_network name f n).
Proof. split; reflexivity. Qed.

Lemma quiet_set_model (m : ConcreteModel) (n : Network) : quiet n (set_model m n).
Proof. split; reflexivity. Qed.

Lemma quiet_set_branch_flow f (n : Network) : quiet n (set_branch_flow f n).
Proof. split; reflexivity. Qed.

Lemma quiet_set_results r (n : Network) : quiet n (set_results r n).
Proof. split; reflexivity. Qed.

Lemma quiet_build_graph (n : Network) : quiet n (build_graph n).
Proof. split; reflexivity. Qed.

Lemma quiet_set_topology_determined (b : bool) (n : Network) :
  quiet n (set_topology_determined b n).
Proof. split; reflexivity. Qed.

Lemma quiet_remove_sub_network {X : Externals} (s : string) :
  leaves quiet (remove (SubNetwork, s)).
Proof.
  apply leaves_remove; [|apply quiet_set_topology_determined].
  intro n. apply quiet_set_frame; [reflexivity|]. intros name col H. discriminate.
Qed.
End Quiet.

Create HintDb quiet.

#[export] Hint Resolve quiet_update_sub_network quiet_set_model quiet_set_branch_flow
  quiet_set_results quiet_build_graph quiet_set_topology_determined
  quiet_calculate_dependent_values : quiet.

(** A cell write outside the capacity fields. *)
Ltac quiet_leaf :=
  first [ solve [auto with quiet]
        | apply quiet_set_attr;
          first [ reflexivity
                | match goal with |- capacity ?c _ = false => destruct c; reflexivity end ] ].

Ltac quiet_frame := repeat (first [frame_step | quiet_leaf]).

Section QuietCalls.
Context {A : Arith} {X : Externals}.

Lemma series_set_series_defaults_none (name : string) (df : DataFrame) :
  set_series_defaults SubNetwork name df = df.
Proof. reflexivity. Qed.

Lemma series_set_defaults (c : component_class) (name : string) (cols : list string) :
  forall df, series (snd (set_defaults c name cols df)) = series df.
Proof.
  induction cols as [|col cols IH]; intro df; cbn [set_defaults]; [reflexivity|].
  destruct (String.eqb col "obj"); [now apply IH|].
  destruct (assoc col (simple_descriptors c)); [|reflexivity].
  now rewrite IH.
Qed.

Lemma quiet_add_sub_network (name : string) :
  leaves quiet (add "SubNetwork" name []).
Proof.
  unfold add. change (lookup_class "SubNetwork") with (Some (TableClass SubNetwork)).
  cbv iota beta.
  apply leaves_get_bind. intro n. cbv zeta.
  destruct (mem name (index (frames n SubNetwork))); [apply frame_refl|].
  set (df := set_loc (frames n SubNetwork) name "obj" (VObj SubNetwork name)).
  set (w := set_defaults SubNetwork name (columns df) df).
  assert (S1 : series (snd w) = series (frames n SubNetwork)).
  { unfold w. now rewrite series_set_defaults. }
  assert (Q1 : quiet n (set_frame SubNetwork (snd w) (new_object SubNetwork name n))).
  { eapply frame_trans; [apply quiet_update_sub_network|].
    apply quiet_set_frame; [exact S1|]. intros ? ? H. discriminate. }
  unfold abind at 1, modify at 1. unfold abind at 1, modify at 1.
  destruct (fst w) as [u|e].
  - unfold abind, modify, raise, ret. simpl.
    eapply frame_trans; [exact Q1|].
    apply quiet_set_frame; [|intros ? ? H; discriminate].
    rewrite series_set_series_defaults_none. now rewrite frames_set_frame_same.
  - simpl. exact Q1.
Qed.

Lemma quiet_determine_network_topology : leaves quiet determine_network_topology.
Proof.
  unfold determine_network_topology.
  frame_step; [frame_step|]. cbv zeta.
  frame_step.
  { frame_step. apply quiet_remove_sub_network. }
  frame_step.
  { frame_step. cbv zeta. frame_step; [apply quiet_add_sub_network|]. quiet_frame. }
  quiet_frame.
Qed.

Lemma quiet_find_slack_bus (sn : string) : leaves quiet (find_slack_bus sn).
Proof. unfold find_slack_bus. quiet_frame. Qed.

Lemma quiet_find_bus_controls (sn : string) : leaves quiet (find_bus_controls sn).
Proof.
  unfold find_bus_controls.
  frame_step; [apply quiet_find_slack_bus|]. quiet_frame.
Qed.

Lemma quiet_calculate_B_H (sn : string) : leaves quiet (calculate_B_H sn).
Proof. unfold calculate_B_H. quiet_frame. Qed.

Lemma quiet_calculate_PTDF (sn : string) : leaves quiet (calculate_PTDF sn).
Proof. unfold calculate_PTDF. quiet_frame. Qed.

Lemma quiet_calculate_Y {C : ComplexOps A} (sn : string) : leaves quiet (calculate_Y sn).
Proof. unfold calculate_Y. quiet_frame. Qed.

Lemma quiet_declare (name : string) (c : component) : leaves quiet (declare name c).
Proof. unfold declare. quiet_frame. Qed.

Lemma quiet_Var (K : Type) (name : string) (key : K -> list string) (ks : list K)
  (d : domain) rule : leaves quiet (Var name key ks d rule).
Proof. unfold Var. repeat first [frame_step | apply quiet_declare]. Qed.

Lemma quiet_Constraint (K : Type) (name : string) (key : K -> list string) (ks : list K)
  rule : leaves quiet (Constraint name key ks rule).
Proof. unfold Constraint. repeat first [frame_step | apply quiet_declare]. Qed.

Lemma quiet_Expression (K : Type) (name : string) (key : K -> list string) (ks : list K)
  rule : leaves quiet (Expression name key ks rule).
Proof. unfold Expression. repeat first [frame_step | apply quiet_declare]. Qed.
End QuietCalls.

#[export] Hint Resolve quiet_Var quiet_Constraint quiet_Expression quiet_declare
  quiet_find_slack_bus quiet_find_bus_controls quiet_calculate_B_H quiet_calculate_PTDF
  quiet_determine_network_topology : quiet.

Section QuietModel.
Context {A : Arith} {X : Externals}.

Lemma quiet_define_generator_variables_constraints (s : sequence) :
  leaves quiet (define_generator_variables_constraints s).
Proof. unfold define_generator_variables_constraints. quiet_frame. Qed.

Lemma quiet_define_storage_variables_constraints (s : sequence) :
  leaves quiet (define_storage_variables_constraints s).
Proof. unfold define_storage_variables_constraints. quiet_frame. Qed.

Lemma quiet_define_branch_extension_variables (s : sequence) :
  leaves quiet (define_branch_extension_variables s).
Proof. unfold define_branch_extension_variables. quiet_frame. Qed.

Lemma quiet_define_controllable_branch_flows (s : sequence) :
  leaves quiet (define_controllable_branch_flows s).
Proof. unfold define_controllable_branch_flows. quiet_frame. Qed.

Lemma quiet_define_nodal_balances (s : sequence) :
  leaves quiet (define_nodal_balances s).
Proof. unfold define_nodal_balances. quiet_frame. Qed.

Lemma quiet_define_passive_branch_flows (s : sequence) :
  leaves quiet (define_passive_branch_flows s).
Proof. unfold define_passive_branch_flows. quiet_frame. Qed.

Lemma quiet_define_passive_branch_flows_with_PTDF (s : sequence) :
  leaves quiet (define_passive_branch_flows_with_PTDF s).
Proof. unfold define_passive_branch_flows_with_PTDF. quiet_frame. Qed.

Lemma quiet_define_passive_branch_constraints (s : sequence) :
  leaves quiet (define_passive_branch_constraints s).
Proof. unfold define_passive_branch_constraints. quiet_frame. Qed.

Lemma quiet_define_nodal_balance_constraints (s : sequence) :
  leaves quiet (define_nodal_balance_constraints s).
Proof. unfold define_nodal_balance_constraints. quiet_frame. Qed.

Lemma quiet_define_sub_network_balance_constraints (s : sequence) :
  leaves quiet (define_sub_network_balance_constraints s).
Proof. unfold define_sub_network_balance_constraints. quiet_frame. Qed.

Lemma quiet_define_co2_constraint (s : sequence) (limit : num) :
  leaves quiet (define_co2_constraint s limit).
Proof. unfold define_co2_constraint. quiet_frame. Qed.

Lemma quiet_define_linear_objective (s : sequence) :
  leaves quiet (define_linear_objective s).
Proof. unfold define_linear_objective. quiet_frame. Qed.

Lemma quiet_lopf_formulation_is (name : string) :
  leaves quiet (lopf_formulation_is name).
Proof. unfold lopf_formulation_is. quiet_frame. Qed.
End QuietModel.

#[export] Hint Resolve quiet_define_generator_variables_constraints
  quiet_define_storage_variables_constraints quiet_define_branch_extension_variables
  quiet_define_controllable_branch_flows quiet_define_nodal_balances
  quiet_define_passive_branch_flows quiet_define_passive_branch_flows_with_PTDF
  quiet_define_passive_branch_constraints quiet_define_nodal_balance_constraints
  quiet_define_sub_network_balance_constraints quiet_define_co2_constraint
  quiet_define_linear_objective quiet_lopf_formulation_is : quiet.

(** * network_lopf: the formulation it reads and what a failed solve leaves *)

Section Formulation.
Context {A : Arith} {X : Externals}.

(** No [lopf_formulation] has been set on the instance. *)
Definition no_lopf_formulation (n : Network) : Prop :=
  assoc "lopf_formulation" (instance_attributes n) = None.

Definition never_returns {T : Type} (a : action T) : Prop :=
  forall n, no_lopf_formulation n -> exists e, fst (a n) = Raise e.

Lemma never_returns_after (T U : Type) (c : action T) (k : T -> action U) :
  leaves quiet c -> (forall x, never_returns (k x)) -> never_returns (abind c k).
Proof.
  intros Hc Hk n Hn. unfold abind. specialize (Hc n).
  destruct (c n) as [[x|e] n1]; simpl in *; [|now exists e].
  apply Hk. unfold no_lopf_formulation. now rewrite (quiet_instance_attributes Hc).
Qed.

Lemma never_returns_lopf_formulation_is (name : string) (U : Type)
  (k : bool -> action U) :
  never_returns (abind (lopf_formulation_is name) k).
Proof.
  intros n Hn. exists (AttributeError "lopf_formulation").
  unfold abind, lopf_formulation_is, get, lift, getattr, abind.
  unfold no_lopf_formulation in Hn. now rewrite Hn.
Qed.

(** The solve came back with status ok and termination condition optimal. *)
Definition optimal (r : SolverResults) : bool :=
  String.eqb (status r) "ok" && String.eqb (termination_condition r) "optimal".

(** The results object is the same in both networks. *)
Definition results_kept (n n' : Network) : Prop := results n' = results n.

#[export] Instance results_kept_frame : Frame results_kept.
Proof. split; unfold results_kept; [reflexivity | congruence]. Qed.

Lemma results_kept_extract_optimisation_results (r : SolverResults) (s : sequence) :
  leaves results_kept (extract_optimisation_results r s).
Proof.
  unfold extract_optimisation_results.
  repeat first [ frame_step
               | progress unfold assign, lopf_formulation_is
               | reflexivity ].
Qed.

(** A step that keeps the quiet part, before steps that keep it when the
    network they leave satisfies [P]. *)
Lemma leaves_abind_when (P : Network -> Prop) (T U : Type) (c : action T)
  (k : T -> action U) :
  leaves quiet c ->
  (forall x, leaves (fun n n' => P n' -> quiet n n') (k x)) ->
  leaves (fun n n' => P n' -> quiet n n') (abind c k).
Proof.
  intros Hc Hk n. unfold abind. specialize (Hc n).
  destruct (c n) as [[x|e] n1]; simpl in *; [|intros _; exact Hc].
  intro HP. eapply frame_trans; [exact Hc|]. now apply Hk.
Qed.
End Formulation.

Ltac lopf_prefix lemma :=
  repeat (apply lemma; [solve [quiet_frame] | intro]).

Section Lopf.
Context {A : Arith} {X : Externals}.

(** C1. [network_lopf] does not read the option [dc_opf_formulation]: it
    reads an attribute [lopf_formulation] that the class [Network] does not
    declare.  On every network on which no such attribute has been set,
    whatever its [dc_opf_formulation], the call raises and never returns. *)
Theorem network_lopf_reads_lopf_formulation (snapshots : option sequence)
  (solver_name : string) (n : Network) :
  assoc "lopf_formulation" (instance_attributes n) = None ->
  exists e, fst (network_lopf snapshots solver_name n) = Raise e.
Proof.
  revert n. change (never_returns (network_lopf snapshots solver_name)).
  unfold network_lopf.
  repeat lazymatch goal with
         | |- never_returns (abind (lopf_formulation_is _) _) => fail
         | |- never_returns (let _ := _ in _) => cbv zeta
         | |- _ => apply never_returns_after; [solve [quiet_frame] | intro]
         end.
  apply never_returns_lopf_formulation_is.
Qed.

(** C2. When the results object that [network_lopf] leaves on the network
    does not report status ok with termination condition optimal, the
    per-snapshot tables of every component class, the capacity fields
    [p_nom] and [s_nom] and the options of the network are what they were
    before the call. *)
Theorem network_lopf_failure_keeps_series_and_capacities
  (snapshots : option sequence) (solver_name : string) (n : Network)
  (r : SolverResults) :
  results (exec (network_lopf snapshots solver_name) n) = Some r ->
  optimal r = false ->
  quiet n (exec (network_lopf snapshots solver_name) n).
Proof.
  intros Hr Hopt.
  cut (leaves (fun n n' => (forall r, results n' = Some r -> optimal r = false)
                           -> quiet n n')
              (network_lopf snapshots solver_name)).
  { intro H. apply H. intros r' Hr'. unfold exec in Hr. congruence. }
  clear. unfold network_lopf. cbv zeta.
  repeat lazymatch goal with
         | |- leaves _ (abind get (fun _ => abind (modify (set_results _)) _)) => fail
         | |- _ => apply leaves_abind_when; [solve [quiet_frame] | intro]
         end.
  intros n HP. unfold abind, get, modify in HP |- *. cbn [fst snd] in *.
  fold (optimal (solve solver_name (model n))) in *.
  set (r := solve solver_name (model n)) in *.
  destruct (optimal r) eqn:E.
  - match type of HP with
    | context [extract_optimisation_results r ?s] =>
        pose proof (results_kept_extract_optimisation_results r s
                      (set_results (Some r) n)) as K
    end.
    unfold results_kept in K. simpl in K.
    specialize (HP r K). congruence.
  - simpl. apply quiet_set_results.
Qed.
End Lopf.

(** * Converters and transport links *)

Section Links.
Context {A : Arith}.

(** The per-snapshot tables of the converters and of the transport links
    are the same in both networks. *)
Definition links_kept (n n' : Network) : Prop :=
  forall c, is_controllable c = true -> series (frames n' c) = series (frames n c).

#[export] Instance links_kept_frame : Frame links_kept.
Proof.
  split; unfold links_kept.
  - reflexivity.
  - intros a b c H1 H2 k Hk. now rewrite (H2 k Hk), (H1 k Hk).
Qed.

Lemma quiet_links_kept (n n' : Network) : quiet n n' -> links_kept n n'.
Proof. intros H c _. apply (quiet_series H). Qed.

Lemma links_kept_set_frame (c : component_class) (df : DataFrame) (n : Network) :
  is_controllable c = false -> links_kept n (set_frame c df n).
Proof.
  intros H k Hk. unfold set_frame. simpl.
  destruct (class_eqb k c) eqn:E; [|reflexivity].
  unfold class_eqb in E. destruct (class_eq_dec k c); [congruence | discriminate].
Qed.

Lemma links_kept_set_at (c : component_class) (attr t name : string) (v : num)
  (n : Network) :
  is_controllable c = false -> links_kept n (set_at c attr t name v n).
Proof. apply links_kept_set_frame. Qed.

Lemma links_kept_decrease (c : component_class) (attr t name : string) (v : num)
  (n : Network) :
  is_controllable c = false -> links_kept n (decrease c attr t name v n).
Proof. apply links_kept_set_frame. Qed.

Lemma links_kept_increase (c : component_class) (attr t name : string) (v : num)
  (n : Network) :
  is_controllable c = false -> links_kept n (increase c attr t name v n).
Proof. apply links_kept_set_frame. Qed.

Lemma passive_not_controllable (n : Network) (b : branch_row) :
  In b (passive_branches n) -> is_controllable (br_class b) = false.
Proof.
  unfold passive_branches, keyed. intro H. apply in_app_or in H.
  destruct H as [H|H]; apply in_map_iff in H; destruct H as [x [<- _]]; reflexivity.
Qed.

Lemma controllable_is_controllable (n : Network) (b : branch_row) :
  In b (controllable_branches n) -> is_controllable (br_class b) = true.
Proof.
  unfold controllable_branches, keyed. intro H. apply in_app_or in H.
  destruct H as [H|H]; apply in_map_iff in H; destruct H as [x [<- _]]; reflexivity.
Qed.

(** Every controllable branch gives out at one end what it takes in at
    the other. *)
Definition lossless (n : Network) (t : string) : Prop :=
  forall c b, is_controllable c = true ->
    get_at n c "p1" t b = fopp (get_at n c "p0" t b).

Lemma lossless_kept (n n' : Network) (t : string) :
  links_kept n n' -> lossless n t -> lossless n' t.
Proof.
  intros K L c b Hc. unfold get_at. rewrite (K c Hc). now apply L.
Qed.

Lemma lossless_follow_p_set (n : Network) (t : string) :
  lossless (follow_p_set TransportLink t (follow_p_set Converter t n)) t.
Proof.
  intros c b Hc. unfold follow_p_set, get_at.
  destruct c; try discriminate; simpl; rewrite String.eqb_refl; reflexivity.
Qed.
End Links.

Ltac not_controllable :=
  first [ reflexivity
        | match goal with
          | H : In ?c _ |- is_controllable ?c = false =>
              simpl in H; intuition (subst; reflexivity)
          | H : In ?b (passive_branches _) |- is_controllable (br_class ?b) = false =>
              exact (passive_not_controllable _ _ H)
          end ].

Ltac links_leaf :=
  first [ apply links_kept_set_at; not_controllable
        | apply links_kept_decrease; not_controllable
        | apply links_kept_increase; not_controllable
        | apply quiet_links_kept; quiet_leaf
        | eapply leaves_weaken; [exact quiet_links_kept | solve [auto with quiet]] ].

Ltac links_frame :=
  repeat first [ frame_step
               | progress unfold assign, dispatch_as_set, withdraw_controllable,
                   lopf_formulation_is
               | links_leaf ].

Section LinksCalls.
Context {A : Arith} {X : Externals}.

Lemma abind_inv (T U : Type) (c : action T) (k : T -> action U) (n n' : Network) (y : U) :
  abind c k n = (Ok y, n') ->
  exists x n1, c n = (Ok x, n1) /\ k x n1 = (Ok y, n').
Proof.
  unfold abind. destruct (c n) as [[x|e] n1]; [|discriminate].
  intro H. now exists x, n1.
Qed.

Lemma abind_inv_leaves (R : Network -> Network -> Prop) (T U : Type) (c : action T)
  (k : T -> action U) (n n' : Network) (y : U) :
  leaves R c -> abind c k n = (Ok y, n') ->
  exists x n1, R n n1 /\ k x n1 = (Ok y, n').
Proof.
  intros L H. apply abind_inv in H. destruct H as (x & n1 & E & H).
  exists x, n1. split; [|exact H]. specialize (L n). now rewrite E in L.
Qed.

Lemma abind_get_inv (U : Type) (k : Network -> action U) (n n' : Network) (y : U) :
  abind get k n = (Ok y, n') -> k n n = (Ok y, n').
Proof. intro H. exact H. Qed.

Lemma prepare_returns (given : option string) (n n1 : Network) (t : string) :
  prepare given n = (Ok t, n1) -> t = or_now given n /\ lossless n1 t.
Proof.
  unfold prepare. intro H.
  apply abind_get_inv in H.
  apply (abind_inv_leaves (R := quiet)) in H; [|quiet_frame].
  destruct H as (_ & m1 & Q1 & H).
  apply abind_get_inv in H.
  apply (abind_inv_leaves (R := quiet)) in H; [|quiet_frame].
  destruct H as (_ & m2 & Q2 & H).
  apply abind_get_inv in H. cbv zeta in H.
  unfold abind, modify, ret in H. inversion H; subst; clear H.
  split; [|apply lossless_follow_p_set].
  unfold or_now. destruct given; [reflexivity|].
  now rewrite (quiet_now Q2), (quiet_now Q1).
Qed.

Lemma links_kept_sub_network_lpf (sn : string) (given : option string) :
  leaves links_kept (sub_network_lpf sn given).
Proof. unfold sub_network_lpf. links_frame. Qed.

Lemma links_kept_write_guess (sn t : string) (guess : list num) (n : Network) :
  links_kept n (write_guess sn t guess n).
Proof.
  unfold write_guess, exec. cbv zeta. generalize (sub_network_attrs n sn). intro a0.
  match goal with |- links_kept n (snd (?a n)) => generalize n; change (leaves links_kept a) end.
  links_frame.
Qed.

Lemma links_kept_sub_network_pf {C : ComplexOps A} (sn : string) (given : option string) :
  leaves links_kept (sub_network_pf sn given).
Proof.
  unfold sub_network_pf.
  repeat first [ frame_step
               | progress unfold assign, dispatch_as_set, withdraw_controllable
               | apply links_kept_write_guess
               | eapply leaves_weaken; [exact quiet_links_kept | apply quiet_calculate_Y]
               | links_leaf ].
Qed.

(** C9 for the two power flows: once the opening lines of [network_pf] or
    [network_lpf] have run, the network the call leaves behind has
    [p1 = -p0] on every converter and transport link at the snapshot of the
    run. *)
Lemma network_lpf_lossless (given : option string) (n : Network) (t : string) :
  fst (prepare given n) = Ok t ->
  t = or_now given n /\ lossless (exec (network_lpf given) n) t.
Proof.
  intro H. destruct (prepare given n) as [r n1] eqn:E. simpl in H. subst r.
  destruct (prepare_returns _ _ E) as [Ht L]. split; [exact Ht|].
  unfold exec, network_lpf, abind at 1. rewrite E.
  apply (lossless_kept (n := n1)); [|exact L].
  match goal with |- links_kept n1 (snd (?a n1)) => generalize n1; change (leaves links_kept a) end.
  frame_step; [frame_step|]. frame_step. apply links_kept_sub_network_lpf.
Qed.

Lemma network_pf_lossless {C : ComplexOps A} (given : option string) (n : Network)
  (t : string) :
  fst (prepare given n) = Ok t ->
  t = or_now given n /\ lossless (exec (network_pf given) n) t.
Proof.
  intro H. destruct (prepare given n) as [r n1] eqn:E. simpl in H. subst r.
  destruct (prepare_returns _ _ E) as [Ht L]. split; [exact Ht|].
  unfold exec, network_pf, abind at 1. rewrite E.
  apply (lossless_kept (n := n1)); [|exact L].
  match goal with |- links_kept n1 (snd (?a n1)) => generalize n1; change (leaves links_kept a) end.
  frame_step; [frame_step|]. frame_step. frame_step; [frame_step|].
  frame_step; [frame_step|]. apply links_kept_sub_network_pf.
Qed.
End LinksCalls.

(** * The results of the optimisation on the controllable branches *)

Section Extraction.
Context {A : Arith}.

(** One converter or transport link at one snapshot. *)
Definition lossless_at (n : Network) (c : component_class) (t b : string) : Prop :=
  get_at n c "p1" t b = fopp (get_at n c "p0" t b).

(** What is lossless stays so. *)
Definition stays_lossless (n n' : Network) : Prop :=
  forall c t b, is_controllable c = true -> lossless_at n c t b -> lossless_at n' c t b.

#[export] Instance stays_lossless_frame : Frame stays_lossless.
Proof.
  split; unfold stays_lossless.
  - auto.
  - intros a b c H1 H2 k t x Hk H. apply H2; [exact Hk|]. now apply H1.
Qed.

Lemma links_kept_stays_lossless (n n' : Network) :
  links_kept n n' -> stays_lossless n n'.
Proof.
  intros K c t b Hc. unfold lossless_at, get_at. now rewrite (K c Hc).
Qed.

Lemma links_kept_set_attr (c : component_class) (name col : string) (v : pyval)
  (n : Network) : links_kept n (set_attr c name col v n).
Proof.
  intros k _. unfold set_attr, set_frame. simpl.
  destruct (class_eqb k c) eqn:E; [|reflexivity].
  unfold class_eqb in E. destruct (class_eq_dec k c); [subst; reflexivity | discriminate].
Qed.

Lemma links_kept_set_objective o (n : Network) : links_kept n (set_objective o n).
Proof. intros k _. reflexivity. Qed.

(** The tables have the same rows in both networks. *)
Definition rows_kept (n n' : Network) : Prop :=
  forall c, rows (frames n' c) = rows (frames n c).

#[export] Instance rows_kept_frame : Frame rows_kept.
Proof.
  split; unfold rows_kept.
  - reflexivity.
  - intros a b c H1 H2 k. now rewrite H2, H1.
Qed.

Lemma rows_kept_set_at (c : component_class) (attr t name : string) (v : num)
  (n : Network) : rows_kept n (set_at c attr t name v n).
Proof.
  intro k. unfold set_at, set_frame. simpl.
  destruct (class_eqb k c) eqn:E; [|reflexivity].
  unfold class_eqb in E. destruct (class_eq_dec k c); [subst; reflexivity | discriminate].
Qed.

Lemma rows_kept_decrease (c : component_class) (attr t name : string) (v : num)
  (n : Network) : rows_kept n (decrease c attr t name v n).
Proof. apply rows_kept_set_at. Qed.

Lemma rows_kept_set_objective o (n : Network) : rows_kept n (set_objective o n).
Proof. intro k. reflexivity. Qed.

Lemma rows_kept_controllable_branches (n n' : Network) :
  rows_kept n n' -> controllable_branches n' = controllable_branches n.
Proof. intro H. unfold controllable_branches, keyed. now rewrite !H. Qed.

Lemma get_at_set_at (c : component_class) (attr t name : string) (v : num) (n : Network)
  (c' : component_class) (attr' t' name' : string) :
  get_at (set_at c attr t name v n) c' attr' t' name'
  = if class_eqb c' c && (String.eqb attr' attr && String.eqb t' t && String.eqb name' name)
    then v else get_at n c' attr' t' name'.
Proof.
  unfold get_at, set_at, set_frame. simpl.
  destruct (class_eqb c' c) eqn:E; [|reflexivity]. simpl.
  unfold class_eqb in E. destruct (class_eq_dec c' c); [subst; reflexivity | discriminate].
Qed.

(** A loop that returns has established, for each of its elements, what
    the body establishes and every body keeps. *)
Lemma for_establishes_in (T : Type) (I : Network -> Prop) (E : T -> Network -> Prop)
  (all : list T) (body : T -> action unit) :
  (forall y m, In y all -> I m -> I (snd (body y m))) ->
  (forall x y m, In x all -> In y all -> E x m -> E x (snd (body y m))) ->
  (forall x m m', In x all -> I m -> body x m = (Ok tt, m') -> E x m') ->
  forall xs, incl xs all ->
  forall n n', I n -> for_ xs body n = (Ok tt, n') ->
  I n' /\ (forall x, In x all -> E x n -> E x n') /\ (forall x, In x xs -> E x n').
Proof.
  intros HI HE HB. induction xs as [|x0 xs IH]; intros Hincl n n' Hn H.
  - simpl in H. inversion H; subst. repeat split; auto. intros x [].
  - simpl in H. unfold abind in H.
    destruct (body x0 n) as [[[]|e] n1] eqn:E0; [|discriminate].
    assert (H0 : In x0 all) by (apply Hincl; now left).
    assert (S1 : snd (body x0 n) = n1) by now rewrite E0.
    assert (I1 : I n1) by (rewrite <- S1; now apply HI).
    assert (E1 : E x0 n1) by now apply (HB x0 n n1).
    destruct (IH (fun x Hx => Hincl x (or_intror Hx)) n1 n' I1 H) as (I' & K & L).
    split; [exact I'|]. split.
    + intros x Hx Ex. apply K; [exact Hx|]. rewrite <- S1. now apply HE.
    + intros x [<-|Hx]; [now apply K | now apply L].
Qed.

Lemma for_establishes (T : Type) (I : Network -> Prop) (E : T -> Network -> Prop)
  (xs : list T) (body : T -> action unit) :
  (forall y m, In y xs -> I m -> I (snd (body y m))) ->
  (forall x y m, In x xs -> In y xs -> E x m -> E x (snd (body y m))) ->
  (forall x m m', In x xs -> I m -> body x m = (Ok tt, m') -> E x m') ->
  forall n n', I n -> for_ xs body n = (Ok tt, n') ->
  I n' /\ forall x, In x xs -> E x n'.
Proof.
  intros HI HE HB n n' Hn H.
  destruct (@for_establishes_in T I E xs body HI HE HB xs (incl_refl xs) n n' Hn H)
    as (I' & _ & L).
  now split.
Qed.

(** Writing [p0] and then [p1 = -p0] for one branch makes that branch
    lossless at that snapshot and touches no other entry. *)
Lemma set_p0_p1 (c : component_class) (t b : string) (v : num) (m : Network) :
  let m0 := set_at c "p0" t b v m in
  let m1 := set_at c "p1" t b (fopp (get_at m0 c "p0" t b)) m0 in
  stays_lossless m m1 /\ lossless_at m1 c t b.
Proof.
  cbv zeta. split.
  - intros c' t' b' _. unfold lossless_at. rewrite !get_at_set_at.
    cbn [String.eqb Ascii.eqb Bool.eqb andb]. rewrite !String.eqb_refl.
    rewrite class_eqb_refl. cbn [andb].
    rewrite !andb_false_r.
    destruct (class_eqb c' c && (String.eqb t' t && String.eqb b' b)); auto.
  - unfold lossless_at. rewrite !get_at_set_at.
    cbn [String.eqb Ascii.eqb Bool.eqb andb]. rewrite !String.eqb_refl.
    rewrite class_eqb_refl. reflexivity.
Qed.
End Extraction.

Ltac rows_frame :=
  repeat first [ frame_step
               | progress unfold assign, lopf_formulation_is
               | apply rows_kept_set_at
               | apply rows_kept_decrease
               | apply rows_kept_set_objective ].

Ltac stays_leaf :=
  apply links_kept_stays_lossless;
  first [ apply links_kept_set_attr | apply links_kept_set_objective | links_leaf ].

Section ExtractionCalls.
Context {A : Arith} {X : Externals}.

(** The body of the loop over the controllable branches. *)
Lemma controllable_flow_written (r : SolverResults) (snapshot : string) (cb : branch_row)
  (m : Network) :
  is_controllable (br_class cb) = true ->
  let m' :=
    snd (abind (modify (set_at (br_class cb) "p0" snapshot (br_name cb)
                          (value r "controllable_branch_p" (key3 (br_key cb, snapshot)))))
           (fun _ => abind get (fun network =>
            abind (modify (set_at (br_class cb) "p1" snapshot (br_name cb)
                             (fopp (get_at network (br_class cb) "p0" snapshot
                                           (br_name cb)))))
           (fun _ => abind get (fun network =>
            abind (modify (decrease Bus "p" snapshot (bus0 cb)
                             (get_at network (br_class cb) "p0" snapshot (br_name cb))))
           (fun _ => modify (decrease Bus "p" snapshot (bus1 cb)
                               (get_at network (br_class cb) "p1" snapshot
                                       (br_name cb)))))))) m) in
  stays_lossless m m' /\ lossless_at m' (br_class cb) snapshot (br_name cb).
Proof.
  intros Hc m'. subst m'. cbv [abind modify get]. cbn [snd].
  destruct (set_p0_p1 (br_class cb) snapshot (br_name cb)
              (value r "controllable_branch_p" (key3 (br_key cb, snapshot))) m)
    as [S L].
  cbv zeta in S, L.
  match goal with
  | |- stays_lossless m (decrease Bus "p" _ _ ?d1 (decrease Bus "p" _ _ ?d0 ?m1)) /\ _ =>
      assert (K : links_kept m1 (decrease Bus "p" snapshot (bus1 cb) d1
                                   (decrease Bus "p" snapshot (bus0 cb) d0 m1)))
  end.
  { eapply frame_trans; apply links_kept_decrease; reflexivity. }
  split.
  - eapply frame_trans; [exact S|]. apply links_kept_stays_lossless. exact K.
  - apply (links_kept_stays_lossless K); [exact Hc | exact L].
Qed.
End ExtractionCalls.

(** The goal [R m (snd (a m))] as a statement on the call [a]. *)
Ltac as_leaves :=
  cbv beta;
  match goal with
  | |- ?R ?m (snd (?a ?m)) => apply (fun (L : leaves R a) => L m)
  end.

Ltac stays_frame r :=
  repeat first
    [ lazymatch goal with
      | |- leaves _ (for_ (controllable_branches _) _) =>
          let cb := fresh "cb" in let Hcb := fresh "Hcb" in let m := fresh "m" in
          apply leaves_for; intros cb Hcb m;
          exact (proj1 (controllable_flow_written r _ cb m
                          (controllable_is_controllable _ _ Hcb)))
      end
    | frame_step
    | progress unfold assign, lopf_formulation_is
    | stays_leaf ].

Section ExtractionTheorem.
Context {A : Arith} {X : Externals}.

Lemma extraction_lossless (r : SolverResults) (s : sequence) (n : Network) :
  fst (extract_optimisation_results r s n) = Ok tt ->
  forall t, In t (items s) ->
  forall cb, In cb (controllable_branches n) ->
    lossless_at (exec (extract_optimisation_results r s) n) (br_class cb) t (br_name cb).
Proof.
  intros H t Ht cb Hcb. unfold exec.
  destruct (extract_optimisation_results r s n) as [res n'] eqn:E.
  simpl in H. subst res. simpl.
  unfold extract_optimisation_results in E.
  apply (abind_inv_leaves (R := rows_kept)) in E; [|rows_frame].
  destruct E as (_ & n0 & K0 & E).
  apply abind_inv in E. destruct E as ([] & n1 & Eloop & Etail).
  match type of Eloop with
  | for_ ?xs ?body n0 = _ =>
      destruct (@for_establishes _ string (fun m => rows_kept n m)
                  (fun t m => forall cb, In cb (controllable_branches n) ->
                                lossless_at m (br_class cb) t (br_name cb))
                  xs body) with (n := n0) (n' := n1) as [K1 L1]
  end.
  - (* the rows stay *)
    intros y m _ Km. eapply frame_trans; [exact Km|]. as_leaves. rows_frame.
  - (* what is lossless stays so *)
    intros x y m _ _ Ex cb' Hcb'.
    match goal with
    | |- lossless_at (snd (?a m)) _ _ _ => assert (S : leaves stays_lossless a)
    end.
    { cbv beta. stays_frame r. }
    apply (S m); [exact (controllable_is_controllable _ _ Hcb') | now apply Ex].
  - (* the body makes the snapshot it is run for lossless *)
    intros x m m' _ Km Hb cb' Hcb'.
    apply abind_get_inv in Hb.
    apply (abind_inv_leaves (R := rows_kept)) in Hb; [|rows_frame].
    destruct Hb as (_ & m1 & R1 & Hb).
    apply (abind_inv_leaves (R := rows_kept)) in Hb; [|rows_frame].
    destruct Hb as (_ & m2 & R2 & Hb).
    apply (abind_inv_leaves (R := rows_kept)) in Hb; [|rows_frame].
    destruct Hb as (_ & m3 & R3 & Hb).
    apply (abind_inv_leaves (R := rows_kept)) in Hb; [|rows_frame].
    destruct Hb as (_ & m4 & R4 & Hb).
    apply abind_get_inv in Hb.
    apply abind_inv in Hb. destruct Hb as ([] & m5 & Ecb & Hrest).
    pose proof (frame_trans _ _ _
                  (frame_trans _ _ _
                     (frame_trans _ _ _ (frame_trans _ _ _ Km R1) R2) R3) R4) as R.
    rewrite (rows_kept_controllable_branches R) in Ecb.
    match type of Ecb with
    | for_ ?xs ?body m4 = _ =>
        destruct (@for_establishes _ branch_row (fun _ => True)
                    (fun b k => lossless_at k (br_class b) x (br_name b))
                    xs body) with (n := m4) (n' := m5) as [_ L5]
    end.
    + trivial.
    + intros b1 b2 k H1 H2 E1.
      apply (proj1 (controllable_flow_written r x b2 k
                      (controllable_is_controllable _ _ H2)));
        [exact (controllable_is_controllable _ _ H1) | exact E1].
    + intros b1 k k' H1 _ Hk.
      pose proof (proj2 (controllable_flow_written r x b1 k
                           (controllable_is_controllable _ _ H1))) as P.
      cbv zeta in P. rewrite Hk in P. exact P.
    + trivial.
    + exact Ecb.
    + match type of Hrest with
      | ?a m5 = _ => assert (S : leaves stays_lossless a)
      end.
      { stays_frame r. }
      specialize (S m5). rewrite Hrest in S.
      apply S; [exact (controllable_is_controllable _ _ Hcb') | now apply L5].
  - exact K0.
  - exact Eloop.
  - match type of Etail with
    | ?a n1 = _ => assert (S : leaves stays_lossless a)
    end.
    { stays_frame r. }
    specialize (S n1). rewrite Etail in S.
    apply S; [exact (controllable_is_controllable _ _ Hcb) | now apply L1].
Qed.
End ExtractionTheorem.

(** * The slack bus of the linear power flow *)

Section BusOrder.
Context {A : Arith}.

Lemma In_rows_set_loc (df : DataFrame) (name col : string) (v : pyval)
  (name' : string) (r : row) :
  In (name', r) (rows (set_loc df name col v)) ->
  (exists r0, In (name', r0) (rows df)
              /\ r = if String.eqb name name' then assoc_set col v r0 else r0)
  \/ (name' = name /\ r = [(col, v)] /\ mem name (index df) = false).
Proof.
  unfold set_loc. simpl. destruct (mem name (index df)) eqn:M.
  - intro H. apply in_map_iff in H. destruct H as [[k r0] [E H]]. simpl in E.
    inversion E; subst. left. exists r0. now split.
  - intro H. apply in_app_or in H. destruct H as [H|[H|[]]].
    + left. exists r. split; [exact H|].
      destruct (String.eqb name name') eqn:E; [|reflexivity].
      apply String.eqb_eq in E. subst name'.
      assert (Hin : In name (index df)) by (apply in_map_iff; now exists (name, r)).
      apply mem_In in Hin. congruence.
    + inversion H; subst. right. now repeat split.
Qed.

(** After [df.loc[s,"control"] = c; df.loc[s,"generator"] = g] every row
    labelled [s] has control [c]. *)
Lemma control_after_set_loc (df : DataFrame) (s : string) (c g : pyval) (r : row) :
  In (s, r) (rows (set_loc (set_loc df s "control" c) s "generator" g)) ->
  row_get r "control" = c.
Proof.
  intro H. apply In_rows_set_loc in H. destruct H as [(r0 & H & E)|(_ & _ & M)].
  - rewrite String.eqb_refl in E. subst r. rewrite row_get_set. simpl.
    apply In_rows_set_loc in H. destruct H as [(r1 & _ & E)|(_ & E & _)].
    + rewrite String.eqb_refl in E. subst r0. rewrite row_get_set. now rewrite String.eqb_refl.
    + subst r0. unfold row_get. simpl. reflexivity.
  - exfalso. rewrite index_set_loc in M.
    destruct (mem s (index df)) eqn:M0; [congruence|].
    assert (Hin : In s (index df ++ [s])) by (apply in_or_app; right; now left).
    apply mem_In in Hin. congruence.
Qed.

Lemma map_fst_number_rows (rs : list (string * row)) :
  map fst (number_rows rs) = map fst rs.
Proof.
  unfold number_rows. rewrite map_map. simpl.
  generalize 0%nat. induction rs as [|[k r] rs IH]; intro i; simpl; [reflexivity|].
  f_equal. apply IH.
Qed.

Lemma select_not_control (s c c' : string) (rs : list (string * row)) :
  c <> c' ->
  (forall r, In (s, r) rs -> row_get r "control" = VStr c') ->
  ~ In s (map fst (select (fun _ r => is_control c r) rs)).
Proof.
  intros Hne H Hin. apply in_map_iff in Hin. destruct Hin as [[k r] [E Hin]].
  simpl in E. subst k. unfold select in Hin. apply filter_In in Hin.
  destruct Hin as [Hin Hc]. simpl in Hc. unfold is_control in Hc.
  rewrite (H r Hin) in Hc. simpl in Hc. apply String.eqb_eq in Hc. congruence.
Qed.
End BusOrder.

Section BusOrderCalls.
Context {A : Arith} {X : Externals}.

(** The order [find_bus_controls] fixes: the slack bus, then the others,
    none of which is the slack bus. *)
Lemma find_bus_controls_order (sn : string) (n n1 : Network) :
  find_bus_controls sn n = (Ok tt, n1) ->
  exists others,
    map fst (buses_o (sub_network_attrs n1 sn)) = slack_bus n1 sn :: others
    /\ ~ In (slack_bus n1 sn) others.
Proof.
  unfold find_bus_controls. intro H.
  apply abind_inv in H. destruct H as (_ & k1 & _ & H).
  apply abind_get_inv in H. cbv zeta in H.
  apply abind_inv in H. destruct H as (_ & k2 & _ & H).
  apply abind_inv in H. destruct H as (_ & k3 & _ & H).
  apply abind_inv in H. destruct H as (_ & k4 & _ & H).
  apply abind_get_inv in H. cbv zeta in H.
  unfold abind, modify, get in H. inversion H; subst; clear H.
  set (slack := slack_bus k4 sn).
  set (k5 := set_attr Bus slack "control" (VStr "Slack") k4).
  set (k6 := set_attr Bus slack "generator"
               (VStr (slack_generator (sub_network_attrs k4 sn))) k5).
  set (buses := sn_buses k6 sn).
  exists (map fst (select (fun _ r => is_control "PV" r) buses
                   ++ select (fun _ r => is_control "PQ" r) buses)).
  assert (S : slack_bus (update_sub_network sn
                (set_bus_tables (select (fun _ r => is_control "PV" r) buses)
                   (select (fun _ r => is_control "PQ" r) buses)
                   (select (fun _ r => is_control "PV" r) buses
                    ++ select (fun _ r => is_control "PQ" r) buses)
                   (number_rows
                      (match assoc slack buses with
                       | Some r => (slack, r)
                       | None => (slack, [])
                       end :: select (fun _ r => is_control "PV" r) buses
                              ++ select (fun _ r => is_control "PQ" r) buses))) k6) sn
              = slack) by reflexivity.
  rewrite S. split.
  - unfold update_sub_network. cbn [sub_network_attrs set_sub_network_attrs].
    rewrite String.eqb_refl. cbn [buses_o set_bus_tables].
    rewrite map_fst_number_rows. cbn [map]. now destruct (assoc slack buses).
  - assert (C : forall r, In (slack, r) buses -> row_get r "control" = VStr "Slack").
    { intros r Hr. unfold buses, sn_buses, select in Hr. apply filter_In in Hr.
      destruct Hr as [Hr _]. unfold k6, k5, set_attr in Hr.
      rewrite frames_set_frame_same in Hr.
      unfold set_frame in Hr. simpl in Hr.
      exact (control_after_set_loc _ _ _ _ _ Hr). }
    rewrite map_app. intro Hin. apply in_app_or in Hin. destruct Hin as [Hin|Hin].
    + revert Hin. apply select_not_control with (c' := "Slack"); [discriminate | exact C].
    + revert Hin. apply select_not_control with (c' := "Slack"); [discriminate | exact C].
Qed.
End BusOrderCalls.

Section SlackBalance.
Context {A : Arith}.

(** Addition without rounding. *)
Record exact_addition : Prop := {
  fadd_0_l : forall x, fadd (of_Z 0) x = x;
  fadd_0_r : forall x, fadd x (of_Z 0) = x;
  fadd_assoc : forall x y z, fadd (fadd x y) z = fadd x (fadd y z);
  fadd_opp_l : forall x, fadd (fopp x) x = of_Z 0
}.

Lemma fold_left_fadd (E : exact_addition) (xs : list num) (a : num) :
  fold_left fadd xs a = fadd a (fold_left fadd xs (of_Z 0)).
Proof.
  revert a. induction xs as [|x xs IH]; intro a; simpl.
  - now rewrite (fadd_0_r E).
  - rewrite (IH (fadd a x)), (IH (fadd (of_Z 0) x)).
    now rewrite (fadd_0_l E), (fadd_assoc E).
Qed.

Lemma pysum_balanced (E : exact_addition) (xs : list num) :
  pysum (neg_pysum xs :: xs) = of_Z 0.
Proof.
  unfold pysum. simpl. rewrite (fadd_0_l E).
  destruct xs as [|x xs].
  - reflexivity.
  - unfold neg_pysum. rewrite fold_left_fadd by exact E. apply (fadd_opp_l E).
Qed.

(** The order of the buses and the slack bus of a sub-network are the same
    in both networks. *)
Definition layout_kept (sn : string) (n n' : Network) : Prop :=
  buses_o (sub_network_attrs n' sn) = buses_o (sub_network_attrs n sn)
  /\ frames n' SubNetwork = frames n SubNetwork.

#[export] Instance layout_kept_frame (sn : string) : Frame (layout_kept sn).
Proof.
  split; unfold layout_kept.
  - now split.
  - intros a b c [H1 H2] [H3 H4]. split; congruence.
Qed.

Lemma layout_kept_set_frame (sn : string) (c : component_class) (df : DataFrame)
  (n : Network) :
  c <> SubNetwork -> layout_kept sn n (set_frame c df n).
Proof.
  intro H. split; [reflexivity|]. unfold set_frame. simpl.
  destruct (class_eqb SubNetwork c) eqn:E; [|reflexivity].
  unfold class_eqb in E. destruct (class_eq_dec SubNetwork c); [congruence|discriminate].
Qed.

Lemma layout_kept_set_at (sn : string) (c : component_class) (attr t name : string)
  (v : num) (n : Network) :
  c <> SubNetwork -> layout_kept sn n (set_at c attr t name v n).
Proof. apply layout_kept_set_frame. Qed.

Lemma layout_kept_decrease (sn : string) (c : component_class) (attr t name : string)
  (v : num) (n : Network) :
  c <> SubNetwork -> layout_kept sn n (decrease c attr t name v n).
Proof. apply layout_kept_set_frame. Qed.

Lemma layout_kept_increase (sn : string) (c : component_class) (attr t name : string)
  (v : num) (n : Network) :
  c <> SubNetwork -> layout_kept sn n (increase c attr t name v n).
Proof. apply layout_kept_set_frame. Qed.

Lemma layout_kept_set_B_H (sn sn' : string) b h (n : Network) :
  layout_kept sn n (update_sub_network sn' (set_B_H b h) n).
Proof.
  split; [|reflexivity]. unfold update_sub_network. simpl.
  now destruct (String.eqb sn sn').
Qed.

Lemma layout_kept_slack_bus (sn : string) (n n' : Network) :
  layout_kept sn n n' -> slack_bus n' sn = slack_bus n sn.
Proof. intros [_ H]. unfold slack_bus, get_attr. now rewrite H. Qed.

(** The real power of every bus at one snapshot is the same in both
    networks. *)
Definition bus_p_kept (t : string) (n n' : Network) : Prop :=
  forall b, get_at n' Bus "p" t b = get_at n Bus "p" t b.

#[export] Instance bus_p_kept_frame (t : string) : Frame (bus_p_kept t).
Proof.
  split; unfold bus_p_kept.
  - reflexivity.
  - intros a b c H1 H2 x. now rewrite H2, H1.
Qed.

Lemma bus_p_kept_set_at (t : string) (c : component_class) (attr t' name : string)
  (v : num) (n : Network) :
  class_eqb Bus c && String.eqb "p" attr = false ->
  bus_p_kept t n (set_at c attr t' name v n).
Proof.
  intros H b. rewrite get_at_set_at.
  destruct (class_eqb Bus c); [|reflexivity].
  cbn [andb] in H |- *. rewrite H. reflexivity.
Qed.

Lemma bus_p_kept_increase (t : string) (c : component_class) (attr t' name : string)
  (v : num) (n : Network) :
  class_eqb Bus c && String.eqb "p" attr = false ->
  bus_p_kept t n (increase c attr t' name v n).
Proof. apply bus_p_kept_set_at. Qed.

Lemma leaves_at (R : Network -> Network -> Prop) (T : Type) (c : action T)
  (n n1 : Network) (r : result T) :
  leaves R c -> c n = (r, n1) -> R n n1.
Proof. intros L E. specialize (L n). now rewrite E in L. Qed.
End SlackBalance.

Ltac layout_frame :=
  repeat first [ frame_step
               | progress unfold assign, dispatch_as_set, withdraw_controllable
               | apply layout_kept_set_at; discriminate
               | apply layout_kept_decrease; discriminate
               | apply layout_kept_increase; discriminate ].

Ltac bus_p_frame :=
  repeat first [ frame_step
               | progress unfold assign, dispatch_as_set
               | apply bus_p_kept_set_at; reflexivity
               | apply bus_p_kept_increase; reflexivity ].

Section SlackBalanceCalls.
Context {A : Arith} {X : Externals}.

Lemma layout_kept_calculate_B_H (sn sn' : string) :
  leaves (layout_kept sn) (calculate_B_H sn').
Proof.
  unfold calculate_B_H.
  repeat first [frame_step | apply layout_kept_set_B_H].
Qed.

(** C5. When [sub_network_lpf] returns, the buses of the sub-network are
    the slack bus followed by buses that are not the slack bus; the real
    power of the slack bus at the snapshot is minus the sum, as Python's
    [sum] adds floats from left to right, of the real power of the others;
    and in an arithmetic whose addition does not round, the sum over all
    these buses is zero. *)
Theorem sub_network_lpf_slack_balances (sn : string) (given : option string)
  (n : Network) :
  fst (sub_network_lpf sn given n) = Ok tt ->
  let n' := exec (sub_network_lpf sn given) n in
  let t := or_now given n in
  let p := get_at n' Bus "p" t in
  exists others,
    map fst (buses_o (sub_network_attrs n' sn)) = slack_bus n' sn :: others
    /\ ~ In (slack_bus n' sn) others
    /\ p (slack_bus n' sn) = neg_pysum (map p others)
    /\ (exact_addition ->
        pysum (map p (map fst (buses_o (sub_network_attrs n' sn)))) = of_Z 0).
Proof.
  intros H n' t p. subst n' p. unfold exec.
  destruct (sub_network_lpf sn given n) as [res n'] eqn:E. simpl in H. subst res.
  cbn [snd]. unfold sub_network_lpf in E.
  apply abind_get_inv in E. cbv zeta in E. fold t in E.
  apply abind_inv in E. destruct E as (_ & k1 & _ & E).
  apply abind_inv in E. destruct E as ([] & k2 & F & E).
  destruct (find_bus_controls_order _ _ F) as (others & O1 & O2). clear F.
  apply abind_get_inv in E.
  apply (abind_inv_leaves (R := layout_kept sn)) in E;
    [|apply leaves_when; apply layout_kept_calculate_B_H].
  destruct E as (_ & k3 & L3 & E).
  apply abind_get_inv in E.
  apply (abind_inv_leaves (R := layout_kept sn)) in E; [|layout_frame].
  destruct E as (_ & k4 & L4 & E).
  apply abind_get_inv in E.
  apply (abind_inv_leaves (R := layout_kept sn)) in E; [|layout_frame].
  destruct E as (_ & k5 & L5 & E).
  apply abind_get_inv in E.
  apply abind_inv in E. destruct E as (v_diff & k6 & F6 & E).
  assert (L6 : layout_kept sn k5 k6).
  { eapply leaves_at; [|exact F6]. layout_frame. }
  assert (P6 : bus_p_kept t k5 k6).
  { eapply leaves_at; [|exact F6]. bus_p_frame. }
  clear F6.
  apply abind_inv in E. destruct E as ([] & k7 & F7 & E).
  unfold modify in F7. inversion F7 as [K7]; clear F7.
  assert (L7 : layout_kept sn k7 n').
  { eapply leaves_at; [|exact E]. layout_frame. }
  assert (P7 : bus_p_kept t k7 n').
  { eapply leaves_at; [|exact E]. bus_p_frame. }
  clear E.
  assert (L67 : layout_kept sn k6 k7) by (subst k7; apply layout_kept_set_at; discriminate).
  pose proof (frame_trans _ _ _ L3 (frame_trans _ _ _ L4 L5)) as L25.
  pose proof (frame_trans _ _ _ L25 (frame_trans _ _ _ L6 (frame_trans _ _ _ L67 L7)))
    as L2.
  assert (S5 : slack_bus k5 sn = slack_bus k2 sn) by exact (layout_kept_slack_bus L25).
  assert (S' : slack_bus n' sn = slack_bus k2 sn) by exact (layout_kept_slack_bus L2).
  assert (B3 : map fst (buses_o (sub_network_attrs k3 sn)) = slack_bus k2 sn :: others).
  { destruct L3 as [L3 _]. now rewrite L3. }
  assert (B' : map fst (buses_o (sub_network_attrs n' sn)) = slack_bus k2 sn :: others).
  { destruct L2 as [L2 _]. now rewrite L2. }
  rewrite S', B'. rewrite S5, B3 in K7. cbn [map tl] in K7.
  set (slack := slack_bus k2 sn) in *.
  assert (V : forall b, get_at n' Bus "p" t b
                        = if String.eqb b slack
                          then neg_pysum (map (get_at k5 Bus "p" t) others)
                          else get_at k5 Bus "p" t b).
  { intro b. rewrite (P7 b). subst k7. rewrite get_at_set_at.
    cbn [class_eqb class_eq_dec component_class_rec component_class_rect
         String.eqb Ascii.eqb Bool.eqb andb].
    rewrite String.eqb_refl. cbn [andb].
    destruct (String.eqb b slack); [reflexivity | apply P6]. }
  assert (M : map (get_at n' Bus "p" t) others = map (get_at k5 Bus "p" t) others).
  { apply map_ext_in. intros b Hb. rewrite V.
    destruct (String.eqb b slack) eqn:Eb; [|reflexivity].
    apply String.eqb_eq in Eb. subst b. contradiction. }
  exists others. split; [reflexivity|]. split; [exact O2|].
  assert (Sl : get_at n' Bus "p" t slack
               = neg_pysum (map (get_at n' Bus "p" t) others)).
  { rewrite V, String.eqb_refl. now rewrite M. }
  split; [exact Sl|].
  intro Ex. cbn [map]. rewrite Sl. now apply pysum_balanced.
Qed.
End SlackBalanceCalls.

(** * The bus admittance matrix as the specification words it *)

Section AdmittanceSpecified.
Context {A : Arith} {C : ComplexOps A}.

















End AdmittanceSpecified.


Section RealFacts.
Import Reals.
Local Open Scope R_scope.

End RealFacts.

(** On IEEE binary64 numbers [a <= b] excludes [b < a]. *)
Section FloatFacts.
Import Floats.

Lemma SFcompare_le_not_gt a b :
  SFleb a b = true -> SFltb b a = false.
Proof.
  unfold SFleb, SFltb, SFcompare.
  destruct a as [sa|sa| |sa ma ea], b as [sb|sb| |sb mb eb]; simpl;
    try destruct sa; try destruct sb; simpl; try congruence.
  - destruct (Z.compare_spec ea eb) as [E|E|E]; destruct (Z.compare_spec eb ea) as [E'|E'|E']; try lia; try congruence.
    change (PosDef.Pos.compare_cont Eq ma mb) with (Pos.compare ma mb);
    change (PosDef.Pos.compare_cont Eq mb ma) with (Pos.compare mb ma);
    rewrite (Pos.compare_antisym ma mb); destruct (Pos.compare ma mb); simpl; congruence.
  - destruct (Z.compare_spec ea eb) as [E|E|E]; destruct (Z.compare_spec eb ea) as [E'|E'|E']; try lia; try congruence.
    change (PosDef.Pos.compare_cont Eq ma mb) with (Pos.compare ma mb);
    change (PosDef.Pos.compare_cont Eq mb ma) with (Pos.compare mb ma);
    rewrite (Pos.compare_antisym ma mb); destruct (Pos.compare ma mb); simpl; congruence.
Qed.
Lemma float_le_not_gt (a b : float) : PrimFloat.leb a b = true -> PrimFloat.ltb b a = false.
Proof. rewrite leb_spec, ltb_spec. apply SFcompare_le_not_gt. Qed.
End FloatFacts.

(** * The three analyses keep the controllable branches lossless *)

Section Lossless.
Context {A : Arith} {X : Externals} {C : ComplexOps A}.

(** C9. Once the opening lines of [network_pf] or of [network_lpf] have run
    (they return the snapshot [t] of the run), the network that the call
    leaves behind, whether it returns or raises, has [p1 = -p0] at [t] on
    every converter and transport link; and when
    [extract_optimisation_results] returns, every converter and transport
    link of the network has [p1 = -p0] at every snapshot of the run. *)
Theorem controllable_branches_lossless :
  (forall given n t, fst (prepare given n) = Ok t ->
     t = or_now given n /\ lossless (exec (network_pf given) n) t)
  /\ (forall given n t, fst (prepare given n) = Ok t ->
        t = or_now given n /\ lossless (exec (network_lpf given) n) t)
  /\ (forall r snapshots n,
        fst (extract_optimisation_results r snapshots n) = Ok tt ->
        forall t, In t (items snapshots) ->
        forall cb, In cb (controllable_branches n) ->
          lossless_at (exec (extract_optimisation_results r snapshots) n)
                      (br_class cb) t (br_name cb)).
Proof.
  split; [|split].
  - intros given n t H. now apply network_pf_lossless.
  - intros given n t H. now apply network_lpf_lossless.
  - intros r snapshots n H. now apply extraction_lossless.
Qed.
End Lossless.

(** * The examples, run on IEEE binary64 numbers *)

Definition failing : @Externals float_arith := stand_ins (@infeasible_solver float_arith).
Definition solving : @Externals float_arith := stand_ins (@zero_solver float_arith).

(** The example network as [Network()] and [add] leave it, and with its
    topology determined. *)
Definition built : @Network float_arith := @example_network float_arith failing.

Definition connected : @Network float_arith :=
  exec (modify build_graph ;;; @determine_network_topology float_arith failing) built.

Definition with_angles : @Network float_arith :=
  set_instance_attribute "lopf_formulation" (VStr "angles") built.

Definition one_snapshot : sequence := {| seq_type := PyList; items := ["now"] |}.

Lemma network_lopf_reads_lopf_formulation_witness :
  exists e, fst (@network_lopf float_arith failing None "glpk" built) = Raise e.
Proof.
  apply (@network_lopf_reads_lopf_formulation float_arith failing None "glpk" built).
  vm_compute. reflexivity.
Defined.

(** The default network: [dc_opf_formulation] is "ptdf", and the call
    raises at the first read of [lopf_formulation], with no flow
    formulation of either kind in the model. *)
Lemma network_lopf_default_raises :
  dc_opf_formulation built = "ptdf"
  /\ fst (@network_lopf float_arith failing None "glpk" built)
     = Raise (AttributeError "lopf_formulation")
  /\ assoc "flow" (model (exec (@network_lopf float_arith failing None "glpk") built))
     = None.
Proof. vm_compute. repeat split. Qed.

(** C2 as the claim words it: after a failed solve every cell of every
    table, too, is what it was. *)
Definition failed_lopf_leaves_network_untouched : Prop :=
  forall (snapshots : option sequence) (solver_name : string)
         (n : @Network float_arith) (r : SolverResults),
    let n' := exec (@network_lopf float_arith failing snapshots solver_name) n in
    results n' = Some r -> optimal r = false ->
    quiet n n'
    /\ forall c name col, cell (frames n' c) name col = cell (frames n c) name col.

Lemma failed_lopf_promotes_slack_generator : ~ failed_lopf_leaves_network_untouched.
Proof.
  intro H.
  destruct (H None "glpk" with_angles (@infeasible_solver float_arith "glpk" []))
    as [_ K].
  - vm_compute. reflexivity.
  - reflexivity.
  - specialize (K Generator "gen" "control"). vm_compute in K. discriminate.
Qed.

Lemma network_lopf_failure_keeps_series_and_capacities_witness :
  quiet with_angles (exec (@network_lopf float_arith failing None "glpk") with_angles).
Proof.
  apply (@network_lopf_failure_keeps_series_and_capacities float_arith failing None "glpk"
           with_angles (@infeasible_solver float_arith "glpk" [])).
  - vm_compute. reflexivity.
  - reflexivity.
Defined.

Lemma find_slack_bus_selects_witness :
  fst (find_slack_bus "0" connected) = Ok tt.
Proof.
  assert (Hnd : NoDup (index (frames connected Generator))).
  { vm_compute. repeat constructor; simpl; intuition discriminate. }
  assert (G : sn_generators connected "0"
              = (fst (hd ("", []) (sn_generators connected "0")),
                 snd (hd ("", []) (sn_generators connected "0")))
                :: tl (sn_generators connected "0")).
  { vm_compute. reflexivity. }
  pose proof (@find_slack_bus_selects float_arith connected "0" Hnd) as H.
  cbv zeta in H. rewrite G in H. exact (proj1 H).
Defined.

(** Newton's method on [x - 1 = 0] from the guess 0. *)
Definition shifted (x : list (@num float_arith)) : list (@num float_arith) :=
  map (fun xi => fsub xi (of_Z 1)) x.

Definition unit_slope (x : list (@num float_arith)) : matrix (@num float_arith) :=
  diagonal (map (fun _ => of_Z 1) x).

Lemma newton_raphson_sparse_stops_witness :
  let result := @newton_raphson_sparse float_arith failing shifted [of_Z 0] unit_slope
                  default_x_tol default_lim_iter in
  0 <= snd (fst result) <= default_lim_iter
  /\ snd result = @norm_inf float_arith failing (shifted (fst (fst result)))
  /\ (gtb (snd result) default_x_tol = false \/ snd (fst result) = default_lim_iter).
Proof.
  pose proof (@newton_raphson_sparse_stops float_arith failing shifted unit_slope
                default_x_tol default_lim_iter [of_Z 0]
                ltac:(unfold default_lim_iter; lia)
                (fun a b => @float_le_not_gt a b)) as H.
  cbv zeta in H |- *. destruct H as (H1 & _ & H3 & H4 & _).
  split; [exact H1 | split; [exact H3 | exact H4]].
Defined.

(** The example network as the opening lines of [network_lpf] leave it. *)
Definition prepared : @Network float_arith :=
  exec (@prepare float_arith failing None) connected.

Definition after_lpf : @Network float_arith :=
  exec (@sub_network_lpf float_arith failing "0" None) prepared.

Lemma sub_network_lpf_slack_balances_witness :
  slack_bus after_lpf "0" = "bus0"
  /\ exists others,
       map fst (buses_o (sub_network_attrs after_lpf "0"))
       = slack_bus after_lpf "0" :: others
       /\ get_at after_lpf Bus "p" (or_now None prepared) (slack_bus after_lpf "0")
          = neg_pysum (map (get_at after_lpf Bus "p" (or_now None prepared)) others).
Proof.
  assert (E : fst (@sub_network_lpf float_arith failing "0" None prepared) = Ok tt)
    by (vm_compute; reflexivity).
  pose proof (@sub_network_lpf_slack_balances float_arith failing "0" None prepared E) as H.
  cbv zeta in H. destruct H as (others & H1 & _ & H3 & _).
  split; [vm_compute; reflexivity|].
  exists others. unfold after_lpf. split. exact H1. exact H3.
Defined.

(** C5 as the claim words it: the sum of the real power over the buses of
    the sub-network is exactly zero. *)
Definition lpf_bus_p_sums_to_zero : Prop :=
  forall (sn : string) (given : option string) (n : @Network float_arith),
    fst (@sub_network_lpf float_arith failing sn given n) = Ok tt ->
    let n' := exec (@sub_network_lpf float_arith failing sn given) n in
    pysum (map (get_at n' Bus "p" (or_now given n)) (map fst (sn_buses n' sn)))
    = of_Z 0.

Lemma lpf_bus_p_sum_is_rounded : ~ lpf_bus_p_sums_to_zero.
Proof.
  intro H. specialize (H "0" None prepared).
  assert (E : fst (@sub_network_lpf float_arith failing "0" None prepared) = Ok tt)
    by (vm_compute; reflexivity).
  specialize (H E). cbv zeta in H.
  match type of H with
  | ?total = _ =>
      assert (V : PrimFloat.eqb total PrimFloat.zero = false)
        by (vm_compute; reflexivity)
  end.
  rewrite H in V. change (true = false) in V. discriminate V.
Qed.

Lemma soc_fixed_value_substituted_and_pinned_witness :
  fst (define_storage_variables_constraints one_snapshot built) = Ok tt
  /\ constraint_at (exec (define_storage_variables_constraints one_snapshot) built)
       "state_of_charge_constraint_fixed" ["battery"; "now"]
     = Some (EqC (Ref "state_of_charge" ["battery"; "now"]) (Num (of_Z 5)))
  /\ constraint_at (exec (define_storage_variables_constraints one_snapshot) built)
       "state_of_charge_constraint_fixed" ["reservoir"; "now"]
     = Some Feasible.
Proof.
  assert (T : seq_type one_snapshot <> OtherSequence) by discriminate.
  assert (S : forall t, In t (items one_snapshot) -> at_snapshot built t = Ok tt).
  { intros t [<-|[]]. vm_compute. reflexivity. }
  destruct (@soc_fixed_value_substituted_and_pinned float_arith one_snapshot built T S)
    as [H1 H2].
  split; [exact H1|].
  split; vm_compute; reflexivity.
Defined.

(** * The example on exact real numbers *)

Definition exact : @Externals R_arith := stand_ins (@infeasible_solver R_arith).

(** The example network with its topology, its per-unit values and the bus
    order of its first sub-network. *)
Definition ordered : @Network R_arith :=
  exec (modify build_graph ;;;
        @determine_network_topology R_arith exact ;;;
        modify calculate_dependent_values ;;;
        find_bus_controls "0")
       (@example_network R_arith exact).

(** A grid with a line, a transformer with a tap ratio of 1.05 and a phase
    shift of 30 degrees, and a shunt impedance at the bus between them. *)
Section Grid.
Context {A : Arith} {X : Externals}.


End Grid.



(** The example on real numbers with the angle formulation chosen, ready
    for the results of a solve. *)
Definition solved : @Network R_arith :=
  exec (modify build_graph ;;;
        @determine_network_topology R_arith exact ;;;
        modify calculate_dependent_values)
       (set_instance_attribute "lopf_formulation" (VStr "angles")
          (@example_network R_arith exact)).

Lemma controllable_branches_lossless_witness :
  lossless (exec (@network_lpf R_arith exact None) (@example_network R_arith exact)) "now"
  /\ lossless_at
       (exec (@extract_optimisation_results R_arith exact
                (@zero_solver R_arith "glpk" []) one_snapshot) solved)
       Converter "now" "link".
Proof.
  destruct (@controllable_branches_lossless R_arith exact R_complex) as (_ & L & E).
  split.
  - apply (L None (@example_network R_arith exact) "now"). vm_compute. reflexivity.
  - apply (E (@zero_solver R_arith "glpk" []) one_snapshot solved
             ltac:(vm_compute; reflexivity) "now" ltac:(now left)
             (Converter, "link",
              match assoc "link" (rows (frames solved Converter)) with
              | Some r => r
              | None => []
              end)).
    vm_compute. left. reflexivity.
Defined.

(** A generator of a fresh name is added to the example network, with its
    row last in the index; one of a name that is taken is not. *)
Lemma add_only_fresh_names_witness :
  (exists n', @add float_arith failing "Generator" "peaker" [("p_nom", VFloat (of_Z 3))] built
              = (Ok (Some (Generator, "peaker")), n'))
  /\ index (frames (exec (@add float_arith failing "Generator" "peaker"
                            [("p_nom", VFloat (of_Z 3))]) built) Generator)
     = ["gen"; "spare"; "peaker"]
  /\ @add float_arith failing "Generator" "gen" [] built = (Ok None, built).
Proof.
  assert (Declared : forall col, In col (columns (frames built Generator)) ->
            col = "obj"
            \/ exists d, assoc col (@simple_descriptors float_arith Generator) = Some d).
  { assert (D : forallb (fun c => String.eqb c "obj"
                                  || mem c (map fst (@simple_descriptors float_arith
                                                       Generator)))
                        (columns (frames built Generator)) = true)
      by (vm_compute; reflexivity).
    rewrite forallb_forall in D. intros col Hc. specialize (D col Hc). clear Hc.
    apply orb_prop in D. destruct D as [D|D].
    - left. apply String.eqb_eq. exact D.
    - right. destruct (assoc col (@simple_descriptors float_arith Generator))
        as [d|] eqn:E; [exists d; reflexivity|].
      apply mem_assoc in E. rewrite E in D. discriminate D. }
  assert (Fresh : ~ In "peaker" (index (frames built Generator))).
  { vm_compute. intros [H|[H|[]]]; discriminate H. }
  assert (Taken : In "gen" (index (frames built Generator))).
  { vm_compute. left. reflexivity. }
  destruct (@add_only_fresh_names float_arith failing built Generator "peaker"
              [("p_nom", VFloat (of_Z 3))]) as (_ & H2 & H3 & _).
  destruct (@add_only_fresh_names float_arith failing built Generator "gen" [])
    as (H1 & _).
  split; [|split].
  - exact (H3 Fresh Declared).
  - change "Generator" with (class_name Generator).
    rewrite (H2 Fresh). vm_compute. reflexivity.
  - exact (H1 Taken).
Defined.

(** * Further properties of the code *)

(** ** What the power flow of a sub-network never writes *)

Section Untouched.
Context {A : Arith}.

(** The table of one class, with its per-snapshot tables, is the same in
    both networks. *)
Definition table_kept (c : component_class) (n n' : Network) : Prop :=
  frames n' c = frames n c.

#[export] Instance table_kept_frame (c : component_class) : Frame (table_kept c).
Proof.
  split; unfold table_kept.
  - reflexivity.
  - intros x y z H1 H2. congruence.
Qed.

Lemma table_kept_set_frame (c c' : component_class) (df : DataFrame) (n : Network) :
  c <> c' -> table_kept c n (set_frame c' df n).
Proof.
  intro H. unfold table_kept, set_frame. simpl.
  destruct (class_eqb c c') eqn:E; [|reflexivity].
  unfold class_eqb in E. destruct (class_eq_dec c c'); [contradiction | discriminate].
Qed.

Lemma table_kept_set_at (c c' : component_class) (attr t name : string) (v : num)
  (n : Network) : c <> c' -> table_kept c n (set_at c' attr t name v n).
Proof. apply table_kept_set_frame. Qed.

Lemma table_kept_set_attr (c c' : component_class) (name col : string) (v : pyval)
  (n : Network) : c <> c' -> table_kept c n (set_attr c' name col v n).
Proof. apply table_kept_set_frame. Qed.

Lemma table_kept_decrease (c c' : component_class) (attr t name : string) (v : num)
  (n : Network) : c <> c' -> table_kept c n (decrease c' attr t name v n).
Proof. apply table_kept_set_frame. Qed.

Lemma table_kept_increase (c c' : component_class) (attr t name : string) (v : num)
  (n : Network) : c <> c' -> table_kept c n (increase c' attr t name v n).
Proof. apply table_kept_set_frame. Qed.

Lemma table_kept_update_sub_network (c : component_class) (name : string) f (n : Network) :
  table_kept c n (update_sub_network name f n).
Proof. reflexivity. Qed.

Lemma table_kept_calculate_dependent_values (c : component_class) (n : Network) :
  c <> Line -> c <> Transformer -> c <> ShuntImpedance ->
  table_kept c n (calculate_dependent_values n).
Proof.
  intros H1 H2 H3. unfold table_kept. rewrite frames_cdv.
  destruct c; try reflexivity; contradiction.
Qed.
End Untouched.

(** The classes that the power flow of a sub-network leaves alone. *)
Definition beside_power_flow (c : component_class) : bool :=
  match c with
  | StorageUnit | Source | Converter | TransportLink => true
  | _ => false
  end.

Ltac other_class :=
  match goal with
  | H : beside_power_flow ?c = true |- ?c <> _ =>
      let E := fresh in intro E; rewrite E in H; simpl in H;
      first [ discriminate H
            | match goal with
              | I : In _ _ |- _ => simpl in I; intuition (subst; discriminate)
              end ]
  end.

Ltac table_leaf :=
  lazymatch goal with
  | |- table_kept _ _ (update_sub_network _ _ _) => apply table_kept_update_sub_network
  | |- table_kept _ _ (set_at _ _ _ _ _ _) => apply table_kept_set_at; other_class
  | |- table_kept _ _ (set_attr _ _ _ _ _) => apply table_kept_set_attr; other_class
  | |- table_kept _ _ (decrease _ _ _ _ _ _) => apply table_kept_decrease; other_class
  | |- table_kept _ _ (increase _ _ _ _ _ _) => apply table_kept_increase; other_class
  | |- table_kept _ _ (calculate_dependent_values _) =>
      apply table_kept_calculate_dependent_values; other_class
  end.

Ltac table_frame :=
  repeat first
    [ frame_step
    | progress unfold assign, dispatch_as_set, withdraw_controllable
    | table_leaf ].

Section UntouchedCalls.
Context {A : Arith} {X : Externals} {C : ComplexOps A}.

Lemma table_kept_write_guess (c : component_class) (sn t : string) (guess : list num)
  (n : Network) :
  beside_power_flow c = true -> table_kept c n (write_guess sn t guess n).
Proof.
  intro H. unfold write_guess, exec. cbv zeta. generalize (sub_network_attrs n sn).
  intro a0.
  match goal with
  | |- table_kept c n (snd (?a n)) => apply (fun (L : leaves (table_kept c) a) => L n)
  end.
  table_frame.
Qed.

Lemma table_kept_find_bus_controls (c : component_class) (sn : string) :
  beside_power_flow c = true -> leaves (table_kept c) (find_bus_controls sn).
Proof.
  intro H. unfold find_bus_controls.
  frame_step; [unfold find_slack_bus; table_frame|]. table_frame.
Qed.

Lemma table_kept_calculate_B_H (c : component_class) (sn : string) :
  leaves (table_kept c) (calculate_B_H sn).
Proof. unfold calculate_B_H. table_frame. Qed.

Lemma table_kept_calculate_Y (c : component_class) (sn : string) :
  leaves (table_kept c) (calculate_Y sn).
Proof. unfold calculate_Y. table_frame. Qed.

(** Neither power flow of a sub-network writes anything of a storage unit,
    a source, a converter or a transport link: their tables and
    per-snapshot tables are, returning or raising, what they were. *)
Theorem sub_network_power_flow_passes_by (c : component_class) (sn : string)
  (given : option string) (n : Network) :
  beside_power_flow c = true ->
  frames (exec (sub_network_lpf sn given) n) c = frames n c
  /\ frames (exec (sub_network_pf sn given) n) c = frames n c.
Proof.
  intro H. split.
  - revert n. change (leaves (table_kept c) (sub_network_lpf sn given)).
    unfold sub_network_lpf.
    repeat first
      [ lazymatch goal with
        | |- leaves _ (find_bus_controls _) =>
            apply table_kept_find_bus_controls; assumption
        | |- leaves _ (calculate_B_H _) => apply table_kept_calculate_B_H
        end
      | progress table_frame ].
  - revert n. change (leaves (table_kept c) (sub_network_pf sn given)).
    unfold sub_network_pf.
    repeat first
      [ lazymatch goal with
        | |- leaves _ (find_bus_controls _) =>
            apply table_kept_find_bus_controls; assumption
        | |- leaves _ (calculate_Y _) => apply table_kept_calculate_Y
        | |- table_kept _ _ (write_guess _ _ _ _) =>
            apply table_kept_write_guess; assumption
        end
      | progress table_frame ].
Qed.
End UntouchedCalls.

Lemma sub_network_power_flow_passes_by_witness :
  frames (exec (@sub_network_lpf R_arith exact "0" None) ordered) StorageUnit
  = frames ordered StorageUnit
  /\ frames (exec (@sub_network_pf R_arith exact R_complex "0" None) ordered) StorageUnit
     = frames ordered StorageUnit.
Proof.
  apply (@sub_network_power_flow_passes_by R_arith exact R_complex StorageUnit "0" None
           ordered).
  reflexivity.
Defined.

(** ** Newton-Raphson without a step *)

Section NewtonEdge.
Context {A : Arith} {X : Externals}.

(** With a cap that is zero or negative, or a first residual that is not
    greater than the tolerance, [newton_raphson_sparse] makes no update and
    solves no linear system: it returns the guess, the count 0 and the norm
    of [f] at the guess. *)
Theorem newton_raphson_sparse_returns_guess (f : list num -> list num)
  (dfdx : list num -> matrix num) (guess : list num) (x_tol : num) (lim_iter : Z) :
  lim_iter <= 0 \/ gtb (norm_inf (f guess)) x_tol = false ->
  newton_raphson_sparse f guess dfdx x_tol lim_iter = (guess, 0, norm_inf (f guess)).
Proof.
  intro H. unfold newton_raphson_sparse.
  destruct (Z.to_nat lim_iter) as [|fuel] eqn:E; [reflexivity|].
  cbn [nr_loop].
  destruct H as [H|H].
  - lia.
  - rewrite H. reflexivity.
Qed.
End NewtonEdge.

Lemma newton_raphson_sparse_returns_guess_witness :
  @newton_raphson_sparse float_arith failing shifted [of_Z 1] unit_slope
    default_x_tol default_lim_iter
  = ([of_Z 1], 0, @norm_inf float_arith failing (shifted [of_Z 1])).
Proof.
  apply (@newton_raphson_sparse_returns_guess float_arith failing).
  right. vm_compute. reflexivity.
Defined.

(** ** Per-unit values *)

Section PerUnit.
Context {A : Arith}.

(** The nominal voltage that the left join with the bus table finds for a
    bus name: that of the first bus of this name, or nan. *)
Definition bus_v_nom (n : Network) (bus : string) : num :=
  match assoc bus (rows (frames n Bus)) with
  | Some b => as_num (row_get b "v_nom")
  | None => nan
  end.

(** After [calculate_dependent_values] the flag is set; a line has the
    nominal voltage [v] of its [bus0] (nan when no bus has that name) and
    [x_pu = x/v^2], [r_pu = r/v^2], [b_pu = b*v^2], [g_pu = g*v^2]; a
    transformer has [x_pu = x/s_nom], [r_pu = r/s_nom], [b_pu = b*s_nom],
    [g_pu = g*s_nom]; a shunt impedance has the voltage [v] of its [bus] and
    [b_pu = b*v^2], [g_pu = g*v^2]. *)
Theorem calculate_dependent_values_per_unit (n : Network) (name : string) :
  let n' := calculate_dependent_values n in
  let was c col := as_num (cell (frames n c) name col) in
  let now_is c col := cell (frames n' c) name col in
  dependent_values_calculated n' = true
  /\ (In name (index (frames n Line)) ->
      let v := bus_v_nom n (as_str (cell (frames n Line) name "bus0")) in
      as_num (now_is Line "v_nom") = v
      /\ now_is Line "x_pu" = VFloat (fdiv (was Line "x") (fmul v v))
      /\ now_is Line "r_pu" = VFloat (fdiv (was Line "r") (fmul v v))
      /\ now_is Line "b_pu" = VFloat (fmul (was Line "b") (fmul v v))
      /\ now_is Line "g_pu" = VFloat (fmul (was Line "g") (fmul v v)))
  /\ (In name (index (frames n Transformer)) ->
      let s := was Transformer "s_nom" in
      now_is Transformer "x_pu" = VFloat (fdiv (was Transformer "x") s)
      /\ now_is Transformer "r_pu" = VFloat (fdiv (was Transformer "r") s)
      /\ now_is Transformer "b_pu" = VFloat (fmul (was Transformer "b") s)
      /\ now_is Transformer "g_pu" = VFloat (fmul (was Transformer "g") s))
  /\ (In name (index (frames n ShuntImpedance)) ->
      let v := bus_v_nom n (as_str (cell (frames n ShuntImpedance) name "bus")) in
      as_num (now_is ShuntImpedance "v_nom") = v
      /\ now_is ShuntImpedance "b_pu" = VFloat (fmul (was ShuntImpedance "b") (fmul v v))
      /\ now_is ShuntImpedance "g_pu" = VFloat (fmul (was ShuntImpedance "g") (fmul v v))).
Proof.
  cbv zeta. split; [reflexivity|].
  assert (K : forall c, In name (index (frames n c)) ->
                exists r, assoc name (rows (frames n c)) = Some r
                          /\ forall col, cell (frames (calculate_dependent_values n) c)
                                              name col
                                         = cells_after n c r col).
  { intros c Hin. pose proof (assoc_rows_cdv n c name) as H. unfold cell.
    destruct (assoc name (rows (frames n c))) as [r|] eqn:E.
    - exists r. split; [reflexivity|].
      destruct (assoc name (rows (frames (calculate_dependent_values n) c)));
        [exact H | contradiction].
    - exfalso. apply mem_In in Hin. unfold index in Hin.
      apply mem_assoc in E. congruence. }
  assert (V : forall c attr r, assoc name (rows (frames n c)) = Some r ->
                as_num (joined_v_nom n attr r)
                = bus_v_nom n (as_str (cell (frames n c) name attr))).
  { intros c attr r E. unfold joined_v_nom, bus_v_nom, cell. rewrite E.
    now destruct (assoc (as_str (row_get r attr)) (rows (frames n Bus))). }
  split; [|split].
  - intro Hin. destruct (K Line Hin) as (r & E & L).
    rewrite !L. rewrite <- (V Line "bus0" r E). unfold cell. rewrite E.
    unfold cells_after, line_cells, per_square, times_square, square. cbv zeta.
    cbn [String.eqb Ascii.eqb Bool.eqb as_num]. repeat split; reflexivity.
  - intro Hin. destruct (K Transformer Hin) as (r & E & L).
    rewrite !L. unfold cell. rewrite E.
    unfold cells_after, transformer_cells. cbv zeta.
    cbn [String.eqb Ascii.eqb Bool.eqb as_num]. repeat split; reflexivity.
  - intro Hin. destruct (K ShuntImpedance Hin) as (r & E & L).
    rewrite !L. rewrite <- (V ShuntImpedance "bus" r E). unfold cell. rewrite E.
    unfold cells_after, shunt_cells, times_square, square. cbv zeta.
    cbn [String.eqb Ascii.eqb Bool.eqb as_num]. repeat split; reflexivity.
Qed.
End PerUnit.

(** ** Network.remove *)

Section Remove.
Context {A : Arith} {X : Externals}.

(** [Network.remove] of an object whose name is in the table. *)
Lemma remove_present (cls : component_class) (name : string) (n : Network) :
  mem name (index (frames n cls)) = true ->
  remove (cls, name) n
  = (Ok tt, set_topology_determined false
              (set_frame cls (drop_row (frames n cls) name) n)).
Proof.
  intro M. unfold remove, abind, get, modify. cbn [fst snd]. now rewrite M.
Qed.

Lemma assoc_del_index (V : Type) (name : string) (l : list (string * V)) :
  map fst (assoc_del name l) = filter (fun k => negb (String.eqb name k)) (map fst l).
Proof.
  unfold assoc_del. induction l as [|[k v] l IH]; simpl; [reflexivity|].
  destruct (String.eqb name k); simpl; now rewrite IH.
Qed.

Lemma assoc_del_fresh (V : Type) (name : string) (l : list (string * V)) :
  ~ In name (map fst l) -> assoc_del name l = l.
Proof.
  unfold assoc_del. induction l as [|[k v] l IH]; simpl; [reflexivity|].
  intro H. destruct (String.eqb name k) eqn:E.
  - apply String.eqb_eq in E. subst. exfalso. apply H. now left.
  - simpl. f_equal. apply IH. intro Hin. apply H. now right.
Qed.

(** [Network.remove] of an object of the table returns and deletes the
    rows of its name and no other: the name leaves the index, the other
    names keep their order and their cells, the other tables are untouched,
    and [topology_determined] is reset.  The per-snapshot tables are not
    touched: the columns of the removed object stay behind in them. *)
Theorem remove_drops_the_row (cls : component_class) (name : string) (n : Network) :
  In name (index (frames n cls)) ->
  let n' := exec (remove (cls, name)) n in
  fst (remove (cls, name) n) = Ok tt
  /\ ~ In name (index (frames n' cls))
  /\ index (frames n' cls)
     = filter (fun k => negb (String.eqb name k)) (index (frames n cls))
  /\ (forall other col, other <> name ->
        cell (frames n' cls) other col = cell (frames n cls) other col)
  /\ series (frames n' cls) = series (frames n cls)
  /\ (forall c, c <> cls -> frames n' c = frames n c)
  /\ topology_determined n' = false.
Proof.
  intros Hin n'. subst n'. unfold exec.
  rewrite (remove_present cls name n (proj2 (mem_In _ _) Hin)). cbn [fst snd].
  split; [reflexivity|].
  assert (F : frames (set_topology_determined false
                        (set_frame cls (drop_row (frames n cls) name) n)) cls
              = drop_row (frames n cls) name).
  { change (frames (set_frame cls (drop_row (frames n cls) name) n) cls
            = drop_row (frames n cls) name).
    apply frames_set_frame_same. }
  rewrite F. unfold index, drop_row, with_rows. cbn [rows series].
  rewrite assoc_del_index.
  split; [|split; [reflexivity|split; [|split; [reflexivity|split; [|reflexivity]]]]].
  - intro H. apply filter_In in H. destruct H as [_ H].
    now rewrite String.eqb_refl in H.
  - intros other col Hne. unfold cell. cbn [rows].
    now rewrite assoc_del_other.
  - intros c Hne.
    change (frames (set_frame cls (with_rows (assoc_del name (rows (frames n cls)))
                                             (frames n cls)) n) c = frames n c).
    now apply frames_set_frame_other.
Qed.

Lemma assoc_del_set_loc (df : DataFrame) (name col : string) (v : pyval) :
  assoc_del name (rows (set_loc df name col v)) = assoc_del name (rows df).
Proof.
  unfold set_loc. cbn [rows]. destruct (mem name (index df)).
  - unfold assoc_del. induction (rows df) as [|[k r] l IH]; simpl; [reflexivity|].
    destruct (String.eqb name k); simpl; [exact IH | now rewrite IH].
  - unfold assoc_del. rewrite filter_app. simpl. rewrite String.eqb_refl. simpl.
    apply app_nil_r.
Qed.

End Remove.

Section AddRemove.
Context {A : Arith} {X : Externals}.

Lemma assoc_del_set_defaults (c : component_class) (name : string) (cols : list string) :
  forall df df', set_defaults c name cols df = (Ok tt, df') ->
    assoc_del name (rows df') = assoc_del name (rows df).
Proof.
  induction cols as [|col cols IH]; intros df df' E; cbn [set_defaults] in E.
  - now inversion E.
  - destruct (String.eqb col "obj"); [now apply IH|].
    destruct (assoc col (simple_descriptors c)); [|discriminate].
    rewrite (IH _ _ E). apply assoc_del_set_loc.
Qed.

Lemma assoc_del_setattr (cls : component_class) (name key : string) (v : pyval)
  (n : Network) :
  assoc_del name (rows (frames (setattr cls name key v n) cls))
  = assoc_del name (rows (frames n cls))
  /\ forall c, c <> cls -> frames (setattr cls name key v n) c = frames n c.
Proof.
  unfold setattr.
  destruct (mem key (map fst (simple_descriptors cls))).
  - unfold set_attr. rewrite frames_set_frame_same. split; [apply assoc_del_set_loc|].
    intros c Hc. now apply frames_set_frame_other.
  - destruct (mem key (map fst (series_descriptors cls))); [|now split].
    rewrite frames_set_frame_same. split; [reflexivity|].
    intros c Hc. now apply frames_set_frame_other.
Qed.

(** Removing the object that [Network.add] has just returned succeeds and
    gives back the rows of its table as they were before the [add], and
    every other table whole; the topology has to be determined again. *)
Theorem add_then_remove (cls : component_class) (name : string)
  (kwargs : list (string * pyval)) (n n' : Network) (o : obj) :
  add (class_name cls) name kwargs n = (Ok (Some o), n') ->
  let n'' := exec (remove o) n' in
  fst (remove o n') = Ok tt
  /\ rows (frames n'' cls) = rows (frames n cls)
  /\ (forall c, c <> cls -> frames n'' c = frames n c)
  /\ topology_determined n'' = false.
Proof.
  rewrite add_cases. intros H n''. subst n''.
  destruct (mem name (index (frames n cls))) eqn:M; [discriminate|].
  assert (Hfresh : ~ In name (map fst (rows (frames n cls)))).
  { intro Hin. apply mem_In in Hin. unfold index in M. congruence. }
  cbv zeta in H.
  set (df1 := set_loc (frames n cls) name "obj" (VObj cls name)) in *.
  destruct (set_defaults cls name (columns df1) df1) as [[[]|e] df2] eqn:D;
    cbn [fst snd] in H; [|discriminate].
  inversion H; subst o n'; clear H.
  set (n0 := set_frame cls (set_series_defaults cls name df2)
                       (set_frame cls df2 (new_object cls name n))).
  assert (M2 : mem name (index df2) = true).
  { assert (M1 : mem name (index df1) = true).
    { unfold df1. rewrite index_set_loc, M. apply mem_In, in_or_app. right. now left. }
    pose proof (index_set_defaults cls name (columns df1) df1 M1) as I.
    rewrite D in I. cbn [snd] in I. now rewrite I. }
  assert (M0 : mem name (index (frames n0 cls)) = true).
  { unfold n0. rewrite frames_set_frame_same. unfold index.
    rewrite rows_set_series_defaults. exact M2. }
  assert (K : forall kw m,
            assoc_del name (rows (frames m cls)) = rows (frames n cls) ->
            (forall c, c <> cls -> frames m c = frames n c) ->
            assoc_del name
              (rows (frames (fold_left (fun m kv => setattr cls name (fst kv) (snd kv) m)
                                       kw m) cls))
            = rows (frames n cls)
            /\ forall c, c <> cls ->
                 frames (fold_left (fun m kv => setattr cls name (fst kv) (snd kv) m)
                                   kw m) c
                 = frames n c).
  { induction kw as [|[k v] kw IH]; intros m H1 H2; simpl; [now split|].
    destruct (assoc_del_setattr cls name k v m) as [S1 S2].
    apply IH.
    - now rewrite S1.
    - intros c Hc. now rewrite (S2 c Hc), (H2 c Hc). }
  destruct (K kwargs n0) as [K1 K2].
  - unfold n0. rewrite frames_set_frame_same, rows_set_series_defaults.
    rewrite (assoc_del_set_defaults _ _ _ _ D). unfold df1.
    rewrite assoc_del_set_loc. now apply assoc_del_fresh.
  - intros c Hc. unfold n0. rewrite !frames_set_frame_other by exact Hc.
    now rewrite frames_new_object.
  - unfold exec. rewrite remove_present
      by (rewrite index_fold_setattr; exact M0).
    cbn [fst snd].
    split; [reflexivity|]. split; [|split; [|reflexivity]].
    + change (rows (frames (set_frame cls
                 (drop_row (frames (fold_left
                    (fun m kv => setattr cls name (fst kv) (snd kv) m) kwargs n0) cls)
                    name)
                 (fold_left (fun m kv => setattr cls name (fst kv) (snd kv) m)
                            kwargs n0)) cls)
              = rows (frames n cls)).
      rewrite frames_set_frame_same. exact K1.
    + intros c Hc.
      change (frames (set_frame cls
                 (drop_row (frames (fold_left
                    (fun m kv => setattr cls name (fst kv) (snd kv) m) kwargs n0) cls)
                    name)
                 (fold_left (fun m kv => setattr cls name (fst kv) (snd kv) m)
                            kwargs n0)) c
              = frames n c).
      rewrite (frames_set_frame_other _ _ Hc). now apply K2.
Qed.
End AddRemove.

Lemma remove_drops_the_row_witness :
  fst (@remove float_arith failing (Line, "line12") built) = Ok tt
  /\ index (frames (exec (@remove float_arith failing (Line, "line12")) built) Line)
     = ["line01"; "line23"]
  /\ topology_determined (exec (@remove float_arith failing (Line, "line12")) built)
     = false.
Proof.
  destruct (@remove_drops_the_row float_arith failing Line "line12" built)
    as (R & _ & H & _ & _ & _ & T).
  { vm_compute. right. left. reflexivity. }
  split; [exact R|]. split; [|exact T].
  rewrite H. vm_compute. reflexivity.
Defined.

Lemma add_then_remove_witness :
  rows (frames (exec (@remove float_arith failing (Bus, "bus9"))
                  (exec (@add float_arith failing "Bus" "bus9" []) built)) Bus)
  = rows (frames built Bus).
Proof.
  assert (E : @add float_arith failing "Bus" "bus9" [] built
              = (Ok (Some (Bus, "bus9")),
                 exec (@add float_arith failing "Bus" "bus9" []) built)).
  { unfold exec.
    assert (F : fst (@add float_arith failing "Bus" "bus9" [] built)
                = Ok (Some (Bus, "bus9"))) by (vm_compute; reflexivity).
    destruct (@add float_arith failing "Bus" "bus9" [] built) as [r m].
    cbn [fst snd] in *. now subst r. }
  exact (proj1 (proj2 (@add_then_remove float_arith failing Bus "bus9" [] built _ _ E))).
Defined.

(** ** What the linear power flow dispatches *)

Section SeriesOnly.
Context {A : Arith}.

(** Only per-snapshot tables differ: the rows and the columns of every
    table, and what the sub-networks hold, are the same in both networks. *)
Definition series_only (n n' : Network) : Prop :=
  (forall c, rows (frames n' c) = rows (frames n c)
             /\ columns (frames n' c) = columns (frames n c))
  /\ sub_network_attrs n' = sub_network_attrs n.

#[export] Instance series_only_frame : Frame series_only.
Proof.
  split; unfold series_only.
  - intro n. split; [intro c; split; reflexivity | reflexivity].
  - intros x y z [H1 S1] [H2 S2]. split; [|congruence].
    intro c. destruct (H1 c) as [R1 C1]. destruct (H2 c) as [R2 C2].
    split; congruence.
Qed.

Lemma series_only_set_at (c : component_class) (attr t name : string) (v : num)
  (n : Network) : series_only n (set_at c attr t name v n).
Proof.
  split; [|reflexivity]. intro k. unfold set_at, set_frame. simpl.
  destruct (class_eqb k c) eqn:E; [|split; reflexivity].
  unfold class_eqb in E.
  destruct (class_eq_dec k c); [subst; split; reflexivity | discriminate].
Qed.

Lemma series_only_decrease (c : component_class) (attr t name : string) (v : num)
  (n : Network) : series_only n (decrease c attr t name v n).
Proof. apply series_only_set_at. Qed.

Lemma series_only_increase (c : component_class) (attr t name : string) (v : num)
  (n : Network) : series_only n (increase c attr t name v n).
Proof. apply series_only_set_at. Qed.

Lemma series_only_sn_one_ports (n n' : Network) (c : component_class) (sn : string) :
  series_only n n' -> sn_one_ports n' c sn = sn_one_ports n c sn.
Proof.
  intros [H _]. unfold sn_one_ports, sn_buses.
  destruct (H c) as [R1 _]. destruct (H Bus) as [R2 C2]. now rewrite R1, R2, C2.
Qed.

Lemma series_only_cell (n n' : Network) (c : component_class) (name col : string) :
  series_only n n' -> cell (frames n' c) name col = cell (frames n c) name col.
Proof. intros [H _]. unfold cell. destruct (H c) as [R1 _]. now rewrite R1. Qed.

(** [network.<c>.attr.loc[now, names] = f(names)] writes [f] at the names
    and nothing else. *)
Lemma assign_function (c : component_class) (attr t : string) (f : string -> num)
  (names : list string) (n : Network) :
  assign c attr t names (map f names) n
  = (Ok tt, exec (assign c attr t names (map f names)) n)
  /\ forall c' attr' t' x,
       get_at (exec (assign c attr t names (map f names)) n) c' attr' t' x
       = if class_eqb c' c && (String.eqb attr' attr && String.eqb t' t && mem x names)
         then f x else get_at n c' attr' t' x.
Proof.
  unfold assign, exec. rewrite for_modify. cbn [snd]. split; [reflexivity|].
  revert n. induction names as [|a l IH]; intros n c' attr' t' x.
  - simpl. now rewrite !andb_false_r.
  - cbn [map combine fold_left fst snd]. rewrite IH, get_at_set_at.
    unfold mem. cbn [existsb].
    destruct (class_eqb c' c); [|reflexivity].
    destruct (String.eqb attr' attr); [|reflexivity].
    destruct (String.eqb t' t); [|reflexivity].
    cbn [andb].
    destruct (existsb (String.eqb x) l) eqn:M.
    + now rewrite orb_true_r.
    + rewrite orb_false_r. destruct (String.eqb x a) eqn:E; [|reflexivity].
      apply String.eqb_eq in E. now subst.
Qed.

Lemma mem_true (x : string) (l : list string) : In x l -> mem x l = true.
Proof.
  intro H. unfold mem. apply existsb_exists. exists x. split; [exact H|].
  apply String.eqb_refl.
Qed.
End SeriesOnly.

Ltac series_frame :=
  repeat first
    [ frame_step
    | progress unfold assign, dispatch_as_set, withdraw_controllable
    | lazymatch goal with
      | |- series_only _ (set_at _ _ _ _ _ _) => apply series_only_set_at
      | |- series_only _ (decrease _ _ _ _ _ _) => apply series_only_decrease
      | |- series_only _ (increase _ _ _ _ _ _) => apply series_only_increase
      end ].

Ltac one_table_frame :=
  repeat first
    [ frame_step
    | progress unfold assign, dispatch_as_set, withdraw_controllable
    | lazymatch goal with
      | |- table_kept _ _ (set_at _ _ _ _ _ _) => apply table_kept_set_at; discriminate
      | |- table_kept _ _ (decrease _ _ _ _ _ _) => apply table_kept_decrease; discriminate
      | |- table_kept _ _ (increase _ _ _ _ _ _) => apply table_kept_increase; discriminate
      end ].

Section Dispatch.
Context {A : Arith} {X : Externals}.

(** When [sub_network_lpf] returns, every load of the sub-network has, at
    the snapshot of the run, [p = p_set]; every shunt impedance of the
    sub-network has [p = g_pu]; and every generator of the sub-network
    other than the slack generator has [p = p_set]. *)
Theorem sub_network_lpf_dispatches_as_set (sn : string) (given : option string)
  (n n' : Network) :
  sub_network_lpf sn given n = (Ok tt, n') ->
  let t := or_now given n in
  (forall l, In l (map fst (sn_one_ports n' Load sn)) ->
     get_at n' Load "p" t l = get_at n' Load "p_set" t l)
  /\ (forall s, In s (map fst (sn_one_ports n' ShuntImpedance sn)) ->
        get_at n' ShuntImpedance "p" t s
        = as_num (cell (frames n' ShuntImpedance) s "g_pu"))
  /\ (forall g, In g (map fst (sn_generators n' sn)) ->
        g <> slack_generator (sub_network_attrs n' sn) ->
        get_at n' Generator "p" t g = get_at n' Generator "p_set" t g).
Proof.
  intros E t. unfold sub_network_lpf in E.
  apply abind_get_inv in E. cbv zeta in E. fold t in E.
  apply abind_inv in E. destruct E as (_ & k1 & _ & E).
  apply abind_inv in E. destruct E as ([] & k2 & _ & E).
  apply abind_get_inv in E.
  apply abind_inv in E. destruct E as (_ & k3 & _ & E).
  apply abind_get_inv in E.
  apply abind_inv in E. destruct E as (_ & k4 & _ & E).
  apply abind_get_inv in E.
  apply abind_inv in E. destruct E as (_ & k5 & _ & E).
  apply abind_get_inv in E.
  apply (abind_inv_leaves (R := series_only)) in E; [|series_frame].
  destruct E as (v_diff & k6 & S6 & E).
  apply (abind_inv_leaves (R := series_only)) in E; [|series_frame].
  destruct E as ([] & k7 & S7 & E).
  apply (abind_inv_leaves (R := series_only)) in E; [|series_frame].
  destruct E as ([] & k8 & S8 & E).
  assert (S58 : series_only k5 k8)
    by exact (frame_trans _ _ _ S6 (frame_trans _ _ _ S7 S8)).
  assert (S8' : series_only k8 n').
  { eapply leaves_at; [|exact E]. series_frame. }
  assert (S5' : series_only k5 n') by exact (frame_trans _ _ _ S58 S8').
  rewrite !(series_only_sn_one_ports _ _ S5').
  unfold sn_generators in *. rewrite !(series_only_sn_one_ports _ _ S5').
  (* the loads *)
  apply abind_inv in E. destruct E as ([] & k9 & F9 & E).
  unfold dispatch_as_set in F9. apply abind_get_inv in F9.
  destruct (assign_function Load "p" t (get_at k8 Load "p_set" t)
              (map fst (sn_one_ports k5 Load sn)) k8) as [R9 V9].
  rewrite R9 in F9. inversion F9 as [K9]. clear F9 R9. rewrite K9 in V9.
  assert (T9 : table_kept Load k9 n').
  { eapply leaves_at; [|exact E]. one_table_frame. }
  (* the shunt impedances *)
  apply abind_inv in E. destruct E as ([] & k10 & F10 & E).
  rewrite <- (map_map fst (fun s => as_num (cell (frames k5 ShuntImpedance) s "g_pu")))
    in F10.
  destruct (assign_function ShuntImpedance "p" t
              (fun s => as_num (cell (frames k5 ShuntImpedance) s "g_pu"))
              (map fst (sn_one_ports k5 ShuntImpedance sn)) k9) as [R10 V10].
  rewrite R10 in F10. inversion F10 as [K10]. clear F10 R10. rewrite K10 in V10.
  assert (T10 : table_kept ShuntImpedance k10 n').
  { eapply leaves_at; [|exact E]. one_table_frame. }
  (* the generators *)
  apply abind_inv in E. destruct E as ([] & k11 & F11 & E).
  unfold dispatch_as_set in F11. apply abind_get_inv in F11.
  destruct (assign_function Generator "p" t (get_at k10 Generator "p_set" t)
              (map fst (sn_one_ports k5 Generator sn)) k10) as [R11 V11].
  rewrite R11 in F11. inversion F11 as [K11]. clear F11 R11. rewrite K11 in V11.
  split; [|split].
  - intros l Hl. unfold get_at. rewrite T9. fold (get_at k9 Load "p" t l).
    fold (get_at k9 Load "p_set" t l). rewrite !V9.
    rewrite (mem_true _ _ Hl), (String.eqb_refl t). reflexivity.
  - intros s Hs. rewrite (series_only_cell _ _ _ S5').
    unfold get_at. rewrite T10. fold (get_at k10 ShuntImpedance "p" t s).
    rewrite V10. rewrite (mem_true _ _ Hs), (String.eqb_refl t). reflexivity.
  - intros g Hg Hne. destruct S5' as [_ SA]. rewrite SA in Hne.
    assert (G : forall attr, get_at n' Generator attr t g = get_at k11 Generator attr t g).
    { intro attr. unfold when in E.
      destruct (negb (slack_generator (sub_network_attrs k5 sn) =? "")%string).
      - apply abind_get_inv in E. unfold modify in E. inversion E as [K].
        unfold increase. rewrite get_at_set_at.
        destruct (String.eqb g (slack_generator (sub_network_attrs k5 sn))) eqn:Eg.
        + apply String.eqb_eq in Eg. contradiction.
        + now rewrite !andb_false_r.
      - unfold ret in E. now inversion E. }
    rewrite !G, !V11. rewrite (mem_true _ _ Hg), (String.eqb_refl t). reflexivity.
Qed.
End Dispatch.

Lemma sub_network_lpf_dispatches_as_set_witness :
  get_at after_lpf Load "p" (or_now None prepared) "load2"
  = get_at after_lpf Load "p_set" (or_now None prepared) "load2"
  /\ get_at after_lpf Generator "p" (or_now None prepared) "spare"
     = get_at after_lpf Generator "p_set" (or_now None prepared) "spare".
Proof.
  assert (E : @sub_network_lpf float_arith failing "0" None prepared = (Ok tt, after_lpf)).
  { unfold after_lpf, exec.
    assert (F : fst (@sub_network_lpf float_arith failing "0" None prepared) = Ok tt)
      by (vm_compute; reflexivity).
    destruct (@sub_network_lpf float_arith failing "0" None prepared) as [r m].
    cbn [fst snd] in *. now subst r. }
  destruct (@sub_network_lpf_dispatches_as_set float_arith failing "0" None prepared
              after_lpf E) as (L & _ & G).
  split.
  - apply L. vm_compute. right. left. reflexivity.
  - apply G.
    + vm_compute. right. left. reflexivity.
    + vm_compute. discriminate.
Defined.

(** ** The flows of the linear power flow *)

Section Shapes.
Context {A : Arith}.

Lemma bus_numbers_length (buses : list (string * row)) (names : list string) :
  forall ns, bus_numbers buses names = Ok ns -> List.length ns = List.length names.
Proof.
  induction names as [|b rest IH]; intros ns H; cbn [bus_numbers] in H.
  - now inversion H.
  - destruct (position b (map fst buses)); [|discriminate].
    destruct (bus_numbers buses rest) as [ms|e]; [|discriminate].
    cbn in H. inversion H. cbn. f_equal. now apply IH.
Qed.

Lemma row_numbers_combine (T U : Type) (l1 : list nat) (l2 : list T) (l3 : list U) :
  List.length l2 = List.length l1 -> List.length l3 = List.length l1 ->
  map (fun e => fst (fst e)) (combine (combine l1 l2) l3) = l1.
Proof.
  revert l2 l3. induction l1 as [|a l1 IH]; intros [|b l2] [|c l3] H2 H3;
    try discriminate; [reflexivity|].
  cbn. f_equal. apply IH; cbn in *; lia.
Qed.

Lemma n_rows_numbers (T : Type) (M : matrix T) :
  n_rows M = fold_left (fun m i => Nat.max m (S i)) (map (fun e => fst (fst e)) M) O.
Proof.
  unfold n_rows. generalize O. induction M as [|e M IH]; intro m; [reflexivity|].
  cbn. apply IH.
Qed.

Lemma max_seq (k a m : nat) :
  fold_left (fun m i => Nat.max m (S i)) (seq a k) m
  = Nat.max m (match k with O => O | S _ => a + k end)%nat.
Proof.
  revert a m. induction k as [|k IH]; intros a m; cbn [seq fold_left]; [lia|].
  rewrite IH. destruct k; lia.
Qed.

Lemma n_rows_H (T : Type) (k : nat) (cols : list nat) (data : list T) :
  List.length cols = (k + k)%nat -> List.length data = (k + k)%nat ->
  n_rows (csr_matrix data (seq 0 k ++ seq 0 k, cols)) = k.
Proof.
  intros H1 H2. rewrite n_rows_numbers. unfold csr_matrix. cbn [fst snd].
  rewrite row_numbers_combine.
  - rewrite fold_left_app, !max_seq. destruct k; lia.
  - now rewrite length_app, !length_seq.
  - now rewrite length_app, !length_seq.
Qed.

Lemma mat_vec_length (M : matrix num) (k : nat) (v : list num) :
  List.length (mat_vec M k v) = k.
Proof. unfold mat_vec. now rewrite length_map, length_seq. Qed.

Lemma find_last (T : Type) (p : T -> bool) (l : list T) (a : T) :
  find p (rev (a :: l))
  = match find p (rev l) with
    | Some y => Some y
    | None => if p a then Some a else None
    end.
Proof.
  cbn [rev]. induction (rev l) as [|y r IH]; cbn; [reflexivity|].
  destruct (p y); [reflexivity | exact IH].
Qed.

(** [network.<c>.attr.loc[now, names] = values] with a name and a value
    for every element of one list: the last element of a name decides. *)
Lemma assign_pairs (c : component_class) (attr t : string) (T : Type)
  (name : T -> string) (g : T -> num) (l : list T) (n : Network) :
  assign c attr t (map name l) (map g l) n
  = (Ok tt, exec (assign c attr t (map name l) (map g l)) n)
  /\ forall c' attr' t' x,
       get_at (exec (assign c attr t (map name l) (map g l)) n) c' attr' t' x
       = if class_eqb c' c && (String.eqb attr' attr && String.eqb t' t)
         then match find (fun y => String.eqb x (name y)) (rev l) with
              | Some y => g y
              | None => get_at n c' attr' t' x
              end
         else get_at n c' attr' t' x.
Proof.
  unfold assign, exec. rewrite for_modify. cbn [snd]. split; [reflexivity|].
  revert n. induction l as [|a l IH]; intros n c' attr' t' x.
  - cbn. now destruct (class_eqb c' c && ((attr' =? attr)%string && (t' =? t)%string)).
  - cbn [map combine fold_left fst snd]. rewrite IH, get_at_set_at, find_last.
    destruct (class_eqb c' c); [|reflexivity].
    destruct (String.eqb attr' attr); [|reflexivity].
    destruct (String.eqb t' t); [|reflexivity].
    cbn [andb].
    destruct (find (fun y => String.eqb x (name y)) (rev l)); [reflexivity|].
    now destruct (String.eqb x (name a)).
Qed.

Lemma find_names (T : Type) (name : T -> string) (l : list T) (y : T) :
  In y l -> exists z, find (fun y' => String.eqb (name y) (name y')) (rev l) = Some z.
Proof.
  intro H. destruct (find (fun y' => String.eqb (name y) (name y')) (rev l)) as [z|] eqn:E.
  - now exists z.
  - exfalso. apply in_rev in H. pose proof (find_none _ _ E y H) as F. cbn in F.
    now rewrite String.eqb_refl in F.
Qed.

Lemma in_combine_first (T U : Type) (l1 : list T) (l2 : list U) (x : T) :
  List.length l2 = List.length l1 -> In x l1 -> exists y, In (x, y) (combine l1 l2).
Proof.
  revert l2. induction l1 as [|a l1 IH]; intros [|b l2] HL Hin; try discriminate;
    [contradiction|].
  destruct Hin as [->|Hin].
  - exists b. now left.
  - destruct (IH l2) as [y Hy]; [cbn in HL; lia | exact Hin |].
    exists y. now right.
Qed.

(** The two assignments of one class of passive branches: [p1] takes minus
    the flows and [p0] the flows, so that every branch written has
    [p1 = -p0]; the per-snapshot tables of the other classes are not
    written. *)
Lemma flows_written (cls : component_class) (t : string)
  (l : list (branch_row * num)) (n m : Network) :
  abind (assign cls "p1" t (map (fun bf => br_name (fst bf)) l)
                (map (fun bf => fopp (snd bf)) l))
        (fun _ => assign cls "p0" t (map (fun bf => br_name (fst bf)) l) (map snd l)) n
  = (Ok tt, m) ->
  (forall bf, In bf l -> lossless_at m cls t (br_name (fst bf)))
  /\ forall c' attr' t' x, class_eqb c' cls = false ->
       get_at m c' attr' t' x = get_at n c' attr' t' x.
Proof.
  intro E. apply abind_inv in E. destruct E as ([] & m1 & F1 & F0).
  destruct (assign_pairs cls "p1" t (fun bf => br_name (fst bf))
              (fun bf => fopp (snd bf)) l n) as [R1 V1].
  rewrite R1 in F1. injection F1 as K1. clear R1. rewrite K1 in V1.
  destruct (assign_pairs cls "p0" t (fun bf => br_name (fst bf)) snd l m1) as [R0 V0].
  rewrite R0 in F0. injection F0 as K0. clear R0. rewrite K0 in V0.
  assert (Ecls : class_eqb cls cls = true).
  { unfold class_eqb. destruct (class_eq_dec cls cls); [reflexivity | contradiction]. }
  split.
  - intros bf Hbf. unfold lossless_at. rewrite !V0, !V1, Ecls, (String.eqb_refl t).
    destruct (find_names (fun y => br_name (fst y)) l bf Hbf) as [z Hz].
    cbn [andb String.eqb Ascii.eqb Bool.eqb]. cbv beta in Hz. rewrite Hz. reflexivity.
  - intros c' attr' t' x Hc. rewrite V0, V1, Hc. reflexivity.
Qed.
End Shapes.

Section PassiveFlows.
Context {A : Arith} {X : Externals}.

Lemma calculate_B_H_shape (sn : string) (k k' : Network) :
  calculate_B_H sn k = (Ok tt, k') ->
  frames k' = frames k
  /\ n_rows (H (sub_network_attrs k' sn)) = List.length (sn_branches k sn).
Proof.
  unfold calculate_B_H. intro E. apply abind_get_inv in E. cbv zeta in E.
  apply abind_inv in E. destruct E as (attribute & k1 & F1 & E).
  assert (K1 : k1 = k).
  { destruct (String.eqb (current_type k sn) "DC"); [now inversion F1|].
    destruct (String.eqb (current_type k sn) "AC"); [now inversion F1 | discriminate]. }
  subst k1. clear F1.
  apply abind_inv in E. destruct E as (from_bus & k1 & F1 & E).
  unfold lift in F1. inversion F1 as [[B0 K1]]. subst k1. clear F1.
  apply abind_inv in E. destruct E as (to_bus & k1 & F1 & E).
  unfold lift in F1. inversion F1 as [[B1 K1]]. subst k1. clear F1.
  apply bus_numbers_length in B0, B1. rewrite length_map in B0, B1.
  unfold modify in E. inversion E as [K]. split; [reflexivity|].
  unfold update_sub_network. cbn. rewrite String.eqb_refl. cbn [H set_B_H].
  apply n_rows_H.
  - rewrite length_app. lia.
  - rewrite length_app, !length_map. reflexivity.
Qed.

(** When [sub_network_lpf] returns, every line and every transformer of
    the sub-network has, at the snapshot of the run, [p1 = -p0]: the linear
    power flow has no losses on the passive branches. *)
Theorem sub_network_lpf_passive_branches_lossless (sn : string) (given : option string)
  (n n' : Network) :
  sub_network_lpf sn given n = (Ok tt, n') ->
  forall b, In b (sn_branches n' sn) -> is_controllable (br_class b) = false ->
    get_at n' (br_class b) "p1" (or_now given n) (br_name b)
    = fopp (get_at n' (br_class b) "p0" (or_now given n) (br_name b)).
Proof.
  intro E. set (t := or_now given n). unfold sub_network_lpf in E.
  apply abind_get_inv in E. cbv zeta in E. fold t in E.
  apply abind_inv in E. destruct E as (_ & k1 & _ & E).
  apply abind_inv in E. destruct E as ([] & k2 & _ & E).
  apply abind_get_inv in E.
  apply abind_inv in E. destruct E as ([] & k3 & F3 & E).
  apply abind_get_inv in E.
  apply (abind_inv_leaves (R := series_only)) in E; [|series_frame].
  destruct E as ([] & k4 & S4 & E).
  apply abind_get_inv in E.
  apply (abind_inv_leaves (R := series_only)) in E; [|series_frame].
  destruct E as ([] & k5 & S5 & E).
  apply abind_get_inv in E.
  apply abind_inv in E. destruct E as (v_diff & k6 & F6 & E).
  assert (S56 : series_only k5 k6) by (eapply leaves_at; [|exact F6]; series_frame).
  assert (S6' : series_only k6 n') by (eapply leaves_at; [|exact E]; series_frame).
  assert (TL : table_kept Line k6 n') by (eapply leaves_at; [|exact E]; one_table_frame).
  assert (TT : table_kept Transformer k6 n')
    by (eapply leaves_at; [|exact E]; one_table_frame).
  clear E.
  assert (S35 : series_only k3 k5) by exact (frame_trans _ _ _ S4 S5).
  assert (S3' : series_only k3 n')
    by exact (frame_trans _ _ _ S35 (frame_trans _ _ _ S56 S6')).
  assert (B' : sn_branches n' sn = sn_branches k3 sn).
  { destruct S3' as [R _]. unfold sn_branches, branches, keyed.
    destruct (R Line) as [-> _]. destruct (R Transformer) as [-> _].
    destruct (R Converter) as [-> _]. destruct (R TransportLink) as [-> _].
    reflexivity. }
  intros b Hb Hc. rewrite B' in Hb.
  destruct (nonempty (sn_branches k3 sn)) eqn:NE;
    [|destruct (sn_branches k3 sn); [contradiction | discriminate]].
  assert (HL : n_rows (H (sub_network_attrs k5 sn)) = List.length (sn_branches k3 sn)).
  { destruct S35 as [_ ->]. unfold when in F3.
    destruct (nonempty (sn_branches k2 sn)) eqn:N2.
    - apply calculate_B_H_shape in F3. destruct F3 as [Fr ->].
      unfold sn_branches, branches, keyed. now rewrite Fr.
    - unfold ret in F3. inversion F3. subst k3. congruence. }
  match type of F6 with
  | context [combine (sn_branches k3 sn) ?v] =>
      assert (HV : List.length v = List.length (sn_branches k3 sn))
        by (rewrite mat_vec_length; exact HL);
      set (flows := combine (sn_branches k3 sn) v) in F6
  end.
  destruct (in_combine_first _ _ b HV Hb) as [f Hf].
  fold flows in Hf. clear HV HL.
  apply abind_inv in F6. destruct F6 as ([] & m1 & F1 & F6).
  apply abind_inv in F6. destruct F6 as ([] & m2 & F2 & F6).
  apply abind_inv in F6. destruct F6 as ([] & m3 & F3' & F6).
  apply abind_inv in F6. destruct F6 as ([] & m4 & F4 & F6).
  unfold ret in F6. inversion F6. subst k6. clear F6.
  destruct (@flows_written A Line t (filter (of_class Line) flows) k5 m2) as [WL _].
  { unfold abind. rewrite F1. exact F2. }
  destruct (@flows_written A Transformer t (filter (of_class Transformer) flows) m2 m4)
    as [WT KT].
  { unfold abind. rewrite F3'. exact F4. }
  assert (Hclass : br_class b = Line \/ br_class b = Transformer).
  { unfold sn_branches in Hb. apply filter_In in Hb. destruct Hb as [Hb _].
    unfold branches in Hb. rewrite !in_app_iff in Hb. unfold keyed in Hb.
    rewrite !in_map_iff in Hb.
    destruct Hb as [(x & <- & _)|[(x & <- & _)|[(x & <- & _)|(x & <- & _)]]];
      cbn in Hc |- *; auto; discriminate. }
  destruct Hclass as [Hcl|Hcl]; rewrite Hcl.
  - unfold get_at. rewrite TL. fold (get_at m4 Line "p1" t (br_name b)).
    fold (get_at m4 Line "p0" t (br_name b)).
    rewrite !KT by reflexivity.
    apply (WL (b, f)). apply filter_In. split; [exact Hf|].
    unfold of_class. cbn [fst]. now rewrite Hcl.
  - unfold get_at. rewrite TT. fold (get_at m4 Transformer "p1" t (br_name b)).
    fold (get_at m4 Transformer "p0" t (br_name b)).
    apply (WT (b, f)). apply filter_In. split; [exact Hf|].
    unfold of_class. cbn [fst]. now rewrite Hcl.
Qed.
End PassiveFlows.

Lemma sub_network_lpf_passive_branches_lossless_witness :
  get_at after_lpf Line "p1" (or_now None prepared) "line12"
  = fopp (get_at after_lpf Line "p0" (or_now None prepared) "line12").
Proof.
  assert (E : @sub_network_lpf float_arith failing "0" None prepared = (Ok tt, after_lpf)).
  { unfold after_lpf, exec.
    assert (F : fst (@sub_network_lpf float_arith failing "0" None prepared) = Ok tt)
      by (vm_compute; reflexivity).
    destruct (@sub_network_lpf float_arith failing "0" None prepared) as [r m].
    cbn [fst snd] in *. now subst r. }
  apply (@sub_network_lpf_passive_branches_lossless float_arith failing "0" None prepared
           after_lpf E
           (Line, "line12",
            match assoc "line12" (rows (frames after_lpf Line)) with
            | Some r => r
            | None => []
            end)).
  - vm_compute. right. left. reflexivity.
  - reflexivity.
Defined.

(** ** Dispatch types the optimisation does not know *)

Section Dispatch.
Context {A : Arith} {X : Externals}.

(** A rule that raises on a member of the index set stops the construction
    at the first member on which it raises. *)
Lemma each_raises (K T : Type) (key : K -> list string) (rule : K -> result T)
  (ks : list K) :
  (exists k, In k ks /\ exists e, rule k = Raise e) ->
  exists k e, In k ks /\ rule k = Raise e /\ each key rule ks = Raise e.
Proof.
  induction ks as [|k ks IH]; intros (k0 & Hin & e0 & Hk0); [contradiction|].
  cbn [each]. destruct (rule k) as [x|e'] eqn:Ek.
  - destruct Hin as [->|Hin]; [congruence|].
    destruct IH as (k1 & e1 & H1 & H2 & H3); [now exists k0; split; [|exists e0]|].
    exists k1, e1. split; [now right|]. split; [exact H2|].
    cbn. now rewrite H3.
  - exists k, e'. split; [now left|]. split; [exact Ek | reflexivity].
Qed.

End Dispatch.



(** ** The non-linear power flow and DC sub-networks *)

Section CurrentType.
Context {A : Arith}.

(** Every sub-network has the current type it had. *)
Definition type_kept (n n' : Network) : Prop :=
  forall sn, current_type n' sn = current_type n sn.

#[export] Instance type_kept_frame : Frame type_kept.
Proof.
  split; unfold type_kept.
  - reflexivity.
  - intros x y z H1 H2 sn. now rewrite H2, H1.
Qed.

Lemma type_kept_table (n n' : Network) :
  table_kept SubNetwork n n' -> type_kept n n'.
Proof.
  unfold table_kept, type_kept, current_type, get_attr. intro H. now rewrite H.
Qed.

Lemma type_kept_set_attr (c : component_class) (name col : string) (v : pyval)
  (n : Network) :
  String.eqb "current_type" col = false -> type_kept n (set_attr c name col v n).
Proof.
  intros Hcol. destruct (class_eq_dec c SubNetwork) as [->|Hc].
  - unfold type_kept, current_type, get_attr, set_attr.
    rewrite frames_set_frame_same. intro sn. rewrite cell_set_loc.
    now rewrite Hcol, andb_false_r.
  - apply type_kept_table. apply table_kept_set_attr. congruence.
Qed.

Lemma type_kept_rows (n n' : Network) : rows_kept n n' -> type_kept n n'.
Proof.
  intros H sn. unfold current_type, get_attr, cell. now rewrite (H SubNetwork).
Qed.

Lemma type_kept_set_at (c : component_class) (attr t name : string) (v : num)
  (n : Network) : type_kept n (set_at c attr t name v n).
Proof. apply type_kept_rows, rows_kept_set_at. Qed.

Lemma type_kept_decrease (c : component_class) (attr t name : string) (v : num)
  (n : Network) : type_kept n (decrease c attr t name v n).
Proof. apply type_kept_set_at. Qed.

Lemma type_kept_increase (c : component_class) (attr t name : string) (v : num)
  (n : Network) : type_kept n (increase c attr t name v n).
Proof. apply type_kept_set_at. Qed.

Lemma type_kept_update_sub_network (name : string) f (n : Network) :
  type_kept n (update_sub_network name f n).
Proof. intro sn. reflexivity. Qed.

Lemma type_kept_calculate_dependent_values (n : Network) :
  type_kept n (calculate_dependent_values n).
Proof.
  apply type_kept_table. apply table_kept_calculate_dependent_values; discriminate.
Qed.

Lemma type_kept_follow_p_set (c : component_class) (t : string) (n : Network) :
  c <> SubNetwork -> type_kept n (follow_p_set c t n).
Proof.
  intro H. apply type_kept_table. unfold follow_p_set. cbv zeta.
  eapply frame_trans; apply table_kept_set_frame; congruence.
Qed.

(** A loop does not return when one of its elements makes the body raise
    in every state that an invariant of the body allows. *)
Lemma for_raises (T : Type) (I : Network -> Prop) (body : T -> action unit) (x : T)
  (xs : list T) :
  In x xs ->
  (forall y m, I m -> I (snd (body y m))) ->
  (forall m, I m -> exists e, fst (body x m) = Raise e) ->
  forall n, I n -> exists e, fst (for_ xs body n) = Raise e.
Proof.
  intros Hin HI Hx. induction xs as [|y xs IH]; intros n Hn; [contradiction|].
  cbn [for_]. unfold abind.
  destruct (body y n) as [[[]|e] n1] eqn:E; [|now exists e].
  destruct Hin as [->|Hin].
  - destruct (Hx n Hn) as [e He]. rewrite E in He. discriminate.
  - apply IH; [exact Hin|]. specialize (HI y n Hn). now rewrite E in HI.
Qed.
End CurrentType.

Ltac type_leaf :=
  lazymatch goal with
  | |- type_kept _ (update_sub_network _ _ _) => apply type_kept_update_sub_network
  | |- type_kept _ (set_at _ _ _ _ _ _) => apply type_kept_set_at
  | |- type_kept _ (set_attr _ _ _ _ _) => apply type_kept_set_attr; reflexivity
  | |- type_kept _ (decrease _ _ _ _ _ _) => apply type_kept_decrease
  | |- type_kept _ (increase _ _ _ _ _ _) => apply type_kept_increase
  | |- type_kept _ (calculate_dependent_values _) =>
      apply type_kept_calculate_dependent_values
  end.

Ltac type_frame :=
  repeat first
    [ frame_step
    | progress unfold assign, dispatch_as_set, withdraw_controllable
    | type_leaf ].

Section RefusesDC.
Context {A : Arith} {X : Externals} {C : ComplexOps A}.

Lemma type_kept_write_guess (sn t : string) (guess : list num) (n : Network) :
  type_kept n (write_guess sn t guess n).
Proof.
  unfold write_guess, exec. cbv zeta. generalize (sub_network_attrs n sn). intro a0.
  match goal with
  | |- type_kept n (snd (?a n)) => apply (fun (L : leaves type_kept a) => L n)
  end.
  type_frame.
Qed.

Lemma type_kept_sub_network_pf (sn : string) (given : option string) :
  leaves type_kept (sub_network_pf sn given).
Proof.
  unfold sub_network_pf.
  repeat first
    [ lazymatch goal with
      | |- leaves _ (find_bus_controls _) =>
          unfold find_bus_controls, find_slack_bus; type_frame
      | |- leaves _ (calculate_Y _) => unfold calculate_Y; type_frame
      | |- type_kept _ (write_guess _ _ _ _) => apply type_kept_write_guess
      end
    | progress type_frame ].
Qed.

(** With the topology determined, [network_pf] does not return when one of
    the sub-networks is a DC one: it raises, at that sub-network at the
    latest. *)
Theorem network_pf_refuses_dc (given : option string) (n : Network) (sn : string) :
  topology_determined n = true ->
  In sn (index (frames n SubNetwork)) ->
  current_type n sn = "DC" ->
  exists e, fst (network_pf given n) = Raise e.
Proof.
  intros HT Hin HDC. unfold network_pf, abind at 1.
  destruct (prepare given n) as [[t|e] k] eqn:P; [|now exists e].
  assert (K : table_kept SubNetwork n k).
  { unfold prepare in P. apply abind_get_inv in P. rewrite HT in P.
    cbn [negb when] in P. apply abind_inv in P. destruct P as ([] & k0 & F0 & P).
    unfold ret in F0. inversion F0. subst k0. clear F0.
    eapply leaves_at; [|exact P].
    repeat first
      [ frame_step
      | lazymatch goal with
        | |- table_kept _ _ (calculate_dependent_values _) =>
            apply table_kept_calculate_dependent_values; discriminate
        | |- table_kept _ _ (follow_p_set _ _ _) =>
            unfold follow_p_set; cbv zeta;
            eapply frame_trans; apply table_kept_set_frame; discriminate
        end ]. }
  unfold abind at 1, get at 1. rewrite K. unfold for_objs.
  assert (O : In (Some sn) (objs (frames n SubNetwork))
              \/ In None (objs (frames n SubNetwork))).
  { unfold objs, index in *. apply in_map_iff in Hin. destruct Hin as (nr & E & Hnr).
    destruct (holds_obj (snd nr)) eqn:HO.
    - left. apply in_map_iff. exists nr. rewrite HO, E. now split.
    - right. apply in_map_iff. exists nr. rewrite HO. now split. }
  destruct O as [O|O].
  - apply (@for_raises A (option string) (fun m => current_type m sn = "DC") _ (Some sn)).
    + exact O.
    + intros [y|] m Hm; [|exact Hm]. unfold abind at 1, get at 1.
      destruct (String.eqb (current_type m y) "DC"); [exact Hm|].
      rewrite <- Hm. apply (type_kept_sub_network_pf y (Some t) m).
    + intros m Hm. unfold abind at 1, get at 1. rewrite Hm. cbn.
      eexists. reflexivity.
    + apply type_kept_table in K. now rewrite (K sn).
  - apply (@for_raises A (option string) (fun _ => True) _ None).
    + exact O.
    + trivial.
    + intros m _. eexists. reflexivity.
    + exact I.
Qed.
End RefusesDC.

(** The example network with its last bus, which only the converter
    reaches, made a DC bus: a DC sub-network of its own. *)
Definition dc_island : @Network R_arith :=
  exec (modify build_graph ;;; @determine_network_topology R_arith exact)
       (set_attr Bus "bus4" "current_type" (VStr "DC") (@example_network R_arith exact)).

Lemma network_pf_refuses_dc_witness :
  exists e, fst (@network_pf R_arith exact R_complex None dc_island) = Raise e.
Proof.
  apply (@network_pf_refuses_dc R_arith exact R_complex None dc_island "1").
  - vm_compute. reflexivity.
  - vm_compute. right. left. reflexivity.
  - vm_compute. reflexivity.
Defined.

(** ** What a call can raise *)

Section Outcomes.
Context {A : Arith}.


Variable P : exn -> Prop.









End Outcomes.




(** ** The non-linear power flow of a sub-network without branches *)

Section BranchSide.
Context {A : Arith}.

Definition is_branch (c : component_class) : bool :=
  match c with
  | Line | Transformer | Converter | TransportLink => true
  | _ => false
  end.

(** The branch tables and the admittance matrices of the sub-networks are
    the same in both networks. *)
Definition branch_side (n n' : Network) : Prop :=
  (forall c, is_branch c = true -> frames n' c = frames n c)
  /\ forall s, Y (sub_network_attrs n' s) = Y (sub_network_attrs n s).

#[export] Instance branch_side_frame : Frame branch_side.
Proof.
  split; unfold branch_side.
  - intro n. split; reflexivity.
  - intros x y z [F1 Y1] [F2 Y2]. split.
    + intros c Hc. now rewrite (F2 c Hc), (F1 c Hc).
    + intro s. now rewrite Y2, Y1.
Qed.









End BranchSide.


Section NeedsBranches.
Context {A : Arith} {X : Externals} {C : ComplexOps A}.



End NeedsBranches.



(** ** The components of the model that [network_lopf] builds *)

Section ModelNames.
Context {A : Arith}.

(** The model differs at most in the components named in [S]. *)
Definition only_declares (S : list string) (n n' : Network) : Prop :=
  forall k, mem k S = false -> assoc k (model n') = assoc k (model n).

#[export] Instance only_declares_frame (S : list string) : Frame (only_declares S).
Proof.
  split; unfold only_declares.
  - reflexivity.
  - intros x y z H1 H2 k Hk. now rewrite (H2 k Hk), (H1 k Hk).
Qed.

(** The model is the same in both networks. *)
Definition model_kept (n n' : Network) : Prop := model n' = model n.

#[export] Instance model_kept_frame : Frame model_kept.
Proof. split; unfold model_kept; [reflexivity | congruence]. Qed.

Lemma only_declares_same (S : list string) (n n' : Network) :
  model n' = model n -> only_declares S n n'.
Proof. intros H k _. now rewrite H. Qed.

Lemma only_declares_declare (S : list string) (name : string) (c : component) :
  mem name S = true -> leaves (only_declares S) (declare name c).
Proof.
  intros H n k Hk. unfold declare, modify. cbn.
  apply assoc_set_other. intros ->. congruence.
Qed.

Lemma only_declares_Var (S : list string) (K : Type) (name : string)
  (key : K -> list string) (ks : list K) (d : domain) rule :
  mem name S = true -> leaves (only_declares S) (Var name key ks d rule).
Proof.
  intro H. unfold Var. repeat first [frame_step | now apply only_declares_declare].
Qed.

Lemma only_declares_Constraint (S : list string) (K : Type) (name : string)
  (key : K -> list string) (ks : list K) rule :
  mem name S = true -> leaves (only_declares S) (Constraint name key ks rule).
Proof.
  intro H. unfold Constraint. repeat first [frame_step | now apply only_declares_declare].
Qed.

Lemma only_declares_Expression (S : list string) (K : Type) (name : string)
  (key : K -> list string) (ks : list K) rule :
  mem name S = true -> leaves (only_declares S) (Expression name key ks rule).
Proof.
  intro H. unfold Expression. repeat first [frame_step | now apply only_declares_declare].
Qed.

Lemma assoc_assoc_set (V : Type) (k k' : string) (v : V) (l : list (string * V)) :
  assoc k (assoc_set k' v l) = if String.eqb k k' then Some v else assoc k l.
Proof.
  destruct (String.eqb k k') eqn:E.
  - apply String.eqb_eq in E. subst. apply assoc_set_same.
  - apply String.eqb_neq in E. now apply assoc_set_other.
Qed.

Lemma Var_inv (K : Type) (name : string) (key : K -> list string) (ks : list K)
  (d : domain) rule (n n' : Network) :
  Var name key ks d rule n = (Ok tt, n') ->
  exists xs, model n' = assoc_set name (VarC d xs) (model n).
Proof.
  unfold Var, abind, get, lift, declare, modify.
  destruct (each key (rule n) ks) as [xs|e]; [|discriminate].
  intro H. inversion H. now exists xs.
Qed.

Lemma Constraint_inv (K : Type) (name : string) (key : K -> list string) (ks : list K)
  rule (n n' : Network) :
  Constraint name key ks rule n = (Ok tt, n') ->
  exists xs, model n' = assoc_set name (ConstraintC xs) (model n).
Proof.
  unfold Constraint, abind, get, lift, declare, modify.
  destruct (each key (rule n) ks) as [xs|e]; [|discriminate].
  intro H. inversion H. now exists xs.
Qed.

Lemma Expression_inv (K : Type) (name : string) (key : K -> list string) (ks : list K)
  rule (n n' : Network) :
  Expression name key ks rule n = (Ok tt, n') ->
  exists xs, model n' = assoc_set name (ExpressionC xs) (model n).
Proof.
  unfold Expression, abind, get, lift, declare, modify.
  destruct (each key (rule n) ks) as [xs|e]; [|discriminate].
  intro H. inversion H. now exists xs.
Qed.

Lemma lopf_formulation_is_inv (name : string) (n n' : Network) (b : bool) (v : pyval) :
  assoc "lopf_formulation" (instance_attributes n) = Some v ->
  lopf_formulation_is name n = (Ok b, n') -> n' = n /\ b = pyval_eqb v (VStr name).
Proof.
  intros H E. unfold lopf_formulation_is, abind, get, lift, getattr, ret in E.
  rewrite H in E. inversion E. now split.
Qed.
End ModelNames.

(** The components that both formulations declare. *)
Definition common_components : list string :=
  ["generator_p"; "generator_p_nom"; "generator_p_lower"; "generator_p_upper";
   "storage_p_dispatch"; "storage_p_store"; "storage_p_nom"; "storage_p_upper";
   "storage_p_lower"; "state_of_charge"; "state_of_charge_upper";
   "state_of_charge_constraint"; "state_of_charge_constraint_fixed";
   "branch_s_nom"; "controllable_branch_p"; "controllable_branch_p_upper";
   "controllable_branch_p_lower"; "power_balance"; "flow_upper"; "flow_lower";
   "co2_constraint"; "objective"; "dual"].

Ltac names_leaf :=
  lazymatch goal with
  | |- leaves _ (Var _ _ _ _ _) => apply only_declares_Var; reflexivity
  | |- leaves _ (Constraint _ _ _ _) => apply only_declares_Constraint; reflexivity
  | |- leaves _ (Expression _ _ _ _) => apply only_declares_Expression; reflexivity
  | |- leaves _ (declare _ _) => apply only_declares_declare; reflexivity
  | |- leaves (only_declares _) (extract_optimisation_results _ _) =>
      unfold extract_optimisation_results
  | |- only_declares _ _ _ => apply only_declares_same; reflexivity
  end.

Ltac model_frame :=
  repeat first
    [ frame_step
    | progress unfold assign
    | lazymatch goal with
      | |- model_kept _ _ => reflexivity
      end ].

Ltac names_frame :=
  repeat first
    [ names_leaf
    | frame_step
    | progress unfold assign, lopf_formulation_is ].

Ltac names_defines :=
  unfold define_generator_variables_constraints, define_storage_variables_constraints,
    define_branch_extension_variables, define_controllable_branch_flows,
    define_nodal_balances, define_passive_branch_constraints;
  names_frame.

(** One definition that declares common components only. *)
Ltac common_step E prev m Hq Hn :=
  let F := fresh "F" in
  apply abind_inv in E; destruct E as ([] & m & F & E);
  assert (Hq : quiet prev m) by (eapply leaves_at; [|exact F]; quiet_frame);
  assert (Hn : only_declares common_components prev m)
    by (eapply leaves_at; [|exact F]; names_defines);
  clear F.

(** One read of [network.lopf_formulation]. *)
Ltac reads E HF :=
  let b := fresh "b" in let m := fresh "m" in let F := fresh "F" in
  let K := fresh "K" in let B := fresh "B" in
  apply abind_inv in E; destruct E as (b & m & F & E);
  destruct (@lopf_formulation_is_inv _ _ _ _ _ _ HF F) as [K B];
  subst m b; clear F.

Section Formulations.
Context {A : Arith} {X : Externals}.

Lemma define_passive_branch_flows_inv (s : sequence) (m m' : Network) :
  define_passive_branch_flows s m = (Ok tt, m') ->
  exists xs ys zs,
    model m' = assoc_set "flow" (ExpressionC zs)
                 (assoc_set "slack_angle" (ConstraintC ys)
                    (assoc_set "voltage_angles" (VarC Reals xs) (model m))).
Proof.
  unfold define_passive_branch_flows. intro E. apply abind_get_inv in E.
  apply abind_inv in E. destruct E as ([] & m1 & F1 & E).
  apply abind_inv in E. destruct E as ([] & m2 & F2 & E).
  apply Var_inv in F1. destruct F1 as [xs F1].
  apply Constraint_inv in F2. destruct F2 as [ys F2].
  apply Expression_inv in E. destruct E as [zs E].
  exists xs, ys, zs. now rewrite E, F2, F1.
Qed.

Lemma define_passive_branch_flows_with_PTDF_inv (s : sequence) (m m' : Network) :
  define_passive_branch_flows_with_PTDF s m = (Ok tt, m') ->
  exists zs, model m' = assoc_set "flow" (ExpressionC zs) (model m).
Proof.
  unfold define_passive_branch_flows_with_PTDF. intro E. apply abind_get_inv in E.
  apply (abind_inv_leaves (R := model_kept)) in E.
  - destruct E as ([] & m1 & K & E). apply abind_get_inv in E.
    apply Expression_inv in E. destruct E as [zs E]. exists zs. now rewrite E, K.
  - unfold find_bus_controls, find_slack_bus, calculate_B_H, calculate_PTDF.
    model_frame.
Qed.

Lemma only_declares_extract_optimisation_results (S : list string) (r : SolverResults)
  (s : sequence) : leaves (only_declares S) (extract_optimisation_results r s).
Proof. unfold extract_optimisation_results. names_frame. Qed.

(** What [network_lopf] puts into the model is decided by the attribute
    [lopf_formulation] that the caller has set on the network.  When the
    call returns and the attribute is "angles", the model holds the
    variable [voltage_angles], the constraint [slack_angle], the expression
    [flow] and the constraint [power_balance_constraint], and no
    [sub_network_balance_constraint]; when it is "ptdf", the model holds
    the expression [flow] and the constraint
    [sub_network_balance_constraint], and none of [voltage_angles],
    [slack_angle] and [power_balance_constraint]. *)
Theorem network_lopf_formulations (snapshots : option sequence) (solver_name : string)
  (n n' : Network) (formulation : string) :
  network_lopf snapshots solver_name n = (Ok tt, n') ->
  assoc "lopf_formulation" (instance_attributes n) = Some (VStr formulation) ->
  (formulation = "angles" ->
     (exists xs, assoc "voltage_angles" (model n') = Some (VarC Reals xs))
     /\ (exists xs, assoc "slack_angle" (model n') = Some (ConstraintC xs))
     /\ (exists xs, assoc "flow" (model n') = Some (ExpressionC xs))
     /\ (exists xs, assoc "power_balance_constraint" (model n') = Some (ConstraintC xs))
     /\ assoc "sub_network_balance_constraint" (model n') = None)
  /\ (formulation = "ptdf" ->
        (exists xs, assoc "flow" (model n') = Some (ExpressionC xs))
        /\ (exists xs, assoc "sub_network_balance_constraint" (model n')
                       = Some (ConstraintC xs))
        /\ assoc "voltage_angles" (model n') = None
        /\ assoc "slack_angle" (model n') = None
        /\ assoc "power_balance_constraint" (model n') = None).
Proof.
  intros E HF. unfold network_lopf in E.
  apply abind_get_inv in E.
  apply (abind_inv_leaves (R := quiet)) in E; [|quiet_frame].
  destruct E as ([] & m1 & Q1 & E). apply abind_get_inv in E.
  apply (abind_inv_leaves (R := quiet)) in E; [|quiet_frame].
  destruct E as ([] & m2 & Q2 & E). apply abind_get_inv in E. cbv zeta in E.
  apply (abind_inv_leaves (R := quiet)) in E; [|quiet_frame].
  destruct E as ([] & m3 & Q3 & E).
  apply abind_inv in E. destruct E as ([] & m4 & F4 & E).
  unfold modify in F4. inversion F4 as [K4]. clear F4.
  assert (Q4 : quiet n m4).
  { subst m4. exact (frame_trans _ _ _ Q1 (frame_trans _ _ _ Q2
                       (frame_trans _ _ _ Q3 (quiet_set_model [] m3)))). }
  assert (M4 : model m4 = []) by now subst m4.
  clear Q1 Q2 Q3 K4.
  match type of E with
  | context [define_nodal_balances ?s] => set (S := s) in *
  end.
  common_step E m4 a1 QA1 NA1. common_step E a1 a2 QA2 NA2.
  common_step E a2 a3 QA3 NA3. common_step E a3 a4 QA4 NA4.
  common_step E a4 a5 QA5 NA5.
  assert (Q5 : quiet n a5).
  { exact (frame_trans _ _ _ Q4 (frame_trans _ _ _ QA1 (frame_trans _ _ _ QA2
             (frame_trans _ _ _ QA3 (frame_trans _ _ _ QA4 QA5))))). }
  assert (N5 : only_declares common_components m4 a5).
  { exact (frame_trans _ _ _ NA1 (frame_trans _ _ _ NA2
             (frame_trans _ _ _ NA3 (frame_trans _ _ _ NA4 NA5)))). }
  clear QA1 NA1 QA2 NA2 QA3 NA3 QA4 NA4 QA5 NA5 Q4.
  assert (Z5 : forall k, mem k common_components = false -> assoc k (model a5) = None).
  { intros k Hk. rewrite (N5 k Hk), M4. reflexivity. }
  clear N5 M4.
  rewrite <- (quiet_instance_attributes Q5) in HF.
  split; intro Hf; subst formulation.
  - (* angles *)
    reads E HF. cbn [pyval_eqb String.eqb Ascii.eqb Bool.eqb when] in E.
    apply abind_inv in E. destruct E as ([] & b1 & F1 & E).
    assert (Q1 : quiet a5 b1)
      by (eapply leaves_at; [|exact F1]; apply quiet_define_passive_branch_flows).
    apply define_passive_branch_flows_inv in F1. destruct F1 as (xs & ys & zs & M1).
    rewrite <- (quiet_instance_attributes Q1) in HF.
    common_step E b1 b2 Q2 N2.
    rewrite <- (quiet_instance_attributes Q2) in HF.
    reads E HF. cbn [pyval_eqb String.eqb Ascii.eqb Bool.eqb when] in E.
    apply abind_inv in E. destruct E as ([] & b3 & F3 & E).
    assert (Q3 : quiet b2 b3)
      by (eapply leaves_at; [|exact F3]; apply quiet_define_nodal_balance_constraints).
    unfold define_nodal_balance_constraints in F3. apply abind_get_inv in F3.
    apply abind_inv in F3. destruct F3 as (inflows & b2' & L3 & F3).
    unfold lift in L3. injection L3 as _ K3. subst b2'.
    apply Constraint_inv in F3. destruct F3 as [ws M3].
    rewrite <- (quiet_instance_attributes Q3) in HF.
    reads E HF. cbn [pyval_eqb String.eqb Ascii.eqb Bool.eqb when] in E.
    apply abind_inv in E. destruct E as ([] & b4 & F4 & E).
    unfold ret in F4. injection F4 as K4. subst b4.
    assert (N' : only_declares common_components b3 n').
    { eapply leaves_at; [|exact E].
      unfold define_co2_constraint, define_linear_objective. names_frame. }
    assert (V : forall k, mem k common_components = false ->
                  assoc k (model n')
                  = assoc k (assoc_set "power_balance_constraint" (ConstraintC ws)
                               (assoc_set "flow" (ExpressionC zs)
                                  (assoc_set "slack_angle" (ConstraintC ys)
                                     (assoc_set "voltage_angles" (VarC Reals xs) []))))).
    { intros k Hk. rewrite (N' k Hk), M3, assoc_assoc_set.
      rewrite (N2 k Hk), M1, !assoc_assoc_set, (Z5 k Hk). cbn [assoc].
      rewrite ?assoc_assoc_set. reflexivity. }
    repeat split.
    + exists xs. now rewrite V.
    + exists ys. now rewrite V.
    + exists zs. now rewrite V.
    + exists ws. now rewrite V.
    + now rewrite V.
  - (* ptdf *)
    reads E HF. cbn [pyval_eqb String.eqb Ascii.eqb Bool.eqb when] in E.
    apply abind_inv in E. destruct E as ([] & b1 & F1 & E).
    reads F1 HF. cbn [pyval_eqb String.eqb Ascii.eqb Bool.eqb when] in F1.
    assert (Q1 : quiet a5 b1)
      by (eapply leaves_at; [|exact F1];
          apply quiet_define_passive_branch_flows_with_PTDF).
    apply define_passive_branch_flows_with_PTDF_inv in F1. destruct F1 as (zs & M1).
    rewrite <- (quiet_instance_attributes Q1) in HF.
    common_step E b1 b2 Q2 N2.
    rewrite <- (quiet_instance_attributes Q2) in HF.
    reads E HF. cbn [pyval_eqb String.eqb Ascii.eqb Bool.eqb when] in E.
    apply abind_inv in E. destruct E as ([] & b3 & F3 & E).
    unfold ret in F3. injection F3 as K3. subst b3.
    reads E HF. cbn [pyval_eqb String.eqb Ascii.eqb Bool.eqb when] in E.
    apply abind_inv in E. destruct E as ([] & b4 & F4 & E).
    unfold define_sub_network_balance_constraints in F4. apply abind_get_inv in F4.
    apply Constraint_inv in F4. destruct F4 as [ws M4].
    assert (N' : only_declares common_components b4 n').
    { eapply leaves_at; [|exact E].
      unfold define_co2_constraint, define_linear_objective. names_frame. }
    assert (V : forall k, mem k common_components = false ->
                  assoc k (model n')
                  = assoc k (assoc_set "sub_network_balance_constraint" (ConstraintC ws)
                               (assoc_set "flow" (ExpressionC zs) []))).
    { intros k Hk. rewrite (N' k Hk), M4, assoc_assoc_set.
      rewrite (N2 k Hk), M1, !assoc_assoc_set, (Z5 k Hk). cbn [assoc].
      rewrite ?assoc_assoc_set. reflexivity. }
    repeat split.
    + exists zs. now rewrite V.
    + exists ws. now rewrite V.
    + now rewrite V.
    + now rewrite V.
    + now rewrite V.
Qed.
End Formulations.

Lemma network_lopf_formulations_witness :
  (exists xs,
     assoc "voltage_angles"
       (model (exec (@network_lopf float_arith solving None "glpk") with_angles))
     = Some (VarC Reals xs))
  /\ assoc "sub_network_balance_constraint"
       (model (exec (@network_lopf float_arith solving None "glpk") with_angles))
     = None.
Proof.
  assert (E : @network_lopf float_arith solving None "glpk" with_angles
              = (Ok tt, exec (@network_lopf float_arith solving None "glpk") with_angles)).
  { unfold exec.
    assert (F : fst (@network_lopf float_arith solving None "glpk" with_angles) = Ok tt)
      by (vm_compute; reflexivity).
    destruct (@network_lopf float_arith solving None "glpk" with_angles) as [r m].
    cbn [fst snd] in *. now subst r. }
  destruct (@network_lopf_formulations float_arith solving None "glpk" with_angles _
              "angles" E) as [H _].
  { vm_compute. reflexivity. }
  destruct (H eq_refl) as (V & _ & _ & _ & N).
  split; [exact V | exact N].
Defined.

(** ** What the extraction of the results writes *)

Section Written.
Context {A : Arith}.
Variable r : SolverResults.
Variable n : Network.

(** The dispatch that the extraction gives to the entry [(attr, t, name)]
    of a class: the values of the solved model for generators and storage
    units, the set-point of the network [n] for loads. *)
Definition target (c : component_class) (attr t name : string) : option num :=
  match c with
  | Generator =>
      if String.eqb attr "p" then Some (value r "generator_p" [name; t]) else None
  | StorageUnit =>
      if String.eqb attr "p"
      then Some (fsub (value r "storage_p_dispatch" [name; t])
                      (value r "storage_p_store" [name; t]))
      else if String.eqb attr "state_of_charge"
           then Some (value r "state_of_charge" [name; t])
           else None
  | Load => if String.eqb attr "p" then Some (get_at n Load "p_set" t name) else None
  | _ => None
  end.

Definition p_set_kept (m : Network) : Prop :=
  forall t l, get_at m Load "p_set" t l = get_at n Load "p_set" t l.

Definition written (t : string) (c : component_class) (attr name : string)
  (m : Network) : Prop :=
  forall v, target c attr t name = Some v -> get_at m c attr t name = v.

(** The set-points of the loads stay, and what is written stays written. *)
Definition steady (m m' : Network) : Prop :=
  p_set_kept m ->
  p_set_kept m'
  /\ forall t c attr name, written t c attr name m -> written t c attr name m'.

#[export] Instance objective_frame :
  Frame (fun k k' : Network => objective k' = objective k).
Proof. split; [reflexivity | congruence]. Qed.

#[export] Instance steady_frame : Frame steady.
Proof.
  split; unfold steady.
  - intros m H. split; [exact H | auto].
  - intros x y z H1 H2 Hx. destruct (H1 Hx) as [Hy W1].
    destruct (H2 Hy) as [Hz W2]. split; [exact Hz|].
    intros t c attr name W. apply W2. now apply W1.
Qed.

Lemma class_eqb_eq (c c' : component_class) : class_eqb c c' = true -> c = c'.
Proof.
  unfold class_eqb. destruct (class_eq_dec c c'); [trivial | discriminate].
Qed.

Lemma steady_set_at (c : component_class) (attr y name : string) (w : num)
  (m : Network) :
  (p_set_kept m -> forall v, target c attr y name = Some v -> v = w) ->
  String.eqb attr "p_set" = false ->
  steady m (set_at c attr y name w m).
Proof.
  intros Hc Ha Hm. split.
  - intros t l. rewrite get_at_set_at. rewrite (String.eqb_sym "p_set"), Ha.
    cbn [andb]. rewrite andb_false_r. apply Hm.
  - intros t c' attr' name' W v Hv. rewrite get_at_set_at.
    destruct (class_eqb c' c && (String.eqb attr' attr && String.eqb t y
                                 && String.eqb name' name)) eqn:E.
    + apply andb_prop in E. destruct E as [E1 E].
      apply andb_prop in E. destruct E as [E E4].
      apply andb_prop in E. destruct E as [E2 E3].
      apply class_eqb_eq in E1. apply String.eqb_eq in E2, E3, E4. subst.
      symmetry. now apply Hc.
    + now apply W.
Qed.

Lemma steady_series (m m' : Network) :
  (forall c, series (frames m' c) = series (frames m c)) -> steady m m'.
Proof.
  intros H Hm. split.
  - intros t l. unfold get_at. rewrite H. apply Hm.
  - intros t c attr name W v Hv. unfold get_at. rewrite H. now apply W.
Qed.

Lemma steady_set_attr (c : component_class) (name col : string) (v : pyval)
  (m : Network) : steady m (set_attr c name col v m).
Proof.
  apply steady_series. intro k. unfold set_attr, set_frame. simpl.
  destruct (class_eqb k c) eqn:E; [|reflexivity].
  apply class_eqb_eq in E. now subst.
Qed.

Lemma steady_load_write (y l : string) :
  leaves steady
    (abind get (fun network =>
       modify (set_at Load "p" y l (get_at network Load "p_set" y l)))).
Proof.
  apply leaves_get_bind. intro m. cbn.
  apply steady_set_at; [|reflexivity].
  intros Hm v Hv. cbn in Hv. inversion Hv. symmetry. apply Hm.
Qed.
End Written.

Ltac consistent :=
  let v := fresh "v" in let Hv := fresh "Hv" in
  intros _ v Hv; unfold target in Hv;
  repeat match type of Hv with
    | context [match ?c with Bus => _ | _ => _ end] => destruct c
    end;
  cbn in Hv;
  first [ discriminate Hv | injection Hv as <-; reflexivity ].

Ltac steady_leaf r n :=
  lazymatch goal with
  | |- leaves _ (abind get (fun network =>
         modify (set_at Load "p" _ _ (get_at network Load "p_set" _ _)))) =>
      apply steady_load_write
  | |- steady _ _ _ (set_at _ _ _ _ _ _) =>
      apply steady_set_at; [consistent | reflexivity]
  | |- steady _ _ _ (decrease _ _ _ _ _ _) =>
      unfold decrease; apply steady_set_at; [consistent | reflexivity]
  | |- steady _ _ _ (set_attr _ _ _ _ _) => apply steady_set_attr
  | |- steady _ _ _ (set_objective _ _) =>
      apply steady_series; intro; reflexivity
  end.

Ltac steady_frame r n :=
  repeat first
    [ steady_leaf r n
    | frame_step
    | progress unfold assign, lopf_formulation_is ].

Section WrittenCalls.
Context {A : Arith} {X : Externals}.

Lemma objective_extract_optimisation_results (r : SolverResults) (s : sequence)
  (n n' : Network) (res : result unit) :
  extract_optimisation_results r s n = (res, n') ->
  objective n' = Some (lower_bound r).
Proof.
  unfold extract_optimisation_results. intro E.
  unfold abind at 1, modify at 1 in E.
  match type of E with
  | ?a ?m = _ =>
      assert (L : leaves (fun k k' => objective k' = objective k) a)
  end.
  { repeat first
      [ frame_step
      | progress unfold assign, lopf_formulation_is
      | lazymatch goal with
        | |- objective _ = objective _ => reflexivity
        end ]. }
  pose proof (@leaves_at _ _ _ _ _ _ _ L E) as K. exact K.
Qed.

Lemma steady_extract_optimisation_results (r : SolverResults) (n : Network)
  (s : sequence) : leaves (steady r n) (extract_optimisation_results r s).
Proof. unfold extract_optimisation_results. steady_frame r n. Qed.

(** A loop over the objects of one class whose body writes the entries of
    its object. *)
Lemma loop_writes (r : SolverResults) (n : Network) (c : component_class) (x : string)
  (xs : list string) (body : string -> action unit) (m m' : Network) :
  (forall y, leaves (steady r n) (body y)) ->
  (forall y k k', p_set_kept n k -> body y k = (Ok tt, k') ->
     forall attr, written r n x c attr y k') ->
  p_set_kept n m -> for_ xs body m = (Ok tt, m') ->
  p_set_kept n m' /\ forall y, In y xs -> forall attr, written r n x c attr y m'.
Proof.
  intros HS HW Hm E.
  destruct (@for_establishes A string (fun k => p_set_kept n k)
              (fun y k => p_set_kept n k /\ forall attr, written r n x c attr y k)
              xs body)
    with (n := m) (n' := m') as [I' W'].
  - intros y k _ Hk. exact (proj1 (HS y k Hk)).
  - intros y1 y2 k _ _ [Hk W]. destruct (HS y2 k Hk) as [Hk' K].
    split; [exact Hk'|]. intro attr. apply K, W.
  - intros y k k' _ Hk Hb. split.
    + pose proof (HS y k Hk) as K. rewrite Hb in K. exact (proj1 K).
    + now apply (HW y k k').
  - exact Hm.
  - exact E.
  - split; [exact I'|]. intros y Hy. exact (proj2 (W' y Hy)).
Qed.

Lemma written_set_at (r : SolverResults) (n : Network) (c : component_class)
  (attr t name : string) (w : num) (m : Network) :
  target r n c attr t name = Some w ->
  written r n t c attr name (set_at c attr t name w m).
Proof.
  intros H v Hv. rewrite get_at_set_at, class_eqb_refl, !String.eqb_refl.
  cbn [andb]. congruence.
Qed.

Lemma written_none (r : SolverResults) (n : Network) (c : component_class)
  (attr t name : string) (m : Network) :
  target r n c attr t name = None -> written r n t c attr name m.
Proof. intros H v Hv. congruence. Qed.

(** When [extract_optimisation_results] returns, the objective of the
    network is the lower bound that the solver reports, and at every
    snapshot of the run every generator has the value of its variable
    [generator_p] as [p], every storage unit the value of
    [storage_p_dispatch] minus that of [storage_p_store] as [p] and the
    value of [state_of_charge] as its state of charge, and every load its
    [p_set] as [p]. *)
Theorem extract_optimisation_results_writes (r : SolverResults) (s : sequence)
  (n n' : Network) :
  extract_optimisation_results r s n = (Ok tt, n') ->
  objective n' = Some (lower_bound r)
  /\ forall t, In t (items s) ->
    (forall g, In g (index (frames n Generator)) ->
       get_at n' Generator "p" t g = value r "generator_p" [g; t])
    /\ (forall u, In u (index (frames n StorageUnit)) ->
          get_at n' StorageUnit "p" t u
          = fsub (value r "storage_p_dispatch" [u; t]) (value r "storage_p_store" [u; t])
          /\ get_at n' StorageUnit "state_of_charge" t u
             = value r "state_of_charge" [u; t])
    /\ (forall l, In l (index (frames n Load)) ->
          get_at n' Load "p" t l = get_at n' Load "p_set" t l).
Proof.
  intros E. split; [exact (objective_extract_optimisation_results _ _ _ E)|].
  assert (P0 : p_set_kept n n) by (intros t l; reflexivity).
  assert (W : p_set_kept n n'
              /\ forall t, In t (items s) ->
                 forall c name, In name (index (frames n c)) ->
                 forall attr, written r n t c attr name n').
  { unfold extract_optimisation_results in E.
    apply abind_inv in E. destruct E as ([] & n0 & F0 & E).
    unfold modify in F0. injection F0 as K0.
    assert (R0 : rows_kept n n0) by (subst n0; apply rows_kept_set_objective).
    assert (S0 : p_set_kept n n0) by (subst n0; exact P0).
    clear K0.
    apply abind_inv in E. destruct E as ([] & n1 & Eloop & Etail).
    assert (ST : steady r n n1 n').
    { eapply leaves_at; [|exact Etail]. steady_frame r n. }
    match type of Eloop with
    | for_ ?xs ?body n0 = _ =>
        destruct (@for_establishes A string
                    (fun m => rows_kept n m /\ p_set_kept n m)
                    (fun t m => p_set_kept n m
                                /\ forall c name, In name (index (frames n c)) ->
                                   forall attr, written r n t c attr name m)
                    xs body) with (n := n0) (n' := n1) as [[_ P1] W1]
    end.
    - intros y m _ [Rm Pm]. split.
      + eapply frame_trans; [exact Rm|]. as_leaves. rows_frame.
      + match goal with
        | |- p_set_kept n (snd (?a m)) => assert (L : leaves (steady r n) a)
        end.
        { cbv beta. steady_frame r n. }
        exact (proj1 (L m Pm)).
    - intros x y m _ _ [Pm Wm].
      match goal with
      | |- p_set_kept n (snd (?a m)) /\ _ => assert (L : leaves (steady r n) a)
      end.
      { cbv beta. steady_frame r n. }
      destruct (L m Pm) as [Pm' K]. split; [exact Pm'|].
      intros c name Hin attr. apply K. now apply Wm.
    - intros x m m' _ [Rm Pm] Hb.
      apply abind_get_inv in Hb.
      apply abind_inv in Hb. destruct Hb as ([] & k1 & F1 & Hb).
      apply abind_inv in Hb. destruct Hb as ([] & k2 & F2 & Hb).
      apply abind_inv in Hb. destruct Hb as ([] & k3 & F3 & Hb).
      apply for_objs_returns in F1, F2, F3.
      destruct F1 as [F1 _]. destruct F2 as [F2 _]. destruct F3 as [F3 _].
      unfold index in F1, F2, F3. rewrite (Rm Generator) in F1.
      rewrite (Rm StorageUnit) in F2. rewrite (Rm Load) in F3.
      assert (S12 : steady r n k1 k2)
        by (eapply leaves_at; [|exact F2]; steady_frame r n).
      assert (S23 : steady r n k2 k3)
        by (eapply leaves_at; [|exact F3]; steady_frame r n).
      assert (S3' : steady r n k3 m')
        by (eapply leaves_at; [|exact Hb]; steady_frame r n).
      match type of F1 with
      | for_ ?xs ?body _ = _ =>
          destruct (@loop_writes r n Generator x xs body m k1) as [P1 G1]
      end;
        [ intro y; steady_frame r n | | exact Pm | exact F1 | ].
      { intros y k k' _ Hk attr. unfold modify in Hk. injection Hk as <-.
        destruct (String.eqb attr "p") eqn:Ea.
        - apply String.eqb_eq in Ea. subst attr. now apply written_set_at.
        - apply written_none. unfold target. now rewrite Ea. }
      match type of F2 with
      | for_ ?xs ?body _ = _ =>
          destruct (@loop_writes r n StorageUnit x xs body k1 k2) as [P2 G2]
      end;
        [ intro y; steady_frame r n | | exact P1 | exact F2 | ].
      { intros y k k' _ Hk attr. unfold abind, modify in Hk. injection Hk as <-.
        intros v Hv. unfold target in Hv. rewrite !get_at_set_at.
        rewrite class_eqb_refl, !String.eqb_refl. cbn [andb].
        destruct (String.eqb attr "p") eqn:Ea.
        - apply String.eqb_eq in Ea. subst attr. cbn. congruence.
        - destruct (String.eqb attr "state_of_charge") eqn:Eb; [|discriminate].
          cbn. congruence. }
      match type of F3 with
      | for_ ?xs ?body _ = _ =>
          destruct (@loop_writes r n Load x xs body k2 k3) as [P3 G3]
      end;
        [ intro y; steady_frame r n | | exact P2 | exact F3 | ].
      { intros y k k' Pk Hk attr. apply abind_get_inv in Hk.
        unfold modify in Hk. injection Hk as <-.
        destruct (String.eqb attr "p") eqn:Ea.
        - apply String.eqb_eq in Ea. subst attr. apply written_set_at.
          cbn. now rewrite Pk.
        - apply written_none. unfold target. now rewrite Ea. }
      destruct (S3' P3) as [P' K3]. destruct (S23 P2) as [_ K2].
      destruct (S12 P1) as [_ K1].
      split; [exact P'|]. intros c name Hin attr.
      destruct c; try (apply written_none; reflexivity);
        first [ apply K3, K2, K1, G1; exact Hin
              | apply K3, K2, G2; exact Hin
              | apply K3, G3; exact Hin ].
    - now split.
    - exact Eloop.
    - destruct (ST P1) as [P' K]. split; [exact P'|].
      intros t Ht c name Hin attr. apply K. now apply (proj2 (W1 t Ht)). }
  destruct W as [P' W]. intros t Ht. split; [|split].
  - intros g Hg. apply (W t Ht Generator g Hg "p"). reflexivity.
  - intros u Hu. split.
    + apply (W t Ht StorageUnit u Hu "p"). reflexivity.
    + apply (W t Ht StorageUnit u Hu "state_of_charge"). reflexivity.
  - intros l Hl. rewrite (P' t l). apply (W t Ht Load l Hl "p"). reflexivity.
Qed.
End WrittenCalls.

Lemma extract_optimisation_results_writes_witness :
  get_at (exec (@extract_optimisation_results R_arith exact
                  (@zero_solver R_arith "glpk" []) one_snapshot) solved)
         Generator "p" "now" "gen"
  = value (@zero_solver R_arith "glpk" []) "generator_p" ["gen"; "now"].
Proof.
  assert (E : @extract_optimisation_results R_arith exact
                (@zero_solver R_arith "glpk" []) one_snapshot solved
              = (Ok tt, exec (@extract_optimisation_results R_arith exact
                                (@zero_solver R_arith "glpk" []) one_snapshot) solved)).
  { unfold exec.
    assert (F : fst (@extract_optimisation_results R_arith exact
                       (@zero_solver R_arith "glpk" []) one_snapshot solved) = Ok tt)
      by (vm_compute; reflexivity).
    destruct (@extract_optimisation_results R_arith exact
                (@zero_solver R_arith "glpk" []) one_snapshot solved) as [res m].
    cbn [fst snd] in *. now subst res. }
  destruct (@extract_optimisation_results_writes R_arith exact _ _ _ _ E) as [_ W].
  destruct (W "now") as (G & _ & _); [now left|].
  apply G. vm_compute. left. reflexivity.
Defined.

(** ** Snapshots that are neither a list nor a pandas Index *)

Ltac still D :=
  first [ exact D
        | apply declares_set_model_other; [discriminate | still D] ].

Section OtherSnapshots.
Context {A : Arith} {X : Externals}.

(** With snapshots in a container that is neither a list nor a pandas
    Index, [soc_constraint] never binds [i]: as soon as the network has a
    storage unit and the container a snapshot,
    [define_storage_variables_constraints] raises NameError at the rule of
    [state_of_charge_constraint].  The variables and the constraints before
    it are in the model by then, and so is [state_of_charge_constraint]
    itself, which is put there before its rule runs; the constraint that
    would follow, [state_of_charge_constraint_fixed], is not added. *)
Theorem define_storage_variables_constraints_other_container
  (snapshots : sequence) (n : Network) (su0 t0 : string) :
  seq_type snapshots = OtherSequence ->
  In su0 (index (frames n StorageUnit)) ->
  In t0 (items snapshots) ->
  let n' := exec (define_storage_variables_constraints snapshots) n in
  fst (define_storage_variables_constraints snapshots n) = Raise (NameError "i")
  /\ (exists c, assoc "state_of_charge_upper" (model n') = Some c)
  /\ (exists c, assoc "state_of_charge_constraint" (model n') = Some c)
  /\ assoc "state_of_charge_constraint_fixed" (model n')
     = assoc "state_of_charge_constraint_fixed" (model n).
Proof.
  intros Hty Hsu0 Ht0 n'. subst n'. unfold exec.
  destruct (define_storage_variables_constraints snapshots n) as [r nf] eqn:E.
  unfold define_storage_variables_constraints in E.
  unfold abind at 1, get at 1 in E.
  fold (all_pairs n snapshots) in E.
  set (all := all_pairs n snapshots) in *.
  set (ext := map fst (extendable "p_nom_extendable" (rows (frames n StorageUnit)))) in *.
  (* storage_p_dispatch *)
  destruct (@Var_ok _ _ "storage_p_dispatch" key2 all NonNegativeReals
                    su_p_dispatch_bounds n) as (x1 & E1 & F1).
  { intros k _. unfold su_p_dispatch_bounds. destruct (bool_attr _ _ _ _); eauto. }
  rewrite (abind_ok _ E1) in E. set (n1 := set_model _ n) in *.
  assert (D1 : declares n1 "storage_p_dispatch" (map key2 all)).
  { apply declares_new. intros idx Hi. simpl. apply has_index_map. now rewrite F1. }
  (* storage_p_store *)
  destruct (@Var_ok _ _ "storage_p_store" key2 all NonNegativeReals
                    su_p_store_bounds n1) as (x2 & E2 & F2).
  { intros k _. unfold su_p_store_bounds. destruct (bool_attr _ _ _ _); eauto. }
  rewrite (abind_ok _ E2) in E. set (n2 := set_model _ n1) in *.
  assert (D2 : declares n2 "storage_p_store" (map key2 all)).
  { apply declares_new. intros idx Hi. simpl. apply has_index_map. now rewrite F2. }
  assert (D1' : declares n2 "storage_p_dispatch" (map key2 all)) by still D1.
  (* storage_p_nom *)
  destruct (@Var_ok _ _ "storage_p_nom" key1 ext NonNegativeReals
                    (p_nom_bounds StorageUnit) n2) as (x3 & E3 & F3).
  { intros k _. unfold p_nom_bounds. eauto. }
  rewrite (abind_ok _ E3) in E. set (n3 := set_model _ n2) in *.
  assert (D3 : declares n3 "storage_p_nom" (map key1 ext)).
  { apply declares_new. intros idx Hi. simpl. apply has_index_map. now rewrite F3. }
  assert (D2' : declares n3 "storage_p_store" (map key2 all)) by still D2.
  assert (D1'' : declares n3 "storage_p_dispatch" (map key2 all)) by still D1'.
  assert (Hext : forall su t, In (su, t) (list_prod ext (items snapshots)) ->
                   In [su; t] (map key2 all) /\ In [su] (map key1 ext)).
  { intros su t Hk. apply in_prod_iff in Hk. destruct Hk as [Hs Ht]. split.
    - apply (in_all_pairs n snapshots su t); [|exact Ht].
      apply (@extendable_index _ n StorageUnit su "p_nom_extendable"). exact Hs.
    - apply (in_map key1). exact Hs. }
  (* storage_p_upper *)
  destruct (@Constraint_ok _ _ "storage_p_upper" key2 (list_prod ext (items snapshots))
                           su_p_upper n3) as (x4 & E4 & _).
  { intros [su t] Hk. destruct (Hext su t Hk) as [H1 H2]. unfold su_p_upper.
    rewrite (ref_declared _ D1'' H1). cbn [bind].
    rewrite (ref_declared _ D3 H2). cbn [bind]. eauto. }
  rewrite (abind_ok _ E4) in E. set (n4 := set_model _ n3) in *.
  (* storage_p_lower *)
  destruct (@Constraint_ok _ _ "storage_p_lower" key2 (list_prod ext (items snapshots))
                           su_p_lower n4) as (x5 & E5 & _).
  { intros [su t] Hk. destruct (Hext su t Hk) as [H1 H2]. unfold su_p_lower.
    assert (D2_4 : declares n4 "storage_p_store" (map key2 all)) by still D2'.
    assert (D3_4 : declares n4 "storage_p_nom" (map key1 ext)) by still D3.
    rewrite (ref_declared _ D2_4 H1). cbn [bind].
    rewrite (ref_declared _ D3_4 H2). cbn [bind]. eauto. }
  rewrite (abind_ok _ E5) in E. set (n5 := set_model _ n4) in *.
  (* state_of_charge *)
  destruct (@Var_ok _ _ "state_of_charge" key2 all NonNegativeReals
                    (fun _ _ => Ok (Some (of_Z 0), None)) n5) as (x6 & E6 & F6).
  { intros k _. eauto. }
  rewrite (abind_ok _ E6) in E. set (n6 := set_model _ n5) in *.
  assert (D6 : declares n6 "state_of_charge" (map key2 all)).
  { apply declares_new. intros idx Hi. simpl. apply has_index_map. now rewrite F6. }
  assert (D3_6 : declares n6 "storage_p_nom" (map key1 ext)) by still D3.
  (* state_of_charge_upper *)
  destruct (@Constraint_ok _ _ "state_of_charge_upper" key2 all soc_upper n6)
    as (x7 & E7 & _).
  { intros [su t] Hk. unfold soc_upper.
    assert (Hin : In [su; t] (map key2 all)) by exact (in_map key2 _ _ Hk).
    rewrite (ref_declared _ D6 Hin). cbn [bind].
    destruct (bool_attr n6 StorageUnit su "p_nom_extendable") eqn:B; [|eauto].
    assert (Hin1 : In [su] (map key1 ext)).
    { apply (in_map key1). apply (@bool_attr_extendable _ n StorageUnit). exact B. }
    rewrite (ref_declared _ D3_6 Hin1). cbn [bind]. eauto. }
  rewrite (abind_ok _ E7) in E. set (n7 := set_model _ n6) in *.
  (* state_of_charge_constraint *)
  destruct (@each_raises _ _ key2 (soc_constraint snapshots n7) all)
    as ([su t] & e & _ & Hr & He).
  { exists (su0, t0). split; [apply in_prod; assumption|].
    unfold soc_constraint, snapshot_position. rewrite Hty. cbn [bind].
    eexists. reflexivity. }
  assert (e = NameError "i") as ->.
  { unfold soc_constraint, snapshot_position in Hr. rewrite Hty in Hr.
    cbn [bind] in Hr. now inversion Hr. }
  unfold abind at 1, Constraint at 1, abind at 1, get at 1 in E.
  rewrite He in E. unfold abind, declare, modify, raise in E.
  injection E as <- <-. cbn [fst snd]. split; [reflexivity|].
  subst n7 n6 n5 n4 n3 n2 n1. cbn [model set_model]. split; [|split].
  - eexists. rewrite assoc_set_other by discriminate. apply assoc_set_same.
  - eexists. apply assoc_set_same.
  - now rewrite !assoc_set_other by discriminate.
Qed.
End OtherSnapshots.

(** The snapshot of the example in a container of another kind. *)
Definition other_container : sequence := {| seq_type := OtherSequence; items := ["now"] |}.

Lemma define_storage_variables_constraints_other_container_witness :
  fst (@define_storage_variables_constraints float_arith other_container built)
  = Raise (NameError "i")
  /\ exists c,
       assoc "state_of_charge_constraint"
             (model (exec (@define_storage_variables_constraints float_arith
                             other_container) built)) = Some c.
Proof.
  destruct (@define_storage_variables_constraints_other_container float_arith
              other_container built "battery" "now") as (H1 & _ & H3 & _).
  - reflexivity.
  - vm_compute. left. reflexivity.
  - left. reflexivity.
  - split; [exact H1 | exact H3].
Defined.

(** ** Columns that no descriptor declares *)

Section Undeclared.
Context {A : Arith} {X : Externals}.

(** The column is ["obj"] or an attribute that the class declares. *)
Definition declared (c : component_class) (col : string) : bool :=
  String.eqb col "obj" || mem col (map fst (simple_descriptors c)).

(** The first column for which [Network.add] finds no descriptor. *)
Fixpoint first_undeclared (c : component_class) (cols : list string) : option string :=
  match cols with
  | [] => None
  | col :: rest => if declared c col then first_undeclared c rest else Some col
  end.

Lemma set_defaults_outcome (c : component_class) (name : string) (cols : list string) :
  forall df,
    match first_undeclared c cols with
    | Some col => fst (set_defaults c name cols df) = Raise (KeyError col)
    | None => fst (set_defaults c name cols df) = Ok tt
    end.
Proof.
  induction cols as [|col rest IH]; intro df; cbn [first_undeclared set_defaults].
  - reflexivity.
  - unfold declared. destruct (String.eqb col "obj"); cbn [orb]; [apply IH|].
    destruct (assoc col (simple_descriptors c)) as [d|] eqn:E.
    + destruct (mem col (map fst (simple_descriptors c))) eqn:M; [apply IH|].
      apply mem_assoc in M. congruence.
    + apply mem_assoc in E. rewrite E. reflexivity.
Qed.

Lemma first_undeclared_app (c : component_class) (l1 l2 : list string) :
  forallb (declared c) l1 = true ->
  first_undeclared c (l1 ++ l2) = first_undeclared c l2.
Proof.
  induction l1 as [|x l1 IH]; cbn; [reflexivity|].
  intro H. apply andb_prop in H. destruct H as [-> H]. now apply IH.
Qed.

Lemma add_column_app (col : string) (cs : list string) :
  exists s, add_column col cs = cs ++ s.
Proof.
  unfold add_column. destruct (mem col cs).
  - exists []. now rewrite app_nil_r.
  - now exists [col].
Qed.

(** [Network.add] of a fresh name raises KeyError for the first column of
    the table that no descriptor of the class declares. *)
Lemma add_undeclared_column (cls : component_class) (name col : string)
  (kwargs : list (string * pyval)) (n : Network) :
  ~ In name (index (frames n cls)) ->
  first_undeclared cls (columns (frames n cls)) = Some col ->
  fst (add (class_name cls) name kwargs n) = Raise (KeyError col).
Proof.
  intros Hfresh Hcol. rewrite add_cases.
  destruct (mem name (index (frames n cls))) eqn:M.
  { apply mem_In in M. contradiction. }
  cbv zeta.
  pose proof (set_defaults_outcome cls name
                (columns (set_loc (frames n cls) name "obj" (VObj cls name)))
                (set_loc (frames n cls) name "obj" (VObj cls name))) as O.
  assert (F : first_undeclared cls
                (columns (set_loc (frames n cls) name "obj" (VObj cls name)))
              = Some col).
  { unfold set_loc. cbn [columns].
    destruct (add_column_app "obj" (columns (frames n cls))) as [s ->].
    clear O. revert Hcol. induction (columns (frames n cls)) as [|x l IH]; cbn.
    - discriminate.
    - destruct (declared cls x); [exact IH | trivial]. }
  rewrite F in O. now rewrite O.
Qed.
End Undeclared.

Section AfterPerUnit.
Context {A : Arith} {X : Externals}.

Lemma first_undeclared_added (c : component_class) (col extra : string)
  (cs : list string) :
  first_undeclared c cs = Some col -> first_undeclared c (add_column extra cs) = Some col.
Proof.
  destruct (add_column_app extra cs) as [s ->].
  induction cs as [|x l IH]; cbn; [discriminate|].
  destruct (declared c x); [exact IH | trivial].
Qed.

Lemma columns_set_column (df : DataFrame) (col : string) f :
  columns (set_column df col f) = add_column col (columns df).
Proof. reflexivity. Qed.

Lemma without_v_nom (c : component_class) (cs : list string) :
  declared c "v_nom" = false ->
  forallb (fun col => declared c col || String.eqb col "v_nom") cs = true ->
  first_undeclared c
    (add_column "v_nom"
       (if mem "v_nom" cs then filter (fun k => negb (String.eqb "v_nom" k)) cs else cs))
  = Some "v_nom".
Proof.
  intros Hv H.
  set (cs1 := if mem "v_nom" cs then filter (fun k => negb (String.eqb "v_nom" k)) cs
              else cs).
  assert (M : mem "v_nom" cs1 = false).
  { subst cs1. destruct (mem "v_nom" cs) eqn:E; [|exact E].
    destruct (mem "v_nom" (filter _ cs)) eqn:F; [|reflexivity].
    apply mem_In in F. apply filter_In in F. destruct F as [_ F].
    now rewrite String.eqb_refl in F. }
  assert (D : forallb (declared c) cs1 = true).
  { apply forallb_forall. intros x Hx.
    assert (Hin : In x cs).
    { subst cs1. destruct (mem "v_nom" cs); [|exact Hx].
      apply filter_In in Hx. tauto. }
    rewrite forallb_forall in H. specialize (H x Hin).
    destruct (declared c x); [reflexivity|]. cbn in H.
    apply String.eqb_eq in H. subst x. apply mem_In in Hx. congruence. }
  unfold add_column. rewrite M. rewrite (@first_undeclared_app _ c cs1 _ D).
  cbn [first_undeclared]. now rewrite Hv.
Qed.

(** Once [calculate_dependent_values] has run, the tables of the lines
    and of the shunt impedances have a column [v_nom] that neither class
    declares: [Network.add] of a line or a shunt impedance with a fresh
    name then raises KeyError for [v_nom], when the other columns of the
    table are the declared ones. *)
Theorem add_after_calculate_dependent_values (cls : component_class) (name : string)
  (kwargs : list (string * pyval)) (n : Network) :
  cls = Line \/ cls = ShuntImpedance ->
  ~ In name (index (frames n cls)) ->
  forallb (fun col => declared cls col || String.eqb col "v_nom")
          (columns (frames n cls)) = true ->
  fst (add (class_name cls) name kwargs (calculate_dependent_values n))
  = Raise (KeyError "v_nom").
Proof.
  intros Hcls Hfresh Hcols. apply add_undeclared_column.
  - rewrite frames_cdv. cbv zeta.
    destruct Hcls as [-> | ->];
      rewrite ?index_set_column;
      destruct (mem "v_nom" (columns (frames n _)));
      rewrite ?index_drop_column; exact Hfresh.
  - rewrite frames_cdv. cbv zeta.
    destruct Hcls as [-> | ->]; rewrite !columns_set_column;
      [do 4 apply first_undeclared_added | do 2 apply first_undeclared_added].
    + pose proof (@without_v_nom Line (columns (frames n Line)) eq_refl Hcols) as W.
      destruct (mem "v_nom" (columns (frames n Line))); exact W.
    + pose proof (@without_v_nom ShuntImpedance (columns (frames n ShuntImpedance))
                    eq_refl Hcols) as W.
      destruct (mem "v_nom" (columns (frames n ShuntImpedance))); exact W.
Qed.
End AfterPerUnit.

Lemma add_after_calculate_dependent_values_witness :
  fst (@add float_arith failing "Line" "line34" [] (calculate_dependent_values built))
  = Raise (KeyError "v_nom").
Proof.
  apply (@add_after_calculate_dependent_values float_arith failing Line "line34" [] built).
  - left. reflexivity.
  - vm_compute. intuition discriminate.
  - vm_compute. reflexivity.
Defined.

(** ** The column that [find_bus_controls] adds to the buses *)

Section AfterBusControls.
Context {A : Arith} {X : Externals}.

(** The columns of the bus table are declared ones and ["generator"]. *)
Definition bus_columns (m : Network) : Prop :=
  forallb (fun col => declared Bus col || String.eqb col "generator")
          (columns (frames m Bus)) = true.

Definition bus_columns_kept (m m' : Network) : Prop := bus_columns m -> bus_columns m'.

#[export] Instance bus_columns_kept_frame : Frame bus_columns_kept.
Proof. split; unfold bus_columns_kept; auto. Qed.

Lemma bus_columns_set_attr (c : component_class) (name col : string) (v : pyval)
  (m : Network) :
  (c = Bus -> declared Bus col || String.eqb col "generator" = true) ->
  bus_columns_kept m (set_attr c name col v m).
Proof.
  intros H Hm. unfold bus_columns, set_attr.
  destruct (class_eq_dec c Bus) as [->|Hc].
  - rewrite frames_set_frame_same. unfold set_loc. cbn [columns].
    destruct (add_column_app col (columns (frames m Bus))) as [s E].
    unfold add_column in *. destruct (mem col (columns (frames m Bus))); [exact Hm|].
    rewrite forallb_app, Hm. cbn. now rewrite (H eq_refl).
  - rewrite frames_set_frame_other by congruence. exact Hm.
Qed.

Lemma bus_columns_update (name : string) f (m : Network) :
  bus_columns_kept m (update_sub_network name f m).
Proof. intro H. exact H. Qed.

Lemma first_undeclared_only (g : string) (cs : list string) :
  declared Bus g = false ->
  forallb (fun col => declared Bus col || String.eqb col g) cs = true ->
  In g cs -> first_undeclared Bus cs = Some g.
Proof.
  intros Hg. induction cs as [|x l IH]; cbn [forallb first_undeclared In];
    [contradiction|].
  intros H Hin. apply andb_prop in H. destruct H as [Hx H].
  destruct (declared Bus x) eqn:D.
  - apply IH; [exact H|]. destruct Hin as [->|Hin]; [congruence | exact Hin].
  - cbn in Hx. apply String.eqb_eq in Hx. now subst.
Qed.
End AfterBusControls.

Ltac columns_frame :=
  repeat first
    [ frame_step
    | lazymatch goal with
      | |- bus_columns_kept _ (set_attr _ _ _ _ _) =>
          apply bus_columns_set_attr; first [ reflexivity | discriminate ]
      | |- bus_columns_kept _ (update_sub_network _ _ _) => apply bus_columns_update
      end ].

Section AfterBusControlsCalls.
Context {A : Arith} {X : Externals}.

(** [find_bus_controls] writes the column [generator] of the bus table,
    which the class Bus does not declare: once it has returned,
    [Network.add] of a bus with a fresh name raises KeyError for
    [generator], when the other columns of the table are the declared
    ones. *)
Theorem add_bus_after_find_bus_controls (sn name : string)
  (kwargs : list (string * pyval)) (n n1 : Network) :
  find_bus_controls sn n = (Ok tt, n1) ->
  ~ In name (index (frames n1 Bus)) ->
  forallb (fun col => declared Bus col || String.eqb col "generator")
          (columns (frames n Bus)) = true ->
  fst (add "Bus" name kwargs n1) = Raise (KeyError "generator").
Proof.
  intros E Hfresh Hcols.
  assert (K : bus_columns n1).
  { assert (L : bus_columns_kept n n1).
    { eapply leaves_at; [|exact E]. unfold find_bus_controls, find_slack_bus.
      columns_frame. }
    now apply L. }
  assert (G : In "generator" (columns (frames n1 Bus))).
  { unfold find_bus_controls in E.
    apply abind_inv in E. destruct E as ([] & k1 & _ & E).
    apply abind_get_inv in E. cbv zeta in E.
    apply abind_inv in E. destruct E as ([] & k2 & _ & E).
    apply abind_inv in E. destruct E as ([] & k3 & _ & E).
    apply abind_inv in E. destruct E as ([] & k4 & _ & E).
    apply abind_get_inv in E.
    apply abind_inv in E. destruct E as ([] & k5 & _ & E).
    apply abind_inv in E. destruct E as ([] & k6 & F6 & E).
    apply abind_get_inv in E. unfold modify in E, F6.
    injection E as <-. injection F6 as <-.
    unfold update_sub_network, set_attr. cbn [frames set_sub_network_attrs].
    rewrite frames_set_frame_same. unfold set_loc. cbn [columns].
    unfold add_column. destruct (mem "generator" (columns (frames k5 Bus))) eqn:M.
    - now apply mem_In.
    - apply in_or_app. right. now left. }
  change "Bus" with (class_name Bus). apply add_undeclared_column; [exact Hfresh|].
  apply first_undeclared_only; [reflexivity | exact K | exact G].
Qed.
End AfterBusControlsCalls.

Lemma add_bus_after_find_bus_controls_witness :
  fst (@add float_arith failing "Bus" "bus5" []
         (exec (@find_bus_controls float_arith "0") connected))
  = Raise (KeyError "generator").
Proof.
  assert (E : @find_bus_controls float_arith "0" connected
              = (Ok tt, exec (@find_bus_controls float_arith "0") connected)).
  { unfold exec.
    assert (F : fst (@find_bus_controls float_arith "0" connected) = Ok tt)
      by (vm_compute; reflexivity).
    destruct (@find_bus_controls float_arith "0" connected) as [r m].
    cbn [fst snd] in *. now subst r. }
  apply (@add_bus_after_find_bus_controls float_arith failing "0" "bus5" [] connected _ E).
  - vm_compute. intuition discriminate.
  - vm_compute. reflexivity.
Defined.

(** ** Tables with declared columns only *)

Section AsBuilt.
Context {A : Arith} {X : Externals}.

(** Every column of every table is ["obj"] or a declared attribute, as
    [Network.build_dataframes] makes them. *)
Definition as_built (n : Network) : Prop :=
  forall c, forallb (declared c) (columns (frames n c)) = true.

Lemma forallb_add_column (c : component_class) (col : string) (cs : list string) :
  declared c col = true -> forallb (declared c) cs = true ->
  forallb (declared c) (add_column col cs) = true.
Proof.
  intros Hc H. unfold add_column. destruct (mem col cs); [exact H|].
  rewrite forallb_app, H. cbn. now rewrite Hc.
Qed.

Lemma first_undeclared_none (c : component_class) (cs : list string) :
  forallb (declared c) cs = true -> first_undeclared c cs = None.
Proof.
  induction cs as [|x l IH]; cbn; [reflexivity|].
  intro H. apply andb_prop in H. destruct H as [-> H]. now apply IH.
Qed.

Lemma declared_descriptor (c : component_class) (col : string) (d : descriptor) :
  assoc col (simple_descriptors c) = Some d -> declared c col = true.
Proof.
  intro H. unfold declared.
  destruct (mem col (map fst (simple_descriptors c))) eqn:M; [apply orb_true_r|].
  apply mem_assoc in M. congruence.
Qed.

Lemma columns_set_defaults (c : component_class) (name : string) (cols : list string) :
  forall df,
    forallb (declared c) (columns df) = true ->
    forallb (declared c) (columns (snd (set_defaults c name cols df))) = true.
Proof.
  induction cols as [|col rest IH]; intros df H; cbn [set_defaults].
  - exact H.
  - destruct (String.eqb col "obj"); [now apply IH|].
    destruct (assoc col (simple_descriptors c)) as [d|] eqn:D; [|exact H].
    apply IH. unfold set_loc. cbn [columns].
    apply forallb_add_column; [|exact H]. now apply (declared_descriptor c col D).
Qed.

Lemma columns_set_series_defaults (c : component_class) (name : string) (df : DataFrame) :
  columns (set_series_defaults c name df) = columns df.
Proof.
  unfold set_series_defaults. generalize (series_descriptors c). intro l. revert df.
  induction l as [|kv l IH]; intro df; cbn [fold_left]; [reflexivity|].
  now rewrite IH.
Qed.

Lemma as_built_set_frame (c : component_class) (df : DataFrame) (n : Network) :
  forallb (declared c) (columns df) = true -> as_built n -> as_built (set_frame c df n).
Proof.
  intros H Hn k. destruct (class_eq_dec k c) as [->|Hk].
  - now rewrite frames_set_frame_same.
  - rewrite frames_set_frame_other by exact Hk. apply Hn.
Qed.

Lemma as_built_setattr (c : component_class) (name key : string) (v : pyval)
  (n : Network) : as_built n -> as_built (setattr c name key v n).
Proof.
  intro Hn. unfold setattr.
  destruct (mem key (map fst (simple_descriptors c))) eqn:M.
  - unfold set_attr. apply as_built_set_frame; [|exact Hn].
    unfold set_loc. cbn [columns]. apply forallb_add_column; [|apply Hn].
    unfold declared. rewrite M. apply orb_true_r.
  - destruct (mem key (map fst (series_descriptors c))); [|exact Hn].
    apply as_built_set_frame; [|exact Hn]. apply Hn.
Qed.

(** On a network whose tables have declared columns only, as [Network()]
    builds them, [Network.add] of an object of a class that has a table
    never raises: it returns an object or nothing, and the tables of the
    network it leaves have declared columns only, so that neither does the
    next such [add]. *)
Theorem add_returns_on_declared_columns (cls : component_class) (name : string)
  (kwargs : list (string * pyval)) (n : Network) :
  as_built n ->
  exists o n', add (class_name cls) name kwargs n = (Ok o, n') /\ as_built n'.
Proof.
  intro Hn. rewrite add_cases.
  destruct (mem name (index (frames n cls))); [now exists None, n|].
  cbv zeta.
  set (df1 := set_loc (frames n cls) name "obj" (VObj cls name)).
  assert (C1 : forallb (declared cls) (columns df1) = true).
  { unfold df1, set_loc. cbn [columns]. apply forallb_add_column; [reflexivity | apply Hn]. }
  pose proof (set_defaults_outcome cls name (columns df1) df1) as O.
  rewrite (first_undeclared_none _ _ C1) in O. rewrite O.
  set (df2 := snd (set_defaults cls name (columns df1) df1)).
  eexists. eexists. split; [reflexivity|].
  assert (C2 : forallb (declared cls) (columns df2) = true)
    by exact (columns_set_defaults _ _ _ _ C1).
  assert (B0 : as_built (set_frame cls (set_series_defaults cls name df2)
                           (set_frame cls df2 (new_object cls name n)))).
  { apply as_built_set_frame.
    - now rewrite columns_set_series_defaults.
    - apply as_built_set_frame; [exact C2|].
      intro k. rewrite frames_new_object. apply Hn. }
  revert B0. generalize (set_frame cls (set_series_defaults cls name df2)
                           (set_frame cls df2 (new_object cls name n))).
  induction kwargs as [|kv l IH]; intros m Hm; cbn [fold_left]; [exact Hm|].
  apply IH. now apply as_built_setattr.
Qed.
End AsBuilt.

Lemma add_returns_on_declared_columns_witness :
  exists o n',
    @add float_arith failing "Generator" "gen" [("p_nom", VFloat (of_Z 3))] Network_init
    = (Ok o, n')
    /\ as_built n'.
Proof.
  apply (@add_returns_on_declared_columns float_arith failing Generator "gen"
           [("p_nom", VFloat (of_Z 3))] Network_init).
  intro c. destruct c; vm_compute; reflexivity.
Defined.

(** ** The reference angle of the linear power flow *)

Section Entries.
Context {A : Arith}.

(** One per-snapshot table of one class is the same in both networks. *)
Definition entries_kept (c : component_class) (attr : string) (n n' : Network) : Prop :=
  forall t b, get_at n' c attr t b = get_at n c attr t b.

#[export] Instance entries_kept_frame (c : component_class) (attr : string) :
  Frame (entries_kept c attr).
Proof.
  split; unfold entries_kept.
  - reflexivity.
  - intros x y z H1 H2 t b. now rewrite H2, H1.
Qed.

Lemma entries_kept_set_at (c : component_class) (attr : string) (c' : component_class)
  (attr' t name : string) (v : num) (n : Network) :
  class_eqb c c' && String.eqb attr attr' = false ->
  entries_kept c attr n (set_at c' attr' t name v n).
Proof.
  intros H t' b. rewrite get_at_set_at.
  destruct (class_eqb c c'); [|reflexivity].
  cbn [andb] in H |- *. now rewrite H.
Qed.

Lemma entries_kept_increase (c : component_class) (attr : string) (c' : component_class)
  (attr' t name : string) (v : num) (n : Network) :
  class_eqb c c' && String.eqb attr attr' = false ->
  entries_kept c attr n (increase c' attr' t name v n).
Proof. apply entries_kept_set_at. Qed.

(** Assignments to other names leave the entry of a name alone. *)
Lemma fold_set_at_other (c : component_class) (attr t x : string)
  (l : list (string * num)) :
  ~ In x (map fst l) ->
  forall m, get_at (fold_left (fun m nv => set_at c attr t (fst nv) (snd nv) m) l m)
                   c attr t x
            = get_at m c attr t x.
Proof.
  induction l as [|[y v] l IH]; intros Hx m; cbn [fold_left]; [reflexivity|].
  rewrite IH by (intro H; apply Hx; now right).
  rewrite get_at_set_at. cbn [fst snd].
  destruct (String.eqb x y) eqn:E.
  - apply String.eqb_eq in E. subst. exfalso. apply Hx. now left.
  - now rewrite !andb_false_r.
Qed.
End Entries.

Ltac entries_frame :=
  repeat first
    [ frame_step
    | progress unfold assign, dispatch_as_set
    | lazymatch goal with
      | |- entries_kept _ _ _ (set_at _ _ _ _ _ _) =>
          apply entries_kept_set_at; reflexivity
      | |- entries_kept _ _ _ (increase _ _ _ _ _ _) =>
          apply entries_kept_increase; reflexivity
      end ].

Section ReferenceAngle.
Context {A : Arith} {X : Externals}.

(** When [sub_network_lpf] returns on an AC sub-network, the voltage angle
    of the slack bus at the snapshot of the run is zero. *)
Theorem sub_network_lpf_reference_angle (sn : string) (given : option string)
  (n n' : Network) :
  sub_network_lpf sn given n = (Ok tt, n') ->
  current_type n' sn = "AC" ->
  get_at n' Bus "v_ang" (or_now given n) (slack_bus n' sn) = of_Z 0.
Proof.
  intros E HAC. set (t := or_now given n). unfold sub_network_lpf in E.
  apply abind_get_inv in E. cbv zeta in E. fold t in E.
  apply abind_inv in E. destruct E as (_ & k1 & _ & E).
  apply abind_inv in E. destruct E as ([] & k2 & F & E).
  destruct (find_bus_controls_order _ _ F) as (others & O1 & O2). clear F.
  apply abind_get_inv in E.
  apply (abind_inv_leaves (R := layout_kept sn)) in E;
    [|apply leaves_when; apply layout_kept_calculate_B_H].
  destruct E as (_ & k3 & L3 & E).
  apply abind_get_inv in E.
  apply (abind_inv_leaves (R := layout_kept sn)) in E; [|layout_frame].
  destruct E as (_ & k4 & L4 & E).
  apply abind_get_inv in E.
  apply (abind_inv_leaves (R := layout_kept sn)) in E; [|layout_frame].
  destruct E as (_ & k5 & L5 & E).
  apply abind_get_inv in E.
  apply abind_inv in E. destruct E as (v_diff & k6 & F6 & E).
  assert (L6 : layout_kept sn k5 k6).
  { eapply leaves_at; [|exact F6]. layout_frame. }
  assert (B3 : map fst (buses_o (sub_network_attrs k3 sn)) = slack_bus k2 sn :: others).
  { destruct L3 as [L3 _]. now rewrite L3. }
  assert (V : exists rest, v_diff = of_Z 0 :: rest).
  { assert (N : exists k, List.length (buses_o (sub_network_attrs k3 sn)) = S k).
    { rewrite <- (length_map fst), B3. now exists (List.length others). }
    destruct N as [k N]. rewrite N in F6. cbn [repeat hd] in F6.
    destruct (nonempty (sn_branches k3 sn)).
    - apply abind_inv in F6. destruct F6 as ([] & ? & _ & F6).
      apply abind_inv in F6. destruct F6 as ([] & ? & _ & F6).
      apply abind_inv in F6. destruct F6 as ([] & ? & _ & F6).
      apply abind_inv in F6. destruct F6 as ([] & ? & _ & F6).
      unfold ret in F6. injection F6 as <- _. eexists. reflexivity.
    - unfold ret in F6. injection F6 as <- _. eexists. reflexivity. }
  destruct V as [rest ->]. clear F6.
  apply abind_inv in E. destruct E as ([] & k7 & F7 & E).
  unfold modify in F7. injection F7 as K7.
  assert (L7 : layout_kept sn k6 k7)
    by (subst k7; apply layout_kept_set_at; discriminate).
  assert (L7' : layout_kept sn k7 n').
  { eapply leaves_at; [|exact E]. layout_frame. }
  pose proof (frame_trans _ _ _ L3 (frame_trans _ _ _ L4 L5)) as L25.
  pose proof (frame_trans _ _ _ L6 (frame_trans _ _ _ L7 L7')) as L5'.
  assert (S' : slack_bus n' sn = slack_bus k2 sn)
    by exact (layout_kept_slack_bus (frame_trans _ _ _ L25 L5')).
  assert (T5 : current_type k5 sn = "AC").
  { rewrite <- HAC. destruct L5' as [_ L]. unfold current_type, get_attr. now rewrite L. }
  rewrite T5 in E. cbn [String.eqb Ascii.eqb Bool.eqb] in E. rewrite B3 in E.
  apply abind_inv in E. destruct E as ([] & k8 & F8 & E).
  assert (K8 : entries_kept Bus "v_ang" k8 n').
  { eapply leaves_at; [|exact E]. entries_frame. }
  rewrite S', (K8 t (slack_bus k2 sn)).
  unfold assign in F8. rewrite for_modify in F8. injection F8 as <-.
  cbn [combine fold_left fst snd].
  rewrite fold_set_at_other.
  - rewrite get_at_set_at, class_eqb_refl, !String.eqb_refl. reflexivity.
  - intro H. apply O2. apply in_map_iff in H. destruct H as ([y v] & <- & H).
    apply in_combine_l in H. exact H.
Qed.
End ReferenceAngle.

Lemma sub_network_lpf_reference_angle_witness :
  get_at after_lpf Bus "v_ang" (or_now None prepared) (slack_bus after_lpf "0")
  = @of_Z float_arith 0.
Proof.
  assert (E : @sub_network_lpf float_arith failing "0" None prepared = (Ok tt, after_lpf)).
  { unfold after_lpf, exec.
    assert (F : fst (@sub_network_lpf float_arith failing "0" None prepared) = Ok tt)
      by (vm_compute; reflexivity).
    destruct (@sub_network_lpf float_arith failing "0" None prepared) as [r m].
    cbn [fst snd] in *. now subst r. }
  apply (@sub_network_lpf_reference_angle float_arith failing "0" None prepared
           after_lpf E).
  vm_compute. reflexivity.
Defined.

(** ** The set-points of the controllable branches *)

Section SetPoints.
Context {A : Arith} {X : Externals} {C : ComplexOps A}.

(** A converter or a transport link carries its set-point at the
    snapshot: [p0 = p_set] and [p1 = -p_set]. *)
Definition as_set (n : Network) (t : string) : Prop :=
  forall c b, is_controllable c = true ->
    get_at n c "p0" t b = get_at n c "p_set" t b
    /\ get_at n c "p1" t b = fopp (get_at n c "p_set" t b).

Lemma as_set_follow_p_set (n : Network) (t : string) :
  as_set (follow_p_set TransportLink t (follow_p_set Converter t n)) t.
Proof.
  intros c b Hc. unfold follow_p_set, get_at.
  destruct c; try discriminate; simpl; rewrite String.eqb_refl; split; reflexivity.
Qed.

Lemma as_set_kept (n n' : Network) (t : string) :
  links_kept n n' -> as_set n t -> as_set n' t.
Proof.
  intros K L c b Hc. unfold get_at. rewrite (K c Hc). now apply L.
Qed.

Lemma prepare_as_set (given : option string) (n n1 : Network) (t : string) :
  prepare given n = (Ok t, n1) -> as_set n1 t.
Proof.
  unfold prepare. intro H.
  apply abind_get_inv in H.
  apply abind_inv in H. destruct H as (_ & m1 & _ & H).
  apply abind_get_inv in H.
  apply abind_inv in H. destruct H as (_ & m2 & _ & H).
  apply abind_get_inv in H. cbv zeta in H.
  unfold abind, modify, ret in H. inversion H; subst; clear H.
  apply as_set_follow_p_set.
Qed.

(** Once the opening lines of [network_lpf] or of [network_pf] have run
    (they return the snapshot [t] of the run), the network that the call
    leaves behind, whether it returns or raises, has on every converter and
    transport link the set-point as flow at [t]: [p0 = p_set] and
    [p1 = -p_set]. *)
Theorem power_flows_follow_set_points (given : option string) (n : Network)
  (t : string) :
  fst (prepare given n) = Ok t ->
  as_set (exec (network_lpf given) n) t /\ as_set (exec (network_pf given) n) t.
Proof.
  intro H. destruct (prepare given n) as [r n1] eqn:E. simpl in H. subst r.
  pose proof (prepare_as_set _ _ E) as L. split.
  - unfold exec, network_lpf, abind at 1. rewrite E.
    apply (as_set_kept (n := n1)); [|exact L].
    match goal with
    | |- links_kept n1 (snd (?a n1)) => apply (fun (K : leaves links_kept a) => K n1)
    end.
    frame_step; [frame_step|]. frame_step. apply links_kept_sub_network_lpf.
  - unfold exec, network_pf, abind at 1. rewrite E.
    apply (as_set_kept (n := n1)); [|exact L].
    match goal with
    | |- links_kept n1 (snd (?a n1)) => apply (fun (K : leaves links_kept a) => K n1)
    end.
    frame_step; [frame_step|]. frame_step. frame_step; [frame_step|].
    frame_step; [frame_step|]. apply links_kept_sub_network_pf.
Qed.
End SetPoints.

Lemma power_flows_follow_set_points_witness :
  get_at (exec (@network_lpf R_arith exact None) (@example_network R_arith exact))
         Converter "p0" "now" "link"
  = get_at (exec (@network_lpf R_arith exact None) (@example_network R_arith exact))
           Converter "p_set" "now" "link".
Proof.
  destruct (@power_flows_follow_set_points R_arith exact R_complex None
              (@example_network R_arith exact) "now") as [L _].
  { vm_compute. reflexivity. }
  exact (proj1 (L Converter "link" eq_refl)).
Defined.

(** ** The voltage of the slack bus in the non-linear power flow *)

Section SlackVoltage.
Context {A : Arith}.

(** The PV and PQ buses of a sub-network and the table of the
    sub-networks are the same in both networks. *)
Definition controls_kept (sn : string) (n n' : Network) : Prop :=
  pvpqs (sub_network_attrs n' sn) = pvpqs (sub_network_attrs n sn)
  /\ pqs (sub_network_attrs n' sn) = pqs (sub_network_attrs n sn)
  /\ frames n' SubNetwork = frames n SubNetwork.

#[export] Instance controls_kept_frame (sn : string) : Frame (controls_kept sn).
Proof.
  split; unfold controls_kept.
  - intro n. repeat split.
  - intros x y z (H1 & H2 & H3) (K1 & K2 & K3). repeat split; congruence.
Qed.

Lemma controls_kept_set_at (sn : string) (c : component_class) (attr t name : string)
  (v : num) (n : Network) :
  c <> SubNetwork -> controls_kept sn n (set_at c attr t name v n).
Proof.
  intro H. repeat split. unfold set_at. apply frames_set_frame_other. congruence.
Qed.

Lemma controls_kept_update (sn sn' : string) f (n : Network) :
  (forall a, pvpqs (f a) = pvpqs a /\ pqs (f a) = pqs a) ->
  controls_kept sn n (update_sub_network sn' f n).
Proof.
  intro H. unfold controls_kept, update_sub_network. cbn.
  destruct (String.eqb sn sn'); [|repeat split].
  destruct (H (sub_network_attrs n sn)) as [H1 H2]. repeat split; assumption.
Qed.

Lemma controls_kept_slack_bus (sn : string) (n n' : Network) :
  controls_kept sn n n' -> slack_bus n' sn = slack_bus n sn.
Proof. intros (_ & _ & H). unfold slack_bus, get_attr. now rewrite H. Qed.

Lemma entries_kept_quiet (c : component_class) (attr : string) (n n' : Network) :
  quiet n n' -> entries_kept c attr n n'.
Proof. intros Q t b. unfold get_at. now rewrite (quiet_series Q). Qed.

(** An assignment leaves the entries of the names it does not list. *)
Lemma assign_other (c : component_class) (attr t x : string) (names : list string)
  (values : list num) (m : Network) :
  ~ In x names ->
  assign c attr t names values m = (Ok tt, exec (assign c attr t names values) m)
  /\ get_at (exec (assign c attr t names values) m) c attr t x = get_at m c attr t x.
Proof.
  intro H. unfold assign, exec. rewrite for_modify. cbn [snd]. split; [reflexivity|].
  apply fold_set_at_other. intro Hin. apply H.
  apply in_map_iff in Hin. destruct Hin as ([y v] & <- & Hin).
  apply in_combine_l in Hin. exact Hin.
Qed.
End SlackVoltage.

Ltac controls_frame :=
  repeat first
    [ frame_step
    | progress unfold assign, dispatch_as_set, withdraw_controllable
    | lazymatch goal with
      | |- controls_kept _ _ (set_at _ _ _ _ _ _) =>
          apply controls_kept_set_at;
          first [ discriminate
                | match goal with
                  | H : In ?c _ |- ?c <> _ =>
                      let E := fresh in
                      intro E; rewrite E in H; simpl in H; intuition discriminate
                  end ]
      | |- controls_kept _ _ (decrease _ _ _ _ _ _) =>
          unfold decrease; apply controls_kept_set_at; discriminate
      | |- controls_kept _ _ (increase _ _ _ _ _ _) =>
          unfold increase; apply controls_kept_set_at; discriminate
      | |- controls_kept _ _ (update_sub_network _ _ _) =>
          apply controls_kept_update; intro; split; reflexivity
      end ].

Ltac bus_entries_frame :=
  repeat first
    [ frame_step
    | progress unfold assign, dispatch_as_set
    | lazymatch goal with
      | |- entries_kept _ _ _ (set_at _ _ _ _ _ _) =>
          apply entries_kept_set_at;
          first [ reflexivity | destruct (class_eqb _ _); reflexivity ]
      | |- entries_kept _ _ _ (increase _ _ _ _ _ _) =>
          apply entries_kept_increase; reflexivity
      end ].

Section SlackVoltageCalls.
Context {A : Arith} {X : Externals} {C : ComplexOps A}.

Lemma find_bus_controls_slack_apart (sn : string) (n n1 : Network) :
  find_bus_controls sn n = (Ok tt, n1) ->
  ~ In (slack_bus n1 sn) (map fst (pvpqs (sub_network_attrs n1 sn)))
  /\ ~ In (slack_bus n1 sn) (map fst (pqs (sub_network_attrs n1 sn))).
Proof.
  unfold find_bus_controls. intro H.
  apply abind_inv in H. destruct H as (_ & k1 & _ & H).
  apply abind_get_inv in H. cbv zeta in H.
  apply abind_inv in H. destruct H as (_ & k2 & _ & H).
  apply abind_inv in H. destruct H as (_ & k3 & _ & H).
  apply abind_inv in H. destruct H as (_ & k4 & _ & H).
  apply abind_get_inv in H. cbv zeta in H.
  unfold abind, modify, get in H. inversion H; subst; clear H.
  set (slack := slack_bus k4 sn).
  set (k5 := set_attr Bus slack "control" (VStr "Slack") k4).
  set (k6 := set_attr Bus slack "generator"
               (VStr (slack_generator (sub_network_attrs k4 sn))) k5).
  set (buses := sn_buses k6 sn).
  match goal with
  | |- ~ In (slack_bus ?m sn) _ /\ _ =>
      assert (S : slack_bus m sn = slack) by reflexivity
  end.
  rewrite S.
  unfold update_sub_network. cbn [sub_network_attrs set_sub_network_attrs].
  rewrite String.eqb_refl. cbn [pvpqs pqs set_bus_tables].
  assert (K : forall r, In (slack, r) buses -> row_get r "control" = VStr "Slack").
  { intros r Hr. unfold buses, sn_buses, select in Hr. apply filter_In in Hr.
    destruct Hr as [Hr _]. unfold k6, k5, set_attr in Hr.
    rewrite frames_set_frame_same in Hr.
    unfold set_frame in Hr. simpl in Hr.
    exact (control_after_set_loc _ _ _ _ _ Hr). }
  split.
  - rewrite map_app. intro Hin. apply in_app_or in Hin. destruct Hin as [Hin|Hin];
      revert Hin; apply select_not_control with (c' := "Slack");
      first [discriminate | exact K].
  - apply select_not_control with (c' := "Slack"); [discriminate | exact K].
Qed.

(** [write_guess] leaves the voltage of a bus that is neither among the PV
    and PQ buses nor among the PQ buses. *)
Lemma write_guess_apart (sn t : string) (guess : list num) (m : Network) (x : string) :
  ~ In x (map fst (pvpqs (sub_network_attrs m sn))) ->
  ~ In x (map fst (pqs (sub_network_attrs m sn))) ->
  controls_kept sn m (write_guess sn t guess m)
  /\ get_at (write_guess sn t guess m) Bus "v_ang" t x = get_at m Bus "v_ang" t x
  /\ get_at (write_guess sn t guess m) Bus "v_mag" t x = get_at m Bus "v_mag" t x
  /\ get_at (write_guess sn t guess m) Bus "v_mag_set" t x
     = get_at m Bus "v_mag_set" t x.
Proof.
  intros O1 O2. unfold write_guess. cbv zeta.
  set (ns1 := map fst (pvpqs (sub_network_attrs m sn))) in *.
  set (ns2 := map fst (pqs (sub_network_attrs m sn))) in *.
  set (vs1 := firstn _ guess). set (vs2 := skipn _ guess).
  assert (Q1 : leaves (entries_kept Bus "v_mag") (assign Bus "v_ang" t ns1 vs1))
    by bus_entries_frame.
  assert (Q2 : leaves (entries_kept Bus "v_ang") (assign Bus "v_mag" t ns2 vs2))
    by bus_entries_frame.
  assert (Q3 : leaves (entries_kept Bus "v_mag_set")
                 (abind (assign Bus "v_ang" t ns1 vs1)
                        (fun _ => assign Bus "v_mag" t ns2 vs2)))
    by bus_entries_frame.
  assert (Q4 : leaves (controls_kept sn)
                 (abind (assign Bus "v_ang" t ns1 vs1)
                        (fun _ => assign Bus "v_mag" t ns2 vs2)))
    by controls_frame.
  split; [exact (Q4 m)|]. split; [|split; [|exact (Q3 m t x)]].
  - destruct (assign_other Bus "v_ang" t x ns1 vs1 m O1) as [R1 W1].
    unfold exec, abind. rewrite R1.
    rewrite (Q2 (exec (assign Bus "v_ang" t ns1 vs1) m) t x). exact W1.
  - destruct (assign_other Bus "v_ang" t x ns1 vs1 m O1) as [R1 _].
    destruct (assign_other Bus "v_mag" t x ns2 vs2
                (exec (assign Bus "v_ang" t ns1 vs1) m) O2) as [_ W2].
    unfold exec at 1. unfold abind. rewrite R1.
    unfold exec at 1 in W2. rewrite W2. exact (Q1 m t x).
Qed.

(** When [sub_network_pf] returns, the slack bus of the sub-network has,
    at the snapshot of the run, the voltage angle zero and its set-point
    [v_mag_set] as voltage magnitude: the solution that the Newton-Raphson
    iteration writes concerns the PV and PQ buses only. *)
Theorem sub_network_pf_slack_voltage (sn : string) (given : option string)
  (n n' : Network) :
  sub_network_pf sn given n = (Ok tt, n') ->
  let t := or_now given n in
  get_at n' Bus "v_ang" t (slack_bus n' sn) = of_Z 0
  /\ get_at n' Bus "v_mag" t (slack_bus n' sn)
     = get_at n' Bus "v_mag_set" t (slack_bus n' sn).
Proof.
  intros E t. unfold sub_network_pf in E.
  apply abind_get_inv in E. cbv zeta in E. fold t in E.
  apply abind_inv in E. destruct E as (_ & k1 & _ & E).
  apply abind_inv in E. destruct E as ([] & k2 & F & E).
  destruct (find_bus_controls_slack_apart _ _ F) as (O1 & O2). clear F.
  apply abind_get_inv in E.
  apply (abind_inv_leaves (R := controls_kept sn)) in E;
    [|unfold calculate_Y; controls_frame].
  destruct E as (_ & k3 & L3 & E).
  apply abind_get_inv in E.
  apply (abind_inv_leaves (R := controls_kept sn)) in E; [|controls_frame].
  destruct E as (_ & k4 & L4 & E).
  apply abind_get_inv in E.
  apply (abind_inv_leaves (R := controls_kept sn)) in E; [|controls_frame].
  destruct E as (_ & k5 & L5 & E).
  apply abind_get_inv in E.
  apply (abind_inv_leaves (R := controls_kept sn)) in E; [|controls_frame].
  destruct E as (_ & k6 & L6 & E).
  apply abind_inv in E. destruct E as ([] & k7 & F7 & E).
  unfold dispatch_as_set in F7. apply abind_get_inv in F7.
  destruct (assign_function Bus "v_mag" t (get_at k6 Bus "v_mag_set" t)
              [slack_bus k5 sn] k6) as [R7 V7].
  rewrite R7 in F7. injection F7 as K7. clear R7. cbn [map] in V7. rewrite K7 in V7.
  apply abind_inv in E. destruct E as ([] & k8 & F8 & E).
  unfold modify in F8. injection F8 as K8.
  apply abind_get_inv in E.
  destruct (Y (sub_network_attrs k3 sn)) as [[[Ym Ym0] Ym1]|];
    [|unfold abind, modify, raise in E; discriminate E].
  destruct (newton_raphson_sparse _ _ _ _ _) as [[roots n_iter] diff].
  apply abind_inv in E. destruct E as ([] & k9 & F9 & E).
  unfold modify in F9. injection F9 as K9.
  assert (A' : entries_kept Bus "v_ang" k9 n')
    by (eapply leaves_at; [|exact E]; bus_entries_frame).
  assert (M' : entries_kept Bus "v_mag" k9 n')
    by (eapply leaves_at; [|exact E]; bus_entries_frame).
  assert (S' : entries_kept Bus "v_mag_set" k9 n')
    by (eapply leaves_at; [|exact E]; bus_entries_frame).
  assert (L' : controls_kept sn k9 n')
    by (eapply leaves_at; [|exact E]; controls_frame).
  clear E.
  assert (L68 : controls_kept sn k6 k8).
  { rewrite <- K8. eapply frame_trans; [|apply controls_kept_set_at; discriminate].
    rewrite <- K7.
    match goal with
    | |- controls_kept sn k6 (exec ?a k6) =>
        apply (fun (L : leaves (controls_kept sn) a) => L k6)
    end.
    controls_frame. }
  pose proof (frame_trans _ _ _ L3 (frame_trans _ _ _ L4 L5)) as L25.
  pose proof (frame_trans _ _ _ L25 (frame_trans _ _ _ L6 L68)) as L28.
  assert (S5 : slack_bus k5 sn = slack_bus k2 sn)
    by exact (controls_kept_slack_bus L25).
  rewrite S5 in *. set (slack := slack_bus k2 sn) in *.
  assert (G : controls_kept sn k8 k9
              /\ get_at k9 Bus "v_ang" t slack = get_at k8 Bus "v_ang" t slack
              /\ get_at k9 Bus "v_mag" t slack = get_at k8 Bus "v_mag" t slack
              /\ get_at k9 Bus "v_mag_set" t slack = get_at k8 Bus "v_mag_set" t slack).
  { rewrite <- K9. destruct L28 as (P1 & P2 & _).
    apply write_guess_apart; [now rewrite P1 | now rewrite P2]. }
  destruct G as (L89 & G1 & G2 & G3).
  assert (SL : slack_bus n' sn = slack).
  { rewrite (controls_kept_slack_bus (frame_trans _ _ _ L89 L')).
    exact (controls_kept_slack_bus L28). }
  rewrite SL, (A' t slack), (M' t slack), (S' t slack), G1, G2, G3. rewrite <- K8.
  rewrite !get_at_set_at. cbn [class_eqb class_eq_dec component_class_rec
    component_class_rect String.eqb Ascii.eqb Bool.eqb andb].
  rewrite !String.eqb_refl. cbn [andb]. split; [reflexivity|].
  rewrite !V7. cbn [class_eqb class_eq_dec component_class_rec component_class_rect
    String.eqb Ascii.eqb Bool.eqb andb mem existsb].
  now rewrite !String.eqb_refl.
Qed.
End SlackVoltageCalls.

(** The example network after the non-linear power flow of its first
    sub-network. *)
Definition after_pf : @Network float_arith :=
  exec (@sub_network_pf float_arith failing float_complex "0" None) connected.

Lemma sub_network_pf_slack_voltage_witness :
  slack_bus after_pf "0" = "bus0"
  /\ get_at after_pf Bus "v_ang" (or_now None connected) (slack_bus after_pf "0")
     = @of_Z float_arith 0.
Proof.
  assert (E : @sub_network_pf float_arith failing float_complex "0" None connected
              = (Ok tt, after_pf)).
  { unfold after_pf, exec.
    assert (F : fst (@sub_network_pf float_arith failing float_complex "0" None connected)
                = Ok tt) by (vm_compute; reflexivity).
    destruct (@sub_network_pf float_arith failing float_complex "0" None connected)
      as [r m].
    cbn [fst snd] in *. now subst r. }
  split; [vm_compute; reflexivity|].
  exact (proj1 (@sub_network_pf_slack_voltage float_arith failing float_complex "0" None
                  connected after_pf E)).
Defined.

(** ** What the non-linear power flow dispatches *)

Ltac entries_any :=
  repeat first
    [ frame_step
    | progress unfold assign, dispatch_as_set
    | lazymatch goal with
      | |- entries_kept _ _ _ (set_at _ _ _ _ _ _) =>
          apply entries_kept_set_at;
          first [ reflexivity | destruct (class_eqb _ _); reflexivity ]
      | |- entries_kept _ _ _ (increase _ _ _ _ _ _) =>
          apply entries_kept_increase; reflexivity
      end ].

Section DispatchPF.
Context {A : Arith} {X : Externals} {C : ComplexOps A}.

Lemma series_only_write_guess (sn t : string) (guess : list num) (m : Network) :
  series_only m (write_guess sn t guess m).
Proof.
  unfold write_guess, exec. cbv zeta. generalize (sub_network_attrs m sn). intro a0.
  match goal with
  | |- series_only m (snd (?a m)) => apply (fun (L : leaves series_only a) => L m)
  end.
  series_frame.
Qed.

(** When [sub_network_pf] returns, every load of the sub-network has, at
    the snapshot of the run, [p = p_set] and [q = q_set]; every shunt
    impedance of the sub-network has [p = g_pu] and [q = b_pu]; and every
    generator of the sub-network other than the slack generator has
    [p = p_set]. *)
Theorem sub_network_pf_dispatches_as_set (sn : string) (given : option string)
  (n n' : Network) :
  sub_network_pf sn given n = (Ok tt, n') ->
  let t := or_now given n in
  (forall l, In l (map fst (sn_one_ports n' Load sn)) ->
     get_at n' Load "p" t l = get_at n' Load "p_set" t l
     /\ get_at n' Load "q" t l = get_at n' Load "q_set" t l)
  /\ (forall s, In s (map fst (sn_one_ports n' ShuntImpedance sn)) ->
        get_at n' ShuntImpedance "p" t s
        = as_num (cell (frames n' ShuntImpedance) s "g_pu")
        /\ get_at n' ShuntImpedance "q" t s
           = as_num (cell (frames n' ShuntImpedance) s "b_pu"))
  /\ (forall g, In g (map fst (sn_generators n' sn)) ->
        g <> slack_generator (sub_network_attrs n' sn) ->
        get_at n' Generator "p" t g = get_at n' Generator "p_set" t g).
Proof.
  intros E t. unfold sub_network_pf in E.
  apply abind_get_inv in E. cbv zeta in E. fold t in E.
  apply abind_inv in E. destruct E as (_ & k1 & _ & E).
  apply abind_inv in E. destruct E as ([] & k2 & _ & E).
  apply abind_get_inv in E.
  apply abind_inv in E. destruct E as (_ & k3 & _ & E).
  apply abind_get_inv in E.
  apply (abind_inv_leaves (R := series_only)) in E; [|series_frame].
  destruct E as (_ & k4 & L4 & E).
  apply abind_get_inv in E.
  apply (abind_inv_leaves (R := series_only)) in E; [|series_frame].
  destruct E as (_ & k5 & L5 & E).
  apply abind_get_inv in E.
  apply (abind_inv_leaves (R := series_only)) in E; [|series_frame].
  destruct E as (_ & k6 & L6 & E).
  apply (abind_inv_leaves (R := series_only)) in E; [|series_frame].
  destruct E as (_ & k7 & L7 & E).
  apply (abind_inv_leaves (R := series_only)) in E; [|series_frame].
  destruct E as (_ & k8 & L8 & E).
  apply abind_get_inv in E.
  destruct (Y (sub_network_attrs k3 sn)) as [[[Ym Ym0] Ym1]|];
    [|unfold abind, modify, raise in E; discriminate E].
  destruct (newton_raphson_sparse _ _ _ _ _) as [[roots n_iter] diff].
  apply abind_inv in E. destruct E as ([] & k9 & F9 & E).
  unfold modify in F9. injection F9 as K9.
  assert (L9 : series_only k8 k9) by (rewrite <- K9; apply series_only_write_guess).
  apply abind_get_inv in E.
  apply (abind_inv_leaves (R := series_only)) in E; [|series_frame].
  destruct E as (_ & m0 & M0 & E).
  apply (abind_inv_leaves (R := series_only)) in E; [|series_frame].
  destruct E as (_ & m0' & M0' & E).
  apply (abind_inv_leaves (R := series_only)) in E; [|series_frame].
  destruct E as (_ & m0'' & M0'' & E).
  apply (abind_inv_leaves (R := series_only)) in E; [|series_frame].
  destruct E as (_ & m1 & M1 & E).
  assert (S31 : series_only k3 m1).
  { exact (frame_trans _ _ _ L4 (frame_trans _ _ _ L5 (frame_trans _ _ _ L6
             (frame_trans _ _ _ L7 (frame_trans _ _ _ L8 (frame_trans _ _ _ L9
                (frame_trans _ _ _ M0 (frame_trans _ _ _ M0'
                   (frame_trans _ _ _ M0'' M1))))))))). }
  assert (S91 : series_only k9 m1).
  { exact (frame_trans _ _ _ M0 (frame_trans _ _ _ M0' (frame_trans _ _ _ M0'' M1))). }
  assert (S1' : series_only m1 n').
  { eapply leaves_at; [|exact E]. series_frame. }
  assert (S9' : series_only k9 n') by exact (frame_trans _ _ _ S91 S1').
  assert (S3' : series_only k3 n') by exact (frame_trans _ _ _ S31 S1').
  clear L4 L5 L6 L7 L8 L9 M0 M0' M0'' M1 S31 S91 S1'.
  rewrite !(series_only_sn_one_ports _ _ S9').
  unfold sn_generators in *. rewrite !(series_only_sn_one_ports _ _ S9').
  (* the loads *)
  apply abind_inv in E. destruct E as ([] & m2 & F2 & E).
  unfold dispatch_as_set in F2. apply abind_get_inv in F2.
  destruct (assign_function Load "p" t (get_at m1 Load "p_set" t)
              (map fst (sn_one_ports k9 Load sn)) m1) as [R2 V2].
  rewrite R2 in F2. injection F2 as K2. clear R2. rewrite K2 in V2.
  apply abind_inv in E. destruct E as ([] & m3 & F3 & E).
  unfold dispatch_as_set in F3. apply abind_get_inv in F3.
  destruct (assign_function Load "q" t (get_at m2 Load "q_set" t)
              (map fst (sn_one_ports k9 Load sn)) m2) as [R3 V3].
  rewrite R3 in F3. injection F3 as K3. clear R3. rewrite K3 in V3.
  assert (T3 : table_kept Load m3 n').
  { eapply leaves_at; [|exact E]. one_table_frame. }
  (* the shunt impedances *)
  apply abind_inv in E. destruct E as ([] & m4 & F4 & E).
  rewrite <- (map_map fst (fun s => as_num (cell (frames k9 ShuntImpedance) s "g_pu")))
    in F4.
  destruct (assign_function ShuntImpedance "p" t
              (fun s => as_num (cell (frames k9 ShuntImpedance) s "g_pu"))
              (map fst (sn_one_ports k9 ShuntImpedance sn)) m3) as [R4 V4].
  rewrite R4 in F4. injection F4 as K4. clear R4. rewrite K4 in V4.
  apply abind_inv in E. destruct E as ([] & m5 & F5 & E).
  rewrite <- (map_map fst (fun s => as_num (cell (frames k9 ShuntImpedance) s "b_pu")))
    in F5.
  destruct (assign_function ShuntImpedance "q" t
              (fun s => as_num (cell (frames k9 ShuntImpedance) s "b_pu"))
              (map fst (sn_one_ports k9 ShuntImpedance sn)) m4) as [R5 V5].
  rewrite R5 in F5. injection F5 as K5. clear R5. rewrite K5 in V5.
  assert (T5 : table_kept ShuntImpedance m5 n').
  { eapply leaves_at; [|exact E]. one_table_frame. }
  (* the generators *)
  apply abind_inv in E. destruct E as ([] & m6 & F6 & E).
  unfold dispatch_as_set in F6. apply abind_get_inv in F6.
  destruct (assign_function Generator "p" t (get_at m5 Generator "p_set" t)
              (map fst (sn_one_ports k9 Generator sn)) m5) as [R6 V6].
  rewrite R6 in F6. injection F6 as K6. clear R6. rewrite K6 in V6.
  assert (PS : entries_kept Generator "p_set" m6 n').
  { eapply leaves_at; [|exact E]. entries_any. }
  apply abind_inv in E. destruct E as ([] & m7 & F7 & E).
  assert (P7 : entries_kept Generator "p" m6 m7).
  { eapply leaves_at; [|exact F7]. entries_any. }
  clear F7.
  destruct (negb (mem (slack_generator (sub_network_attrs k3 sn))
                      (index (frames k9 Generator))));
    [unfold raise in E; discriminate E|].
  apply abind_get_inv in E.
  apply abind_inv in E. destruct E as ([] & m8 & F8 & E).
  unfold modify in F8. injection F8 as K8.
  assert (P8 : entries_kept Generator "p" m8 n').
  { eapply leaves_at; [|exact E]. entries_any. }
  clear E.
  split; [|split].
  - intros l Hl. unfold get_at. rewrite T3.
    fold (get_at m3 Load "p" t l). fold (get_at m3 Load "p_set" t l).
    fold (get_at m3 Load "q" t l). fold (get_at m3 Load "q_set" t l).
    rewrite !V3, !V2. rewrite (mem_true _ _ Hl), (String.eqb_refl t).
    split; reflexivity.
  - intros s Hs. rewrite !(series_only_cell _ _ _ S9').
    unfold get_at. rewrite T5.
    fold (get_at m5 ShuntImpedance "p" t s). fold (get_at m5 ShuntImpedance "q" t s).
    rewrite !V5, !V4. rewrite (mem_true _ _ Hs), (String.eqb_refl t).
    split; reflexivity.
  - intros g Hg Hne. destruct S3' as [_ SA]. rewrite SA in Hne.
    rewrite (PS t g), (P8 t g). rewrite <- K8. unfold increase.
    rewrite get_at_set_at.
    destruct (String.eqb g (slack_generator (sub_network_attrs k3 sn))) eqn:Eg.
    + apply String.eqb_eq in Eg. contradiction.
    + rewrite !andb_false_r. rewrite (P7 t g), !V6.
      rewrite (mem_true _ _ Hg), (String.eqb_refl t). reflexivity.
Qed.
End DispatchPF.

Lemma sub_network_pf_dispatches_as_set_witness :
  get_at after_pf Load "p" (or_now None connected) "load2"
  = get_at after_pf Load "p_set" (or_now None connected) "load2"
  /\ get_at after_pf Load "q" (or_now None connected) "load2"
     = get_at after_pf Load "q_set" (or_now None connected) "load2".
Proof.
  assert (E : @sub_network_pf float_arith failing float_complex "0" None connected
              = (Ok tt, after_pf)).
  { unfold after_pf, exec.
    assert (F : fst (@sub_network_pf float_arith failing float_complex "0" None connected)
                = Ok tt) by (vm_compute; reflexivity).
    destruct (@sub_network_pf float_arith failing float_complex "0" None connected)
      as [r m].
    cbn [fst snd] in *. now subst r. }
  destruct (@sub_network_pf_dispatches_as_set float_arith failing float_complex "0" None
              connected after_pf E) as (L & _).
  apply L. vm_compute. right. left. reflexivity.
Defined.
